(** * PXP-201 UI console: a shallow embedding of its glue code

    The console (src/App.jsx, src/lib/format.js) is a form-driven harness
    around an external SDK.  This development embeds its own logic:
    the hex and base64url codecs of [format.js], the [parseWk1] helper, and
    the action handlers of the Encrypt, Decrypt, WK1 and Vectors panels,
    with the platform built-ins they rest on ([parseInt], [btoa], [atob])
    modelled from the ECMAScript and WHATWG definitions, and the SDK and
    [JSON.parse] taken as parameters.

    Conventions.
    - A JavaScript string is a [string]: a sequence of 8-bit code units
      (the Latin-1 range); code units above 255 are outside the embedding.
    - A [Uint8Array] is a [list byte].
    - A JavaScript number is the double nearest to an integer [Z] (the
      integer itself up to 2^53 in magnitude); fractions, NaN and negative
      zero are outside the embedding (a NaN produced by [parseInt] is
      [None]).
    - A [jsval] is a value that JSON text can carry.  A property read with
      a fixed name is an own property of such a value: none of the names
      the console reads is a member of a built-in prototype.  A read with
      a computed name, [map[rid]], also finds the members the value
      inherits; these are functions and prototype objects, held as
      [Builtin] in an [anyval].
    - An asynchronous handler is cut at its [await]s: what it does up to
      the first one, and what it does each time the awaited promise
      settles.  The function named after the handler runs these pieces
      back to back, with nothing else happening in between; the panels'
      machines interleave them with other events. *)

From Stdlib Require Import String Ascii List ZArith NArith Lia Bool.
From Stdlib.Strings Require Import Byte.
From Stdlib Require Import DecimalString DecimalNat DecimalZ Sorting.Sorted.
Import ListNotations.
Open Scope string_scope.
Set Warnings "-register-all".

(* ================================================================= *)
(** ** JavaScript values, errors and results *)

Inductive jsval : Type :=
| JUndefined
| JNull
| JBool (b : bool)
| JNum (z : Z)
| JStr (s : string)
| JArr (items : list jsval)
| JObj (fields : list (string * jsval)).

(** What a [throw] carries: an [Error] instance (with its [name] and
    [message]) or any other value. *)
Inductive thrown : Type :=
| ErrorObj (name message : string)
| ThrownValue (v : jsval).

Inductive result (A : Type) : Type :=
| Ok (a : A)
| Throw (e : thrown).
Arguments Ok {A} a.
Arguments Throw {A} e.

(** [new Error(msg)] *)
Definition Error (msg : string) : thrown := ErrorObj "Error" msg.
Definition TypeError (msg : string) : thrown := ErrorObj "TypeError" msg.

Definition bind {A B} (r : result A) (k : A -> result B) : result B :=
  match r with
  | Ok a => k a
  | Throw e => Throw e
  end.

Notation "x <- r ;; k" := (bind r (fun x => k))
  (at level 61, r at next level, right associativity).

Definition is_ok {A} (r : result A) : bool :=
  match r with Ok _ => true | Throw _ => false end.

(** All the values, or the first [Throw] in list order. *)
Fixpoint sequence_results {A} (l : list (result A)) : result (list A) :=
  match l with
  | [] => Ok []
  | r :: rs => x <- r ;; xs <- sequence_results rs ;; Ok (x :: xs)
  end.

(* ================================================================= *)
(** ** String helpers ([String.prototype]) *)

Definition startsWith (s p : string) : bool := String.prefix p s.

(** [s.slice(a, b)] for [0 <= a <= b]. *)
Definition slice (s : string) (a b : nat) : string := substring a (b - a) s.

(** [s.slice(a)] *)
Definition slice_from (s : string) (a : nat) : string :=
  substring a (String.length s - a) s.

Fixpoint repeat_char (c : ascii) (n : nat) : string :=
  match n with
  | O => ""
  | S n' => String c (repeat_char c n')
  end.

(** [s.padStart(n, c)] and [s.padEnd(n, c)] for a one-character filler. *)
Definition padStart (s : string) (n : nat) (c : ascii) : string :=
  repeat_char c (n - String.length s) ++ s.

Definition padEnd (s : string) (n : nat) (c : ascii) : string :=
  s ++ repeat_char c (n - String.length s).

Fixpoint map_chars (f : ascii -> ascii) (s : string) : string :=
  match s with
  | "" => ""
  | String c r => String (f c) (map_chars f r)
  end.

(** [s.replace(/c/g, d)] for single characters [c] and [d]. *)
Definition replaceAll (c d : ascii) (s : string) : string :=
  map_chars (fun x => if Ascii.eqb x c then d else x) s.

Fixpoint filter_chars (p : ascii -> bool) (s : string) : string :=
  match s with
  | "" => ""
  | String c r => if p c then String c (filter_chars p r) else filter_chars p r
  end.

Fixpoint forall_chars (p : ascii -> bool) (s : string) : bool :=
  match s with
  | "" => true
  | String c r => p c && forall_chars p r
  end.

(** [s.replace(/c+$/g, "")]: drop the trailing run of [c]. *)
Fixpoint strip_trailing (c : ascii) (s : string) : string :=
  match s with
  | "" => ""
  | String a r =>
      match strip_trailing c r with
      | "" => if Ascii.eqb a c then "" else String a ""
      | r' => String a r'
      end
  end.

(** [s.includes(p)] *)
Fixpoint includes (s p : string) : bool :=
  String.prefix p s ||
  match s with
  | "" => false
  | String _ r => includes r p
  end.

Definition concat_strings (l : list string) : string :=
  fold_right String.append "" l.

(* ================================================================= *)
(** ** Numbers in radix 16 ([Number.prototype.toString], [parseInt]) *)

Definition hex_digit_char (d : N) : ascii :=
  match String.get (N.to_nat d) "0123456789abcdef" with
  | Some c => c
  | None => "0"%char
  end.

Fixpoint toString16_aux (fuel : nat) (n : N) (acc : string) : string :=
  match fuel with
  | O => acc
  | S f =>
      let acc' := String (hex_digit_char (n mod 16)) acc in
      if (n / 16 =? 0)%N then acc' else toString16_aux f (n / 16)%N acc'
  end.

(** [n.toString(16)] for a non-negative integer: lower-case digits, no
    leading zero. *)
Definition toString16 (n : N) : string :=
  toString16_aux (S (N.to_nat (N.log2 n))) n "".

(** The value of a radix-16 digit, [None] for any other character. *)
Definition hex_value (c : ascii) : option Z :=
  let n := Z.of_N (N_of_ascii c) in
  if ((48 <=? n) && (n <=? 57))%Z then Some (n - 48)%Z
  else if ((97 <=? n) && (n <=? 102))%Z then Some (n - 87)%Z
  else if ((65 <=? n) && (n <=? 70))%Z then Some (n - 55)%Z
  else None.

Definition is_hex_digit (c : ascii) : bool :=
  match hex_value c with Some _ => true | None => false end.

(** ECMAScript [StrWhiteSpaceChar], within the 8-bit range: TAB, LF, VT,
    FF, CR, SP and NBSP. *)
Definition is_js_whitespace (c : ascii) : bool :=
  let n := N_of_ascii c in
  ((9 <=? n) && (n <=? 13) || (n =? 32) || (n =? 160))%N.

Fixpoint trim_start (s : string) : string :=
  match s with
  | String c r => if is_js_whitespace c then trim_start r else s
  | "" => ""
  end.

(** Value of the longest prefix of radix-16 digits, most significant
    first; [None] when that prefix is empty. *)
Fixpoint hex_prefix_value (s : string) (acc : option Z) : option Z :=
  match s with
  | String c r =>
      match hex_value c with
      | Some d =>
          hex_prefix_value r
            (Some (match acc with Some a => (16 * a + d)%Z | None => d end))
      | None => acc
      end
  | "" => acc
  end.

(** Modelled from the platform: [parseInt(s, 16)] as ECMAScript defines it
    (leading white space skipped, an optional sign, an optional [0x] or
    [0X], then the longest run of radix-16 digits).  [None] is NaN. *)
Definition parseInt16 (s : string) : option Z :=
  let s1 := trim_start s in
  let '(sign, s2) :=
    match s1 with
    | String "-" r => ((-1)%Z, r)
    | String "+" r => (1%Z, r)
    | _ => (1%Z, s1)
    end in
  let s3 :=
    match s2 with
    | String "0" (String "x" r) => r
    | String "0" (String "X" r) => r
    | _ => s2
    end in
  option_map (Z.mul sign) (hex_prefix_value s3 None).

(** Storing a number into a [Uint8Array] slot (ECMAScript [ToUint8]):
    NaN becomes 0, an integer is reduced modulo 256. *)
Definition ToUint8 (v : option Z) : byte :=
  match v with
  | None => x00
  | Some z =>
      match Byte.of_N (Z.to_N (z mod 256)) with
      | Some b => b
      | None => x00
      end
  end.

(* ================================================================= *)
(** ** src/lib/format.js: the hex codec *)

Definition byte_hex (b : byte) : string :=
  padStart (toString16 (Byte.to_N b)) 2 "0".

Definition u8ToHex (u8 : list byte) : string :=
  "0x" ++ concat_strings (map byte_hex u8).

Definition strip_0x (hex : string) : string :=
  if startsWith hex "0x" then slice_from hex 2 else hex.

Definition hexToU8 (hex : string) : result (list byte) :=
  let h := strip_0x hex in
  if negb (String.length h mod 2 =? 0)%nat then
    Throw (Error "Invalid hex length")
  else
    Ok (map (fun i => ToUint8 (parseInt16 (slice h (i * 2) (i * 2 + 2))))
            (seq 0 (String.length h / 2))).
(* ================================================================= *)
(** ** Base64 ([btoa], [atob]) *)

(** Six bits, most significant first. *)
Inductive sextet : Type := Sextet (b5 b4 b3 b2 b1 b0 : bool).

Definition sextet_index (s : sextet) : nat :=
  let 'Sextet b5 b4 b3 b2 b1 b0 := s in
  (Nat.b2n b5 * 32 + Nat.b2n b4 * 16 + Nat.b2n b3 * 8
   + Nat.b2n b2 * 4 + Nat.b2n b1 * 2 + Nat.b2n b0)%nat.

Definition base64_alphabet : string :=
  "ABCDEFGHIJKLMNOPQRSTUVWXYZabcdefghijklmnopqrstuvwxyz0123456789+/".

Definition sextet_char (s : sextet) : ascii :=
  match String.get (sextet_index s) base64_alphabet with
  | Some c => c
  | None => "A"%char
  end.

Definition all_sextets : list sextet :=
  let bits := [false; true] in
  flat_map (fun b5 => flat_map (fun b4 => flat_map (fun b3 =>
  flat_map (fun b2 => flat_map (fun b1 => map (fun b0 =>
    Sextet b5 b4 b3 b2 b1 b0) bits) bits) bits) bits) bits) bits.

(** The sextet a base64 character stands for, [None] outside the alphabet. *)
Definition char_sextet (c : ascii) : option sextet :=
  find (fun s => Ascii.eqb (sextet_char s) c) all_sextets.

Definition is_base64_char (c : ascii) : bool :=
  match char_sextet c with Some _ => true | None => false end.

(** Three bytes as four sextets, and back. *)
Definition split3 (a b c : ascii) : sextet * sextet * sextet * sextet :=
  let 'Ascii a0 a1 a2 a3 a4 a5 a6 a7 := a in
  let 'Ascii b0 b1 b2 b3 b4 b5 b6 b7 := b in
  let 'Ascii c0 c1 c2 c3 c4 c5 c6 c7 := c in
  (Sextet a7 a6 a5 a4 a3 a2, Sextet a1 a0 b7 b6 b5 b4,
   Sextet b3 b2 b1 b0 c7 c6, Sextet c5 c4 c3 c2 c1 c0).

Definition join4 (s1 s2 s3 s4 : sextet) : ascii * ascii * ascii :=
  let 'Sextet a7 a6 a5 a4 a3 a2 := s1 in
  let 'Sextet a1 a0 b7 b6 b5 b4 := s2 in
  let 'Sextet b3 b2 b1 b0 c7 c6 := s3 in
  let 'Sextet c5 c4 c3 c2 c1 c0 := s4 in
  (Ascii a0 a1 a2 a3 a4 a5 a6 a7, Ascii b0 b1 b2 b3 b4 b5 b6 b7,
   Ascii c0 c1 c2 c3 c4 c5 c6 c7).

Definition pad_char : ascii := "="%char.

(** Modelled from the platform: [btoa] (RFC 4648 section 4, with padding).
    Its InvalidCharacterError, raised for a code unit above 255, cannot
    arise on 8-bit code units. *)
Fixpoint btoa (bin : string) : string :=
  match bin with
  | "" => ""
  | String a "" =>
      let '(s1, s2, _, _) := split3 a zero zero in
      String (sextet_char s1) (String (sextet_char s2)
        (String pad_char (String pad_char "")))
  | String a (String b "") =>
      let '(s1, s2, s3, _) := split3 a b zero in
      String (sextet_char s1) (String (sextet_char s2)
        (String (sextet_char s3) (String pad_char "")))
  | String a (String b (String c r)) =>
      let '(s1, s2, s3, s4) := split3 a b c in
      String (sextet_char s1) (String (sextet_char s2)
        (String (sextet_char s3) (String (sextet_char s4) (btoa r))))
  end.

(** WHATWG "ASCII whitespace": TAB, LF, FF, CR and SPACE. *)
Definition is_ascii_whitespace (c : ascii) : bool :=
  let n := N_of_ascii c in
  ((n =? 9) || (n =? 10) || (n =? 12) || (n =? 13) || (n =? 32))%N.

(** Remove one or two trailing [=]. *)
Fixpoint strip_padding (s : string) : string :=
  match s with
  | "" => ""
  | String a r =>
      if Ascii.eqb a pad_char &&
         (String.eqb r "" || String.eqb r (String pad_char ""))
      then ""
      else String a (strip_padding r)
  end.

Fixpoint sextets_of (s : string) : option (list sextet) :=
  match s with
  | "" => Some []
  | String c r =>
      match char_sextet c, sextets_of r with
      | Some x, Some l => Some (x :: l)
      | _, _ => None
      end
  end.

(** 24 bits give three bytes; 18 trailing bits give two and 12 give one,
    the spare bits being dropped. *)
Fixpoint decode_sextets (l : list sextet) : string :=
  match l with
  | s1 :: s2 :: s3 :: s4 :: r =>
      let '(a, b, c) := join4 s1 s2 s3 s4 in
      String a (String b (String c (decode_sextets r)))
  | [s1; s2; s3] =>
      let '(a, b, _) := join4 s1 s2 s3 (Sextet false false false false false false) in
      String a (String b "")
  | [s1; s2] =>
      let z := Sextet false false false false false false in
      let '(a, _, _) := join4 s1 s2 z z in
      String a ""
  | _ => ""
  end.

Definition InvalidCharacterError : thrown :=
  ErrorObj "InvalidCharacterError"
           "The string to be decoded is not correctly encoded.".

(** Modelled from the platform: [atob] (WHATWG forgiving-base64 decode). *)
Definition atob (data : string) : result string :=
  let d1 := filter_chars (fun c => negb (is_ascii_whitespace c)) data in
  let d2 := if (String.length d1 mod 4 =? 0)%nat then strip_padding d1 else d1 in
  if (String.length d2 mod 4 =? 1)%nat then Throw InvalidCharacterError
  else
    match sextets_of d2 with
    | None => Throw InvalidCharacterError
    | Some l => Ok (decode_sextets l)
    end.
(* ================================================================= *)
(** ** src/lib/format.js: the base64url codec *)

Definition b64urlToU8 (s : string) : result (list byte) :=
  let b64 :=
    padEnd (replaceAll "_" "/" (replaceAll "-" "+" s))
           ((String.length s + 3) / 4 * 4) "=" in
  bin <- atob b64 ;;
  Ok (list_byte_of_string bin).

Definition u8ToB64url (u8 : list byte) : string :=
  let bin := string_of_list_byte u8 in
  let b64 := btoa bin in
  strip_trailing "=" (replaceAll "/" "_" (replaceAll "+" "-" b64)).

(* ================================================================= *)
(** ** Numbers as text ([Number::toString], radix 10) *)

(** The magnitude of the double nearest to a non-negative integer (round
    to nearest, ties to even); [2^1024] stands for Infinity. *)
Definition nearest_double (z : Z) : Z :=
  if (z <? 2 ^ 53)%Z then z
  else
    let sh := (Z.log2 z - 52)%Z in
    let q := Z.shiftr z sh in
    let r := (z - Z.shiftl q sh)%Z in
    let half := Z.shiftl 1 (sh - 1) in
    let m := if (half <? r)%Z || ((r =? half)%Z && Z.odd q)
             then (q + 1)%Z else q in
    let v := Z.shiftl m sh in
    if (2 ^ 1024 <=? v)%Z then (2 ^ 1024)%Z else v.

(** The double a [JNum] stands for. *)
Definition double_of (z : Z) : Z :=
  if (z <? 0)%Z then (- nearest_double (- z))%Z else nearest_double z.

Definition decimal (z : Z) : string := NilZero.string_of_int (Z.to_int z).

Definition digits_of (z : Z) : Z := Z.of_nat (String.length (decimal z)).

(** The numerals with [k] significant digits that denote the double [x]:
    of the two multiples of [10^(n-k)] around [x], those that round to
    it. *)
Definition candidates (x k : Z) : list Z :=
  let p := (10 ^ (digits_of x - k))%Z in
  let lo := (x / p * p)%Z in
  filter (fun v => (nearest_double v =? x)%Z) [lo; (lo + p)%Z].

(** The candidate closest to [x]; of two equally close, the even one. *)
Definition closest (x : Z) (c : list Z) : option Z :=
  match c with
  | [] => None
  | [v] => Some v
  | lo :: hi :: _ =>
      let p := (hi - lo)%Z in
      if (x - lo <? hi - x)%Z then Some lo
      else if (hi - x <? x - lo)%Z then Some hi
      else if Z.even (lo / p) then Some lo else Some hi
  end.

Fixpoint shortest_from (fuel : nat) (x k : Z) : Z :=
  match fuel with
  | O => x
  | S f =>
      match closest x (candidates x k) with
      | Some v => v
      | None => shortest_from f x (k + 1)%Z
      end
  end.

(** The numeral with the fewest significant digits that denotes the
    double [x] (17 digits always suffice). *)
Definition shortest (x : Z) : Z := shortest_from 17 x 1.

Fixpoint strip_zeros (fuel : nat) (v : Z) : Z :=
  match fuel with
  | O => v
  | S f => if (v mod 10 =? 0)%Z then strip_zeros f (v / 10)%Z else v
  end.

(** [String(x)] for a positive integer double [x]: all the digits up to
    21 of them, the exponent form beyond. *)
Definition positive_to_string (x : Z) : string :=
  if (x <? 2 ^ 53)%Z then decimal x
  else if (x =? 2 ^ 1024)%Z then "Infinity"
  else
    let v := shortest x in
    let n := digits_of v in
    if (n <=? 21)%Z then decimal v
    else
      let s := decimal (strip_zeros 400 v) in
      let e := "e+" ++ decimal (n - 1) in
      match s with
      | String d "" => String d e
      | String d r => String d ("." ++ r ++ e)
      | "" => e
      end.

Definition number_to_string (z : Z) : string :=
  if (z =? 0)%Z then "0"
  else if (z <? 0)%Z then "-" ++ positive_to_string (nearest_double (- z))
  else positive_to_string (nearest_double z).

(* ================================================================= *)
(** ** JavaScript operators on values *)

(** ToBoolean *)
Definition truthy (v : jsval) : bool :=
  match v with
  | JUndefined | JNull => false
  | JBool b => b
  | JNum z => negb (z =? 0)%Z
  | JStr s => negb (String.eqb s "")
  | JArr _ | JObj _ => true
  end.

Definition typeof (v : jsval) : string :=
  match v with
  | JUndefined => "undefined"
  | JBool _ => "boolean"
  | JNum _ => "number"
  | JStr _ => "string"
  | JNull | JArr _ | JObj _ => "object"
  end.

(** [a || b] *)
Definition js_or (a b : jsval) : jsval := if truthy a then a else b.

(** [a === b] for two values that are not one and the same object:
    primitives compare by value, and an object or an array equals no other
    value.  (Nodes of a parsed JSON tree are pairwise distinct objects,
    and distinct from those of any other parse.) *)
Definition strict_eq (a b : jsval) : bool :=
  match a, b with
  | JUndefined, JUndefined => true
  | JNull, JNull => true
  | JBool x, JBool y => Bool.eqb x y
  | JNum x, JNum y => (double_of x =? double_of y)%Z
  | JStr x, JStr y => String.eqb x y
  | _, _ => false
  end.

Definition is_reference (v : jsval) : bool :=
  match v with JArr _ | JObj _ => true | _ => false end.

(** [a === b] where [same] tells whether [a] and [b] were read from the
    same place, so that they are one object if they are objects. *)
Definition same_value (same : bool) (a b : jsval) : bool :=
  strict_eq a b || (same && is_reference a).

Fixpoint lookup (k : string) (fields : list (string * jsval)) : jsval :=
  match fields with
  | [] => JUndefined
  | (k', v) :: r => if String.eqb k' k then v else lookup k r
  end.

(** A property key that is a canonical array index. *)
Definition array_index (k : string) : option nat :=
  match NilZero.uint_of_string k with
  | Some u =>
      let n := Nat.of_uint u in
      if String.eqb (NilZero.string_of_uint (Nat.to_uint n)) k
      then Some n else None
  | None => None
  end.

Definition join_strings (sep : string) (l : list string) : string :=
  match l with
  | [] => ""
  | x :: r => fold_left (fun acc y => acc ++ sep ++ y) r x
  end.

Definition has_key (k : string) (fields : list (string * jsval)) : bool :=
  existsb (fun kv => String.eqb (fst kv) k) fields.

(** The TypeError of a failed conversion to a primitive (V8's wording). *)
Definition not_primitive : thrown :=
  TypeError "Cannot convert object to primitive value".

(** [String(v)].  An array is joined with commas, [null] and [undefined]
    elements giving nothing.  An object is converted by its [toString]
    and then its [valueOf]: an own member of either name is no function
    (JSON carries none) and is passed over, and [Object.prototype.valueOf]
    returns the object itself, which is no primitive; so the text is that
    of [Object.prototype.toString] when [toString] is not an own member,
    and there is none, a TypeError, when it is. *)
Fixpoint js_to_string (v : jsval) : result string :=
  match v with
  | JUndefined => Ok "undefined"
  | JNull => Ok "null"
  | JBool true => Ok "true"
  | JBool false => Ok "false"
  | JNum z => Ok (number_to_string z)
  | JStr s => Ok s
  | JArr items =>
      parts <- sequence_results
                 (map (fun x => match x with
                                | JUndefined | JNull => Ok ""
                                | _ => js_to_string x
                                end) items) ;;
      Ok (join_strings "," parts)
  | JObj fields =>
      if has_key "toString" fields then Throw not_primitive
      else Ok "[object Object]"
  end.

(** Reading own property [k] of a value that is neither [null] nor
    [undefined]. *)
Definition prop (v : jsval) (k : string) : jsval :=
  match v with
  | JObj fields => lookup k fields
  | JArr items =>
      if String.eqb k "length" then JNum (Z.of_nat (List.length items))
      else match array_index k with
           | Some i => nth i items JUndefined
           | None => JUndefined
           end
  | JStr s =>
      if String.eqb k "length" then JNum (Z.of_nat (String.length s))
      else match array_index k with
           | Some i => match String.get i s with
                       | Some c => JStr (String c "")
                       | None => JUndefined
                       end
           | None => JUndefined
           end
  | _ => JUndefined
  end.

Definition is_nullish (v : jsval) : bool :=
  match v with JUndefined | JNull => true | _ => false end.

Definition nullish_text (v : jsval) : string :=
  match v with JNull => "null" | _ => "undefined" end.

(** [v.k]: a TypeError on [null] and [undefined] (the message is the
    engine's; V8's wording is used). *)
Definition member (v : jsval) (k : string) : result jsval :=
  if is_nullish v then
    Throw (TypeError ("Cannot read properties of " ++ nullish_text v
                      ++ " (reading '" ++ k ++ "')"))
  else Ok (prop v k).

(** [v?.k] *)
Definition opt_member (v : jsval) (k : string) : jsval :=
  if is_nullish v then JUndefined else prop v k.

(** [String(e?.message || e)], the text every handler displays.  The
    conversion can itself throw. *)
Definition errText (e : thrown) : result string :=
  match e with
  | ErrorObj name message =>
      Ok (if negb (String.eqb message "") then message
          else (* Error.prototype.toString with an empty message *) name)
  | ThrownValue v => js_to_string (js_or (opt_member v "message") v)
  end.

(* ================================================================= *)
(** ** Reads with a computed name *)

(** What [map[key]] can yield: a value of the map, or a member the map
    inherits from a built-in prototype, named by the prototype and the
    key.  Such a member is a function or a prototype object. *)
Inductive anyval : Type :=
| Plain (v : jsval)
| Builtin (name : string).

Coercion Plain : jsval >-> anyval.

Definition truthy_any (a : anyval) : bool :=
  match a with
  | Plain v => truthy v
  | Builtin _ => true
  end.

(** [a || b] *)
Definition any_or (a b : anyval) : anyval := if truthy_any a then a else b.

(** The members of [Object.prototype] (ECMAScript, Annex B included). *)
Definition Object_prototype_keys : list string :=
  ["constructor"; "__defineGetter__"; "__defineSetter__"; "hasOwnProperty";
   "__lookupGetter__"; "__lookupSetter__"; "isPrototypeOf";
   "propertyIsEnumerable"; "toString"; "valueOf"; "__proto__";
   "toLocaleString"].

(** A value for which [v && typeof v === "object"] holds: an object or an
    array. *)
Inductive object_like : Type :=
| Fields (fields : list (string * jsval))
| Items (items : list jsval).

Definition as_object (v : jsval) : option object_like :=
  match v with
  | JObj fields => Some (Fields fields)
  | JArr items => Some (Items items)
  | _ => None
  end.

Definition in_keys (k : string) (keys : list string) : bool :=
  existsb (String.eqb k) keys.

(** [o[k]] for a property key [k]: the own property if there is one, else
    the member of that name further up the prototype chain
    ([Array.prototype], whose members [array_keys] names, and
    [Object.prototype]), else [undefined]. *)
Definition get_member (array_keys : list string) (o : object_like) (k : string)
  : anyval :=
  match o with
  | Fields fields =>
      if has_key k fields then Plain (lookup k fields)
      else if in_keys k Object_prototype_keys
           then Builtin ("Object.prototype." ++ k)
           else Plain JUndefined
  | Items items =>
      if String.eqb k "length" then Plain (JNum (Z.of_nat (List.length items)))
      else
        match array_index k with
        | Some i =>
            if (i <? List.length items)%nat then Plain (nth i items JUndefined)
            else Plain JUndefined
        | None =>
            if in_keys k array_keys then Builtin ("Array.prototype." ++ k)
            else if in_keys k Object_prototype_keys
                 then Builtin ("Object.prototype." ++ k)
                 else Plain JUndefined
        end
  end.

(** The order of an object's own properties, which [JSON.stringify] and
    the spread follow: first the keys that are array indices (canonical
    numerals below [2^32 - 1]), in ascending order, then the other keys in
    the order in which they were added. *)
Definition index_key (k : string) : option N :=
  match NilZero.uint_of_string k with
  | Some u =>
      if String.eqb (NilZero.string_of_uint (N.to_uint (N.of_uint u))) k
         && (N.of_uint u <? 2 ^ 32 - 1)%N
      then Some (N.of_uint u) else None
  | None => None
  end.

(** Whether a new key [k] takes its place ahead of the present key
    [k']. *)
Definition goes_before (k k' : string) : bool :=
  match index_key k, index_key k' with
  | Some i, Some j => (i <? j)%N
  | Some _, None => true
  | None, _ => false
  end.

(** Defining property [k] of an object: an existing key keeps its place
    and takes the new value, a new key is put where the order has it. *)
Fixpoint obj_set (k : string) (v : jsval) (fields : list (string * jsval))
  : list (string * jsval) :=
  match fields with
  | [] => [(k, v)]
  | (k', v') :: r =>
      if String.eqb k' k then (k', v) :: r
      else if goes_before k k' then (k, v) :: (k', v') :: r
      else (k', v') :: obj_set k v r
  end.

(** [Object.fromEntries] *)
Definition fromEntries (entries : list (string * jsval)) : jsval :=
  JObj (fold_left (fun acc kv => obj_set (fst kv) (snd kv) acc) entries []).

(** The own enumerable properties [{ ...v }] copies: the fields of an
    object, the indexed elements of an array or of a string, nothing of
    any other value. *)
Definition indexed {A} (f : A -> jsval) (l : list A) : list (string * jsval) :=
  map (fun p => (number_to_string (Z.of_nat (fst p)), f (snd p)))
      (combine (seq 0 (List.length l)) l).

Definition spread (v : jsval) : list (string * jsval) :=
  match v with
  | JObj fields => fields
  | JArr items => indexed (fun x => x) items
  | JStr s => indexed (fun c => JStr (String c "")) (list_ascii_of_string s)
  | _ => []
  end.

(** [delete o[k]] on the fields of an object literal. *)
Definition obj_delete (k : string) (fields : list (string * jsval))
  : list (string * jsval) :=
  filter (fun kv => negb (String.eqb (fst kv) k)) fields.

(* ================================================================= *)
(** ** The external collaborators *)

(** The SDK ([@privacyx/pxp201]) is an external package.  The records
    below are the object literals the console passes at its call sites, and
    the fields it reads of what [encryptTextRaw] resolves to ([raw.dek],
    [raw.ciphertextB64url], [raw.nonceB64url], [raw.ciphertextHash],
    [raw.aadHash]).  Arguments the console takes from parsed JSON or from
    component state of unknown shape are [jsval]s; those it builds itself
    are typed. *)
Record unwrap_args : Type := {
  ua_wrappedKey : jsval;
  ua_recipientPrivKeyHex : anyval;
  ua_aadText : jsval }.

Record decrypt_args : Type := {
  da_envelope : jsval;
  da_dek : list byte;
  da_ciphertextB64url : jsval;
  da_nonceB64url : jsval;
  da_aadText : jsval }.

Record encrypt_args : Type := {
  ea_plaintext : string;
  ea_cipher : string;
  ea_aadText : jsval }.

Record wrap_args : Type := {
  wa_dek : list byte;
  wa_recipientPubKeyHex : string;
  wa_kid : string;
  wa_aadText : jsval }.

Record raw_out : Type := {
  raw_dek : list byte;
  raw_ciphertextB64url : string;
  raw_nonceB64url : string;
  raw_ciphertextHash : string;
  raw_aadHash : option string }.

(** Everything the console calls and does not define: the platform's JSON
    codec and clock, the SDK, and the key generator of the curve library.
    [validateEnvelope] returns what it throws, if anything;
    [randomSecretKey n] is the [n]-th key drawn.  Two facts of the
    platform the console's behaviour depends on are taken along:
    [Array_prototype_keys], the names of the members of [Array.prototype]
    (they grow with the edition of the language), and [first_rejected],
    which of the rejected [wrapDEK_secp256k1] promises of one
    [Promise.all] is rejected first in time, counted among the rejected
    ones in list order. *)
Record Externals : Type := {
  JSON_parse : string -> result jsval;
  JSON_stringify : jsval -> string;
  Date_now : Z;
  validateEnvelope : jsval -> option thrown;
  unwrapDEK_secp256k1 : unwrap_args -> result (list byte);
  decryptTextFromEnvelope : decrypt_args -> result string;
  encryptTextRaw : encrypt_args -> result raw_out;
  wrapDEK_secp256k1 : wrap_args -> result string;
  randomSecretKey : nat -> list byte;
  getPublicKey : list byte -> list byte;
  Array_prototype_keys : list string;
  first_rejected : list wrap_args -> nat }.

(** [map[key]] with a computed key, on a map tested to be an object: the
    key is converted to a property key first, which can throw. *)
Definition index_by (X : Externals) (o : object_like) (key : jsval)
  : result anyval :=
  k <- js_to_string key ;;
  Ok (get_member (Array_prototype_keys X) o k).

(** A call into the SDK, as recorded in traces. *)
Inductive sdk_call : Type :=
| CallValidate (envelope : jsval)
| CallUnwrap (a : unwrap_args)
| CallDecrypt (a : decrypt_args)
| CallEncrypt (a : encrypt_args)
| CallWrap (a : wrap_args).

Definition is_validate (c : sdk_call) : bool :=
  match c with CallValidate _ => true | _ => false end.

(** An event handler: it reads and writes component state [S], may call
    the SDK, and returns or throws.  State written before a throw stays
    written, as with React setters called before an exception. *)
Definition action (S A : Type) : Type := S -> (list sdk_call * S) * result A.

Definition ret {S A} (a : A) : action S A := fun s => (([], s), Ok a).
Definition throw {S A} (e : thrown) : action S A := fun s => (([], s), Throw e).
Definition lift {S A} (r : result A) : action S A := fun s => (([], s), r).
Definition modify {S} (f : S -> S) : action S unit :=
  fun s => (([], f s), Ok tt).
Definition get_state {S} : action S S := fun s => (([], s), Ok s).
Definition call {S A} (c : sdk_call) (r : result A) : action S A :=
  fun s => (([c], s), r).
(** A call whose promise is awaited later. *)
Definition issue {S} (c : sdk_call) : action S unit :=
  fun s => (([c], s), Ok tt).

Definition abind {S A B} (m : action S A) (k : A -> action S B) : action S B :=
  fun s =>
    match m s with
    | ((t, s1), Ok a) =>
        let '((t', s2), r) := k a s1 in (((t ++ t')%list, s2), r)
    | ((t, s1), Throw e) => ((t, s1), Throw e)
    end.

Notation "x <~ m ;; k" := (abind m (fun x => k))
  (at level 61, m at next level, right associativity).
Notation "m ;;; k" := (abind m (fun _ => k))
  (at level 61, right associativity).

(** [try { m } catch (e) { h e }] *)
Definition try_catch {S A} (m : action S A) (h : thrown -> action S A)
  : action S A :=
  fun s =>
    match m s with
    | ((t, s1), Throw e) =>
        let '((t', s2), r) := h e s1 in (((t ++ t')%list, s2), r)
    | done => done
    end.

(** [if (c) throw new Error(msg)] *)
Definition throw_if {S} (c : bool) (msg : string) : action S unit :=
  if c then throw (Error msg) else ret tt.

(** [if (c) m] *)
Definition when {S} (c : bool) (m : action S unit) : action S unit :=
  if c then m else ret tt.

Fixpoint mapM {S A B} (f : A -> action S B) (l : list A) : action S (list B) :=
  match l with
  | [] => ret []
  | x :: r => y <~ f x ;; ys <~ mapM f r ;; ret (y :: ys)
  end.

Definition trace_of {S A} (o : (list sdk_call * S) * result A) : list sdk_call :=
  fst (fst o).
Definition state_of {S A} (o : (list sdk_call * S) * result A) : S :=
  snd (fst o).
Definition outcome_of {S A} (o : (list sdk_call * S) * result A) : result A :=
  snd o.

(** [a || undefined] on a string. *)
Definition or_undefined (s : string) : jsval :=
  if String.eqb s "" then JUndefined else JStr s.

(** src/lib/format.js *)
Definition nowUnix (X : Externals) : Z := (Date_now X / 1000)%Z.

Definition validate_call {S} (X : Externals) (env : jsval) : action S unit :=
  call (CallValidate env)
       (match validateEnvelope X env with
        | None => Ok tt
        | Some e => Throw e
        end).

Definition await_unwrap {S} (X : Externals) (a : unwrap_args)
  : action S (list byte) :=
  call (CallUnwrap a) (unwrapDEK_secp256k1 X a).

Definition await_decrypt {S} (X : Externals) (a : decrypt_args)
  : action S string :=
  call (CallDecrypt a) (decryptTextFromEnvelope X a).

Definition await_encrypt {S} (X : Externals) (a : encrypt_args)
  : action S raw_out :=
  call (CallEncrypt a) (encryptTextRaw X a).

Definition await_wrap {S} (X : Externals) (a : wrap_args) : action S string :=
  call (CallWrap a) (wrapDEK_secp256k1 X a).

Fixpoint rejections {A} (l : list (result A)) : list thrown :=
  match l with
  | [] => []
  | Ok _ :: r => rejections r
  | Throw e :: r => e :: rejections r
  end.

(** What [Promise.all] settles with: all the values when every promise
    is fulfilled, else the rejection that came first in time, the
    [first]-th of the rejections. *)
Definition promise_all {A} (first : nat) (l : list (result A)) : result (list A) :=
  match sequence_results l with
  | Ok values => Ok values
  | Throw e => Throw (nth first (rejections l) e)
  end.

(** [await Promise.all(items.map(async (x) => await wrapDEK_secp256k1(..)))]:
    every call is issued, in list order, before any result is looked
    at. *)
Definition promise_all_wrap {S} (X : Externals) (l : list wrap_args)
  : action S (list string) :=
  fun s => ((map CallWrap l, s),
            promise_all (first_rejected X l) (map (wrapDEK_secp256k1 X) l)).

(* ================================================================= *)
(** ** src/App.jsx: top-level helpers *)

Definition wk1_prefix : string := "pxp201:wk1:".

Definition parseWk1 (X : Externals) (wrappedKey : jsval) : result jsval :=
  match wrappedKey with
  | JStr s =>
      if negb (startsWith s wk1_prefix) then
        Throw (Error "Not a wk1 key (expected prefix pxp201:wk1:)")
      else
        let b64url := slice_from s (String.length wk1_prefix) in
        let b64 :=
          replaceAll "_" "/" (replaceAll "-" "+" b64url)
          ++ slice_from "===" ((String.length b64url + 3) mod 4) in
        json <- atob b64 ;;
        JSON_parse X json
  | _ => (* typeof wrappedKey !== "string" *)
      Throw (Error "wrappedKey must be a string")
  end.

(** [...(raw.aadHash ? { aadHash: raw.aadHash } : {})] *)
Definition aadHash_field (raw : raw_out) : list (string * jsval) :=
  match raw_aadHash raw with
  | Some h => if String.eqb h "" then [] else [("aadHash", JStr h)]
  | None => []
  end.

(** The envelope literal of [runEncrypt] and [runGenerate]; [entries] are
    the [(rid, wrappedKey)] pairs. *)
Definition build_envelope (X : Externals) (raw : raw_out)
           (entries : list (string * string)) : jsval :=
  JObj ([("v", JStr "0.1");
         ("typ", JStr "PXP201");
         ("cipher", JStr "AES-256-GCM");
         ("kdf", JStr "HKDF-SHA256");
         ("access",
          JObj [("mode", JStr "RECIPIENTS");
                ("kem", JStr "RECIPIENTS-SECP256K1-ECIES");
                ("recipients",
                 JArr (map (fun e => JObj [("rid", JStr (fst e));
                                           ("wrappedKey", JStr (snd e))])
                           entries))]);
         ("uri", JStr "ipfs://<your-ciphertext-uri>");
         ("ciphertextHash", JStr (raw_ciphertextHash raw))]
        ++ aadHash_field raw
        ++ [("meta", JObj [("mime", JStr "text/plain")]);
            ("createdAt", JNum (nowUnix X))])%list.

(** [{ ciphertextB64url, nonceB64url, ciphertextHash, ...aadHash? }] of a
    raw result. *)
Definition raw_fields (raw : raw_out) : list (string * jsval) :=
  ([("ciphertextB64url", JStr (raw_ciphertextB64url raw));
    ("nonceB64url", JStr (raw_nonceB64url raw));
    ("ciphertextHash", JStr (raw_ciphertextHash raw))]
   ++ aadHash_field raw)%list.

Definition nonempty (s : string) : bool := negb (String.eqb s "").

Fixpoint list_set {A} (i : nat) (x : A) (l : list A) : list A :=
  match l, i with
  | [], _ => []
  | _ :: r, O => x :: r
  | y :: r, S i' => y :: list_set i' x r
  end.

Fixpoint remove_at {A} (i : nat) (l : list A) : list A :=
  match l, i with
  | [], _ => []
  | _ :: r, O => r
  | y :: r, S i' => y :: remove_at i' r
  end.

(** [recips.find((x) => x.rid === ridToUse)]; [undefined] when no element
    matches, a TypeError when an element is [null].  [own] tells that
    [ridToUse] is the very value read from the first element's [rid]
    (nothing was selected), so that the first comparison is of a value
    with itself. *)
Fixpoint find_by_rid (own : bool) (recips : list jsval) (ridToUse : jsval)
  : result jsval :=
  match recips with
  | [] => Ok JUndefined
  | x :: r =>
      rid <- member x "rid" ;;
      if same_value own rid ridToUse then Ok x
      else find_by_rid false r ridToUse
  end.

(* ================================================================= *)
(** ** src/App.jsx: EncryptPanel *)

Module EncryptPanel.

Record recipient : Type := {
  rid : string;
  recipientPrivHex : string;
  recipientPubHex : string }.

(** Component state, the SDK status it reports to [App], and [draws], the
    number of secret keys drawn from the generator so far. *)
Record state : Type := {
  plaintext : string;
  aadText : string;
  recipients : list recipient;
  rawOut : option raw_out;
  wrappedKey : string;
  envelope : option jsval;
  decryptCheck : string;
  sdk : string;
  draws : nat }.

Definition initial : state := {|
  plaintext := "hello from PXP-201";
  aadText := "app:pxp201-ui|v0.1";
  recipients := [ {| rid := "did:pkh:eip155:1:0xDEMO_RECIPIENT";
                     recipientPrivHex := ""; recipientPubHex := "" |} ];
  rawOut := None;
  wrappedKey := "";
  envelope := None;
  decryptCheck := "";
  sdk := "not wired";
  draws := 0 |}.

Definition setRecipients (v : list recipient) (s : state) : state :=
  {| plaintext := plaintext s; aadText := aadText s; recipients := v;
     rawOut := rawOut s; wrappedKey := wrappedKey s; envelope := envelope s;
     decryptCheck := decryptCheck s; sdk := sdk s; draws := draws s |}.
Definition setRawOut (v : option raw_out) (s : state) : state :=
  {| plaintext := plaintext s; aadText := aadText s; recipients := recipients s;
     rawOut := v; wrappedKey := wrappedKey s; envelope := envelope s;
     decryptCheck := decryptCheck s; sdk := sdk s; draws := draws s |}.
Definition setWrappedKey (v : string) (s : state) : state :=
  {| plaintext := plaintext s; aadText := aadText s; recipients := recipients s;
     rawOut := rawOut s; wrappedKey := v; envelope := envelope s;
     decryptCheck := decryptCheck s; sdk := sdk s; draws := draws s |}.
Definition setEnvelope (v : option jsval) (s : state) : state :=
  {| plaintext := plaintext s; aadText := aadText s; recipients := recipients s;
     rawOut := rawOut s; wrappedKey := wrappedKey s; envelope := v;
     decryptCheck := decryptCheck s; sdk := sdk s; draws := draws s |}.
Definition setDecryptCheck (v : string) (s : state) : state :=
  {| plaintext := plaintext s; aadText := aadText s; recipients := recipients s;
     rawOut := rawOut s; wrappedKey := wrappedKey s; envelope := envelope s;
     decryptCheck := v; sdk := sdk s; draws := draws s |}.
Definition onStatus (v : string) (s : state) : state :=
  {| plaintext := plaintext s; aadText := aadText s; recipients := recipients s;
     rawOut := rawOut s; wrappedKey := wrappedKey s; envelope := envelope s;
     decryptCheck := decryptCheck s; sdk := v; draws := draws s |}.
Definition drew (s : state) : state :=
  {| plaintext := plaintext s; aadText := aadText s; recipients := recipients s;
     rawOut := rawOut s; wrappedKey := wrappedKey s; envelope := envelope s;
     decryptCheck := decryptCheck s; sdk := sdk s; draws := S (draws s) |}.
Definition setPlaintext (v : string) (s : state) : state :=
  {| plaintext := v; aadText := aadText s; recipients := recipients s;
     rawOut := rawOut s; wrappedKey := wrappedKey s; envelope := envelope s;
     decryptCheck := decryptCheck s; sdk := sdk s; draws := draws s |}.
Definition setAadText (v : string) (s : state) : state :=
  {| plaintext := plaintext s; aadText := v; recipients := recipients s;
     rawOut := rawOut s; wrappedKey := wrappedKey s; envelope := envelope s;
     decryptCheck := decryptCheck s; sdk := sdk s; draws := draws s |}.

(** The [patch] argument of [updateRecipient]: the fields it carries. *)
Record patch : Type := {
  patch_rid : option string;
  patch_recipientPrivHex : option string;
  patch_recipientPubHex : option string }.

(** [{ ...r, ...patch }] *)
Definition apply_patch (r : recipient) (p : patch) : recipient :=
  {| rid := match patch_rid p with Some v => v | None => rid r end;
     recipientPrivHex :=
       match patch_recipientPrivHex p with
       | Some v => v
       | None => recipientPrivHex r
       end;
     recipientPubHex :=
       match patch_recipientPubHex p with
       | Some v => v
       | None => recipientPubHex r
       end |}.

(** [prev.map((r, idx) => (idx === i ? f(r) : r))] *)
Fixpoint map_at {A} (i : nat) (f : A -> A) (l : list A) : list A :=
  match l, i with
  | [], _ => []
  | x :: r, O => f x :: r
  | x :: r, S i' => x :: map_at i' f r
  end.

Section Handlers.

Variable X : Externals.
(** The render whose closures the handlers are: what [recipients],
    [aadText], [rawOut] and so on read, whatever was set since. *)
Variable view : state.

Definition ensureRecipientAt (i : nat) : action state recipient :=
  match nth_error (recipients view) i with
  | None => throw (Error "recipient index out of range")
  | Some r =>
      if nonempty (recipientPrivHex r) && nonempty (recipientPubHex r)
      then ret r
      else
        s <~ get_state ;;
        let priv := randomSecretKey X (draws s) in
        let pub := getPublicKey X priv in
        let r' := {| rid := rid r;
                     recipientPrivHex := u8ToHex priv;
                     recipientPubHex := u8ToHex pub |} in
        modify drew ;;;
        modify (setRecipients (list_set i r' (recipients view))) ;;;
        ret r'
  end.

Definition addRecipient : action state unit :=
  modify (fun s =>
    setRecipients
      (recipients s ++
       [ {| rid := "did:pkh:eip155:1:0xDEMO_RECIPIENT_"
                   ++ number_to_string (Z.of_nat (List.length (recipients s) + 1));
            recipientPrivHex := ""; recipientPubHex := "" |} ])%list s).

Definition removeRecipient (i : nat) : action state unit :=
  modify (fun s => setRecipients (remove_at i (recipients s)) s).

Definition updateRecipient (i : nat) (p : patch) : action state unit :=
  modify (fun s =>
    setRecipients (map_at i (fun r => apply_patch r p) (recipients s)) s).

Definition regenRecipient (i : nat) : action state unit :=
  s <~ get_state ;;
  let priv := randomSecretKey X (draws s) in
  let pub := getPublicKey X priv in
  modify drew ;;;
  updateRecipient i {| patch_rid := None;
                       patch_recipientPrivHex := Some (u8ToHex priv);
                       patch_recipientPubHex := Some (u8ToHex pub) |}.

(** [recipients.map((_, i) => ensureRecipientAt(i))] *)
Definition ensureAll : action state (list recipient) :=
  mapM ensureRecipientAt (seq 0 (List.length (recipients view))).

Definition firstWrappedKey (entries : list (string * string)) : string :=
  match entries with
  | e :: _ => snd e
  | [] => ""
  end.

(** What [runEncrypt] holds once the envelope has been validated. *)
Record wrapped : Type := {
  wr_raw : raw_out;
  wr_ready : list recipient;
  wr_entries : list (string * string);
  wr_env : jsval }.

(** Steps 1 to 3 of [runEncrypt]: encrypt, ensure the recipients' keys,
    wrap the key for each, build and validate the envelope. *)
Definition encrypt_and_wrap : action state wrapped :=
  (* 1) encrypt payload *)
  raw <~ await_encrypt X {| ea_plaintext := plaintext view;
                            ea_cipher := "AES-256-GCM";
                            ea_aadText := or_undefined (aadText view) |} ;;
  (* 2) ensure/gather recipients, wrap DEK for each *)
  recipReady <~ ensureAll ;;
  wks <~ promise_all_wrap X
           (map (fun r => {| wa_dek := raw_dek raw;
                             wa_recipientPubKeyHex := recipientPubHex r;
                             wa_kid := rid r;
                             wa_aadText := or_undefined (aadText view) |})
                recipReady) ;;
  let recipientEntries := combine (map rid recipReady) wks in
  (* 3) build envelope *)
  let env := build_envelope X raw recipientEntries in
  validate_call X env ;;;
  ret {| wr_raw := raw; wr_ready := recipReady;
         wr_entries := recipientEntries; wr_env := env |}.

(** Step 4 of [runEncrypt]: the local sanity decrypt with the first
    recipient. *)
Definition sanity_decrypt (w : wrapped) : action state unit :=
  match wr_ready w, wr_entries w with
  | first :: _, e0 :: _ =>
      if nonempty (recipientPrivHex first) && nonempty (snd e0) then
        dek2 <~ await_unwrap X
                  {| ua_wrappedKey := JStr (snd e0);
                     ua_recipientPrivKeyHex := JStr (recipientPrivHex first);
                     ua_aadText := or_undefined (aadText view) |} ;;
        out <~ await_decrypt X
                 {| da_envelope := wr_env w;
                    da_dek := dek2;
                    da_ciphertextB64url := JStr (raw_ciphertextB64url (wr_raw w));
                    da_nonceB64url := JStr (raw_nonceB64url (wr_raw w));
                    da_aadText := or_undefined (aadText view) |} ;;
        modify (setDecryptCheck out)
      else ret tt
  | _, _ => ret tt
  end.

(** The [catch] clause of [runEncrypt]: the status is reported before
    the caught value is converted to text. *)
Definition catch_encrypt (e : thrown) : action state unit :=
  modify (onStatus "error") ;;;
  msg <~ lift (errText e) ;;
  modify (setDecryptCheck msg).

(** [runEncrypt], with nothing else happening while it is suspended. *)
Definition runEncrypt : action state unit :=
  modify (onStatus "running") ;;;
  modify (setDecryptCheck "") ;;;
  modify (setRawOut None) ;;;
  modify (setWrappedKey "") ;;;
  modify (setEnvelope None) ;;;
  try_catch
    (w <~ encrypt_and_wrap ;;
     modify (setRawOut (Some (wr_raw w))) ;;;
     modify (setEnvelope (Some (wr_env w))) ;;;
     modify (setWrappedKey (firstWrappedKey (wr_entries w))) ;;;
     modify (onStatus "ok") ;;;
     sanity_decrypt w)
    catch_encrypt.

(** The [payload] literal of [downloadBundle]. *)
Definition bundle_payload (raw : raw_out) (env : jsval)
           (recipReady : list recipient) : jsval :=
  JObj [("aadText", JStr (aadText view));
        ("raw", JObj (raw_fields raw));
        ("envelope", env);
        ("recipientPrivHexByRid",
         fromEntries (map (fun r => (rid r, JStr (recipientPrivHex r))) recipReady));
        ("recipientPubHexByRid",
         fromEntries (map (fun r => (rid r, JStr (recipientPubHex r))) recipReady))].

(** Returns the arguments of the [downloadText] call, if one is made. *)
Definition downloadBundle : action state (option (string * string)) :=
  match rawOut view, envelope view with
  | Some raw, Some env =>
      recipReady <~ ensureAll ;;
      ret (Some ("pxp201-bundle.json",
                 JSON_stringify X (bundle_payload raw env recipReady)))
  | _, _ => ret None
  end.

End Handlers.

(** A run of [runEncrypt] suspended at one of its four [await]s, with the
    render it was started from and what it has computed so far. *)
Inductive pending : Type :=
| AwaitEncrypt (view : state)
| AwaitWraps (view : state) (raw : raw_out) (recipReady : list recipient)
| AwaitUnwrap (view : state) (w : wrapped)
| AwaitDecrypt (view : state) (w : wrapped) (dek2 : list byte).

Section Machine.

Variable X : Externals.

(** The [wrapDEK_secp256k1] calls of a run, one per recipient. *)
Definition wrap_calls (view : state) (raw : raw_out) (recipReady : list recipient)
  : list wrap_args :=
  map (fun r => {| wa_dek := raw_dek raw;
                   wa_recipientPubKeyHex := recipientPubHex r;
                   wa_kid := rid r;
                   wa_aadText := or_undefined (aadText view) |})
      recipReady.

(** [runEncrypt] from its first line to its first [await]. *)
Definition run_start (view : state) : action state pending :=
  modify (onStatus "running") ;;;
  modify (setDecryptCheck "") ;;;
  modify (setRawOut None) ;;;
  modify (setWrappedKey "") ;;;
  modify (setEnvelope None) ;;;
  issue (CallEncrypt {| ea_plaintext := plaintext view;
                        ea_cipher := "AES-256-GCM";
                        ea_aadText := or_undefined (aadText view) |}) ;;;
  ret (AwaitEncrypt view).

(** A suspended run resumes when the promise it awaits settles, and runs
    to its next [await] or to its end. *)
Definition settle (p : pending) : action state (option pending) :=
  match p with
  | AwaitEncrypt view =>
      try_catch
        (raw <~ lift (encryptTextRaw X
                        {| ea_plaintext := plaintext view;
                           ea_cipher := "AES-256-GCM";
                           ea_aadText := or_undefined (aadText view) |}) ;;
         recipReady <~ ensureAll X view ;;
         (fun s => ((map CallWrap (wrap_calls view raw recipReady), s), Ok tt)) ;;;
         ret (Some (AwaitWraps view raw recipReady)))
        (fun e => catch_encrypt e ;;; ret None)
  | AwaitWraps view raw recipReady =>
      try_catch
        (wks <~ lift (promise_all
                        (first_rejected X (wrap_calls view raw recipReady))
                        (map (wrapDEK_secp256k1 X)
                             (wrap_calls view raw recipReady))) ;;
         let recipientEntries := combine (map rid recipReady) wks in
         let env := build_envelope X raw recipientEntries in
         validate_call X env ;;;
         let w := {| wr_raw := raw; wr_ready := recipReady;
                     wr_entries := recipientEntries; wr_env := env |} in
         modify (setRawOut (Some raw)) ;;;
         modify (setEnvelope (Some env)) ;;;
         modify (setWrappedKey (firstWrappedKey recipientEntries)) ;;;
         modify (onStatus "ok") ;;;
         match recipReady, recipientEntries with
         | first :: _, e0 :: _ =>
             if nonempty (recipientPrivHex first) && nonempty (snd e0) then
               issue (CallUnwrap
                        {| ua_wrappedKey := JStr (snd e0);
                           ua_recipientPrivKeyHex := JStr (recipientPrivHex first);
                           ua_aadText := or_undefined (aadText view) |}) ;;;
               ret (Some (AwaitUnwrap view w))
             else ret None
         | _, _ => ret None
         end)
        (fun e => catch_encrypt e ;;; ret None)
  | AwaitUnwrap view w =>
      match wr_ready w, wr_entries w with
      | first :: _, e0 :: _ =>
          try_catch
            (dek2 <~ lift (unwrapDEK_secp256k1 X
                             {| ua_wrappedKey := JStr (snd e0);
                                ua_recipientPrivKeyHex :=
                                  JStr (recipientPrivHex first);
                                ua_aadText := or_undefined (aadText view) |}) ;;
             issue (CallDecrypt
                      {| da_envelope := wr_env w;
                         da_dek := dek2;
                         da_ciphertextB64url :=
                           JStr (raw_ciphertextB64url (wr_raw w));
                         da_nonceB64url := JStr (raw_nonceB64url (wr_raw w));
                         da_aadText := or_undefined (aadText view) |}) ;;;
             ret (Some (AwaitDecrypt view w dek2)))
            (fun e => catch_encrypt e ;;; ret None)
      | _, _ => ret None
      end
  | AwaitDecrypt view w dek2 =>
      try_catch
        (out <~ lift (decryptTextFromEnvelope X
                        {| da_envelope := wr_env w;
                           da_dek := dek2;
                           da_ciphertextB64url :=
                             JStr (raw_ciphertextB64url (wr_raw w));
                           da_nonceB64url := JStr (raw_nonceB64url (wr_raw w));
                           da_aadText := or_undefined (aadText view) |}) ;;
         modify (setDecryptCheck out) ;;;
         ret None)
        (fun e => catch_encrypt e ;;; ret None)
  end.

(** The panel together with its suspended runs. *)
Record world : Type := {
  panel : state;
  suspended : list pending }.

(** What can happen in the panel: what the user does, and the promise of
    a suspended run settling.  No control is disabled while a run is
    suspended, so every order is possible. *)
Inductive event : Type :=
| Edit_plaintext (text : string)
| Edit_aadText (text : string)
| Click_add
| Click_regenerate (i : nat)
| Click_remove (i : nat)     (* disabled while [recipients.length <= 1] *)
| Edit_recipient (i : nat) (p : patch)
| Click_encrypt
| Click_download             (* disabled while [!rawOut || !envelope] *)
| Settle (i : nat).          (* the promise of the [i]-th suspended run settles *)

Definition replace_pending (i : nat) (p : option pending) (l : list pending)
  : list pending :=
  match p with
  | Some x => list_set i x l
  | None => remove_at i l
  end.

Definition on_panel (o : (list sdk_call * state) * result unit) (w : world)
  : list sdk_call * world :=
  (trace_of o, {| panel := state_of o; suspended := suspended w |}).

Definition step (w : world) (ev : event) : list sdk_call * world :=
  let s := panel w in
  match ev with
  | Edit_plaintext text =>
      ([], {| panel := setPlaintext text s; suspended := suspended w |})
  | Edit_aadText text =>
      ([], {| panel := setAadText text s; suspended := suspended w |})
  | Click_add => on_panel (addRecipient s) w
  | Click_regenerate i => on_panel (regenRecipient X i s) w
  | Click_remove i =>
      if (List.length (recipients s) <=? 1)%nat then ([], w)
      else on_panel (removeRecipient i s) w
  | Edit_recipient i p => on_panel (updateRecipient i p s) w
  | Click_encrypt =>
      let '((t, s1), r) := run_start s s in
      (t, {| panel := s1;
             suspended := match r with
                          | Ok p => (suspended w ++ [p])%list
                          | Throw _ => suspended w
                          end |})
  | Click_download =>
      match rawOut s, envelope s with
      | Some _, Some _ =>
          let o := downloadBundle X s s in
          (trace_of o, {| panel := state_of o; suspended := suspended w |})
      | _, _ => ([], w)
      end
  | Settle i =>
      match nth_error (suspended w) i with
      | None => ([], w)
      | Some p =>
          let '((t, s1), r) := settle p s in
          (t, {| panel := s1;
                 suspended := replace_pending i
                                (match r with Ok p' => p' | Throw _ => None end)
                                (suspended w) |})
      end
  end.

Fixpoint steps (w : world) (evs : list event) : world :=
  match evs with
  | [] => w
  | ev :: r => steps (snd (step w ev)) r
  end.

End Machine.

End EncryptPanel.

(* ================================================================= *)
(** ** src/App.jsx: DecryptPanel *)

(** [const { raw, envelope } = bundle]: reading property [k] while
    destructuring; a TypeError on [null] and [undefined]. *)
Definition destructure (v : jsval) (k : string) : result jsval :=
  if is_nullish v then
    Throw (TypeError ("Cannot destructure property '" ++ k
                      ++ "' of 'bundle' as it is " ++ nullish_text v ++ "."))
  else Ok (prop v k).

(** [JSON.parse(bundleInput || "{}")] *)
Definition parse_bundle (X : Externals) (bundleInput : string) : result jsval :=
  JSON_parse X (if String.eqb bundleInput "" then "{}" else bundleInput).

(** [envelope?.access?.recipients || []] *)
Definition recipients_of (envelope : jsval) : jsval :=
  js_or (opt_member (opt_member envelope "access") "recipients") (JArr []).

Module DecryptPanel.

Record out_t : Type := {
  ok : bool;
  plaintext : string;
  info : string;
  error : string }.

Definition blank : out_t :=
  {| ok := false; plaintext := ""; info := ""; error := "" |}.

(** Component state, with the [bundleInput] prop, the SDK status reported
    to [App], and the mutable cell [runIdRef.current].  The counter is an
    unbounded natural number (a JavaScript number counts exactly up to
    2^53). *)
Record state : Type := {
  bundleInput : string;
  out : out_t;
  aadOverride : string;
  autoDecrypt : bool;
  selectedRid : jsval;
  runIdRef : N;
  sdk : string }.

Definition initial : state := {|
  bundleInput := "";
  out := blank;
  aadOverride := "app:pxp201-ui|v0.1";
  autoDecrypt := false;
  selectedRid := JStr "";
  runIdRef := 0;
  sdk := "not wired" |}.

Definition setBundleInput (v : string) (s : state) : state :=
  {| bundleInput := v; out := out s; aadOverride := aadOverride s;
     autoDecrypt := autoDecrypt s; selectedRid := selectedRid s;
     runIdRef := runIdRef s; sdk := sdk s |}.
Definition setOut (v : out_t) (s : state) : state :=
  {| bundleInput := bundleInput s; out := v; aadOverride := aadOverride s;
     autoDecrypt := autoDecrypt s; selectedRid := selectedRid s;
     runIdRef := runIdRef s; sdk := sdk s |}.
Definition setAadOverride (v : string) (s : state) : state :=
  {| bundleInput := bundleInput s; out := out s; aadOverride := v;
     autoDecrypt := autoDecrypt s; selectedRid := selectedRid s;
     runIdRef := runIdRef s; sdk := sdk s |}.
Definition setAutoDecrypt (v : bool) (s : state) : state :=
  {| bundleInput := bundleInput s; out := out s; aadOverride := aadOverride s;
     autoDecrypt := v; selectedRid := selectedRid s;
     runIdRef := runIdRef s; sdk := sdk s |}.
Definition setSelectedRid (v : jsval) (s : state) : state :=
  {| bundleInput := bundleInput s; out := out s; aadOverride := aadOverride s;
     autoDecrypt := autoDecrypt s; selectedRid := v;
     runIdRef := runIdRef s; sdk := sdk s |}.
Definition setRunIdRef (v : N) (s : state) : state :=
  {| bundleInput := bundleInput s; out := out s; aadOverride := aadOverride s;
     autoDecrypt := autoDecrypt s; selectedRid := selectedRid s;
     runIdRef := v; sdk := sdk s |}.
Definition onStatus (v : string) (s : state) : state :=
  {| bundleInput := bundleInput s; out := out s; aadOverride := aadOverride s;
     autoDecrypt := autoDecrypt s; selectedRid := selectedRid s;
     runIdRef := runIdRef s; sdk := v |}.

(** What a suspended run still needs once its promise settles. *)
Record run_ctx : Type := {
  ctx_raw : jsval;
  ctx_envelope : jsval;
  ctx_entry : jsval;
  ctx_aadText : string }.

(** A run suspended at one of its two [await]s. *)
Inductive pending : Type :=
| AwaitUnwrap (runId : N) (a : unwrap_args) (ctx : run_ctx)
| AwaitDecrypt (runId : N) (a : decrypt_args) (ctx : run_ctx).

Definition pending_id (p : pending) : N :=
  match p with
  | AwaitUnwrap runId _ _ | AwaitDecrypt runId _ _ => runId
  end.

(** The recipient resolver of [run] (from [const recips] to the
    [wrappedKey] check). *)
Definition resolve_entry (envelope selectedRid : jsval) : result jsval :=
  match recipients_of envelope with
  | JArr (first :: rest) =>
      (* pick rid *)
      let ridToUse := js_or selectedRid (opt_member first "rid") in
      if negb (truthy ridToUse) then Throw (Error "No recipient rid available")
      else
        found <- find_by_rid (negb (truthy selectedRid)) (first :: rest) ridToUse ;;
        let entry := js_or found first in
        if negb (truthy (opt_member entry "wrappedKey"))
        then Throw (Error "No wrappedKey for selected recipient")
        else Ok entry
  | _ => (* !Array.isArray(recips) || recips.length === 0 *)
      Throw (Error "envelope.access.recipients missing/empty")
  end.

Definition no_privkey_message : string :=
  "No recipient privkey in bundle (expected recipientPrivHexByRid[rid] or recipient.recipientPrivHex). "
  ++ "If you imported a vector, export it with 'include demo privkey' enabled.".

Section Handlers.

Variable X : Externals.
(** The render whose closure [run] is. *)
Variable view : state.

(** The body of [try] up to the first [await]: everything [run] does
    before it calls [unwrapDEK_secp256k1]. *)
Definition run_prepare : action state (unwrap_args * run_ctx) :=
  bundle <~ lift (parse_bundle X (bundleInput view)) ;;
  raw <~ lift (destructure bundle "raw") ;;
  envelope <~ lift (destructure bundle "envelope") ;;
  let aadText :=
    match prop bundle "aadText" with
    | JStr a => if nonempty a then a else aadOverride view
    | _ => aadOverride view
    end in
  throw_if (negb (truthy (opt_member raw "ciphertextB64url"))
            || negb (truthy (opt_member raw "nonceB64url")))
           "bundle.raw missing ciphertextB64url/nonceB64url" ;;;
  throw_if (negb (truthy envelope)) "bundle.envelope missing" ;;;
  validate_call X envelope ;;;
  entry <~ lift (resolve_entry envelope (selectedRid view)) ;;
  let privMap := opt_member bundle "recipientPrivHexByRid" in
  fromMap <~ lift (match as_object privMap with
                   | Some o =>
                       if truthy (opt_member entry "rid")
                       then index_by X o (prop entry "rid")
                       else Ok (Plain (JStr ""))
                   | None => Ok (Plain (JStr ""))
                   end) ;;
  let privHex :=
    any_or (any_or fromMap
                   (opt_member (opt_member bundle "recipient") "recipientPrivHex"))
           (JStr "") in
  throw_if (negb (truthy_any privHex)) no_privkey_message ;;;
  ret ({| ua_wrappedKey := prop entry "wrappedKey";
          ua_recipientPrivKeyHex := privHex;
          ua_aadText := or_undefined aadText |},
       {| ctx_raw := raw; ctx_envelope := envelope; ctx_entry := entry;
          ctx_aadText := aadText |}).

(** The [catch] clause. *)
Definition catch_run (runId : N) (e : thrown) : action state unit :=
  s <~ get_state ;;
  if negb (runId =? runIdRef s)%N then ret tt
  else
    msg <~ lift (errText e) ;;
    modify (setOut {| ok := false; plaintext := ""; info := "";
                      error := msg |}) ;;;
    modify (onStatus "error").

(** The tail of [try], after both promises have resolved. *)
Definition finish_run (runId : N) (plaintext : string) (ctx : run_ctx)
  : action state unit :=
  s <~ get_state ;;
  if negb (runId =? runIdRef s)%N then ret tt
  else
    modify (setOut
      {| ok := true;
         plaintext := plaintext;
         info := JSON_stringify X
                   (JObj [("ciphertextHash", prop (ctx_envelope ctx) "ciphertextHash");
                          ("aadHash", prop (ctx_envelope ctx) "aadHash");
                          ("rid", prop (ctx_entry ctx) "rid");
                          ("createdAt", prop (ctx_envelope ctx) "createdAt")]);
         error := "" |}) ;;;
    modify (onStatus "ok").

(** [run], from its first line to its first [await] (or to its end, when
    it fails before calling the SDK's unwrap). *)
Definition run_start : action state (option pending) :=
  s <~ get_state ;;
  let runId := (runIdRef s + 1)%N in
  modify (setRunIdRef runId) ;;;
  modify (onStatus "running") ;;;
  modify (setOut blank) ;;;
  try_catch
    (p <~ run_prepare ;;
     issue (CallUnwrap (fst p)) ;;;
     ret (Some (AwaitUnwrap runId (fst p) (snd p))))
    (fun e => catch_run runId e ;;; ret None).

End Handlers.

Section Machine.

Variable X : Externals.

(** A suspended run resumes when its promise settles. *)
Definition settle (p : pending) : action state (option pending) :=
  match p with
  | AwaitUnwrap runId a ctx =>
      match unwrapDEK_secp256k1 X a with
      | Ok dek =>
          let da := {| da_envelope := ctx_envelope ctx;
                       da_dek := dek;
                       da_ciphertextB64url := prop (ctx_raw ctx) "ciphertextB64url";
                       da_nonceB64url := prop (ctx_raw ctx) "nonceB64url";
                       da_aadText := or_undefined (ctx_aadText ctx) |} in
          issue (CallDecrypt da) ;;;
          ret (Some (AwaitDecrypt runId da ctx))
      | Throw e => catch_run runId e ;;; ret None
      end
  | AwaitDecrypt runId a ctx =>
      match decryptTextFromEnvelope X a with
      | Ok plaintext => finish_run X runId plaintext ctx ;;; ret None
      | Throw e => catch_run runId e ;;; ret None
      end
  end.

(** [run] with nothing else happening while it is suspended. *)
Definition run (view : state) : action state unit :=
  p1 <~ run_start X view ;;
  match p1 with
  | None => ret tt
  | Some p =>
      p2 <~ settle p ;;
      match p2 with
      | None => ret tt
      | Some p' => settle p' ;;; ret tt
      end
  end.

(** The effect on [bundleInput]: sync the AAD override and the selected
    rid with the bundle (errors are swallowed). *)
Definition sync_effect (view : state) : action state unit :=
  try_catch
    (b <~ lift (parse_bundle X (bundleInput view)) ;;
     (match opt_member b "aadText" with
      | JStr a => if nonempty a then modify (setAadOverride a) else ret tt
      | _ => ret tt
      end) ;;;
     if negb (truthy (selectedRid view)) then
       let recips := recipients_of (opt_member b "envelope") in
       let rid0 := opt_member (opt_member recips "0") "rid" in
       if truthy rid0 then modify (setSelectedRid rid0) else ret tt
     else ret tt)
    (fun _ => ret tt).

(** The test the debounced auto-run makes before calling [run]. *)
Definition auto_run_guard (view : state) : bool :=
  match parse_bundle X (bundleInput view) with
  | Throw _ => false
  | Ok b =>
      let recips := recipients_of (opt_member b "envelope") in
      let hasAnyRecipient :=
        match recips with JArr (_ :: _) => true | _ => false end in
      let privMap := opt_member b "recipientPrivHexByRid" in
      let hasPrivMap := truthy privMap && String.eqb (typeof privMap) "object" in
      let legacy := opt_member (opt_member b "recipient") "recipientPrivHex" in
      let hasLegacyPriv :=
        match legacy with JStr p => nonempty p | _ => false end in
      truthy (opt_member (opt_member b "raw") "ciphertextB64url")
      && truthy (opt_member (opt_member b "raw") "nonceB64url")
      && truthy (opt_member b "envelope")
      && hasAnyRecipient
      && (hasPrivMap || hasLegacyPriv)
  end.

(** The panel together with its suspended runs. *)
Record world : Type := {
  panel : state;
  suspended : list pending }.

Inductive event : Type :=
| Click_run              (* "Decrypt from bundle" *)
| Auto_run               (* the debounce timer fires *)
| Click_clear
| Edit_bundle (text : string)
| Edit_aad (text : string)
| Select_rid (rid : string)
| Toggle_auto (on : bool)
| Settle (i : nat).      (* the promise of the [i]-th suspended run settles *)

Definition add_pending (p : option pending) (l : list pending) : list pending :=
  match p with
  | Some x => (l ++ [x])%list
  | None => l
  end.

Definition replace_pending (i : nat) (p : option pending) (l : list pending)
  : list pending :=
  match p with
  | Some x => list_set i x l
  | None => remove_at i l
  end.

Definition step (w : world) (ev : event) : list sdk_call * world :=
  match ev with
  | Click_run =>
      let '((t, s), r) := run_start X (panel w) (panel w) in
      (t, {| panel := s;
             suspended := add_pending
                            (match r with Ok p => p | Throw _ => None end)
                            (suspended w) |})
  | Auto_run =>
      if autoDecrypt (panel w) && auto_run_guard (panel w) then
        let '((t, s), r) := run_start X (panel w) (panel w) in
        (t, {| panel := s;
               suspended := add_pending
                              (match r with Ok p => p | Throw _ => None end)
                              (suspended w) |})
      else ([], w)
  | Click_clear =>
      let s1 := setRunIdRef (runIdRef (panel w) + 1)%N (panel w) in
      let s2 := setSelectedRid (JStr "")
                  (setOut blank (setBundleInput "" s1)) in
      let '((t, s3), _) := sync_effect s2 s2 in
      (t, {| panel := s3; suspended := suspended w |})
  | Edit_bundle text =>
      let s1 := setBundleInput text (panel w) in
      let '((t, s2), _) := sync_effect s1 s1 in
      (t, {| panel := s2; suspended := suspended w |})
  | Edit_aad text =>
      ([], {| panel := setAadOverride text (panel w);
              suspended := suspended w |})
  | Select_rid rid =>
      ([], {| panel := setSelectedRid (JStr rid) (panel w);
              suspended := suspended w |})
  | Toggle_auto on =>
      ([], {| panel := setAutoDecrypt on (panel w);
              suspended := suspended w |})
  | Settle i =>
      match nth_error (suspended w) i with
      | None => ([], w)
      | Some p =>
          let '((t, s), r) := settle p (panel w) in
          (t, {| panel := s;
                 suspended := replace_pending i
                                (match r with Ok p' => p' | Throw _ => None end)
                                (suspended w) |})
      end
  end.

(** The identifier a [run] started by this event takes, if it starts one. *)
Definition started (w : world) (ev : event) : option N :=
  match ev with
  | Click_run => Some (runIdRef (panel w) + 1)%N
  | Auto_run =>
      if autoDecrypt (panel w) && auto_run_guard (panel w)
      then Some (runIdRef (panel w) + 1)%N else None
  | _ => None
  end.

Fixpoint steps (w : world) (evs : list event) : world :=
  match evs with
  | [] => w
  | ev :: r => steps (snd (step w ev)) r
  end.

(** The identifiers of the runs started along a sequence of events. *)
Fixpoint started_ids (w : world) (evs : list event) : list N :=
  match evs with
  | [] => []
  | ev :: r =>
      match started w ev with
      | Some n => n :: started_ids (snd (step w ev)) r
      | None => started_ids (snd (step w ev)) r
      end
  end.

End Machine.

End DecryptPanel.

(* ================================================================= *)
(** ** src/App.jsx: WK1Panel *)

Module WK1Panel.

Record out_t : Type := { dekHex : string; error : string }.

(** Component state with the [bundleInput] prop and the reported SDK
    status.  The fields the prefill copies out of a bundle hold whatever
    value the bundle had there. *)
Record state : Type := {
  bundleInput : string;
  wrappedKey : jsval;
  privHex : anyval;
  aadText : string;
  parsed : string;
  out : out_t;
  dekHexIn : string;
  pubHex : anyval;
  kid : jsval;
  selectedRid : jsval;
  sdk : string }.

Definition initial : state := {|
  bundleInput := "";
  wrappedKey := JStr "";
  privHex := Plain (JStr "");
  aadText := "app:pxp201-ui|v0.1";
  parsed := "";
  out := {| dekHex := ""; error := "" |};
  dekHexIn := "";
  pubHex := Plain (JStr "");
  kid := JStr "did:pkh:eip155:1:0xDEMO_RECIPIENT";
  selectedRid := JStr "";
  sdk := "not wired" |}.

Definition setWrappedKey (v : jsval) (s : state) : state :=
  {| bundleInput := bundleInput s; wrappedKey := v; privHex := privHex s;
     aadText := aadText s; parsed := parsed s; out := out s;
     dekHexIn := dekHexIn s; pubHex := pubHex s; kid := kid s;
     selectedRid := selectedRid s; sdk := sdk s |}.
Definition setPrivHex (v : anyval) (s : state) : state :=
  {| bundleInput := bundleInput s; wrappedKey := wrappedKey s; privHex := v;
     aadText := aadText s; parsed := parsed s; out := out s;
     dekHexIn := dekHexIn s; pubHex := pubHex s; kid := kid s;
     selectedRid := selectedRid s; sdk := sdk s |}.
Definition setAadText (v : string) (s : state) : state :=
  {| bundleInput := bundleInput s; wrappedKey := wrappedKey s;
     privHex := privHex s; aadText := v; parsed := parsed s; out := out s;
     dekHexIn := dekHexIn s; pubHex := pubHex s; kid := kid s;
     selectedRid := selectedRid s; sdk := sdk s |}.
Definition setParsed (v : string) (s : state) : state :=
  {| bundleInput := bundleInput s; wrappedKey := wrappedKey s;
     privHex := privHex s; aadText := aadText s; parsed := v; out := out s;
     dekHexIn := dekHexIn s; pubHex := pubHex s; kid := kid s;
     selectedRid := selectedRid s; sdk := sdk s |}.
Definition setOut (v : out_t) (s : state) : state :=
  {| bundleInput := bundleInput s; wrappedKey := wrappedKey s;
     privHex := privHex s; aadText := aadText s; parsed := parsed s; out := v;
     dekHexIn := dekHexIn s; pubHex := pubHex s; kid := kid s;
     selectedRid := selectedRid s; sdk := sdk s |}.
Definition setDekHexIn (v : string) (s : state) : state :=
  {| bundleInput := bundleInput s; wrappedKey := wrappedKey s;
     privHex := privHex s; aadText := aadText s; parsed := parsed s;
     out := out s; dekHexIn := v; pubHex := pubHex s; kid := kid s;
     selectedRid := selectedRid s; sdk := sdk s |}.
Definition setPubHex (v : anyval) (s : state) : state :=
  {| bundleInput := bundleInput s; wrappedKey := wrappedKey s;
     privHex := privHex s; aadText := aadText s; parsed := parsed s;
     out := out s; dekHexIn := dekHexIn s; pubHex := v; kid := kid s;
     selectedRid := selectedRid s; sdk := sdk s |}.
Definition setKid (v : jsval) (s : state) : state :=
  {| bundleInput := bundleInput s; wrappedKey := wrappedKey s;
     privHex := privHex s; aadText := aadText s; parsed := parsed s;
     out := out s; dekHexIn := dekHexIn s; pubHex := pubHex s; kid := v;
     selectedRid := selectedRid s; sdk := sdk s |}.
Definition onStatus (v : string) (s : state) : state :=
  {| bundleInput := bundleInput s; wrappedKey := wrappedKey s;
     privHex := privHex s; aadText := aadText s; parsed := parsed s;
     out := out s; dekHexIn := dekHexIn s; pubHex := pubHex s; kid := kid s;
     selectedRid := selectedRid s; sdk := v |}.

Section Handlers.

Variable X : Externals.
Variable view : state.

(** [setParsed(JSON.stringify(parseWk1(k), null, 2))] inside its own
    [try { } catch {}]. *)
Definition try_parse (k : jsval) : action state unit :=
  try_catch
    (obj <~ lift (parseWk1 X k) ;;
     modify (setParsed (JSON_stringify X obj)))
    (fun _ => ret tt).

(** [if (map && typeof map === "object" && entry?.rid && map[entry.rid])
    set(map[entry.rid])] *)
Definition copy_from_map (map erid : jsval) (set : anyval -> state -> state)
  : action state unit :=
  match as_object map with
  | Some o =>
      if truthy erid then
        v <~ lift (index_by X o erid) ;;
        when (truthy_any v) (modify (set v))
      else ret tt
  | None => ret tt
  end.

(** What the prefill copies from the chosen recipient entry. *)
Definition fill_from_entry (bundle entry : jsval) : action state unit :=
  let privMap := opt_member bundle "recipientPrivHexByRid" in
  let erid := opt_member entry "rid" in
  when (truthy (opt_member entry "wrappedKey"))
       (modify (setWrappedKey (prop entry "wrappedKey"))) ;;;
  when (truthy erid) (modify (setKid erid)) ;;;
  copy_from_map privMap erid setPrivHex ;;;
  let pubMap := opt_member bundle "recipientPubHexByRid" in
  copy_from_map pubMap erid setPubHex ;;;
  when (truthy (opt_member entry "wrappedKey"))
       (try_parse (prop entry "wrappedKey")).

(** The legacy single-recipient fallback of the prefill. *)
Definition fill_legacy (bundle : jsval) : action state unit :=
  let recipient := opt_member bundle "recipient" in
  when (truthy (opt_member bundle "wrappedKey"))
       (modify (setWrappedKey (prop bundle "wrappedKey"))) ;;;
  when (truthy (opt_member recipient "recipientPrivHex"))
       (modify (setPrivHex (Plain (prop recipient "recipientPrivHex")))) ;;;
  when (truthy (opt_member recipient "recipientPubHex"))
       (modify (setPubHex (Plain (prop recipient "recipientPubHex")))) ;;;
  when (truthy (opt_member recipient "rid"))
       (modify (setKid (prop recipient "rid"))) ;;;
  (match opt_member bundle "dekHex" with
   | JStr d => when (nonempty d) (modify (setDekHexIn d))
   | _ => ret tt
   end) ;;;
  (match opt_member (opt_member bundle "raw") "dekHex" with
   | JStr d => when (nonempty d) (modify (setDekHexIn d))
   | _ => ret tt
   end).

Definition fillFromBundle : action state unit :=
  try_catch
    (bundle <~ lift (parse_bundle X (bundleInput view)) ;;
     (match opt_member bundle "aadText" with
      | JStr a => modify (setAadText a)
      | _ => ret tt
      end) ;;;
     match recipients_of (opt_member bundle "envelope") with
     | JArr (first :: rest) =>
         let ridToUse := js_or (selectedRid view) (opt_member first "rid") in
         found <~ lift (find_by_rid (negb (truthy (selectedRid view)))
                                    (first :: rest) ridToUse) ;;
         fill_from_entry bundle (js_or found first)
     | _ => fill_legacy bundle
     end)
    (fun _ => ret tt).

Definition doParse : action state unit :=
  try_catch
    (obj <~ lift (parseWk1 X (wrappedKey view)) ;;
     modify (setParsed (JSON_stringify X obj)) ;;;
     modify (fun s => setOut {| dekHex := dekHex (out s); error := "" |} s))
    (fun e =>
       modify (setParsed "") ;;;
       msg <~ lift (errText e) ;;
       modify (setOut {| dekHex := ""; error := msg |})).

Definition doUnwrap : action state unit :=
  modify (onStatus "running") ;;;
  modify (setOut {| dekHex := ""; error := "" |}) ;;;
  try_catch
    (throw_if (negb (truthy (wrappedKey view))) "wrappedKey required" ;;;
     throw_if (negb (truthy_any (privHex view))) "recipientPrivHex required" ;;;
     obj <~ lift (parseWk1 X (wrappedKey view)) ;;
     modify (setParsed (JSON_stringify X obj)) ;;;
     dek <~ await_unwrap X {| ua_wrappedKey := wrappedKey view;
                              ua_recipientPrivKeyHex := privHex view;
                              ua_aadText := or_undefined (aadText view) |} ;;
     modify (setOut {| dekHex := u8ToHex dek; error := "" |}) ;;;
     modify (onStatus "ok"))
    (fun e =>
       msg <~ lift (errText e) ;;
       modify (setOut {| dekHex := ""; error := msg |}) ;;;
       modify (onStatus "error")).

(** [doWrap] with the strings [pub] and [k] in the [pubHex] and [kid]
    fields. *)
Definition doWrap_with (pub k : string) : action state unit :=
  modify (onStatus "running") ;;;
  modify (setOut {| dekHex := ""; error := "" |}) ;;;
  try_catch
    (throw_if (negb (nonempty (dekHexIn view))) "dekHex required (0x.. 32 bytes)" ;;;
     throw_if (negb (nonempty pub)) "recipientPubHex required" ;;;
     throw_if (negb (nonempty k)) "kid required" ;;;
     throw_if (negb (truthy_any (privHex view)))
       "recipientPrivHex required for auto-sanity unwrap (optional)" ;;;
     dek <~ lift (hexToU8 (dekHexIn view)) ;;
     throw_if (negb (List.length dek =? 32)%nat)
       "DEK must be 32 bytes (64 hex chars)" ;;;
     wk <~ await_wrap X {| wa_dek := dek;
                           wa_recipientPubKeyHex := pub;
                           wa_kid := k;
                           wa_aadText := or_undefined (aadText view) |} ;;
     modify (setWrappedKey (JStr wk)) ;;;
     obj <~ lift (parseWk1 X (JStr wk)) ;;
     modify (setParsed (JSON_stringify X obj)) ;;;
     dek2 <~ await_unwrap X {| ua_wrappedKey := JStr wk;
                               ua_recipientPrivKeyHex := privHex view;
                               ua_aadText := or_undefined (aadText view) |} ;;
     modify (setOut {| dekHex := u8ToHex dek2; error := "" |}) ;;;
     modify (onStatus "ok"))
    (fun e =>
       msg <~ lift (errText e) ;;
       modify (setOut {| dekHex := ""; error := msg |}) ;;;
       modify (onStatus "error")).

(** [doWrap].  The [pubHex] and [kid] fields hold strings unless a
    prefill copied some other value out of a bundle; what the SDK does
    with a key or a kid that is no string is outside the embedding. *)
Definition doWrap : option (action state unit) :=
  match pubHex view, kid view with
  | Plain (JStr pub), JStr k => Some (doWrap_with pub k)
  | _, _ => None
  end.

End Handlers.

End WK1Panel.

(* ================================================================= *)
(** ** src/App.jsx: VectorsPanel *)

Module VectorsPanel.

(** Component state ([res] is [null] or the object last passed to
    [setRes]), the [bundleInput] prop, what the panel reports to [App]
    (the two status fields, the tab, the bundle text), and the number of
    secret keys drawn so far. *)
Record state : Type := {
  bundleInput : string;
  res : option jsval;
  includePriv : bool;
  toast : string;
  importJson : string;
  autoRunAfterImport : bool;
  tab : string;
  sdk : string;
  vectors : string;
  draws : nat }.

Definition initial : state := {|
  bundleInput := "";
  res := None;
  includePriv := false;
  toast := "";
  importJson := "";
  autoRunAfterImport := true;
  tab := "vectors";
  sdk := "not wired";
  vectors := "idle";
  draws := 0 |}.

Definition setRes (v : option jsval) (s : state) : state :=
  {| bundleInput := bundleInput s; res := v; includePriv := includePriv s;
     toast := toast s; importJson := importJson s;
     autoRunAfterImport := autoRunAfterImport s; tab := tab s;
     sdk := sdk s; vectors := vectors s; draws := draws s |}.
Definition setToast (v : string) (s : state) : state :=
  {| bundleInput := bundleInput s; res := res s; includePriv := includePriv s;
     toast := v; importJson := importJson s;
     autoRunAfterImport := autoRunAfterImport s; tab := tab s;
     sdk := sdk s; vectors := vectors s; draws := draws s |}.
Definition setIncludePriv (v : bool) (s : state) : state :=
  {| bundleInput := bundleInput s; res := res s; includePriv := v;
     toast := toast s; importJson := importJson s;
     autoRunAfterImport := autoRunAfterImport s; tab := tab s;
     sdk := sdk s; vectors := vectors s; draws := draws s |}.
Definition setImportJson (v : string) (s : state) : state :=
  {| bundleInput := bundleInput s; res := res s; includePriv := includePriv s;
     toast := toast s; importJson := v;
     autoRunAfterImport := autoRunAfterImport s; tab := tab s;
     sdk := sdk s; vectors := vectors s; draws := draws s |}.
Definition setBundleInput (v : string) (s : state) : state :=
  {| bundleInput := v; res := res s; includePriv := includePriv s;
     toast := toast s; importJson := importJson s;
     autoRunAfterImport := autoRunAfterImport s; tab := tab s;
     sdk := sdk s; vectors := vectors s; draws := draws s |}.
Definition setTab (v : string) (s : state) : state :=
  {| bundleInput := bundleInput s; res := res s; includePriv := includePriv s;
     toast := toast s; importJson := importJson s;
     autoRunAfterImport := autoRunAfterImport s; tab := v;
     sdk := sdk s; vectors := vectors s; draws := draws s |}.
(** [App]'s handler sets both status fields. *)
Definition onStatus (v : string) (s : state) : state :=
  {| bundleInput := bundleInput s; res := res s; includePriv := includePriv s;
     toast := toast s; importJson := importJson s;
     autoRunAfterImport := autoRunAfterImport s; tab := tab s;
     sdk := v; vectors := v; draws := draws s |}.
Definition drew (s : state) : state :=
  {| bundleInput := bundleInput s; res := res s; includePriv := includePriv s;
     toast := toast s; importJson := importJson s;
     autoRunAfterImport := autoRunAfterImport s; tab := tab s;
     sdk := sdk s; vectors := vectors s; draws := S (draws s) |}.

Definition vectorToBundle (v : jsval) : result jsval :=
  if negb (truthy v) || negb (String.eqb (typeof v) "object") then
    Throw (Error "Invalid vector JSON")
  else if negb (truthy (opt_member (prop v "raw") "ciphertextB64url"))
          || negb (truthy (opt_member (prop v "raw") "nonceB64url")) then
    Throw (Error "Vector missing raw.ciphertextB64url/nonceB64url")
  else if negb (truthy (prop v "envelope")) then
    Throw (Error "Vector missing envelope")
  else if negb (truthy (prop v "wrappedKey")) then
    Throw (Error "Vector missing wrappedKey")
  else if negb (truthy (prop v "recipientPrivHex")) then
    Throw (Error "Vector missing recipientPrivHex. Re-export with 'include demo privkey' enabled.")
  else
    let raw := prop v "raw" in
    Ok (JObj
      [("aadText", match prop v "aadText" with
                   | JStr a => JStr a
                   | _ => JStr ""
                   end);
       ("raw", JObj ([("ciphertextB64url", prop raw "ciphertextB64url");
                      ("nonceB64url", prop raw "nonceB64url");
                      ("ciphertextHash", prop raw "ciphertextHash")]
                     ++ (if truthy (prop raw "aadHash")
                         then [("aadHash", prop raw "aadHash")]
                         else []))%list);
       ("envelope", prop v "envelope");
       ("wrappedKey", prop v "wrappedKey");
       ("recipient", JObj [("rid", prop v "rid");
                           ("recipientPubHex", prop v "recipientPubHex");
                           ("recipientPrivHex", prop v "recipientPrivHex")])]).

Section Handlers.

Variable X : Externals.
Variable view : state.

(** [importVectorFile], given the text of the chosen file. *)
Definition importVectorFile (text : string) : action state unit :=
  try_catch
    (v <~ lift (JSON_parse X text) ;;
     bundle <~ lift (vectorToBundle v) ;;
     let bundleStr := JSON_stringify X bundle in
     modify (setImportJson bundleStr) ;;;
     modify (setToast "Vector imported") ;;;
     modify (setBundleInput bundleStr) ;;;
     modify (setTab "decrypt") ;;;
     if autoRunAfterImport view then ret tt
     else modify (onStatus "ok"))
    (fun e =>
       modify (setToast "Import failed") ;;;
       msg <~ lift (errText e) ;;
       modify (setRes (Some (JObj [("mode", JStr "import");
                                   ("ok", JBool false);
                                   ("error", JStr msg)]))) ;;;
       modify (onStatus "error")).

Definition checks_object (hashMatch aadMatch decryptOk : bool) : jsval :=
  JObj [("envelopeValid", JBool true);
        ("wk1Parsed", JBool true);
        ("hashMatch", JBool hashMatch);
        ("aadMatch", JBool aadMatch);
        ("decryptOk", JBool decryptOk)].

(** What [runFromBundle] has resolved when it reaches its first [await]. *)
Record resolved : Type := {
  rs_raw : jsval;
  rs_envelope : jsval;
  rs_aadText : string;
  rs_wrappedKey : jsval;
  rs_privHex : anyval;
  rs_rid : jsval }.

(** The body of [try] in [runFromBundle] up to "2) unwrap". *)
Definition bundle_prepare : action state resolved :=
  bundle <~ lift (parse_bundle X (bundleInput view)) ;;
  raw <~ lift (destructure bundle "raw") ;;
  envelope <~ lift (destructure bundle "envelope") ;;
  let aadText :=
    match prop bundle "aadText" with JStr a => a | _ => "" end in
  throw_if (negb (truthy (opt_member raw "ciphertextB64url"))
            || negb (truthy (opt_member raw "nonceB64url")))
           "bundle.raw missing ciphertextB64url/nonceB64url" ;;;
  throw_if (negb (truthy envelope)) "bundle.envelope missing" ;;;
  (* 1) validate envelope structure *)
  validate_call X envelope ;;;
  let wrappedKey0 := js_or (opt_member bundle "wrappedKey") (JStr "") in
  let privHex0 :=
    js_or (opt_member (opt_member bundle "recipient") "recipientPrivHex")
          (JStr "") in
  let rid0 :=
    js_or (js_or (opt_member (opt_member bundle "recipient") "rid")
                 (opt_member
                    (opt_member
                       (opt_member (opt_member envelope "access") "recipients")
                       "0")
                    "rid"))
          (JStr "") in
  r <~
    (if negb (truthy wrappedKey0) then
       (* multi-recipient bundle style *)
       match recipients_of envelope with
       | JArr (entry :: _) =>
           throw_if (negb (truthy (opt_member entry "wrappedKey")))
             "No wrappedKey found in envelope.access.recipients[0]" ;;;
           let privMap := opt_member bundle "recipientPrivHexByRid" in
           privHex <~ lift (match as_object privMap with
                            | Some o =>
                                v <- index_by X o (prop entry "rid") ;;
                                Ok (any_or v privHex0)
                            | None => Ok (Plain privHex0)
                            end) ;;
           ret (prop entry "wrappedKey", privHex,
                js_or (prop entry "rid") rid0)
       | _ => throw (Error "envelope.access.recipients missing/empty")
       end
     else ret (wrappedKey0, Plain privHex0, rid0)) ;;
  let '(wrappedKey, privHex, rid) := r in
  throw_if (negb (truthy wrappedKey))
    "No wrappedKey available in bundle (expected bundle.wrappedKey or envelope.access.recipients[0].wrappedKey)" ;;;
  throw_if (negb (truthy_any privHex))
    "No recipient privkey available in bundle (expected bundle.recipient.recipientPrivHex or bundle.recipientPrivHexByRid[rid])" ;;;
  ret {| rs_raw := raw; rs_envelope := envelope; rs_aadText := aadText;
         rs_wrappedKey := wrappedKey; rs_privHex := privHex; rs_rid := rid |}.

Definition runFromBundle : action state unit :=
  modify (onStatus "running") ;;;
  modify (setRes None) ;;;
  try_catch
    (r <~ bundle_prepare ;;
     (* 2) unwrap *)
     dek <~ await_unwrap X {| ua_wrappedKey := rs_wrappedKey r;
                              ua_recipientPrivKeyHex := rs_privHex r;
                              ua_aadText := or_undefined (rs_aadText r) |} ;;
     (* 3) decrypt *)
     plaintext <~ await_decrypt X
                    {| da_envelope := rs_envelope r;
                       da_dek := dek;
                       da_ciphertextB64url := prop (rs_raw r) "ciphertextB64url";
                       da_nonceB64url := prop (rs_raw r) "nonceB64url";
                       da_aadText := or_undefined (rs_aadText r) |} ;;
     (* 4) hash checks *)
     let hashMatch :=
       strict_eq (prop (rs_raw r) "ciphertextHash")
                 (prop (rs_envelope r) "ciphertextHash") in
     let aadMatch :=
       negb (truthy (prop (rs_envelope r) "aadHash"))
       || strict_eq (prop (rs_raw r) "aadHash")
                    (prop (rs_envelope r) "aadHash") in
     modify (setRes (Some (JObj
       [("mode", JStr "bundle");
        ("ok", JBool true);
        ("plaintext", JStr plaintext);
        ("checks", checks_object hashMatch aadMatch true);
        ("meta", JObj [("rid", rs_rid r);
                       ("createdAt", prop (rs_envelope r) "createdAt")])]))) ;;;
     modify (onStatus "ok"))
    (fun e =>
       msg <~ lift (errText e) ;;
       modify (setRes (Some (JObj [("mode", JStr "bundle");
                                   ("ok", JBool false);
                                   ("error", JStr msg)]))) ;;;
       modify (onStatus "error")).

Definition plaintextIn : string := "vector: hello from PXP-201".
Definition vectors_aadText : string := "app:pxp201-ui|vectors:v0.1".
Definition vectors_rid : string := "did:pkh:eip155:1:0xDEMO_RECIPIENT".

Definition runGenerate : action state unit :=
  modify (onStatus "running") ;;;
  modify (setRes None) ;;;
  try_catch
    (let aadText := vectors_aadText in
     let rid := vectors_rid in
     s <~ get_state ;;
     let priv := randomSecretKey X (draws s) in
     modify drew ;;;
     let pub := getPublicKey X priv in
     let privHex := u8ToHex priv in
     let pubHex := u8ToHex pub in
     raw <~ await_encrypt X {| ea_plaintext := plaintextIn;
                               ea_cipher := "AES-256-GCM";
                               ea_aadText := JStr aadText |} ;;
     wk <~ await_wrap X {| wa_dek := raw_dek raw;
                           wa_recipientPubKeyHex := pubHex;
                           wa_kid := rid;
                           wa_aadText := JStr aadText |} ;;
     let env := build_envelope X raw [(rid, wk)] in
     validate_call X env ;;;
     dek2 <~ await_unwrap X {| ua_wrappedKey := JStr wk;
                               ua_recipientPrivKeyHex := JStr privHex;
                               ua_aadText := JStr aadText |} ;;
     plaintextOut <~ await_decrypt X
                       {| da_envelope := env;
                          da_dek := dek2;
                          da_ciphertextB64url := JStr (raw_ciphertextB64url raw);
                          da_nonceB64url := JStr (raw_nonceB64url raw);
                          da_aadText := JStr aadText |} ;;
     let decryptOk := String.eqb plaintextOut plaintextIn in
     let hashMatch :=
       strict_eq (JStr (raw_ciphertextHash raw)) (prop env "ciphertextHash") in
     let raw_aad :=
       match raw_aadHash raw with Some h => JStr h | None => JUndefined end in
     let aadMatch :=
       negb (truthy (prop env "aadHash"))
       || strict_eq raw_aad (prop env "aadHash") in
     modify (setRes (Some (JObj
       [("mode", JStr "generate");
        ("ok", JBool (decryptOk && hashMatch && aadMatch));
        ("plaintext", JStr plaintextOut);
        ("checks", checks_object hashMatch aadMatch decryptOk);
        ("generated",
         JObj [("aadText", JStr aadText);
               ("rid", JStr rid);
               ("recipientPubHex", JStr pubHex);
               ("recipientPrivHex", JStr privHex);
               ("wrappedKey", JStr wk);
               ("raw", JObj ([("nonceB64url", JStr (raw_nonceB64url raw));
                              ("ciphertextB64url", JStr (raw_ciphertextB64url raw));
                              ("ciphertextHash", JStr (raw_ciphertextHash raw))]
                             ++ aadHash_field raw)%list);
               ("envelope", env)])]))) ;;;
     modify (onStatus "ok"))
    (fun e =>
       msg <~ lift (errText e) ;;
       modify (setRes (Some (JObj [("mode", JStr "generate");
                                   ("ok", JBool false);
                                   ("error", JStr msg)]))) ;;;
       modify (onStatus "error")).

(** The vector the "Download vector JSON" and "Copy vector JSON" buttons
    build from [res.generated]. *)
Definition exported_vector (generated : jsval) (includePriv : bool) : jsval :=
  let v := obj_set "recipientPrivHex"
             (if includePriv then prop generated "recipientPrivHex" else JUndefined)
             (spread generated) in
  JObj (if includePriv then v else obj_delete "recipientPrivHex" v).

(** "Download vector JSON": the arguments of the [downloadText] call, if
    one is made. *)
Definition downloadVector : action state (option (string * string)) :=
  let generated :=
    match res view with
    | Some r => opt_member r "generated"
    | None => JUndefined
    end in
  if negb (truthy generated) then ret None
  else ret (Some ("pxp201-vector.json",
                  JSON_stringify X (exported_vector generated (includePriv view)))).

End Handlers.

End VectorsPanel.


(* ================================================================= *)
(** * Auxiliary definitions used by the statements and proofs *)


(** The two-character slices [h.slice(2i, 2i+2)] of an even-length string. *)
Fixpoint pairs (s : string) : list (ascii * ascii) :=
  match s with
  | String a (String b r) => (a, b) :: pairs r
  | _ => []
  end.

(** What one slice contributes, read off the characters: both digits, the
    leading digit alone, a digit behind white space or a sign, or nothing. *)
Definition pair_byte (c1 c2 : ascii) : byte :=
  match hex_value c1, hex_value c2 with
  | Some a, Some b => ToUint8 (Some (16 * a + b)%Z)
  | Some a, None => ToUint8 (Some a)
  | None, Some b =>
      if is_js_whitespace c1 || Ascii.eqb c1 "+" then ToUint8 (Some b)
      else if Ascii.eqb c1 "-" then ToUint8 (Some (- b)%Z)
      else x00
  | None, None => x00
  end.

Definition all_ascii : list ascii := map ascii_of_nat (seq 0 256).

(** [btoa] without its padding. *)
Fixpoint b64_body (bin : string) : string :=
  match bin with
  | "" => ""
  | String a "" =>
      let '(s1, s2, _, _) := split3 a zero zero in
      String (sextet_char s1) (String (sextet_char s2) "")
  | String a (String b "") =>
      let '(s1, s2, s3, _) := split3 a b zero in
      String (sextet_char s1) (String (sextet_char s2)
        (String (sextet_char s3) ""))
  | String a (String b (String c r)) =>
      let '(s1, s2, s3, s4) := split3 a b c in
      String (sextet_char s1) (String (sextet_char s2)
        (String (sextet_char s3) (String (sextet_char s4) (b64_body r))))
  end.

Definition to_url (c : ascii) : ascii :=
  let c1 := if Ascii.eqb c "+" then "-"%char else c in
  if Ascii.eqb c1 "/" then "_"%char else c1.

Definition from_url (c : ascii) : ascii :=
  let c1 := if Ascii.eqb c "-" then "+"%char else c in
  if Ascii.eqb c1 "_" then "/"%char else c1.

Definition pad_to4 (s : string) : string :=
  padEnd s ((String.length s + 3) / 4 * 4) "=".

(** A compact [JSON.stringify] for strings that need no escapes, and a
    [JSON.parse] that knows the texts of given documents (and [{}]) and
    rejects every other text; used to run the handlers on concrete
    inputs. *)
Definition SyntaxError (msg : string) : thrown := ErrorObj "SyntaxError" msg.

Definition dquote : string := String (ascii_of_nat 34) "".

Fixpoint to_json (v : jsval) : string :=
  match v with
  | JUndefined | JNull => "null"
  | JBool true => "true"
  | JBool false => "false"
  | JNum z => number_to_string z
  | JStr s => dquote ++ s ++ dquote
  | JArr items => "[" ++ join_strings "," (map to_json items) ++ "]"
  | JObj fields =>
      "{" ++ join_strings ","
               (flat_map (fun kv =>
                            match kv with
                            | (_, JUndefined) => []
                            | (k, x) => [dquote ++ k ++ dquote ++ ":" ++ to_json x]
                            end) fields)
          ++ "}"
  end.

Fixpoint table_parse (table : list jsval) (text : string) : result jsval :=
  match table with
  | [] => if String.eqb text "{}" then Ok (JObj [])
          else Throw (SyntaxError "Unexpected token in JSON")
  | v :: r => if String.eqb (to_json v) text then Ok v else table_parse r text
  end.

(** A transparent stand-in for the SDK that satisfies its contracts: the
    ciphertext is the plaintext, the wrapped key spells out the key bytes,
    every envelope validates. *)
Definition toy_sdk (table : list jsval) : Externals := {|
  JSON_parse := table_parse table;
  JSON_stringify := to_json;
  Date_now := 1700000000000;
  validateEnvelope := fun _ => None;
  unwrapDEK_secp256k1 := fun a =>
    match ua_wrappedKey a with
    | JStr wk => Ok (list_byte_of_string wk)
    | _ => Throw (Error "wrappedKey must be a string")
    end;
  decryptTextFromEnvelope := fun a =>
    match da_ciphertextB64url a with
    | JStr c => Ok c
    | _ => Throw (Error "ciphertext must be a string")
    end;
  encryptTextRaw := fun a =>
    Ok {| raw_dek := [x64; x65; x6b];
          raw_ciphertextB64url := ea_plaintext a;
          raw_nonceB64url := "bm9uY2U";
          raw_ciphertextHash := "0xc1";
          raw_aadHash := match ea_aadText a with
                         | JStr _ => Some "0xaa"
                         | _ => None
                         end |};
  wrapDEK_secp256k1 := fun a => Ok (string_of_list_byte (wa_dek a));
  randomSecretKey := fun n => [x2a; match Byte.of_nat n with
                                    | Some b => b
                                    | None => xff
                                    end];
  getPublicKey := fun priv => x02 :: priv;
  Array_prototype_keys :=
    ["constructor"; "at"; "concat"; "copyWithin"; "entries"; "every"; "fill";
     "filter"; "find"; "findIndex"; "findLast"; "findLastIndex"; "flat";
     "flatMap"; "forEach"; "includes"; "indexOf"; "join"; "keys";
     "lastIndexOf"; "map"; "pop"; "push"; "reduce"; "reduceRight"; "reverse";
     "shift"; "slice"; "some"; "sort"; "splice"; "toLocaleString";
     "toReversed"; "toSorted"; "toSpliced"; "toString"; "unshift"; "values";
     "with"];
  first_rejected := fun _ => 0%nat |}.

(** Vocabulary of the claims about bundles and vectors.  A field is
    missing when the code's own test [!x] holds of it. *)
Definition missing (v : jsval) : bool := negb (truthy v).

Definition is_object (v : jsval) : bool :=
  truthy v && String.eqb (typeof v) "object".

Definition raw_field (v : jsval) (k : string) : jsval :=
  opt_member (opt_member v "raw") k.

Definition vector_incomplete (v : jsval) : bool :=
  negb (is_object v)
  || missing (raw_field v "ciphertextB64url")
  || missing (raw_field v "nonceB64url")
  || missing (opt_member v "envelope")
  || missing (opt_member v "wrappedKey")
  || missing (opt_member v "recipientPrivHex").

(** [envelope.access.recipients] is missing, not an array, or empty. *)
Definition lacks_recipients (bundle : jsval) : bool :=
  match opt_member (opt_member (opt_member bundle "envelope") "access")
                   "recipients" with
  | JArr (_ :: _) => false
  | _ => true
  end.

(** The rid equals the [rid] of no entry of the list. *)
Definition matches_no_entry (recips : list jsval) (rid : jsval) : bool :=
  forallb (fun x => negb (strict_eq (opt_member x "rid") rid)) recips.

Definition no_null_entry (recips : list jsval) : bool :=
  forallb (fun x => negb (is_nullish x)) recips.

(** A vector of the legacy single-recipient convention. *)
Definition sample_vector : jsval :=
  JObj [("aadText", JStr "app:pxp201-ui|vectors:v0.1");
        ("rid", JStr "did:pkh:eip155:1:0xDEMO_RECIPIENT");
        ("recipientPubHex", JStr "0x02aa");
        ("recipientPrivHex", JStr "0x2a00");
        ("wrappedKey", JStr "pxp201:wk1:e30");
        ("raw", JObj [("nonceB64url", JStr "bm9uY2U");
                      ("ciphertextB64url", JStr "Y2lwaGVy");
                      ("ciphertextHash", JStr "0xc1");
                      ("aadHash", JStr "0xaa")]);
        ("envelope", JObj [("v", JStr "0.1"); ("ciphertextHash", JStr "0xc1")])].

(** What [out] holds after a failed run, and the panel right after [run]
    has started. *)
Definition failed (msg : string) : DecryptPanel.out_t :=
  {| DecryptPanel.ok := false; DecryptPanel.plaintext := "";
     DecryptPanel.info := ""; DecryptPanel.error := msg |}.

Definition begun (s : DecryptPanel.state) : DecryptPanel.state :=
  DecryptPanel.setOut DecryptPanel.blank
    (DecryptPanel.onStatus "running"
       (DecryptPanel.setRunIdRef (DecryptPanel.runIdRef s + 1)%N s)).

(** What [res] holds after a failed Vectors run. *)
Definition failed_res (mode : string) (msg : string) : jsval :=
  JObj [("mode", JStr mode); ("ok", JBool false); ("error", JStr msg)].

(** Concrete bundles and panels for running the handlers. *)
Definition bundle_without_recipients : jsval :=
  JObj [("aadText", JStr "app:pxp201-ui|v0.1");
        ("raw", JObj [("ciphertextB64url", JStr "Y2lwaGVy");
                      ("nonceB64url", JStr "bm9uY2U");
                      ("ciphertextHash", JStr "0xc1")]);
        ("envelope", JObj [("v", JStr "0.1");
                           ("access", JObj [("mode", JStr "RECIPIENTS")]);
                           ("ciphertextHash", JStr "0xc1")])].

Definition legacy_bundle_without_recipients : jsval :=
  JObj [("aadText", JStr "app:pxp201-ui|v0.1");
        ("raw", JObj [("ciphertextB64url", JStr "Y2lwaGVy");
                      ("nonceB64url", JStr "bm9uY2U");
                      ("ciphertextHash", JStr "0xc1")]);
        ("envelope", JObj [("v", JStr "0.1");
                           ("ciphertextHash", JStr "0xc1")]);
        ("wrappedKey", JStr "pxp201:wk1:e30");
        ("recipient", JObj [("rid", JStr "did:example:alice");
                            ("recipientPrivHex", JStr "0x2a00")])].

Definition decrypt_view (text : string) : DecryptPanel.state :=
  DecryptPanel.setBundleInput text DecryptPanel.initial.

Definition vectors_view (text : string) : VectorsPanel.state :=
  VectorsPanel.setBundleInput text VectorsPanel.initial.

(** The WK1 panel after the prefill has copied the bundle's AAD text. *)
Definition aad_synced (bundle : jsval) (s : WK1Panel.state) : WK1Panel.state :=
  match opt_member bundle "aadText" with
  | JStr a => WK1Panel.setAadText a s
  | _ => s
  end.


Definition bundle_with_null_entry : jsval :=
  JObj [("raw", JObj [("ciphertextB64url", JStr "Y2lwaGVy");
                      ("nonceB64url", JStr "bm9uY2U")]);
        ("envelope",
         JObj [("access",
                JObj [("recipients",
                       JArr [JObj [("rid", JStr "did:example:alice");
                                   ("wrappedKey", JStr "pxp201:wk1:e30")];
                             JNull])])]);
        ("recipientPrivHexByRid", JObj [("did:example:alice", JStr "0x2a00")])].

Definition wk1_view (text : string) (rid : jsval) : WK1Panel.state :=
  {| WK1Panel.bundleInput := text;
     WK1Panel.wrappedKey := JStr "";
     WK1Panel.privHex := Plain (JStr "");
     WK1Panel.aadText := "app:pxp201-ui|v0.1";
     WK1Panel.parsed := "";
     WK1Panel.out := {| WK1Panel.dekHex := ""; WK1Panel.error := "" |};
     WK1Panel.dekHexIn := "";
     WK1Panel.pubHex := Plain (JStr "");
     WK1Panel.kid := JStr "did:pkh:eip155:1:0xDEMO_RECIPIENT";
     WK1Panel.selectedRid := rid;
     WK1Panel.sdk := "not wired" |}.


Definition alice_entry : jsval :=
  JObj [("rid", JStr "did:example:alice"); ("wrappedKey", JStr "AQID")].

Definition bob_entry : jsval :=
  JObj [("rid", JStr "did:example:bob"); ("wrappedKey", JStr "BAUG")].

Definition bundle_two_recipients : jsval :=
  JObj [("aadText", JStr "app:pxp201-ui|v0.1");
        ("raw", JObj [("ciphertextB64url", JStr "Y2lwaGVy");
                      ("nonceB64url", JStr "bm9uY2U");
                      ("ciphertextHash", JStr "0xc1")]);
        ("envelope",
         JObj [("access", JObj [("recipients", JArr [alice_entry; bob_entry])]);
               ("ciphertextHash", JStr "0xc1")]);
        ("recipientPrivHexByRid",
         JObj [("did:example:alice", JStr "0x2a00");
               ("did:example:bob", JStr "0x2a01")])].

(** The Decrypt panel's machine: what it writes, and what can reject. *)
Definition succeeded (X : Externals) (plaintext : string)
           (ctx : DecryptPanel.run_ctx) : DecryptPanel.out_t :=
  {| DecryptPanel.ok := true;
     DecryptPanel.plaintext := plaintext;
     DecryptPanel.info :=
       JSON_stringify X
         (JObj [("ciphertextHash", prop (DecryptPanel.ctx_envelope ctx) "ciphertextHash");
                ("aadHash", prop (DecryptPanel.ctx_envelope ctx) "aadHash");
                ("rid", prop (DecryptPanel.ctx_entry ctx) "rid");
                ("createdAt", prop (DecryptPanel.ctx_envelope ctx) "createdAt")]);
     DecryptPanel.error := "" |}.

(** The rejection, if any, with which the awaited promise settles. *)
Definition rejection (X : Externals) (p : DecryptPanel.pending) : option thrown :=
  match p with
  | DecryptPanel.AwaitUnwrap _ a _ =>
      match unwrapDEK_secp256k1 X a with Throw e => Some e | Ok _ => None end
  | DecryptPanel.AwaitDecrypt _ a _ =>
      match decryptTextFromEnvelope X a with Throw e => Some e | Ok _ => None end
  end.

Definition decrypt_call (dek : list byte) (ctx : DecryptPanel.run_ctx) : decrypt_args :=
  {| da_envelope := DecryptPanel.ctx_envelope ctx;
     da_dek := dek;
     da_ciphertextB64url := prop (DecryptPanel.ctx_raw ctx) "ciphertextB64url";
     da_nonceB64url := prop (DecryptPanel.ctx_raw ctx) "nonceB64url";
     da_aadText := or_undefined (DecryptPanel.ctx_aadText ctx) |}.

(** Writing [o] and [status] if the run is still the latest one. *)
Definition write_if_current (runId : N) (o : DecryptPanel.out_t) (status : string)
           (s : DecryptPanel.state) : DecryptPanel.state :=
  if (runId =? DecryptPanel.runIdRef s)%N
  then DecryptPanel.onStatus status (DecryptPanel.setOut o s)
  else s.

(** What the [catch] clause of [run] does with the caught value [e]:
    nothing when the run is stale; otherwise it writes the text of [e]
    and the status, or, when [e] has no text, throws what the conversion
    throws and writes nothing. *)
Definition caught (runId : N) (e : thrown) (s : DecryptPanel.state)
  : (list sdk_call * DecryptPanel.state) * result (option DecryptPanel.pending) :=
  if (runId =? DecryptPanel.runIdRef s)%N then
    match errText e with
    | Ok msg =>
        (([], DecryptPanel.onStatus "error"
                (DecryptPanel.setOut (failed msg) s)), Ok None)
    | Throw e' => (([], s), Throw e')
    end
  else (([], s), Ok None).

Definition named (e : thrown) : bool :=
  match e with
  | ErrorObj name _ => nonempty name
  | ThrownValue _ => false
  end.

(** The caught value has a text: [String(e?.message || e)] returns. *)
Definition has_text (e : thrown) : Prop := exists msg, errText e = Ok msg.

(** The text of the caught value, and the empty text when it has none:
    what an error display that was blank holds after the [catch] clause. *)
Definition text_or_blank (e : thrown) : string :=
  match errText e with
  | Ok msg => msg
  | Throw _ => ""
  end.

(** The status after the [catch] clause of a handler that had set it to
    "running": the clause sets "error" once the text is there. *)
Definition status_after (e : thrown) : string :=
  match errText e with
  | Ok _ => "error"
  | Throw _ => "running"
  end.

(** The caught value has a text, and the text is not empty. *)
Definition worded (e : thrown) : Prop :=
  exists msg, errText e = Ok msg /\ msg <> "".

(** [P] holds of whatever [JSON.parse], [validateEnvelope],
    [unwrapDEK_secp256k1] and [decryptTextFromEnvelope] throw or reject
    with. *)
Definition failures (P : thrown -> Prop) (X : Externals) : Prop :=
  (forall t e, JSON_parse X t = Throw e -> P e)
  /\ (forall v e, validateEnvelope X v = Some e -> P e)
  /\ (forall a e, unwrapDEK_secp256k1 X a = Throw e -> P e)
  /\ (forall a e, decryptTextFromEnvelope X a = Throw e -> P e).

(** The same of [encryptTextRaw] and [wrapDEK_secp256k1]. *)
Definition encrypt_failures (P : thrown -> Prop) (X : Externals) : Prop :=
  (forall a e, encryptTextRaw X a = Throw e -> P e)
  /\ (forall a e, wrapDEK_secp256k1 X a = Throw e -> P e).

(** Whatever the externals throw or reject with has a text. *)
Definition articulate (X : Externals) : Prop := failures has_text X.

(** Whatever the externals throw or reject with has a non-empty text. *)
Definition polite (X : Externals) : Prop := failures worded X.

Definition rejecting_sdk (table : list jsval) (e : thrown) : Externals :=
  let X := toy_sdk table in
  {| JSON_parse := JSON_parse X;
     JSON_stringify := JSON_stringify X;
     Date_now := Date_now X;
     validateEnvelope := validateEnvelope X;
     unwrapDEK_secp256k1 := fun _ => Throw e;
     decryptTextFromEnvelope := decryptTextFromEnvelope X;
     encryptTextRaw := encryptTextRaw X;
     wrapDEK_secp256k1 := wrapDEK_secp256k1 X;
     randomSecretKey := randomSecretKey X;
     getPublicKey := getPublicKey X;
     Array_prototype_keys := Array_prototype_keys X;
     first_rejected := first_rejected X |}.

(** A value without a text: an object whose own [toString] is no
    function. *)
Definition mute : jsval := JObj [("toString", JNull)].

Definition decrypt_world (text : string) : DecryptPanel.world :=
  {| DecryptPanel.panel := decrypt_view text; DecryptPanel.suspended := [] |}.







(* ================================================================= *)
(** ** Properties of handlers *)

Section ActionPredicates.

Context {S : Type}.

(** The handler leaves the observation [f] of the state alone. *)
Definition preserves {A T} (f : S -> T) (m : action S A) : Prop :=
  forall s, f (state_of (m s)) = f s.

(** The handler never throws. *)
Definition total {A} (m : action S A) : Prop :=
  forall s, exists a, outcome_of (m s) = Ok a.

(** Whatever the handler throws satisfies [P]. *)
Definition throws_only {A} (P : thrown -> Prop) (m : action S A) : Prop :=
  forall s e, outcome_of (m s) = Throw e -> P e.

(** Every SDK call the handler makes satisfies [p]. *)
Definition calls_only {A} (p : sdk_call -> bool) (m : action S A) : Prop :=
  forall s, forallb p (trace_of (m s)) = true.

(** The handler neither reads nor writes the state. *)
Definition stateless {A} (m : action S A) : Prop :=
  exists t r, forall s, m s = ((t, s), r).

End ActionPredicates.

(* ================================================================= *)
(** ** EncryptPanel: recipients, key maps and sample states *)

(** Both key fields of a recipient are set. *)
Definition has_keys (r : EncryptPanel.recipient) : bool :=
  nonempty (EncryptPanel.recipientPrivHex r)
  && nonempty (EncryptPanel.recipientPubHex r).

Definition blank_recipient : EncryptPanel.recipient :=
  {| EncryptPanel.rid := "";
     EncryptPanel.recipientPrivHex := "";
     EncryptPanel.recipientPubHex := "" |}.

(** The state [runEncrypt] has cleared before it enters its [try]. *)
Definition cleared (s : EncryptPanel.state) : EncryptPanel.state :=
  EncryptPanel.setEnvelope None
    (EncryptPanel.setWrappedKey ""
       (EncryptPanel.setRawOut None
          (EncryptPanel.setDecryptCheck "" (EncryptPanel.onStatus "running" s)))).





(** One [{ rid, wrappedKey }] entry of the envelope. *)
Definition envelope_entry (e : string * string) : jsval :=
  JObj [("rid", JStr (fst e)); ("wrappedKey", JStr (snd e))].

Definition keyed (rid priv pub : string) : EncryptPanel.recipient :=
  {| EncryptPanel.rid := rid;
     EncryptPanel.recipientPrivHex := priv;
     EncryptPanel.recipientPubHex := pub |}.


(** Two recipients without keys. *)
Definition two_blank : EncryptPanel.state :=
  EncryptPanel.setRecipients
    [keyed "did:example:alice" "" ""; keyed "did:example:bob" "" ""]
    EncryptPanel.initial.

(** The public keys the handler asked the SDK to wrap for, in order. *)
Definition wrapped_for (trace : list sdk_call) : list string :=
  flat_map (fun c => match c with
                     | CallWrap a => [wa_recipientPubKeyHex a]
                     | _ => []
                     end) trace.


(* ================================================================= *)
(** ** The hex codec, both ways *)

(** [c.toLowerCase()] on a radix-16 digit. *)
Definition lower_hex (c : ascii) : ascii :=
  let n := N_of_ascii c in
  if ((65 <=? n) && (n <=? 70))%N then ascii_of_N (n + 32) else c.

Definition is_lower_hex (c : ascii) : bool :=
  let n := N_of_ascii c in
  ((48 <=? n) && (n <=? 57) || (97 <=? n) && (n <=? 102))%N.

(* ================================================================= *)
(** ** The base64url codec and the wk1 payload *)

(** The characters [b64urlToU8] reads as digits: the base64 alphabet and
    its url-safe variants [-] and [_]. *)
Definition is_b64url_digit (c : ascii) : bool := is_base64_char (from_url c).

(** The characters of the url-safe alphabet proper. *)
Definition is_url_safe (c : ascii) : bool :=
  is_b64url_digit c && negb (Ascii.eqb c "+") && negb (Ascii.eqb c "/").

(* ================================================================= *)
(** ** EncryptPanel: what a run calls, stores and reports *)

(** The arguments of the calls [runEncrypt] makes. *)
Definition encrypt_call (view : EncryptPanel.state) : encrypt_args :=
  {| ea_plaintext := EncryptPanel.plaintext view;
     ea_cipher := "AES-256-GCM";
     ea_aadText := or_undefined (EncryptPanel.aadText view) |}.

Definition wrap_call (view : EncryptPanel.state) (raw : raw_out)
           (r : EncryptPanel.recipient) : wrap_args :=
  {| wa_dek := raw_dek raw;
     wa_recipientPubKeyHex := EncryptPanel.recipientPubHex r;
     wa_kid := EncryptPanel.rid r;
     wa_aadText := or_undefined (EncryptPanel.aadText view) |}.

(** What [ensureRecipientAt] returns for a recipient: the same rid, both
    keys set, and the recipient itself when it had both keys. *)
Definition ensured (r0 r : EncryptPanel.recipient) : Prop :=
  EncryptPanel.rid r = EncryptPanel.rid r0
  /\ has_keys r = true
  /\ (has_keys r0 = true -> r = r0).

(** The [catch] clause of [runEncrypt]: the status is set, and then the
    text of what was caught, if it has one. *)
Definition caught_encrypt (e : thrown) (s : EncryptPanel.state)
  : EncryptPanel.state * result unit :=
  match errText e with
  | Ok msg =>
      (EncryptPanel.setDecryptCheck msg (EncryptPanel.onStatus "error" s), Ok tt)
  | Throw e' => (EncryptPanel.onStatus "error" s, Throw e')
  end.

Definition no_call (c : sdk_call) : bool := false.

Definition is_unwrap (c : sdk_call) : bool :=
  match c with CallUnwrap _ => true | _ => false end.

Definition is_decrypt (c : sdk_call) : bool :=
  match c with CallDecrypt _ => true | _ => false end.

(* ================================================================= *)
(** ** EncryptPanel: the recipient list under the panel's events *)

(** The events that edit the recipient list itself. *)
Definition edits_list (ev : EncryptPanel.event) : bool :=
  match ev with
  | EncryptPanel.Click_add | EncryptPanel.Click_remove _
  | EncryptPanel.Edit_recipient _ _ => true
  | _ => false
  end.

(** The events that resume a suspended run. *)
Definition resumes (ev : EncryptPanel.event) : bool :=
  match ev with
  | EncryptPanel.Settle _ => true
  | _ => false
  end.

(** The render a suspended run was started from. *)
Definition view_of (p : EncryptPanel.pending) : EncryptPanel.state :=
  match p with
  | EncryptPanel.AwaitEncrypt view
  | EncryptPanel.AwaitWraps view _ _
  | EncryptPanel.AwaitUnwrap view _
  | EncryptPanel.AwaitDecrypt view _ _ => view
  end.

(** A suspended run resumed [fuel] times with nothing happening in
    between. *)
Fixpoint run_on (X : Externals) (fuel : nat) (p : EncryptPanel.pending)
  : action EncryptPanel.state unit :=
  match fuel with
  | O => ret tt
  | S f =>
      q <~ EncryptPanel.settle X p ;;
      match q with
      | Some p' => run_on X f p'
      | None => ret tt
      end
  end.

(** The list of the panel and the lists of the renders the suspended runs
    were started from are not empty. *)
Definition lists_nonempty (w : EncryptPanel.world) : Prop :=
  EncryptPanel.recipients (EncryptPanel.panel w) <> []
  /\ Forall (fun p => EncryptPanel.recipients (view_of p) <> [])
            (EncryptPanel.suspended w).

(** The Encrypt panel as it is mounted, with no run suspended. *)
Definition encrypt_world (s : EncryptPanel.state) : EncryptPanel.world :=
  {| EncryptPanel.panel := s; EncryptPanel.suspended := [] |}.

(* ================================================================= *)
(** ** DecryptPanel: suspended runs and Clear *)

(** The suspended runs carry strictly increasing identifiers, none above
    the counter. *)
Definition runs_in_order (w : DecryptPanel.world) : Prop :=
  StronglySorted N.lt (map DecryptPanel.pending_id (DecryptPanel.suspended w))
  /\ Forall (fun p => (DecryptPanel.pending_id p
                       <= DecryptPanel.runIdRef (DecryptPanel.panel w))%N)
            (DecryptPanel.suspended w).

(** Every suspended run is stale. *)
Definition all_stale (w : DecryptPanel.world) : Prop :=
  Forall (fun p => (DecryptPanel.pending_id p
                    < DecryptPanel.runIdRef (DecryptPanel.panel w))%N)
         (DecryptPanel.suspended w).

Definition fresh_world (s : DecryptPanel.state) : DecryptPanel.world :=
  {| DecryptPanel.panel := s; DecryptPanel.suspended := [] |}.

(* ================================================================= *)
(** ** From the Encrypt tab to the Decrypt tab *)

(** The unwrap and decrypt calls of [runEncrypt]'s sanity check for a
    recipient [r] and its wrapped key. *)
Definition sanity_unwrap (view : EncryptPanel.state) (r : EncryptPanel.recipient)
           (wk : string) : unwrap_args :=
  {| ua_wrappedKey := JStr wk;
     ua_recipientPrivKeyHex := JStr (EncryptPanel.recipientPrivHex r);
     ua_aadText := or_undefined (EncryptPanel.aadText view) |}.

Definition sanity_decrypt_call (view : EncryptPanel.state) (raw : raw_out)
           (env : jsval) (dek : list byte) : decrypt_args :=
  {| da_envelope := env;
     da_dek := dek;
     da_ciphertextB64url := JStr (raw_ciphertextB64url raw);
     da_nonceB64url := JStr (raw_nonceB64url raw);
     da_aadText := or_undefined (EncryptPanel.aadText view) |}.

(** The Encrypt panel after a first run, and the bundle it then offers. *)
Definition demo_encrypted : EncryptPanel.state :=
  state_of (EncryptPanel.runEncrypt (toy_sdk []) EncryptPanel.initial
                                    EncryptPanel.initial).

Definition demo_bundle : jsval :=
  match EncryptPanel.rawOut demo_encrypted, EncryptPanel.envelope demo_encrypted with
  | Some raw, Some env =>
      EncryptPanel.bundle_payload demo_encrypted raw env
        (EncryptPanel.recipients demo_encrypted)
  | _, _ => JNull
  end.

(* ================================================================= *)
(** ** WK1Panel: prefill, unwrap and wrap *)

Definition wk1_unwrap_call (view : WK1Panel.state) : unwrap_args :=
  {| ua_wrappedKey := WK1Panel.wrappedKey view;
     ua_recipientPrivKeyHex := WK1Panel.privHex view;
     ua_aadText := or_undefined (WK1Panel.aadText view) |}.

(** The key and the other arguments [doWrap] passes to the SDK. *)
Definition wk1_wrap_call (view : WK1Panel.state) (pub k : string) : wrap_args :=
  {| wa_dek := map (fun p => pair_byte (fst p) (snd p))
                   (pairs (strip_0x (WK1Panel.dekHexIn view)));
     wa_recipientPubKeyHex := pub;
     wa_kid := k;
     wa_aadText := or_undefined (WK1Panel.aadText view) |}.

(* ================================================================= *)
(** ** VectorsPanel: replay, export and import *)

(** The two SDK calls [runFromBundle] makes after its checks. *)
Definition replay_unwrap (r : VectorsPanel.resolved) : unwrap_args :=
  {| ua_wrappedKey := VectorsPanel.rs_wrappedKey r;
     ua_recipientPrivKeyHex := VectorsPanel.rs_privHex r;
     ua_aadText := or_undefined (VectorsPanel.rs_aadText r) |}.

Definition replay_decrypt (r : VectorsPanel.resolved) (dek : list byte)
  : decrypt_args :=
  {| da_envelope := VectorsPanel.rs_envelope r;
     da_dek := dek;
     da_ciphertextB64url := prop (VectorsPanel.rs_raw r) "ciphertextB64url";
     da_nonceB64url := prop (VectorsPanel.rs_raw r) "nonceB64url";
     da_aadText := or_undefined (VectorsPanel.rs_aadText r) |}.

(** The two comparisons of "4) hash checks". *)
Definition replay_hashMatch (r : VectorsPanel.resolved) : bool :=
  strict_eq (prop (VectorsPanel.rs_raw r) "ciphertextHash")
            (prop (VectorsPanel.rs_envelope r) "ciphertextHash").

Definition replay_aadMatch (r : VectorsPanel.resolved) : bool :=
  negb (truthy (prop (VectorsPanel.rs_envelope r) "aadHash"))
  || strict_eq (prop (VectorsPanel.rs_raw r) "aadHash")
               (prop (VectorsPanel.rs_envelope r) "aadHash").

(** The SDK calls of [runGenerate] for the key drawn in state [s], and
    what it stores under [generated]. *)
Definition generate_priv (X : Externals) (s : VectorsPanel.state) : string :=
  u8ToHex (randomSecretKey X (VectorsPanel.draws s)).

Definition generate_pub (X : Externals) (s : VectorsPanel.state) : string :=
  u8ToHex (getPublicKey X (randomSecretKey X (VectorsPanel.draws s))).

Definition generate_encrypt : encrypt_args :=
  {| ea_plaintext := VectorsPanel.plaintextIn;
     ea_cipher := "AES-256-GCM";
     ea_aadText := JStr VectorsPanel.vectors_aadText |}.

Definition generate_wrap (X : Externals) (s : VectorsPanel.state) (raw : raw_out)
  : wrap_args :=
  {| wa_dek := raw_dek raw;
     wa_recipientPubKeyHex := generate_pub X s;
     wa_kid := VectorsPanel.vectors_rid;
     wa_aadText := JStr VectorsPanel.vectors_aadText |}.

Definition generate_env (X : Externals) (raw : raw_out) (wk : string) : jsval :=
  build_envelope X raw [(VectorsPanel.vectors_rid, wk)].

Definition generate_unwrap (X : Externals) (s : VectorsPanel.state) (wk : string)
  : unwrap_args :=
  {| ua_wrappedKey := JStr wk;
     ua_recipientPrivKeyHex := JStr (generate_priv X s);
     ua_aadText := JStr VectorsPanel.vectors_aadText |}.

Definition generate_decrypt (X : Externals) (raw : raw_out) (wk : string)
           (dek : list byte) : decrypt_args :=
  {| da_envelope := generate_env X raw wk;
     da_dek := dek;
     da_ciphertextB64url := JStr (raw_ciphertextB64url raw);
     da_nonceB64url := JStr (raw_nonceB64url raw);
     da_aadText := JStr VectorsPanel.vectors_aadText |}.

Definition generated_vector (X : Externals) (s : VectorsPanel.state)
           (raw : raw_out) (wk : string) : jsval :=
  JObj [("aadText", JStr VectorsPanel.vectors_aadText);
        ("rid", JStr VectorsPanel.vectors_rid);
        ("recipientPubHex", JStr (generate_pub X s));
        ("recipientPrivHex", JStr (generate_priv X s));
        ("wrappedKey", JStr wk);
        ("raw", JObj ([("nonceB64url", JStr (raw_nonceB64url raw));
                       ("ciphertextB64url", JStr (raw_ciphertextB64url raw));
                       ("ciphertextHash", JStr (raw_ciphertextHash raw))]
                      ++ aadHash_field raw)%list);
        ("envelope", generate_env X raw wk)].

(** The panel after a self-test run from the initial state, and the vector
    it then exports without the private key. *)
Definition demo_generated : VectorsPanel.state :=
  state_of (VectorsPanel.runGenerate (toy_sdk []) VectorsPanel.initial).

Definition demo_vector (includePriv : bool) : jsval :=
  match VectorsPanel.res demo_generated with
  | Some shown => VectorsPanel.exported_vector (prop shown "generated") includePriv
  | None => JNull
  end.

(** The result that self-test shows, and the bundle an import makes of
    the vector exported with the private key. *)
Definition demo_shown : jsval :=
  match VectorsPanel.res demo_generated with
  | Some shown => shown
  | None => JNull
  end.

Definition demo_replay_bundle : jsval :=
  match VectorsPanel.vectorToBundle (demo_vector true) with
  | Ok bundle => bundle
  | Throw _ => JNull
  end.

(** The [catch] clause of the Vectors handlers, run in the state [s0] the
    failing [try] block left: the text of the caught value goes into an
    error result and the status becomes "error"; if the value has no text
    the clause itself throws before it has written anything. *)
Definition vectors_caught (mode : string) (e : thrown)
    (s0 : VectorsPanel.state) : VectorsPanel.state * result unit :=
  match errText e with
  | Ok msg =>
      (VectorsPanel.onStatus "error"
         (VectorsPanel.setRes (Some (failed_res mode msg)) s0), Ok tt)
  | Throw e' => (s0, Throw e')
  end.

(** The recipient [ensureRecipientAt] stores under [rid] when the key it
    generates is the [n]-th drawn. *)
Definition drawn (X : Externals) (rid : string) (n : nat)
  : EncryptPanel.recipient :=
  keyed rid (u8ToHex (randomSecretKey X n))
        (u8ToHex (getPublicKey X (randomSecretKey X n))).


(* ================================================================= *)
(** * Sanity checks of the embedding on concrete inputs *)

Example u8ToHex_sample : u8ToHex [x00; x0f; xa5; xff] = "0x000fa5ff".
Proof. reflexivity. Qed.
Example hexToU8_sample : hexToU8 "0x000fA5ff" = Ok [x00; x0f; xa5; xff].
Proof. reflexivity. Qed.
Example hexToU8_odd : hexToU8 "0xabc" = Throw (Error "Invalid hex length").
Proof. reflexivity. Qed.
Example hexToU8_nonhex : hexToU8 "zz1g-1 f0x" = Ok [x00; x01; xff; x0f; x00].
Proof. reflexivity. Qed.
Example btoa_Man : btoa "Man" = "TWFu". Proof. reflexivity. Qed.
Example btoa_Ma : btoa "Ma" = "TWE=". Proof. reflexivity. Qed.
Example btoa_M : btoa "M" = "TQ==". Proof. reflexivity. Qed.
Example btoa_hello : btoa "hello from PXP-201" = "aGVsbG8gZnJvbSBQWFAtMjAx".
Proof. reflexivity. Qed.
Example atob_hello : atob "aGVsbG8gZnJvbSBQWFAtMjAx" = Ok "hello from PXP-201".
Proof. reflexivity. Qed.
Example atob_unpadded : atob " T Q " = Ok "M". Proof. reflexivity. Qed.
Example atob_padded : atob "TWE=" = Ok "Ma". Proof. reflexivity. Qed.
Example atob_bad_length : atob "TWFuA" = Throw InvalidCharacterError.
Proof. reflexivity. Qed.
Example atob_bad_char : atob "TW-u" = Throw InvalidCharacterError.
Proof. reflexivity. Qed.
Example atob_inner_pad : atob "T=Fu" = Throw InvalidCharacterError.
Proof. reflexivity. Qed.
Example u8ToB64url_sample : u8ToB64url [xfb; xff; xfe; x3e] = "-__-Pg".
Proof. reflexivity. Qed.
Example b64urlToU8_sample : b64urlToU8 "-__-Pg" = Ok [xfb; xff; xfe; x3e].
Proof. reflexivity. Qed.

(* ================================================================= *)
(** * The hex codec *)

Lemma in_all_ascii (c : ascii) : In c all_ascii.
Proof.
  unfold all_ascii. rewrite <- (ascii_nat_embedding c).
  apply in_map, in_seq. pose proof (nat_ascii_bounded c). lia.
Qed.

Lemma forall_ascii (p : ascii -> bool) :
  forallb p all_ascii = true -> forall c, p c = true.
Proof.
  intros H c. rewrite forallb_forall in H. apply H, in_all_ascii.
Qed.

Lemma forall_ascii2 (p : ascii -> ascii -> bool) :
  forallb (fun a => forallb (p a) all_ascii) all_ascii = true ->
  forall a b, p a b = true.
Proof.
  intros H a b.
  apply (forall_ascii (p a)). apply (forall_ascii _ H).
Qed.

Lemma parseInt16_pair (c1 c2 : ascii) :
  ToUint8 (parseInt16 (String c1 (String c2 ""))) = pair_byte c1 c2.
Proof.
  apply Byte.byte_dec_bl.
  revert c1 c2.
  apply (forall_ascii2
           (fun c1 c2 =>
              Byte.eqb (ToUint8 (parseInt16 (String c1 (String c2 ""))))
                       (pair_byte c1 c2))).
  vm_compute. reflexivity.
Qed.

Lemma string_ind2 (P : string -> Prop) :
  P "" ->
  (forall a, P (String a "")) ->
  (forall a b r, P r -> P (String a (String b r))) ->
  forall s, P s.
Proof.
  intros H0 H1 H2.
  assert (forall s, P s /\ forall a, P (String a s)) as H.
  { induction s as [|c s [IH1 IH2]]; split; auto. }
  intro s. apply H.
Qed.

Lemma substring_full (s : string) : substring 0 (String.length s) s = s.
Proof. induction s; simpl; congruence. Qed.

Lemma div2_SS (n : nat) : (S (S n) / 2 = S (n / 2))%nat.
Proof. change (S (S n)) with (1 * 2 + n)%nat. now rewrite Nat.div_add_l. Qed.

Lemma mod2_SS (n : nat) : (S (S n) mod 2 = n mod 2)%nat.
Proof.
  change (S (S n)) with (1 * 2 + n)%nat.
  now rewrite Nat.add_comm, Nat.Div0.mod_add.
Qed.

Lemma slices_pairs (A : Type) (F : string -> A) (h : string) :
  (String.length h mod 2 = 0)%nat ->
  map (fun i => F (slice h (i * 2) (i * 2 + 2))) (seq 0 (String.length h / 2))
  = map (fun p => F (String (fst p) (String (snd p) ""))) (pairs h).
Proof.
  induction h as [|a|a b r IH] using string_ind2; intro E.
  - reflexivity.
  - discriminate.
  - cbn [String.length] in *. rewrite mod2_SS in E. rewrite div2_SS.
    cbn [seq map pairs fst snd]. f_equal.
    + unfold slice. cbn. now destruct r.
    + rewrite <- seq_shift, map_map, <- (IH E).
      apply map_ext. intro i. unfold slice.
      replace (S i * 2 + 2 - S i * 2)%nat with 2%nat by lia.
      replace (i * 2 + 2 - i * 2)%nat with 2%nat by lia.
      reflexivity.
Qed.

Lemma hexToU8_by_pairs (hex : string) :
  hexToU8 hex =
  if (String.length (strip_0x hex) mod 2 =? 0)%nat
  then Ok (map (fun p => pair_byte (fst p) (snd p)) (pairs (strip_0x hex)))
  else Throw (Error "Invalid hex length").
Proof.
  unfold hexToU8.
  destruct (String.length (strip_0x hex) mod 2 =? 0)%nat eqn:E; cbn [negb].
  - apply Nat.eqb_eq in E. f_equal.
    rewrite (slices_pairs _ (fun s => ToUint8 (parseInt16 s)) _ E).
    apply map_ext. intros [c1 c2]. apply parseInt16_pair.
  - reflexivity.
Qed.

Lemma byte_hex_pair (b : byte) :
  exists c1 c2, byte_hex b = String c1 (String c2 "") /\ pair_byte c1 c2 = b.
Proof. destruct b; do 2 eexists; split; reflexivity. Qed.

Lemma pairs_hex_of_bytes (u8 : list byte) :
  map (fun p => pair_byte (fst p) (snd p))
      (pairs (concat_strings (map byte_hex u8))) = u8
  /\ (String.length (concat_strings (map byte_hex u8)) mod 2 = 0)%nat.
Proof.
  induction u8 as [|b u8 [IH1 IH2]]; [split; reflexivity|].
  destruct (byte_hex_pair b) as (c1 & c2 & E & V).
  cbn [map concat_strings fold_right]. fold (concat_strings (map byte_hex u8)).
  rewrite E. cbn [String.append pairs map fst snd String.length].
  rewrite mod2_SS, V, IH1. auto.
Qed.

Lemma strip_0x_u8ToHex (u8 : list byte) :
  strip_0x (u8ToHex u8) = concat_strings (map byte_hex u8).
Proof.
  unfold strip_0x, u8ToHex, startsWith, slice_from. cbn.
  replace (prefix "" (concat_strings (map byte_hex u8))) with true
    by now destruct (concat_strings (map byte_hex u8)).
  rewrite Nat.sub_0_r. apply substring_full.
Qed.

Lemma hexToU8_u8ToHex (u8 : list byte) : hexToU8 (u8ToHex u8) = Ok u8.
Proof.
  rewrite hexToU8_by_pairs, strip_0x_u8ToHex.
  destruct (pairs_hex_of_bytes u8) as [V L].
  rewrite L, V. reflexivity.
Qed.

(* ================================================================= *)
(** * The base64url codec *)

Lemma string_ind3 (P : string -> Prop) :
  P "" ->
  (forall a, P (String a "")) ->
  (forall a b, P (String a (String b ""))) ->
  (forall a b c r, P r -> P (String a (String b (String c r)))) ->
  forall s, P s.
Proof.
  intros H0 H1 H2 H3.
  assert (forall s, P s /\ (forall a, P (String a s))
                    /\ (forall a b, P (String a (String b s)))) as H.
  { induction s as [|c s (IH1 & IH2 & IH3)]; repeat split; auto. }
  intro s. apply H.
Qed.

Lemma sextet_char_sextet (s : sextet) : char_sextet (sextet_char s) = Some s.
Proof. destruct s as [[] [] [] [] [] []]; reflexivity. Qed.

Lemma sextet_char_base64 (s : sextet) : is_base64_char (sextet_char s) = true.
Proof. unfold is_base64_char. now rewrite sextet_char_sextet. Qed.

Lemma base64_char_facts (c : ascii) :
  is_base64_char c = true ->
  is_ascii_whitespace c = false
  /\ Ascii.eqb c pad_char = false
  /\ from_url (to_url c) = c
  /\ Ascii.eqb (to_url c) "=" = false
  /\ Ascii.eqb (to_url c) "+" = false
  /\ Ascii.eqb (to_url c) "/" = false.
Proof.
  intro H.
  pose proof (forall_ascii
    (fun c => implb (is_base64_char c)
      (negb (is_ascii_whitespace c) && negb (Ascii.eqb c pad_char)
       && Ascii.eqb (from_url (to_url c)) c
       && negb (Ascii.eqb (to_url c) "=")
       && negb (Ascii.eqb (to_url c) "+")
       && negb (Ascii.eqb (to_url c) "/")))
    eq_refl c) as F.
  cbv beta in F. rewrite H in F. cbn [implb] in F.
  repeat (apply andb_prop in F; destruct F as [F ?]).
  repeat match goal with
         | X : negb _ = true |- _ => apply negb_true_iff in X
         end.
  apply Ascii.eqb_eq in H3. auto 10.
Qed.

Lemma join4_split3 (a b c : ascii) :
  let '(s1, s2, s3, s4) := split3 a b c in join4 s1 s2 s3 s4 = (a, b, c).
Proof. destruct a, b, c. reflexivity. Qed.

Lemma b64_body_chars (bin : string) :
  forall_chars is_base64_char (b64_body bin) = true.
Proof.
  induction bin as [|a|a b|a b c r IH] using string_ind3;
    cbn [b64_body]; try reflexivity.
  - destruct (split3 a zero zero) as [[[s1 s2] s3] s4]. cbn.
    now rewrite !sextet_char_base64.
  - destruct (split3 a b zero) as [[[s1 s2] s3] s4]. cbn.
    now rewrite !sextet_char_base64.
  - destruct (split3 a b c) as [[[s1 s2] s3] s4]. cbn.
    now rewrite !sextet_char_base64.
Qed.

Lemma sextets_of_body (bin : string) :
  exists l, sextets_of (b64_body bin) = Some l /\ decode_sextets l = bin.
Proof.
  induction bin as [|a|a b|a b c r IH] using string_ind3.
  - exists []. split; reflexivity.
  - destruct a as [a0 a1 a2 a3 a4 a5 a6 a7]. cbn [b64_body split3 sextets_of zero].
    rewrite !sextet_char_sextet. eexists. split; reflexivity.
  - destruct a as [a0 a1 a2 a3 a4 a5 a6 a7], b as [b0 b1 b2 b3 b4 b5 b6 b7].
    cbn [b64_body split3 sextets_of zero].
    rewrite !sextet_char_sextet. eexists. split; reflexivity.
  - destruct IH as (l & Hl & Hd).
    destruct a as [a0 a1 a2 a3 a4 a5 a6 a7], b as [b0 b1 b2 b3 b4 b5 b6 b7],
             c as [c0 c1 c2 c3 c4 c5 c6 c7].
    cbn [b64_body split3 sextets_of zero].
    rewrite !sextet_char_sextet, Hl. eexists. split; [reflexivity|].
    cbn [decode_sextets join4]. now rewrite Hd.
Qed.

Lemma mod4_S4 (n : nat) : (S (S (S (S n))) mod 4 = n mod 4)%nat.
Proof.
  change (S (S (S (S n)))) with (1 * 4 + n)%nat.
  now rewrite Nat.add_comm, Nat.Div0.mod_add.
Qed.

Lemma btoa_length (bin : string) : (String.length (btoa bin) mod 4 = 0)%nat.
Proof.
  induction bin as [|a|a b|a b c r IH] using string_ind3;
    cbn [btoa]; try reflexivity.
  - now destruct (split3 a zero zero) as [[[s1 s2] s3] s4].
  - now destruct (split3 a b zero) as [[[s1 s2] s3] s4].
  - destruct (split3 a b c) as [[[s1 s2] s3] s4].
    cbn [String.length]. now rewrite mod4_S4.
Qed.

Lemma b64_body_length (bin : string) :
  (String.length (b64_body bin) mod 4 =? 1)%nat = false.
Proof.
  induction bin as [|a|a b|a b c r IH] using string_ind3;
    cbn [b64_body]; try reflexivity.
  - now destruct (split3 a zero zero) as [[[s1 s2] s3] s4].
  - now destruct (split3 a b zero) as [[[s1 s2] s3] s4].
  - destruct (split3 a b c) as [[[s1 s2] s3] s4].
    cbn [String.length]. now rewrite mod4_S4.
Qed.

(** Name the characters [btoa] emits and record what is known of them. *)
Ltac name_sextet_chars :=
  repeat match goal with
         | |- context [sextet_char ?s] =>
             let x := fresh "x" in
             let F := fresh "F" in
             pose proof (base64_char_facts _ (sextet_char_base64 s)) as F;
             destruct F as (? & ? & ? & ? & ? & ?);
             set (x := sextet_char s) in *; clearbody x
         end.

Ltac by_chunks bin :=
  induction bin as [|?a|?a ?b|?a ?b ?c ?r ?IH] using string_ind3;
  cbn [btoa b64_body];
  [ reflexivity
  | destruct (split3 a zero zero) as [[[?s ?s] ?s] ?s]
  | destruct (split3 a b zero) as [[[?s ?s] ?s] ?s]
  | destruct (split3 a b c) as [[[?s ?s] ?s] ?s] ];
  name_sextet_chars.

Lemma btoa_no_whitespace (bin : string) :
  filter_chars (fun c => negb (is_ascii_whitespace c)) (btoa bin) = btoa bin.
Proof.
  by_chunks bin; cbn [filter_chars];
    repeat match goal with H : is_ascii_whitespace _ = false |- _ =>
                             rewrite H; clear H end;
    cbn; congruence.
Qed.

Lemma strip_padding_btoa (bin : string) : strip_padding (btoa bin) = b64_body bin.
Proof.
  by_chunks bin; cbn [strip_padding];
    repeat match goal with H : Ascii.eqb _ pad_char = false |- _ =>
                             rewrite H; clear H end;
    cbn; congruence.
Qed.

Lemma atob_btoa (bin : string) : atob (btoa bin) = Ok bin.
Proof.
  unfold atob.
  rewrite btoa_no_whitespace, btoa_length. cbn [Nat.eqb].
  rewrite strip_padding_btoa, b64_body_length.
  destruct (sextets_of_body bin) as (l & -> & ->). reflexivity.
Qed.

Lemma map_chars_map_chars (f g : ascii -> ascii) (s : string) :
  map_chars f (map_chars g s) = map_chars (fun c => f (g c)) s.
Proof. induction s; cbn; congruence. Qed.

Lemma map_chars_length (f : ascii -> ascii) (s : string) :
  String.length (map_chars f s) = String.length s.
Proof. induction s; cbn; congruence. Qed.

Lemma to_url_replace (s : string) :
  replaceAll "/" "_" (replaceAll "+" "-" s) = map_chars to_url s.
Proof. unfold replaceAll. now rewrite map_chars_map_chars. Qed.

Lemma from_url_replace (s : string) :
  replaceAll "_" "/" (replaceAll "-" "+" s) = map_chars from_url s.
Proof. unfold replaceAll. now rewrite map_chars_map_chars. Qed.

Lemma strip_trailing_cons (c a : ascii) (r : string) :
  Ascii.eqb a c = false ->
  strip_trailing c (String a r) = String a (strip_trailing c r).
Proof. intro H. cbn. rewrite H. now destruct (strip_trailing c r). Qed.

(** The url-safe text is the unpadded body with [+] and [/] renamed. *)
Lemma u8ToB64url_body (bin : string) :
  strip_trailing "=" (map_chars to_url (btoa bin))
  = map_chars to_url (b64_body bin).
Proof.
  by_chunks bin; cbn [map_chars];
    rewrite ?strip_trailing_cons by assumption;
    try (rewrite IH); reflexivity.
Qed.

Lemma from_url_to_url_body (bin : string) :
  map_chars from_url (map_chars to_url (b64_body bin)) = b64_body bin.
Proof.
  by_chunks bin; cbn [map_chars]; congruence.
Qed.

Lemma pad_to4_chunk (c1 c2 c3 c4 : ascii) (s : string) :
  pad_to4 (String c1 (String c2 (String c3 (String c4 s))))
  = String c1 (String c2 (String c3 (String c4 (pad_to4 s)))).
Proof.
  unfold pad_to4, padEnd. cbn [String.length String.append].
  do 4 f_equal.
  replace (S (S (S (S (String.length s)))) + 3)%nat
    with (String.length s + 3 + 1 * 4)%nat by lia.
  rewrite Nat.div_add by lia.
  replace ((((String.length s + 3) / 4 + 1) * 4)
           - S (S (S (S (String.length s)))))%nat
    with ((String.length s + 3) / 4 * 4 - String.length s)%nat by lia.
  reflexivity.
Qed.

Lemma pad_to4_body (bin : string) : pad_to4 (b64_body bin) = btoa bin.
Proof.
  by_chunks bin; try reflexivity.
  rewrite pad_to4_chunk. congruence.
Qed.

Lemma b64url_chars (bin : string) :
  forall_chars
    (fun c => negb (Ascii.eqb c "+") && negb (Ascii.eqb c "/")
              && negb (Ascii.eqb c "="))
    (map_chars to_url (b64_body bin)) = true.
Proof.
  by_chunks bin; cbn [map_chars forall_chars];
    repeat match goal with H : Ascii.eqb (to_url _) _ = false |- _ =>
                             rewrite H; clear H end;
    cbn; auto.
Qed.

Lemma u8ToB64url_eq (u8 : list byte) :
  u8ToB64url u8 = map_chars to_url (b64_body (string_of_list_byte u8)).
Proof. unfold u8ToB64url. now rewrite to_url_replace, u8ToB64url_body. Qed.

Lemma b64urlToU8_u8ToB64url (u8 : list byte) :
  b64urlToU8 (u8ToB64url u8) = Ok u8.
Proof.
  unfold b64urlToU8. rewrite from_url_replace, u8ToB64url_eq.
  rewrite from_url_to_url_body, map_chars_length.
  fold (pad_to4 (b64_body (string_of_list_byte u8))).
  rewrite pad_to4_body, atob_btoa. cbn [bind].
  now rewrite list_byte_of_string_of_list_byte.
Qed.


(* ================================================================= *)
(** * Reasoning about handlers *)

Section Actions.

Context {S : Type}.

Local Abbreviation preserves := (preserves (S := S)).
Local Abbreviation total := (total (S := S)).
Local Abbreviation calls_only := (calls_only (S := S)).
Local Abbreviation stateless := (stateless (S := S)).
Local Abbreviation throws_only := (throws_only (S := S)).

Lemma abind_unfold {A B} (m : action S A) (k : A -> action S B) (s : S) :
  abind m k s =
  match outcome_of (m s) with
  | Ok a =>
      (((trace_of (m s) ++ trace_of (k a (state_of (m s))))%list,
        state_of (k a (state_of (m s)))),
       outcome_of (k a (state_of (m s))))
  | Throw e => ((trace_of (m s), state_of (m s)), Throw e)
  end.
Proof.
  unfold abind, trace_of, state_of, outcome_of.
  destruct (m s) as [[t s1] [a|e]]; cbn; [|reflexivity].
  now destruct (k a s1) as [[t' s2] r].
Qed.

Lemma try_catch_unfold {A} (m : action S A) (h : thrown -> action S A) (s : S) :
  try_catch m h s =
  match outcome_of (m s) with
  | Ok a => m s
  | Throw e =>
      (((trace_of (m s) ++ trace_of (h e (state_of (m s))))%list,
        state_of (h e (state_of (m s)))),
       outcome_of (h e (state_of (m s))))
  end.
Proof.
  unfold try_catch, trace_of, state_of, outcome_of.
  destruct (m s) as [[t s1] [a|e]]; cbn; [reflexivity|].
  now destruct (h e s1) as [[t' s2] r].
Qed.

(** Outcome, state and trace of a sequence and of a guarded block. *)
Lemma outcome_abind {A B} (m : action S A) (k : A -> action S B) (s : S) :
  outcome_of (abind m k s) =
  match outcome_of (m s) with
  | Ok a => outcome_of (k a (state_of (m s)))
  | Throw e => Throw e
  end.
Proof. rewrite abind_unfold. now destruct (outcome_of (m s)). Qed.

Lemma state_abind {A B} (m : action S A) (k : A -> action S B) (s : S) :
  state_of (abind m k s) =
  match outcome_of (m s) with
  | Ok a => state_of (k a (state_of (m s)))
  | Throw e => state_of (m s)
  end.
Proof. rewrite abind_unfold. now destruct (outcome_of (m s)). Qed.

Lemma trace_abind {A B} (m : action S A) (k : A -> action S B) (s : S) :
  trace_of (abind m k s) =
  match outcome_of (m s) with
  | Ok a => (trace_of (m s) ++ trace_of (k a (state_of (m s))))%list
  | Throw e => trace_of (m s)
  end.
Proof. rewrite abind_unfold. now destruct (outcome_of (m s)). Qed.

Lemma outcome_try_catch {A} (m : action S A) (h : thrown -> action S A) (s : S) :
  outcome_of (try_catch m h s) =
  match outcome_of (m s) with
  | Ok a => Ok a
  | Throw e => outcome_of (h e (state_of (m s)))
  end.
Proof.
  rewrite try_catch_unfold. now destruct (outcome_of (m s)) eqn:E.
Qed.

Lemma state_try_catch {A} (m : action S A) (h : thrown -> action S A) (s : S) :
  state_of (try_catch m h s) =
  match outcome_of (m s) with
  | Ok a => state_of (m s)
  | Throw e => state_of (h e (state_of (m s)))
  end.
Proof. rewrite try_catch_unfold. now destruct (outcome_of (m s)). Qed.

Lemma trace_try_catch {A} (m : action S A) (h : thrown -> action S A) (s : S) :
  trace_of (try_catch m h s) =
  match outcome_of (m s) with
  | Ok a => trace_of (m s)
  | Throw e => (trace_of (m s) ++ trace_of (h e (state_of (m s))))%list
  end.
Proof. rewrite try_catch_unfold. now destruct (outcome_of (m s)). Qed.

Lemma preserves_ret {A T} (f : S -> T) (a : A) : preserves f (ret a).
Proof. intro s. reflexivity. Qed.

Lemma preserves_throw {A T} (f : S -> T) (e : thrown) :
  preserves f (throw (A := A) e).
Proof. intro s. reflexivity. Qed.

Lemma preserves_lift {A T} (f : S -> T) (r : result A) : preserves f (lift r).
Proof. intro s. reflexivity. Qed.

Lemma preserves_call {A T} (f : S -> T) (c : sdk_call) (r : result A) :
  preserves f (call c r).
Proof. intro s. reflexivity. Qed.

Lemma preserves_issue {T} (f : S -> T) (c : sdk_call) : preserves f (issue c).
Proof. intro s. reflexivity. Qed.

Lemma preserves_get_state {T} (f : S -> T) : preserves f get_state.
Proof. intro s. reflexivity. Qed.

Lemma preserves_modify {T} (f : S -> T) (g : S -> S) :
  (forall s, f (g s) = f s) -> preserves f (modify g).
Proof. intros H s. apply H. Qed.

Lemma preserves_throw_if {T} (f : S -> T) (c : bool) (msg : string) :
  preserves f (throw_if c msg).
Proof. intro s. now destruct c. Qed.

Lemma preserves_abind {A B T} (f : S -> T) (m : action S A) (k : A -> action S B) :
  preserves f m -> (forall a, preserves f (k a)) -> preserves f (abind m k).
Proof.
  intros Hm Hk s. rewrite state_abind.
  destruct (outcome_of (m s)) as [a|e].
  - now rewrite Hk, Hm.
  - apply Hm.
Qed.

Lemma preserves_try_catch {A T} (f : S -> T) (m : action S A)
      (h : thrown -> action S A) :
  preserves f m -> (forall e, preserves f (h e)) -> preserves f (try_catch m h).
Proof.
  intros Hm Hh s. rewrite state_try_catch.
  destruct (outcome_of (m s)) as [a|e].
  - apply Hm.
  - now rewrite Hh, Hm.
Qed.

Lemma preserves_when {T} (f : S -> T) (c : bool) (m : action S unit) :
  preserves f m -> preserves f (when c m).
Proof. intros H. destruct c; [exact H | apply preserves_ret]. Qed.

Lemma total_ret {A} (a : A) : total (ret a).
Proof. intro s. now exists a. Qed.

Lemma total_modify (g : S -> S) : total (modify g).
Proof. intro s. now exists tt. Qed.

Lemma total_get_state : total get_state.
Proof. intro s. now exists s. Qed.

Lemma total_issue (c : sdk_call) : total (issue c).
Proof. intro s. now exists tt. Qed.

Lemma total_abind {A B} (m : action S A) (k : A -> action S B) :
  total m -> (forall a, total (k a)) -> total (abind m k).
Proof.
  intros Hm Hk s. rewrite outcome_abind.
  destruct (Hm s) as [a ->]. apply Hk.
Qed.

Lemma total_try_catch {A} (m : action S A) (h : thrown -> action S A) :
  (forall e, total (h e)) -> total (try_catch m h).
Proof.
  intros Hh s. rewrite outcome_try_catch.
  destruct (outcome_of (m s)) as [a|e].
  - now exists a.
  - apply Hh.
Qed.

Lemma total_when (c : bool) (m : action S unit) : total m -> total (when c m).
Proof. intros H. destruct c; [exact H | apply total_ret]. Qed.

Lemma throws_only_ret {A} P (a : A) : throws_only P (ret a).
Proof. intros s e H. discriminate H. Qed.

Lemma throws_only_modify P (g : S -> S) : throws_only P (modify g).
Proof. intros s e H. discriminate H. Qed.

Lemma throws_only_get_state P : throws_only P get_state.
Proof. intros s e H. discriminate H. Qed.

Lemma throws_only_issue P (c : sdk_call) : throws_only P (issue c).
Proof. intros s e H. discriminate H. Qed.

Lemma throws_only_throw {A} (P : thrown -> Prop) (e : thrown) :
  P e -> throws_only P (throw (A := A) e).
Proof. intros H s e' E. injection E as <-. exact H. Qed.

Lemma throws_only_throw_if (P : thrown -> Prop) (c : bool) (msg : string) :
  P (Error msg) -> throws_only P (throw_if c msg).
Proof.
  intros H s e E. destruct c; [|discriminate E]. injection E as <-. exact H.
Qed.

Lemma throws_only_lift {A} (P : thrown -> Prop) (r : result A) :
  (forall e, r = Throw e -> P e) -> throws_only P (lift r).
Proof. intros H s e E. apply H. exact E. Qed.

Lemma throws_only_call {A} (P : thrown -> Prop) (c : sdk_call) (r : result A) :
  (forall e, r = Throw e -> P e) -> throws_only P (call c r).
Proof. intros H s e E. apply H. exact E. Qed.

Lemma throws_only_abind {A B} P (m : action S A) (k : A -> action S B) :
  throws_only P m -> (forall a, throws_only P (k a)) ->
  throws_only P (abind m k).
Proof.
  intros Hm Hk s e. rewrite outcome_abind.
  destruct (outcome_of (m s)) as [a|e0] eqn:E.
  - apply Hk.
  - intro H. injection H as <-. exact (Hm s e0 E).
Qed.

Lemma throws_only_try_catch {A} P (m : action S A) (h : thrown -> action S A) :
  (forall e, throws_only P (h e)) -> throws_only P (try_catch m h).
Proof.
  intros Hh s e. rewrite outcome_try_catch.
  destruct (outcome_of (m s)) as [a|e0]; [discriminate|]. apply Hh.
Qed.

Lemma throws_only_when P (c : bool) (m : action S unit) :
  throws_only P m -> throws_only P (when c m).
Proof. intros H. destruct c; [exact H | apply throws_only_ret]. Qed.

Lemma throws_only_weaken {A} (P Q : thrown -> Prop) (m : action S A) :
  (forall e, P e -> Q e) -> throws_only P m -> throws_only Q m.
Proof. intros H Hm s e E. apply H. exact (Hm s e E). Qed.

(** A [catch] clause that converts what it caught ends normally when
    whatever the body throws has a text. *)
Lemma total_catch_text {A} (m : action S A) (h : thrown -> action S A) :
  throws_only has_text m ->
  (forall e, has_text e -> total (h e)) ->
  total (try_catch m h).
Proof.
  intros Hm Hh s. rewrite outcome_try_catch.
  destruct (outcome_of (m s)) as [a|e] eqn:E.
  - now exists a.
  - apply Hh. exact (Hm s e E).
Qed.

Lemma total_lift_text (e : thrown) :
  has_text e -> total (lift (errText e)).
Proof. intros [msg H] s. exists msg. now rewrite H. Qed.

Lemma calls_only_ret {A} p (a : A) : calls_only p (ret a).
Proof. intro s. reflexivity. Qed.

Lemma calls_only_throw {A} p (e : thrown) : calls_only p (throw (A := A) e).
Proof. intro s. reflexivity. Qed.

Lemma calls_only_lift {A} p (r : result A) : calls_only p (lift r).
Proof. intro s. reflexivity. Qed.

Lemma calls_only_modify p (g : S -> S) : calls_only p (modify g).
Proof. intro s. reflexivity. Qed.

Lemma calls_only_get_state p : calls_only p get_state.
Proof. intro s. reflexivity. Qed.

Lemma calls_only_throw_if p (c : bool) (msg : string) :
  calls_only p (throw_if c msg).
Proof. intro s. now destruct c. Qed.

Lemma calls_only_call {A} (p : sdk_call -> bool) (c : sdk_call) (r : result A) :
  p c = true -> calls_only p (call c r).
Proof. intros H s. cbn. now rewrite H. Qed.

Lemma calls_only_abind {A B} p (m : action S A) (k : A -> action S B) :
  calls_only p m -> (forall a, calls_only p (k a)) -> calls_only p (abind m k).
Proof.
  intros Hm Hk s. rewrite trace_abind.
  destruct (outcome_of (m s)) as [a|e].
  - rewrite forallb_app. now rewrite (Hm s), (Hk a (state_of (m s))).
  - apply Hm.
Qed.

Lemma calls_only_try_catch {A} p (m : action S A) (h : thrown -> action S A) :
  calls_only p m -> (forall e, calls_only p (h e)) -> calls_only p (try_catch m h).
Proof.
  intros Hm Hh s. rewrite trace_try_catch.
  destruct (outcome_of (m s)) as [a|e].
  - apply Hm.
  - rewrite forallb_app. now rewrite (Hm s), (Hh e (state_of (m s))).
Qed.

Lemma calls_only_when p (c : bool) (m : action S unit) :
  calls_only p m -> calls_only p (when c m).
Proof. intros H. destruct c; [exact H | apply calls_only_ret]. Qed.

Lemma stateless_ret {A} (a : A) : stateless (ret a).
Proof. exists [], (Ok a). reflexivity. Qed.

Lemma stateless_throw {A} (e : thrown) : stateless (throw (A := A) e).
Proof. exists [], (Throw e). reflexivity. Qed.

Lemma stateless_lift {A} (r : result A) : stateless (lift r).
Proof. exists [], r. reflexivity. Qed.

Lemma stateless_call {A} (c : sdk_call) (r : result A) : stateless (call c r).
Proof. exists [c], r. reflexivity. Qed.

Lemma stateless_issue (c : sdk_call) : stateless (issue c).
Proof. exists [c], (Ok tt). reflexivity. Qed.

Lemma stateless_throw_if (c : bool) (msg : string) : stateless (throw_if c msg).
Proof. destruct c; [apply stateless_throw | apply stateless_ret]. Qed.

Lemma stateless_abind {A B} (m : action S A) (k : A -> action S B) :
  stateless m -> (forall a, stateless (k a)) -> stateless (abind m k).
Proof.
  intros (t & r & Hm) Hk. destruct r as [a|e].
  - destruct (Hk a) as (t' & r' & Hk').
    exists (t ++ t')%list, r'. intro s. unfold abind. now rewrite Hm, Hk'.
  - exists t, (Throw e). intro s. unfold abind. now rewrite Hm.
Qed.


End Actions.

Create HintDb handlers.

#[export] Hint Resolve
  preserves_ret preserves_throw preserves_lift preserves_call preserves_issue
  preserves_get_state preserves_throw_if preserves_abind preserves_try_catch
  preserves_when preserves_modify
  total_ret total_modify total_get_state total_issue total_abind
  total_try_catch total_when
  calls_only_ret calls_only_throw calls_only_lift calls_only_modify
  calls_only_get_state calls_only_throw_if calls_only_call calls_only_abind
  calls_only_try_catch calls_only_when
  stateless_ret stateless_throw stateless_lift stateless_call stateless_issue
  stateless_throw_if stateless_abind
  throws_only_ret throws_only_modify throws_only_get_state throws_only_issue
  throws_only_throw throws_only_throw_if throws_only_abind
  throws_only_try_catch throws_only_when total_lift_text : handlers.

(** Split a handler along its binds, conditionals and matches. *)
Ltac handler_cases bind_lemma :=
  repeat first
    [ apply bind_lemma; [|intro]
    | match goal with
      | |- ?P (if ?c then _ else _) => destruct c
      | |- ?P (match ?x with _ => _ end) => destruct x
      end ];
  auto with handlers.

(* ================================================================= *)
(** * DecryptPanel: [run] up to its first [await] *)

Lemma run_prepare_calls X view :
  calls_only is_validate (DecryptPanel.run_prepare X view).
Proof.
  unfold DecryptPanel.run_prepare, validate_call.
  repeat (apply calls_only_abind; [|intro]); auto with handlers.
Qed.

Lemma run_prepare_stateless X view :
  stateless (DecryptPanel.run_prepare X view).
Proof.
  unfold DecryptPanel.run_prepare, validate_call.
  repeat (apply stateless_abind; [|intro]); auto with handlers.
Qed.

Lemma run_start_eq X view s :
  DecryptPanel.run_start X view s =
  match outcome_of (DecryptPanel.run_prepare X view s) with
  | Ok p =>
      (((trace_of (DecryptPanel.run_prepare X view s) ++ [CallUnwrap (fst p)])%list,
        begun s),
       Ok (Some (DecryptPanel.AwaitUnwrap (DecryptPanel.runIdRef s + 1)%N
                                          (fst p) (snd p))))
  | Throw e =>
      match errText e with
      | Ok msg =>
          ((trace_of (DecryptPanel.run_prepare X view s),
            DecryptPanel.onStatus "error"
              (DecryptPanel.setOut (failed msg) (begun s))),
           Ok None)
      | Throw e' =>
          ((trace_of (DecryptPanel.run_prepare X view s), begun s), Throw e')
      end
  end.
Proof.
  destruct (run_prepare_stateless X view) as (t & r & E).
  unfold DecryptPanel.run_start, DecryptPanel.catch_run, abind, try_catch,
    get_state, modify, issue, ret, lift.
  rewrite !E. unfold outcome_of, trace_of. cbn [fst snd].
  destruct r as [p|e]; cbn.
  - reflexivity.
  - rewrite N.eqb_refl. cbn. destruct (errText e); cbn; now rewrite app_nil_r.
Qed.

Lemma lacks_not_array (bundle : jsval) :
  is_nullish bundle = false ->
  lacks_recipients bundle = true ->
  match recipients_of (prop bundle "envelope") with
  | JArr (_ :: _) => False
  | _ => True
  end.
Proof.
  intros N L. unfold recipients_of, js_or. unfold lacks_recipients in L.
  replace (opt_member bundle "envelope") with (prop bundle "envelope") in L
    by (unfold opt_member; now rewrite N).
  destruct (opt_member (opt_member (prop bundle "envelope") "access") "recipients")
    as [| | | | |[|x l]|]; try discriminate L; cbn; auto;
    repeat match goal with |- context [if ?b then _ else _] => destruct b end;
    auto.
Qed.

Lemma resolve_entry_lacks (bundle sel : jsval) :
  is_nullish bundle = false ->
  lacks_recipients bundle = true ->
  DecryptPanel.resolve_entry (prop bundle "envelope") sel
  = Throw (Error "envelope.access.recipients missing/empty").
Proof.
  intros N L. pose proof (lacks_not_array bundle N L) as H.
  unfold DecryptPanel.resolve_entry.
  destruct (recipients_of (prop bundle "envelope")) as [| | | | |[|x l]|];
    try reflexivity. elim H.
Qed.

(** The console's own errors, and the engine's, are Error objects: they
    have a text. *)
Ltac own_error :=
  eexists; split; [reflexivity | left; eexists; reflexivity].

Lemma run_prepare_lacks X view s bundle :
  parse_bundle X (DecryptPanel.bundleInput view) = Ok bundle ->
  lacks_recipients bundle = true ->
  exists e, outcome_of (DecryptPanel.run_prepare X view s) = Throw e
            /\ ((exists msg, errText e = Ok msg)
                \/ validateEnvelope X (opt_member bundle "envelope") = Some e).
Proof.
  intros P L. unfold DecryptPanel.run_prepare.
  rewrite P.
  rewrite outcome_abind. cbn [lift outcome_of snd state_of fst].
  rewrite outcome_abind. cbn [lift outcome_of snd state_of fst].
  unfold destructure at 1.
  destruct (is_nullish bundle) eqn:N; [own_error|].
  rewrite outcome_abind. cbn [lift outcome_of snd state_of fst].
  unfold destructure at 1. rewrite N.
  rewrite outcome_abind.
  match goal with |- context [throw_if ?c _] => destruct c end;
    [own_error|]. cbn [throw_if ret outcome_of state_of snd fst].
  rewrite outcome_abind.
  match goal with |- context [throw_if ?c _] => destruct c end;
    [own_error|]. cbn [throw_if ret outcome_of state_of snd fst].
  rewrite outcome_abind. unfold validate_call at 1.
  cbn [call outcome_of state_of snd fst].
  replace (opt_member bundle "envelope") with (prop bundle "envelope")
    by (unfold opt_member; now rewrite N).
  destruct (validateEnvelope X (prop bundle "envelope")) as [e|];
    [exists e; split; [reflexivity | now right]|].
  rewrite outcome_abind. rewrite (resolve_entry_lacks bundle _ N L).
  own_error.
Qed.

Lemma run_start_lacks X view s bundle :
  parse_bundle X (DecryptPanel.bundleInput view) = Ok bundle ->
  lacks_recipients bundle = true ->
  forallb is_validate (trace_of (DecryptPanel.run_start X view s)) = true
  /\ ((outcome_of (DecryptPanel.run_start X view s) = Ok None
       /\ exists msg,
            DecryptPanel.out (state_of (DecryptPanel.run_start X view s))
            = failed msg)
      \/ (exists e e',
            validateEnvelope X (opt_member bundle "envelope") = Some e
            /\ errText e = Throw e'
            /\ outcome_of (DecryptPanel.run_start X view s) = Throw e')).
Proof.
  intros P L. rewrite run_start_eq.
  destruct (run_prepare_lacks X view s bundle P L) as (e & E & H).
  pose proof (run_prepare_calls X view s) as T.
  rewrite E. split.
  - now destruct (errText e).
  - destruct (errText e) as [msg|e'] eqn:C.
    + left. split; [reflexivity|]. exists msg. reflexivity.
    + right. destruct H as [[msg H]|H]; [discriminate H|].
      exists e, e'. auto.
Qed.

(* ================================================================= *)
(** * VectorsPanel: [runFromBundle] up to its first [await] *)

Lemma bundle_prepare_calls X view :
  calls_only is_validate (VectorsPanel.bundle_prepare X view).
Proof.
  unfold VectorsPanel.bundle_prepare, validate_call.
  handler_cases (@calls_only_abind VectorsPanel.state).
Qed.

Lemma bundle_prepare_stateless X view :
  stateless (VectorsPanel.bundle_prepare X view).
Proof.
  unfold VectorsPanel.bundle_prepare, validate_call.
  handler_cases (@stateless_abind VectorsPanel.state).
Qed.

Lemma bundle_prepare_lacks X view s bundle :
  parse_bundle X (VectorsPanel.bundleInput view) = Ok bundle ->
  lacks_recipients bundle = true ->
  missing (opt_member bundle "wrappedKey") = true ->
  exists e, outcome_of (VectorsPanel.bundle_prepare X view s) = Throw e
            /\ ((exists msg, errText e = Ok msg)
                \/ validateEnvelope X (opt_member bundle "envelope") = Some e).
Proof.
  intros P L W. unfold VectorsPanel.bundle_prepare.
  rewrite P.
  rewrite outcome_abind. cbn [lift outcome_of snd state_of fst].
  rewrite outcome_abind. cbn [lift outcome_of snd state_of fst].
  unfold destructure at 1.
  destruct (is_nullish bundle) eqn:N; [own_error|].
  rewrite outcome_abind. cbn [lift outcome_of snd state_of fst].
  unfold destructure at 1. rewrite N.
  rewrite outcome_abind.
  match goal with |- context [throw_if ?c _] => destruct c end;
    [own_error|]. cbn [throw_if ret outcome_of state_of snd fst].
  rewrite outcome_abind.
  match goal with |- context [throw_if ?c _] => destruct c end;
    [own_error|]. cbn [throw_if ret outcome_of state_of snd fst].
  rewrite outcome_abind. unfold validate_call at 1.
  cbn [call outcome_of state_of snd fst].
  replace (opt_member bundle "envelope") with (prop bundle "envelope")
    by (unfold opt_member; now rewrite N).
  destruct (validateEnvelope X (prop bundle "envelope")) as [e|];
    [exists e; split; [reflexivity | now right]|].
  rewrite outcome_abind.
  assert (truthy (js_or (opt_member bundle "wrappedKey") (JStr "")) = false) as W0.
  { unfold missing in W. apply negb_true_iff in W. unfold js_or. now rewrite W. }
  rewrite W0. cbn [negb].
  pose proof (lacks_not_array bundle N L) as H.
  destruct (recipients_of (prop bundle "envelope")) as [| | | | |[|x l]|];
    try own_error. elim H.
Qed.

Lemma runFromBundle_fails X view s e :
  outcome_of (VectorsPanel.bundle_prepare X view s) = Throw e ->
  VectorsPanel.runFromBundle X view s =
  match errText e with
  | Ok msg =>
      ((trace_of (VectorsPanel.bundle_prepare X view s),
        VectorsPanel.onStatus "error"
          (VectorsPanel.setRes (Some (failed_res "bundle" msg))
             (VectorsPanel.setRes None (VectorsPanel.onStatus "running" s)))),
       Ok tt)
  | Throw e' =>
      ((trace_of (VectorsPanel.bundle_prepare X view s),
        VectorsPanel.setRes None (VectorsPanel.onStatus "running" s)),
       Throw e')
  end.
Proof.
  destruct (bundle_prepare_stateless X view) as (t & r & E).
  unfold VectorsPanel.runFromBundle, abind, try_catch, modify, lift.
  rewrite !E. unfold outcome_of, trace_of. cbn [fst snd].
  intros ->. cbn. destruct (errText e); cbn; now rewrite app_nil_r.
Qed.

(* ================================================================= *)
(** * Choosing the recipient entry *)

Lemma find_by_rid_none (recips : list jsval) (rid : jsval) :
  matches_no_entry recips rid = true ->
  no_null_entry recips = true ->
  find_by_rid false recips rid = Ok JUndefined.
Proof.
  unfold matches_no_entry, no_null_entry.
  induction recips as [|x r IH]; [reflexivity|].
  cbn [forallb find_by_rid]. intros M N.
  apply andb_prop in M. destruct M as [M1 M2].
  apply andb_prop in N. destruct N as [N1 N2].
  apply negb_true_iff in M1, N1.
  unfold member. unfold opt_member in M1. rewrite N1 in *. cbn [bind].
  unfold same_value. rewrite M1. cbn [orb andb]. auto.
Qed.

Lemma resolve_entry_fallback envelope sel first rest :
  recipients_of envelope = JArr (first :: rest) ->
  truthy sel = true ->
  matches_no_entry (first :: rest) sel = true ->
  no_null_entry (first :: rest) = true ->
  DecryptPanel.resolve_entry envelope sel =
  if truthy (opt_member first "wrappedKey") then Ok first
  else Throw (Error "No wrappedKey for selected recipient").
Proof.
  intros R T M N. unfold DecryptPanel.resolve_entry. rewrite R.
  assert (js_or sel (opt_member first "rid") = sel) as ->
    by (unfold js_or; now rewrite T).
  rewrite T. cbn [negb].
  rewrite (find_by_rid_none _ _ M N). cbn [bind]. unfold js_or. cbn [truthy].
  now destruct (truthy (opt_member first "wrappedKey")).
Qed.

Lemma resolve_entry_no_list envelope sel :
  match recipients_of envelope with JArr (_ :: _) => False | _ => True end ->
  DecryptPanel.resolve_entry envelope sel
  = Throw (Error "envelope.access.recipients missing/empty").
Proof.
  intro H. unfold DecryptPanel.resolve_entry.
  destruct (recipients_of envelope) as [| | | | |[|x l]|]; try reflexivity.
  elim H.
Qed.

(* WK1 *)
Lemma try_parse_preserves {T} (f : WK1Panel.state -> T) X k :
  (forall v s, f (WK1Panel.setParsed v s) = f s) ->
  preserves f (WK1Panel.try_parse X k).
Proof.
  intro H. unfold WK1Panel.try_parse. auto with handlers.
Qed.

Lemma try_parse_total X k : total (WK1Panel.try_parse X k).
Proof. unfold WK1Panel.try_parse. auto with handlers. Qed.

Lemma copy_from_map_preserves {T} (f : WK1Panel.state -> T) X map erid set :
  (forall v s, f (set v s) = f s) ->
  preserves f (WK1Panel.copy_from_map X map erid set).
Proof.
  intro H. unfold WK1Panel.copy_from_map.
  destruct (as_object map); [destruct (truthy erid)|]; auto with handlers.
Qed.

Lemma fill_from_entry_out X bundle entry :
  preserves WK1Panel.out (WK1Panel.fill_from_entry X bundle entry).
Proof.
  unfold WK1Panel.fill_from_entry.
  repeat (apply preserves_abind; [|intro]);
    auto 6 using try_parse_preserves, copy_from_map_preserves with handlers.
Qed.

Lemma fill_from_entry_wrappedKey X bundle entry s :
  WK1Panel.wrappedKey (state_of (WK1Panel.fill_from_entry X bundle entry s)) =
  if truthy (opt_member entry "wrappedKey") then prop entry "wrappedKey"
  else WK1Panel.wrappedKey s.
Proof.
  unfold WK1Panel.fill_from_entry. rewrite state_abind.
  match goal with
  | |- context [abind ?m ?k] =>
      assert (preserves WK1Panel.wrappedKey (abind m k)) as P
        by (repeat (apply preserves_abind; [|intro]);
            auto 6 using try_parse_preserves, copy_from_map_preserves
              with handlers)
  end.
  destruct (truthy (opt_member entry "wrappedKey")); cbn [when modify ret outcome_of state_of fst snd];
    now rewrite P.
Qed.

Lemma fill_from_entry_kid X bundle entry s :
  WK1Panel.kid (state_of (WK1Panel.fill_from_entry X bundle entry s)) =
  if truthy (opt_member entry "rid") then opt_member entry "rid"
  else WK1Panel.kid s.
Proof.
  unfold WK1Panel.fill_from_entry. rewrite state_abind.
  assert (forall c m s', outcome_of (@when WK1Panel.state c (modify m) s') = Ok tt) as O
    by (intros [] ? ?; reflexivity).
  rewrite O. rewrite state_abind, O.
  match goal with
  | |- context [abind ?m ?k] =>
      assert (preserves WK1Panel.kid (abind m k)) as P
        by (repeat (apply preserves_abind; [|intro]);
            auto 6 using try_parse_preserves, copy_from_map_preserves
              with handlers)
  end.
  rewrite P.
  destruct (truthy (opt_member entry "rid")),
           (truthy (opt_member entry "wrappedKey")); reflexivity.
Qed.

Lemma aad_step bundle s :
  let m := match opt_member bundle "aadText" with
           | JStr a => modify (WK1Panel.setAadText a)
           | _ => ret tt
           end in
  outcome_of (m s) = Ok tt /\ state_of (m s) = aad_synced bundle s.
Proof.
  unfold aad_synced. destruct (opt_member bundle "aadText"); split; reflexivity.
Qed.

Lemma fillFromBundle_fallback X view s bundle first rest :
  parse_bundle X (WK1Panel.bundleInput view) = Ok bundle ->
  recipients_of (opt_member bundle "envelope") = JArr (first :: rest) ->
  truthy (WK1Panel.selectedRid view) = true ->
  matches_no_entry (first :: rest) (WK1Panel.selectedRid view) = true ->
  no_null_entry (first :: rest) = true ->
  outcome_of (WK1Panel.fillFromBundle X view s) = Ok tt
  /\ state_of (WK1Panel.fillFromBundle X view s)
     = state_of (WK1Panel.fill_from_entry X bundle first (aad_synced bundle s)).
Proof.
  intros P R T M N.
  destruct (aad_step bundle s) as [A1 A2]. cbv zeta in A1, A2.
  assert (js_or (WK1Panel.selectedRid view) (opt_member first "rid")
          = WK1Panel.selectedRid view) as J
    by (unfold js_or; now rewrite T).
  unfold WK1Panel.fillFromBundle.
  rewrite outcome_try_catch, state_try_catch.
  rewrite !outcome_abind, !state_abind. rewrite P.
  cbn [lift outcome_of state_of fst snd].
  rewrite !outcome_abind, !state_abind. rewrite A1, A2, R.
  rewrite !outcome_abind, !state_abind. rewrite T. cbn [negb].
  rewrite J, (find_by_rid_none _ _ M N).
  cbn [lift outcome_of state_of fst snd].
  change (js_or JUndefined first) with first.
  destruct (outcome_of (WK1Panel.fill_from_entry X bundle first
                          (aad_synced bundle s))) as [[]|e];
    split; reflexivity.
Qed.

Lemma run_prepare_fallback X view s bundle first rest args ctx :
  parse_bundle X (DecryptPanel.bundleInput view) = Ok bundle ->
  recipients_of (opt_member bundle "envelope") = JArr (first :: rest) ->
  truthy (DecryptPanel.selectedRid view) = true ->
  matches_no_entry (first :: rest) (DecryptPanel.selectedRid view) = true ->
  no_null_entry (first :: rest) = true ->
  outcome_of (DecryptPanel.run_prepare X view s) = Ok (args, ctx) ->
  DecryptPanel.ctx_entry ctx = first
  /\ ua_wrappedKey args = prop first "wrappedKey".
Proof.
  intros P R T M N. unfold DecryptPanel.run_prepare.
  rewrite P.
  rewrite outcome_abind. cbn [lift outcome_of snd state_of fst].
  rewrite outcome_abind. cbn [lift outcome_of snd state_of fst].
  unfold destructure at 1.
  destruct (is_nullish bundle) eqn:NB; [discriminate|].
  rewrite outcome_abind. cbn [lift outcome_of snd state_of fst].
  unfold destructure at 1. rewrite NB.
  replace (opt_member bundle "envelope") with (prop bundle "envelope") in R
    by (unfold opt_member; now rewrite NB).
  rewrite outcome_abind.
  match goal with |- context [throw_if ?c _] => destruct c end;
    [discriminate|]. cbn [throw_if ret outcome_of state_of snd fst].
  rewrite outcome_abind.
  match goal with |- context [throw_if ?c _] => destruct c end;
    [discriminate|]. cbn [throw_if ret outcome_of state_of snd fst].
  rewrite outcome_abind. unfold validate_call at 1.
  cbn [call outcome_of state_of snd fst].
  destruct (validateEnvelope X (prop bundle "envelope")); [discriminate|].
  rewrite outcome_abind.
  rewrite (resolve_entry_fallback _ _ _ _ R T M N).
  destruct (truthy (opt_member first "wrappedKey")); [|discriminate].
  cbn [lift outcome_of snd state_of fst].
  rewrite outcome_abind.
  match goal with |- context [lift ?r] => destruct r end; [|discriminate].
  cbn [lift outcome_of snd state_of fst].
  rewrite outcome_abind.
  match goal with |- context [throw_if ?c _] => destruct c end;
    [discriminate|]. cbn [throw_if ret outcome_of state_of snd fst].
  intro H. injection H as <- <-. split; reflexivity.
Qed.


(* ================================================================= *)
(** * DecryptPanel: the machine of suspended runs *)

Lemma catch_run_eq runId e s :
  (DecryptPanel.catch_run runId e ;;; ret None) s = caught runId e s.
Proof.
  unfold DecryptPanel.catch_run, caught, abind, get_state, modify, lift, ret.
  cbn [fst snd].
  destruct (runId =? DecryptPanel.runIdRef s)%N; cbn; [|reflexivity].
  now destruct (errText e).
Qed.

Lemma settle_eq X p s :
  DecryptPanel.settle X p s =
  match p with
  | DecryptPanel.AwaitUnwrap runId a ctx =>
      match unwrapDEK_secp256k1 X a with
      | Ok dek =>
          (([CallDecrypt (decrypt_call dek ctx)], s),
           Ok (Some (DecryptPanel.AwaitDecrypt runId (decrypt_call dek ctx) ctx)))
      | Throw e => caught runId e s
      end
  | DecryptPanel.AwaitDecrypt runId a ctx =>
      match decryptTextFromEnvelope X a with
      | Ok plaintext =>
          (([], write_if_current runId (succeeded X plaintext ctx) "ok" s), Ok None)
      | Throw e => caught runId e s
      end
  end.
Proof.
  unfold DecryptPanel.settle.
  destruct p as [runId a ctx|runId a ctx].
  - destruct (unwrapDEK_secp256k1 X a); [reflexivity|].
    apply catch_run_eq.
  - destruct (decryptTextFromEnvelope X a); [|apply catch_run_eq].
    unfold DecryptPanel.finish_run, write_if_current, abind, get_state,
      modify, ret. cbn [fst snd].
    now destruct (runId =? DecryptPanel.runIdRef s)%N.
Qed.

Lemma sync_effect_runIdRef X view :
  preserves DecryptPanel.runIdRef (DecryptPanel.sync_effect X view).
Proof.
  unfold DecryptPanel.sync_effect.
  apply preserves_try_catch; [|auto with handlers].
  handler_cases (@preserves_abind DecryptPanel.state).
Qed.

Lemma sync_effect_out X view :
  preserves DecryptPanel.out (DecryptPanel.sync_effect X view).
Proof.
  unfold DecryptPanel.sync_effect.
  apply preserves_try_catch; [|auto with handlers].
  handler_cases (@preserves_abind DecryptPanel.state).
Qed.

Lemma named_has_text e : named e = true -> has_text e.
Proof. destruct e as [n m|v]; [|discriminate]. intros _. eexists. reflexivity. Qed.

Lemma named_worded e : named e = true -> worded e.
Proof.
  destruct e as [n m|v]; [|discriminate]. cbn. unfold nonempty. intro H.
  eexists. split; [reflexivity|].
  destruct (String.eqb m "") eqn:E; cbn.
  - intros ->. discriminate H.
  - intros ->. discriminate E.
Qed.

Lemma has_text_Error msg : has_text (Error msg).
Proof. eexists. reflexivity. Qed.

#[export] Hint Resolve has_text_Error : handlers.

Lemma worded_has_text e : worded e -> has_text e.
Proof. intros (msg & H & _). now exists msg. Qed.

Lemma polite_articulate X : polite X -> articulate X.
Proof.
  intros (A & B & C & D).
  repeat split; intros; apply worded_has_text; eauto.
Qed.

(** Induction on values, through arrays and objects. *)
Lemma jsval_ind' (P : jsval -> Prop) :
  P JUndefined -> P JNull -> (forall b, P (JBool b)) -> (forall z, P (JNum z)) ->
  (forall s, P (JStr s)) ->
  (forall items, Forall P items -> P (JArr items)) ->
  (forall fields, Forall (fun kv => P (snd kv)) fields -> P (JObj fields)) ->
  forall v, P v.
Proof.
  intros H1 H2 H3 H4 H5 H6 H7. fix IH 1.
  intros [| |b|z|s|items|fields];
    [exact H1 | exact H2 | apply H3 | apply H4 | apply H5 | |].
  - apply H6. induction items as [|x r IHr]; constructor; [apply IH|exact IHr].
  - apply H7. induction fields as [|[k x] r IHr]; constructor;
      [apply IH|exact IHr].
Qed.

Lemma atob_named d e : atob d = Throw e -> named e = true.
Proof.
  unfold atob. destruct (_ =? 1)%nat; [intro H; injection H as <-; reflexivity|].
  destruct (sextets_of _); [discriminate|].
  intro H; injection H as <-; reflexivity.
Qed.

(** What the awaited SDK calls throw. *)
Lemma throws_only_validate {S} (P : thrown -> Prop) X env :
  failures P X -> throws_only (S := S) P (validate_call X env).
Proof.
  intros (_ & PV & _ & _). apply throws_only_call.
  destruct (validateEnvelope X env) as [e0|] eqn:V; [|discriminate].
  intros e H. injection H as <-. exact (PV _ _ V).
Qed.

Lemma throws_only_unwrap {S} (P : thrown -> Prop) X a :
  failures P X -> throws_only (S := S) P (await_unwrap X a).
Proof. intros (_ & _ & PU & _). apply throws_only_call. apply PU. Qed.

Lemma throws_only_decrypt {S} (P : thrown -> Prop) X a :
  failures P X -> throws_only (S := S) P (await_decrypt X a).
Proof. intros (_ & _ & _ & PD). apply throws_only_call. apply PD. Qed.

Lemma throws_only_encrypt {S} (P : thrown -> Prop) X a :
  encrypt_failures P X -> throws_only (S := S) P (await_encrypt X a).
Proof. intros (PE & _). apply throws_only_call. apply PE. Qed.

Lemma throws_only_wrap {S} (P : thrown -> Prop) X a :
  encrypt_failures P X -> throws_only (S := S) P (await_wrap X a).
Proof. intros (_ & PW). apply throws_only_call. apply PW. Qed.

Lemma throws_only_mapM {S A B} (P : thrown -> Prop) (g : A -> action S B)
      (l : list A) :
  (forall a, throws_only P (g a)) -> throws_only P (mapM g l).
Proof.
  intro H. induction l as [|a r IH]; cbn [mapM]; auto with handlers.
Qed.

Lemma rejections_in {A} (l : list (result A)) (e : thrown) :
  In e (rejections l) -> In (Throw e) l.
Proof.
  induction l as [|[x|e0] r IH]; cbn; [tauto| |].
  - intro H. right. now apply IH.
  - intros [->|H]; [now left|right; now apply IH].
Qed.

Lemma sequence_results_in {A} (l : list (result A)) (e : thrown) :
  sequence_results l = Throw e -> In (Throw e) l.
Proof.
  induction l as [|[x|e0] r IH]; cbn; [discriminate| |].
  - destruct (sequence_results r) as [ys|e1]; cbn [bind]; [discriminate|].
    intro H. injection H as <-. right. now apply IH.
  - intro H. injection H as <-. now left.
Qed.

(** What [Promise.all] rejects with is the rejection of one of its
    promises. *)
Lemma promise_all_rejects {A} (first : nat) (l : list (result A)) (e : thrown) :
  promise_all first l = Throw e -> In (Throw e) l.
Proof.
  unfold promise_all.
  destruct (sequence_results l) as [xs|e0] eqn:Q; [discriminate|].
  intro H. injection H as <-.
  destruct (nth_in_or_default first (rejections l) e0) as [I|E].
  - now apply rejections_in.
  - rewrite E. now apply sequence_results_in.
Qed.

Lemma throws_only_promise_all_wrap {S} (P : thrown -> Prop) X l :
  encrypt_failures P X -> throws_only (S := S) P (promise_all_wrap X l).
Proof.
  intros (_ & PW) s e H. unfold promise_all_wrap in H. cbn in H.
  apply promise_all_rejects in H. apply in_map_iff in H.
  destruct H as (a & H & _). exact (PW _ _ H).
Qed.

Lemma js_to_string_named v e : js_to_string v = Throw e -> named e = true.
Proof.
  revert e. induction v as [| |b|z|s|items IH|fields IHf] using jsval_ind';
    intro e; cbn [js_to_string]; try discriminate.
  - destruct b; discriminate.
  - destruct (sequence_results _) as [parts|e0] eqn:Q; cbn [bind]; [discriminate|].
    intro H. injection H as <-.
    revert e0 Q. induction items as [|x r IHr]; [discriminate|].
    intros e0. cbn [map sequence_results].
    inversion IH as [|? ? Hx Hr]; subst.
    destruct (match x with JUndefined | JNull => Ok "" | _ => js_to_string x end)
      as [t|e1] eqn:Ex; cbn [bind].
    + destruct (sequence_results _) as [ps|e2] eqn:Q2; cbn [bind]; [discriminate|].
      intro H. injection H as <-. exact (IHr Hr e2 eq_refl).
    + intro H. injection H as <-.
      destruct x; try discriminate Ex; exact (Hx _ Ex).
  - destruct (has_key "toString" fields); [|discriminate].
    intro H. injection H as <-. reflexivity.
Qed.

Lemma index_by_named X o key e : index_by X o key = Throw e -> named e = true.
Proof.
  unfold index_by. destruct (js_to_string key) eqn:K; cbn [bind]; [discriminate|].
  intro H. injection H as <-. exact (js_to_string_named _ _ K).
Qed.

Lemma find_by_rid_named own recips rid e :
  find_by_rid own recips rid = Throw e -> named e = true.
Proof.
  revert own. induction recips as [|x r IH]; [discriminate|]. intro own.
  cbn [find_by_rid]. unfold member.
  destruct (is_nullish x); cbn [bind].
  - intro H. injection H as <-. reflexivity.
  - destruct (same_value own (prop x "rid") rid); [discriminate|apply IH].
Qed.

Section DecryptMachine.

Import DecryptPanel.

Lemma resolve_entry_named envelope sel e :
  resolve_entry envelope sel = Throw e -> named e = true.
Proof.
  unfold resolve_entry.
  destruct (recipients_of envelope) as [| | | | |[|x l]|];
    try (intro H; injection H as <-; reflexivity).
  destruct (negb (truthy (js_or sel (opt_member x "rid"))));
    [intro H; injection H as <-; reflexivity|].
  destruct (find_by_rid _ (x :: l) (js_or sel (opt_member x "rid"))) eqn:F;
    cbn [bind].
  - destruct (negb (truthy (opt_member _ "wrappedKey")));
      [intro H; injection H as <-; reflexivity|discriminate].
  - intro H. injection H as <-. exact (find_by_rid_named _ _ _ _ F).
Qed.

Lemma destructure_named v k e : destructure v k = Throw e -> named e = true.
Proof.
  unfold destructure. destruct (is_nullish v); [|discriminate].
  intro H. injection H as <-. reflexivity.
Qed.

(** What [run] throws before its first [await] is a named error of the
    console or of the engine, or what [JSON.parse] or [validateEnvelope]
    threw. *)
Lemma run_prepare_throws (P : thrown -> Prop) X view :
  failures P X -> (forall e, named e = true -> P e) ->
  throws_only P (run_prepare X view).
Proof.
  intros (PP & PV & _ & _) PN. unfold run_prepare, validate_call, parse_bundle.
  repeat (apply throws_only_abind; [|intro]); auto with handlers.
  - apply throws_only_lift. intros e H. exact (PP _ _ H).
  - apply throws_only_lift. intros e H. exact (PN _ (destructure_named _ _ _ H)).
  - apply throws_only_lift. intros e H. exact (PN _ (destructure_named _ _ _ H)).
  - apply throws_only_call.
    destruct (validateEnvelope X a1) as [e0|] eqn:V; [|discriminate].
    intros e H. injection H as <-. exact (PV _ _ V).
  - apply throws_only_lift. intros e H. exact (PN _ (resolve_entry_named _ _ _ H)).
  - apply throws_only_lift. intros e.
    destruct (as_object _); [destruct (truthy _)|]; try discriminate.
    intro H. exact (PN _ (index_by_named _ _ _ _ H)).
Qed.

Lemma rejection_is (P : thrown -> Prop) X p e :
  failures P X -> rejection X p = Some e -> P e.
Proof.
  intros (_ & _ & PU & PD). destruct p as [runId a ctx|runId a ctx]; cbn.
  - destruct (unwrapDEK_secp256k1 X a) eqn:U; [discriminate|].
    intro H. injection H as <-. exact (PU _ _ U).
  - destruct (decryptTextFromEnvelope X a) eqn:D; [discriminate|].
    intro H. injection H as <-. exact (PD _ _ D).
Qed.

Lemma run_start_counter X view s :
  runIdRef (state_of (run_start X view s)) = (runIdRef s + 1)%N.
Proof.
  rewrite run_start_eq.
  destruct (outcome_of (run_prepare X view s)) as [p|e]; [reflexivity|].
  now destruct (errText e).
Qed.

Lemma run_start_pending X view s p :
  outcome_of (run_start X view s) = Ok (Some p) ->
  pending_id p = (runIdRef s + 1)%N.
Proof.
  rewrite run_start_eq. destruct (outcome_of (run_prepare X view s)) as [q|e]; cbn.
  - intro H. injection H as <-. reflexivity.
  - destruct (errText e); discriminate.
Qed.

Lemma run_start_total X view s :
  articulate X -> exists p, outcome_of (run_start X view s) = Ok p.
Proof.
  intro A. rewrite run_start_eq.
  destruct (outcome_of (run_prepare X view s)) as [p|e] eqn:E;
    [eexists; reflexivity|].
  destruct (run_prepare_throws has_text X view A named_has_text s e E) as [msg ->].
  eexists; reflexivity.
Qed.

Lemma caught_total runId e s :
  has_text e -> exists q, outcome_of (caught runId e s) = Ok q.
Proof.
  intros [msg H]. unfold caught. rewrite H.
  destruct (runId =? runIdRef s)%N; eexists; reflexivity.
Qed.

Lemma settle_total X p s :
  articulate X -> exists q, outcome_of (settle X p s) = Ok q.
Proof.
  intros (_ & _ & PU & PD). rewrite settle_eq.
  destruct p as [runId a ctx|runId a ctx].
  - destruct (unwrapDEK_secp256k1 X a) eqn:U; [eexists; reflexivity|].
    apply caught_total. exact (PU _ _ U).
  - destruct (decryptTextFromEnvelope X a) eqn:D; [eexists; reflexivity|].
    apply caught_total. exact (PD _ _ D).
Qed.

Lemma caught_counter runId e s :
  runIdRef (state_of (caught runId e s)) = runIdRef s.
Proof.
  unfold caught. destruct (runId =? runIdRef s)%N; [|reflexivity].
  now destruct (errText e).
Qed.

Lemma settle_counter X p s :
  runIdRef (state_of (settle X p s)) = runIdRef s.
Proof.
  rewrite settle_eq. unfold write_if_current.
  destruct p as [runId a ctx|runId a ctx].
  - destruct (unwrapDEK_secp256k1 X a); [reflexivity|apply caught_counter].
  - destruct (decryptTextFromEnvelope X a); [|apply caught_counter].
    now destruct (runId =? runIdRef s)%N.
Qed.

Lemma settle_stale X p s :
  pending_id p <> runIdRef s ->
  out (state_of (settle X p s)) = out s
  /\ sdk (state_of (settle X p s)) = sdk s.
Proof.
  intro H. apply N.eqb_neq in H.
  rewrite settle_eq. unfold write_if_current, caught.
  destruct p as [runId a ctx|runId a ctx]; cbn [pending_id] in H.
  - destruct (unwrapDEK_secp256k1 X a); rewrite ?H; split; reflexivity.
  - destruct (decryptTextFromEnvelope X a); rewrite ?H; split; reflexivity.
Qed.

Lemma settle_rejected X p s e :
  rejection X p = Some e ->
  settle X p s = caught (pending_id p) e s.
Proof.
  intros R. rewrite settle_eq.
  destruct p as [runId a ctx|runId a ctx]; cbn [pending_id rejection] in *.
  - destruct (unwrapDEK_secp256k1 X a); [discriminate|].
    now injection R as ->.
  - destruct (decryptTextFromEnvelope X a); [discriminate|].
    now injection R as ->.
Qed.

Lemma step_panel_run X w :
  panel (snd (step X w Click_run)) = state_of (run_start X (panel w) (panel w)).
Proof.
  unfold step. now destruct (run_start X (panel w) (panel w)) as [[t s] r].
Qed.

Lemma step_panel_settle X w i p :
  nth_error (suspended w) i = Some p ->
  panel (snd (step X w (Settle i))) = state_of (settle X p (panel w)).
Proof.
  intro H. unfold step. rewrite H.
  now destruct (settle X p (panel w)) as [[t s] r].
Qed.

Lemma step_counter X w ev :
  (runIdRef (panel w) <= runIdRef (panel (snd (step X w ev))))%N
  /\ forall n, started X w ev = Some n ->
               n = (runIdRef (panel w) + 1)%N
               /\ runIdRef (panel (snd (step X w ev))) = n.
Proof.
  destruct ev; cbn [started].
  - rewrite step_panel_run, run_start_counter. split; [lia|].
    intros n H. injection H as <-. auto.
  - unfold step.
    destruct (autoDecrypt (panel w) && auto_run_guard X (panel w)).
    + pose proof (run_start_counter X (panel w) (panel w)) as C.
      destruct (run_start X (panel w) (panel w)) as [[t s] r].
      cbn in *. rewrite C. split; [lia|]. intros n H. injection H as <-. auto.
    + cbn. split; [lia|discriminate].
  - unfold step.
    match goal with |- context [sync_effect X ?v ?s] =>
      pose proof (sync_effect_runIdRef X v s) as C;
      destruct (sync_effect X v s) as [[t s3] r]
    end. cbn in *. rewrite C. split; [lia|discriminate].
  - unfold step.
    match goal with |- context [sync_effect X ?v ?s] =>
      pose proof (sync_effect_runIdRef X v s) as C;
      destruct (sync_effect X v s) as [[t s3] r]
    end. cbn in *. rewrite C. split; [lia|discriminate].
  - cbn. split; [lia|discriminate].
  - cbn. split; [lia|discriminate].
  - cbn. split; [lia|discriminate].
  - split; [|discriminate].
    destruct (nth_error (suspended w) i) as [p|] eqn:E.
    + rewrite (step_panel_settle X w i p E), settle_counter. lia.
    + unfold step. rewrite E. cbn. lia.
Qed.

Lemma started_ids_increase X evs :
  forall w,
    Forall (fun n => (runIdRef (panel w) < n)%N) (started_ids X w evs)
    /\ StronglySorted N.lt (started_ids X w evs).
Proof.
  induction evs as [|ev evs IH]; intro w; cbn [started_ids].
  - split; constructor.
  - destruct (IH (snd (step X w ev))) as [F S].
    destruct (step_counter X w ev) as [M A].
    assert (Forall (fun n => (runIdRef (panel w) < n)%N)
                   (started_ids X (snd (step X w ev)) evs)) as F'.
    { eapply Forall_impl; [|exact F]. cbv beta. intros n Hn. lia. }
    destruct (started X w ev) as [n|] eqn:E.
    + destruct (A n eq_refl) as [-> B]. split.
      * constructor; [lia|exact F'].
      * constructor; [exact S|]. rewrite <- B. exact F.
    + split; assumption.
Qed.

Lemma run_total X view s :
  articulate X -> outcome_of (run X view s) = Ok tt.
Proof.
  intro A. unfold run. rewrite outcome_abind.
  destruct (run_start_total X view s A) as [[p|] ->]; [|reflexivity].
  rewrite outcome_abind.
  destruct (settle_total X p (state_of (run_start X view s)) A) as [[q|] ->];
    [|reflexivity].
  rewrite outcome_abind.
  now destruct (settle_total X q
    (state_of (settle X p (state_of (run_start X view s)))) A) as [r ->].
Qed.

End DecryptMachine.

Lemma bundle_prepare_throws (P : thrown -> Prop) X view :
  failures P X -> (forall e, named e = true -> P e) ->
  throws_only P (VectorsPanel.bundle_prepare X view).
Proof.
  intros (PP & PV & _ & _) PN.
  unfold VectorsPanel.bundle_prepare, validate_call, parse_bundle.
  repeat first
    [ apply throws_only_abind; [|intro]
    | match goal with
      | |- throws_only _ (if ?c then _ else _) => destruct c
      | |- throws_only _ (match ?x with _ => _ end) => destruct x
      end ];
    auto with handlers.
  - apply throws_only_lift. intros e H. exact (PP _ _ H).
  - apply throws_only_lift. intros e H. exact (PN _ (destructure_named _ _ _ H)).
  - apply throws_only_lift. intros e H. exact (PN _ (destructure_named _ _ _ H)).
  - apply throws_only_call.
    destruct (validateEnvelope X a1) as [e0|] eqn:V; [|discriminate].
    intros e H. injection H as <-. exact (PV _ _ V).
  - apply throws_only_lift. intros e.
    destruct (as_object _); [|discriminate].
    destruct (index_by X o _) eqn:I; cbn [bind]; [discriminate|].
    intro H. injection H as <-. exact (PN _ (index_by_named _ _ _ _ I)).
Qed.

Lemma runFromBundle_total X view s :
  articulate X -> outcome_of (VectorsPanel.runFromBundle X view s) = Ok tt.
Proof.
  intro A.
  assert (total (VectorsPanel.runFromBundle X view)) as T.
  { unfold VectorsPanel.runFromBundle.
    repeat (apply total_abind; [|intro]); auto with handlers.
    apply total_catch_text.
    - pose proof (bundle_prepare_throws has_text X view A named_has_text) as B.
      destruct A as (_ & _ & PU & PD).
      unfold await_unwrap, await_decrypt.
      apply throws_only_abind; [exact B|intro r].
      repeat (apply throws_only_abind; [|intro]); auto with handlers.
      + apply throws_only_call. intros e H. exact (PU _ _ H).
      + apply throws_only_call. intros e H. exact (PD _ _ H).
    - intros e H.
      repeat (apply total_abind; [|intro]); auto with handlers. }
  destruct (T s) as [[] H]. exact H.
Qed.

Lemma parseWk1_throws (P : thrown -> Prop) X k :
  (forall t e, JSON_parse X t = Throw e -> P e) ->
  (forall e, named e = true -> P e) ->
  forall e, parseWk1 X k = Throw e -> P e.
Proof.
  intros PP PN e. unfold parseWk1.
  destruct k; try (intro H; injection H as <-; now apply PN).
  destruct (startsWith _ _); [|intro H; injection H as <-; now apply PN].
  destruct (atob _) as [json|e0] eqn:B; cbn [bind].
  - apply PP.
  - intro H. injection H as <-. apply PN. exact (atob_named _ _ B).
Qed.

Lemma doUnwrap_total X view s :
  articulate X -> outcome_of (WK1Panel.doUnwrap X view s) = Ok tt.
Proof.
  intros (PP & _ & PU & _).
  assert (total (WK1Panel.doUnwrap X view)) as T.
  { unfold WK1Panel.doUnwrap.
    repeat (apply total_abind; [|intro]); auto with handlers.
    apply total_catch_text.
    - unfold await_unwrap.
      repeat (apply throws_only_abind; [|intro]); auto with handlers.
      + apply throws_only_lift.
        exact (parseWk1_throws has_text X _ PP named_has_text).
      + apply throws_only_call. intros e H. exact (PU _ _ H).
    - intros e H.
      repeat (apply total_abind; [|intro]); auto with handlers. }
  destruct (T s) as [[] H]. exact H.
Qed.

Lemma table_parse_error table text e :
  table_parse table text = Throw e -> worded e.
Proof.
  induction table as [|v r IH]; cbn.
  - destruct (String.eqb text "{}"); [discriminate|].
    intro H. injection H as <-. eexists. split; [reflexivity|discriminate].
  - destruct (String.eqb (to_json v) text); [discriminate|exact IH].
Qed.

Lemma rejecting_sdk_polite table msg :
  msg <> "" -> polite (rejecting_sdk table (Error msg)).
Proof.
  intro M. repeat split; cbn.
  - apply table_parse_error.
  - discriminate.
  - intros _ e H. injection H as <-. exists msg. split; [|exact M]. cbn.
    destruct (String.eqb msg "") eqn:E; cbn; [|reflexivity].
    apply String.eqb_eq in E. contradiction.
  - intros a e. destruct (da_ciphertextB64url a); try discriminate;
      intro H; injection H as <-; eexists; (split; [reflexivity|discriminate]).
Qed.

(* ================================================================= *)
(** * The generated envelope *)

Lemma envelope_ciphertextHash X raw entries :
  prop (build_envelope X raw entries) "ciphertextHash"
  = JStr (raw_ciphertextHash raw).
Proof. reflexivity. Qed.





(* ================================================================= *)
(** ** EncryptPanel: the encrypt run and the downloaded bundle *)

Section EncryptLemmas.

Import EncryptPanel.

Lemma preserves_mapM {S A B T} (f : S -> T) (g : A -> action S B) (l : list A) :
  (forall x, preserves f (g x)) -> preserves f (mapM g l).
Proof.
  intro H. induction l as [|x l IH]; cbn [mapM]; auto with handlers.
Qed.

Lemma map_list_set {A B} (f : A -> B) (l : list A) (i : nat) (x y : A) :
  nth_error l i = Some y -> f x = f y ->
  map f (list_set i x l) = map f l.
Proof.
  revert i. induction l as [|a l IH]; intros [|i]; cbn; try discriminate.
  - intros H E. injection H as ->. now rewrite E.
  - intros H E. now rewrite (IH i H E).
Qed.

Lemma u8ToHex_nonempty (u8 : list byte) : nonempty (u8ToHex u8) = true.
Proof. reflexivity. Qed.

Lemma ensureRecipientAt_spec X view i r0 s :
  nth_error (recipients view) i = Some r0 ->
  map rid (recipients s) = map rid (recipients view) ->
  exists r,
    outcome_of (ensureRecipientAt X view i s) = Ok r
    /\ rid r = rid r0
    /\ has_keys r = true
    /\ map rid (recipients (state_of (ensureRecipientAt X view i s)))
       = map rid (recipients view).
Proof.
  intros H M. unfold ensureRecipientAt. rewrite H.
  destruct (nonempty (recipientPrivHex r0) && nonempty (recipientPubHex r0)) eqn:K.
  - exists r0. repeat split; assumption.
  - eexists. repeat split; cbn.
    apply (map_list_set rid _ _ _ r0 H). reflexivity.
Qed.

Lemma ensureRecipientAt_result X view i r0 s :
  nth_error (recipients view) i = Some r0 ->
  exists r,
    outcome_of (ensureRecipientAt X view i s) = Ok r /\ ensured r0 r.
Proof.
  intro H. unfold ensureRecipientAt, ensured, has_keys. rewrite H.
  destruct (nonempty (recipientPrivHex r0) && nonempty (recipientPubHex r0)) eqn:K.
  - exists r0. repeat split; assumption.
  - eexists. repeat split. discriminate.
Qed.

Lemma ensure_list_result X view idxs :
  Forall (fun i => i < List.length (recipients view))%nat idxs ->
  forall s,
    exists ready,
      outcome_of (mapM (ensureRecipientAt X view) idxs s) = Ok ready
      /\ Forall2 ensured
                 (map (fun i => nth i (recipients view) blank_recipient) idxs) ready.
Proof.
  induction 1 as [|i idxs Hi _ IH]; intros s.
  - exists []. split; [reflexivity | constructor].
  - destruct (nth_error (recipients view) i) as [r0|] eqn:E;
      [|apply nth_error_None in E; lia].
    destruct (ensureRecipientAt_result X view i r0 s E) as (r & O & R).
    destruct (IH (state_of (ensureRecipientAt X view i s))) as (ready & O' & R').
    exists (r :: ready). cbn [mapM].
    rewrite outcome_abind, O, outcome_abind, O'. cbn [ret outcome_of snd].
    split; [reflexivity|]. cbn [map]. constructor; [|exact R'].
    now rewrite (nth_error_nth _ _ blank_recipient E).
Qed.


Lemma ensureRecipientAt_preserves {T} (f : state -> T) X view i :
  (forall s, f (drew s) = f s) ->
  (forall v s, f (setRecipients v s) = f s) ->
  preserves f (ensureRecipientAt X view i).
Proof.
  intros H1 H2. unfold ensureRecipientAt.
  destruct (nth_error (recipients view) i) as [r|]; [|auto with handlers].
  destruct (_ && _); [auto with handlers|].
  repeat (apply preserves_abind; [|intro]); auto with handlers.
Qed.

Lemma ensure_list X view idxs :
  Forall (fun i => i < List.length (recipients view))%nat idxs ->
  forall s,
    map rid (recipients s) = map rid (recipients view) ->
    exists ready,
      outcome_of (mapM (ensureRecipientAt X view) idxs s) = Ok ready
      /\ map rid ready
         = map (fun i => rid (nth i (recipients view) blank_recipient)) idxs
      /\ forallb has_keys ready = true
      /\ map rid (recipients (state_of (mapM (ensureRecipientAt X view) idxs s)))
         = map rid (recipients view).
Proof.
  induction 1 as [|i idxs Hi _ IH]; intros s M.
  - exists []. repeat split; assumption.
  - destruct (nth_error (recipients view) i) as [r0|] eqn:E;
      [|apply nth_error_None in E; lia].
    destruct (ensureRecipientAt_spec X view i r0 s E M) as (r & O & R & K & M').
    destruct (IH _ M') as (ready & O' & R' & K' & M'').
    exists (r :: ready). cbn [mapM].
    rewrite outcome_abind, state_abind, O.
    rewrite outcome_abind, state_abind, O'. cbn [ret outcome_of state_of fst snd].
    repeat split.
    + cbn [map]. rewrite R, R'. f_equal.
      now rewrite (nth_error_nth _ _ blank_recipient E).
    + cbn [forallb]. now rewrite K, K'.
    + exact M''.
Qed.

Lemma map_nth_seq {A B} (f : A -> B) (l : list A) (d : A) :
  map (fun i => f (nth i l d)) (seq 0 (List.length l)) = map f l.
Proof.
  induction l as [|a l IH]; [reflexivity|].
  cbn [List.length seq map nth]. f_equal.
  rewrite <- seq_shift, map_map. exact IH.
Qed.

Lemma ensureAll_spec X view s :
  map rid (recipients s) = map rid (recipients view) ->
  exists ready,
    outcome_of (ensureAll X view s) = Ok ready
    /\ map rid ready = map rid (recipients view)
    /\ forallb has_keys ready = true
    /\ map rid (recipients (state_of (ensureAll X view s)))
       = map rid (recipients view).
Proof.
  intro M. unfold ensureAll.
  destruct (ensure_list X view (seq 0 (List.length (recipients view)))) with (s := s)
    as (ready & O & R & K & M'); [|exact M|].
  - apply Forall_forall. intros i Hi. apply in_seq in Hi. lia.
  - exists ready. rewrite map_nth_seq in R. auto.
Qed.

Lemma ensureAll_result X view s :
  exists ready,
    outcome_of (ensureAll X view s) = Ok ready
    /\ Forall2 ensured (recipients view) ready.
Proof.
  unfold ensureAll.
  destruct (ensure_list_result X view (seq 0 (List.length (recipients view))))
    with (s := s) as (ready & O & R).
  - apply Forall_forall. intros i Hi. apply in_seq in Hi. lia.
  - exists ready. split; [exact O|].
    rewrite (map_nth_seq (fun r => r)), map_id in R. exact R.
Qed.

Lemma ensureAll_preserves {T} (f : state -> T) X view :
  (forall s, f (drew s) = f s) ->
  (forall v s, f (setRecipients v s) = f s) ->
  preserves f (ensureAll X view).
Proof.
  intros H1 H2. unfold ensureAll. apply preserves_mapM.
  intro i. now apply ensureRecipientAt_preserves.
Qed.

Lemma sequence_results_length {A} (l : list (result A)) (xs : list A) :
  sequence_results l = Ok xs -> List.length xs = List.length l.
Proof.
  revert xs. induction l as [|r l IH]; intros xs; cbn.
  - intro H. injection H as <-. reflexivity.
  - destruct r as [x|e]; cbn; [|discriminate].
    destruct (sequence_results l) as [ys|e]; cbn; [|discriminate].
    intro H. injection H as <-. cbn. now rewrite (IH ys eq_refl).
Qed.


Lemma encrypt_and_wrap_preserves {T} (f : state -> T) X view :
  (forall s, f (drew s) = f s) ->
  (forall v s, f (setRecipients v s) = f s) ->
  preserves f (encrypt_and_wrap X view).
Proof.
  intros H1 H2. unfold encrypt_and_wrap, await_encrypt, validate_call.
  repeat (apply preserves_abind; [|intro]); auto with handlers.
  - now apply ensureAll_preserves.
  - intro s. reflexivity.
Qed.

Lemma sanity_decrypt_preserves {T} (f : state -> T) X view w :
  (forall v s, f (setDecryptCheck v s) = f s) ->
  preserves f (sanity_decrypt X view w).
Proof.
  intro H. unfold sanity_decrypt, await_unwrap, await_decrypt.
  handler_cases (@preserves_abind state).
Qed.

Lemma catch_encrypt_preserves {T} (f : state -> T) e :
  (forall v s, f (setDecryptCheck v s) = f s) ->
  (forall v s, f (onStatus v s) = f s) ->
  preserves f (catch_encrypt e).
Proof.
  intros H1 H2. unfold catch_encrypt.
  repeat (apply preserves_abind; [|intro]); auto with handlers.
Qed.









End EncryptLemmas.

Lemma nth_error_list_set_other {A} (l : list A) (i j : nat) (x : A) :
  j <> i -> nth_error (list_set i x l) j = nth_error l j.
Proof.
  revert i j. induction l as [|y r IH]; intros [|i] [|j] N; cbn; try reflexivity.
  - now elim N.
  - apply IH. congruence.
Qed.



(* ================================================================= *)
(** * The claims *)

Lemma odd_mod2 (n : nat) : Nat.odd n = negb (n mod 2 =? 0)%nat.
Proof.
  assert (forall k, Nat.odd k = negb (k mod 2 =? 0)%nat
                    /\ Nat.odd (S k) = negb (S k mod 2 =? 0)%nat) as H.
  { induction k as [|k [IH1 IH2]]; [split; reflexivity|].
    split; [exact IH2|].
    rewrite mod2_SS. change (Nat.odd (S (S k))) with (Nat.odd k). exact IH1. }
  apply H.
Qed.

(** C8, as the claim states its last part: the byte of a slice that holds
    a character outside the radix-16 digits is 0.  It is not: in ["1g"]
    the [g] is no digit, and the byte is 1. *)
Lemma hexToU8_affected_byte_not_zero :
  is_hex_digit "g" = false /\ hexToU8 "1g" = Ok [x01].
Proof. split; reflexivity. Qed.

(** C8 (amended).  [hexToU8] undoes [u8ToHex]; it throws exactly when the
    text left after an optional [0x] has odd length; and otherwise it never
    throws: every two-character slice gives one byte, [pair_byte] of the
    two characters, that is the value of both digits, or of the leading
    digit when only that one is a digit, or of the second character when it
    is a digit behind white space or a sign (negated modulo 256 behind
    [-]), and 0 in every other case. *)
Theorem hexToU8_spec :
  (forall u8, hexToU8 (u8ToHex u8) = Ok u8)
  /\ (forall hex,
        (exists e, hexToU8 hex = Throw e)
        <-> Nat.odd (String.length (strip_0x hex)) = true)
  /\ (forall hex,
        hexToU8 hex =
        if Nat.odd (String.length (strip_0x hex))
        then Throw (Error "Invalid hex length")
        else Ok (map (fun p => pair_byte (fst p) (snd p))
                     (pairs (strip_0x hex)))).
Proof.
  assert (forall hex,
        hexToU8 hex =
        if Nat.odd (String.length (strip_0x hex))
        then Throw (Error "Invalid hex length")
        else Ok (map (fun p => pair_byte (fst p) (snd p))
                     (pairs (strip_0x hex)))) as E.
  { intro hex. rewrite hexToU8_by_pairs, odd_mod2.
    now destruct (String.length (strip_0x hex) mod 2 =? 0)%nat. }
  split; [exact hexToU8_u8ToHex|]. split; [|exact E].
  intro hex. rewrite (E hex).
  destruct (Nat.odd (String.length (strip_0x hex))); split.
  - reflexivity.
  - intros _. eexists. reflexivity.
  - intros [e H]. discriminate H.
  - discriminate.
Qed.

Lemma includes_char (c : ascii) (s : string) :
  includes s (String c "") = negb (forall_chars (fun x => negb (Ascii.eqb x c)) s).
Proof.
  induction s as [|a s IH]; [reflexivity|].
  cbn [includes forall_chars prefix]. rewrite IH.
  destruct (Ascii.ascii_dec c a) as [->|N].
  - rewrite Ascii.eqb_refl. now destruct s.
  - assert (Ascii.eqb a c = false) as -> by (apply Ascii.eqb_neq; congruence).
    reflexivity.
Qed.

Lemma forall_chars_weaken (p q : ascii -> bool) (s : string) :
  (forall c, p c = true -> q c = true) ->
  forall_chars p s = true -> forall_chars q s = true.
Proof.
  intro H. induction s as [|a s IH]; [reflexivity|].
  cbn. intro E. apply andb_prop in E. destruct E as [E1 E2].
  now rewrite (H _ E1), (IH E2).
Qed.

(** C9.  [b64urlToU8] undoes [u8ToB64url], and the text [u8ToB64url]
    returns contains none of [+], [/] and [=]. *)
Theorem b64url_roundtrip :
  (forall u8, b64urlToU8 (u8ToB64url u8) = Ok u8)
  /\ (forall u8,
        includes (u8ToB64url u8) "+" = false
        /\ includes (u8ToB64url u8) "/" = false
        /\ includes (u8ToB64url u8) "=" = false).
Proof.
  split; [exact b64urlToU8_u8ToB64url|].
  intro u8. rewrite u8ToB64url_eq, !includes_char.
  pose proof (b64url_chars (string_of_list_byte u8)) as H.
  repeat split; apply negb_false_iff;
    (eapply forall_chars_weaken; [|exact H]); cbv beta; intros c E;
    apply andb_prop in E; destruct E as [E E3];
    apply andb_prop in E; destruct E as [E1 E2]; assumption.
Qed.

(** C2.  [parseWk1] throws on every value that is not a string, and on
    every string that does not start with [pxp201:wk1:] it throws an error
    whose message spells out that prefix. *)
Theorem parseWk1_rejects (X : Externals) :
  (forall v, typeof v <> "string" ->
             parseWk1 X v = Throw (Error "wrappedKey must be a string"))
  /\ (forall s, startsWith s "pxp201:wk1:" = false ->
        exists msg, parseWk1 X (JStr s) = Throw (Error msg)
                    /\ includes msg "pxp201:wk1:" = true).
Proof.
  split.
  - intros v H. destruct v; try reflexivity. now elim H.
  - intros s H. eexists. split.
    + unfold parseWk1, wk1_prefix. rewrite H. reflexivity.
    + reflexivity.
Qed.

Lemma parseWk1_rejects_witness :
  parseWk1 (toy_sdk []) (JNum 7) = Throw (Error "wrappedKey must be a string")
  /\ exists msg, parseWk1 (toy_sdk []) (JStr "wk1:e30") = Throw (Error msg)
                 /\ includes msg "pxp201:wk1:" = true.
Proof.
  split.
  - apply (proj1 (parseWk1_rejects (toy_sdk []))). discriminate.
  - apply (proj2 (parseWk1_rejects (toy_sdk []))). reflexivity.
Defined.

Lemma opt_member_object (v : jsval) (k : string) :
  is_object v = true -> opt_member v k = prop v k.
Proof. destruct v; try discriminate; reflexivity. Qed.

Lemma not_object_test (v : jsval) :
  negb (truthy v) || negb (String.eqb (typeof v) "object") = negb (is_object v).
Proof. unfold is_object. now rewrite negb_andb. Qed.

Lemma vectorToBundle_rejects : forall v, vector_incomplete v = true ->
             exists msg, VectorsPanel.vectorToBundle v = Throw (Error msg).
Proof.
  intros v H. unfold VectorsPanel.vectorToBundle. rewrite not_object_test.
  unfold vector_incomplete, missing, raw_field in H.
  destruct (is_object v) eqn:O; cbn [negb]; [|eexists; reflexivity].
  rewrite !(opt_member_object v _ O) in H. cbn [negb orb] in H.
  repeat lazymatch goal with
         | |- exists msg, (if ?b then _ else _) = _ =>
             destruct b eqn:?; [eexists; reflexivity|]
         end.
  repeat match goal with
         | E : (_ || _)%bool = false |- _ =>
             apply orb_false_elim in E; destruct E
         end.
  repeat match goal with
         | E : ?b = false, G : context [?b] |- _ => rewrite E in G
         end.
  discriminate H.
Qed.

Lemma vectorToBundle_accepts : (forall v, vector_incomplete v = false ->
        exists raw',
          VectorsPanel.vectorToBundle v =
          Ok (JObj [("aadText",
                     if String.eqb (typeof (opt_member v "aadText")) "string"
                     then opt_member v "aadText" else JStr "");
                    ("raw", JObj raw');
                    ("envelope", opt_member v "envelope");
                    ("wrappedKey", opt_member v "wrappedKey");
                    ("recipient",
                     JObj [("rid", opt_member v "rid");
                           ("recipientPubHex", opt_member v "recipientPubHex");
                           ("recipientPrivHex", opt_member v "recipientPrivHex")])])
          /\ lookup "ciphertextB64url" raw' = raw_field v "ciphertextB64url"
          /\ lookup "nonceB64url" raw' = raw_field v "nonceB64url"
          /\ lookup "ciphertextHash" raw' = raw_field v "ciphertextHash"
          /\ lookup "aadHash" raw' =
             (if missing (raw_field v "aadHash") then JUndefined
              else raw_field v "aadHash")).
Proof.
  intros v H. unfold VectorsPanel.vectorToBundle. rewrite not_object_test.
  unfold vector_incomplete, missing, raw_field in *.
  repeat (apply orb_false_elim in H; let H' := fresh "M" in destruct H as [H H']).
  apply negb_false_iff in H.
  rewrite !(opt_member_object v _ H) in *. rewrite H, M3, M2, M1, M0, M. cbn [negb orb].
  assert (is_nullish (prop v "raw") = false) as NN.
  { destruct (prop v "raw"); try reflexivity; discriminate M3. }
  assert (forall k, opt_member (prop v "raw") k = prop (prop v "raw") k) as OM.
  { intro k. unfold opt_member. now rewrite NN. }
  rewrite !OM.
  eexists. split; [|repeat split].
  - replace (match prop v "aadText" with JStr a => JStr a | _ => JStr "" end)
      with (if String.eqb (typeof (prop v "aadText")) "string"
            then prop v "aadText" else JStr "")
      by (destruct (prop v "aadText"); reflexivity).
    reflexivity.
  - reflexivity.
  - reflexivity.
  - reflexivity.
  - cbn. destruct (truthy (prop (prop v "raw") "aadHash")); reflexivity.
Qed.

(** C7.  [vectorToBundle] rejects every value that is not an object or
    that misses one of [raw.ciphertextB64url], [raw.nonceB64url],
    [envelope], [wrappedKey] and [recipientPrivHex]; on every other vector
    it returns the bundle [{aadText, raw, envelope, wrappedKey, recipient}]
    whose fields are the vector's own ([aadText] when it is a string,
    [raw.aadHash] when it is not missing). *)
Theorem vectorToBundle_spec :
  (forall v, vector_incomplete v = true ->
             exists msg, VectorsPanel.vectorToBundle v = Throw (Error msg))
  /\ (forall v, vector_incomplete v = false ->
        exists raw',
          VectorsPanel.vectorToBundle v =
          Ok (JObj [("aadText",
                     if String.eqb (typeof (opt_member v "aadText")) "string"
                     then opt_member v "aadText" else JStr "");
                    ("raw", JObj raw');
                    ("envelope", opt_member v "envelope");
                    ("wrappedKey", opt_member v "wrappedKey");
                    ("recipient",
                     JObj [("rid", opt_member v "rid");
                           ("recipientPubHex", opt_member v "recipientPubHex");
                           ("recipientPrivHex", opt_member v "recipientPrivHex")])])
          /\ lookup "ciphertextB64url" raw' = raw_field v "ciphertextB64url"
          /\ lookup "nonceB64url" raw' = raw_field v "nonceB64url"
          /\ lookup "ciphertextHash" raw' = raw_field v "ciphertextHash"
          /\ lookup "aadHash" raw' =
             (if missing (raw_field v "aadHash") then JUndefined
              else raw_field v "aadHash")).
Proof.
  split; [exact vectorToBundle_rejects | exact vectorToBundle_accepts].
Qed.

Lemma vectorToBundle_spec_witness :
  (exists msg,
     VectorsPanel.vectorToBundle (JObj [("envelope", JObj [])])
     = Throw (Error msg))
  /\ (exists raw',
        VectorsPanel.vectorToBundle sample_vector =
        Ok (JObj [("aadText",
                   if String.eqb (typeof (opt_member sample_vector "aadText")) "string"
                   then opt_member sample_vector "aadText" else JStr "");
                  ("raw", JObj raw');
                  ("envelope", opt_member sample_vector "envelope");
                  ("wrappedKey", opt_member sample_vector "wrappedKey");
                  ("recipient",
                   JObj [("rid", opt_member sample_vector "rid");
                         ("recipientPubHex", opt_member sample_vector "recipientPubHex");
                         ("recipientPrivHex", opt_member sample_vector "recipientPrivHex")])])
        /\ lookup "ciphertextB64url" raw' = raw_field sample_vector "ciphertextB64url"
        /\ lookup "nonceB64url" raw' = raw_field sample_vector "nonceB64url"
        /\ lookup "ciphertextHash" raw' = raw_field sample_vector "ciphertextHash"
        /\ lookup "aadHash" raw' =
           (if missing (raw_field sample_vector "aadHash") then JUndefined
            else raw_field sample_vector "aadHash")).
Proof.
  split.
  - apply (proj1 vectorToBundle_spec). reflexivity.
  - apply (proj2 vectorToBundle_spec). reflexivity.
Defined.

(** C1, as the claim states it: no call into the SDK, [validateEnvelope]
    included, precedes the rejection of a bundle without recipients.  The
    Decrypt tab has called [validateEnvelope] by the time it rejects such a
    bundle; and the Vectors tab does not reject a legacy bundle that
    carries its own [wrappedKey]: it unwraps, decrypts and reports
    success. *)
Lemma validateEnvelope_precedes_rejection :
  lacks_recipients bundle_without_recipients = true
  /\ (let X := toy_sdk [bundle_without_recipients] in
      let view := decrypt_view (to_json bundle_without_recipients) in
      trace_of (DecryptPanel.run_start X view view)
      = [CallValidate (prop bundle_without_recipients "envelope")]
      /\ DecryptPanel.error
           (DecryptPanel.out (state_of (DecryptPanel.run_start X view view)))
         = "envelope.access.recipients missing/empty")
  /\ lacks_recipients legacy_bundle_without_recipients = true
  /\ (let X := toy_sdk [legacy_bundle_without_recipients] in
      let view := vectors_view (to_json legacy_bundle_without_recipients) in
      option_map (fun r => prop r "ok")
                 (VectorsPanel.res
                    (state_of (VectorsPanel.runFromBundle X view view)))
      = Some (JBool true)
      /\ existsb (fun c => negb (is_validate c))
                 (trace_of (VectorsPanel.runFromBundle X view view)) = true).
Proof. vm_compute. repeat split. Qed.

(** C1 (amended).  A bundle whose [envelope.access.recipients] is missing,
    not an array or empty is rejected before any unwrap or decrypt call:
    [validateEnvelope] is the only SDK operation that may have been called.
    The Decrypt tab's [run] ends with an error in [out] and nothing
    awaited; the Vectors tab's [runFromBundle] ends with a failure in
    [res], provided the bundle carries no [wrappedKey] of its own.  The one
    case apart is a [validateEnvelope] that throws a value which has no
    text: then the handler throws what the conversion throws. *)
Theorem missing_recipients_rejected (X : Externals) :
  (forall view s bundle,
      parse_bundle X (DecryptPanel.bundleInput view) = Ok bundle ->
      lacks_recipients bundle = true ->
      forallb is_validate (trace_of (DecryptPanel.run_start X view s)) = true
      /\ ((outcome_of (DecryptPanel.run_start X view s) = Ok None
           /\ exists msg,
                DecryptPanel.out (state_of (DecryptPanel.run_start X view s))
                = failed msg)
          \/ (exists e e',
                validateEnvelope X (opt_member bundle "envelope") = Some e
                /\ errText e = Throw e'
                /\ outcome_of (DecryptPanel.run_start X view s) = Throw e')))
  /\ (forall view s bundle,
        parse_bundle X (VectorsPanel.bundleInput view) = Ok bundle ->
        lacks_recipients bundle = true ->
        missing (opt_member bundle "wrappedKey") = true ->
        forallb is_validate (trace_of (VectorsPanel.runFromBundle X view s)) = true
        /\ ((outcome_of (VectorsPanel.runFromBundle X view s) = Ok tt
             /\ exists msg,
                  VectorsPanel.res (state_of (VectorsPanel.runFromBundle X view s))
                  = Some (failed_res "bundle" msg))
            \/ (exists e e',
                  validateEnvelope X (opt_member bundle "envelope") = Some e
                  /\ errText e = Throw e'
                  /\ outcome_of (VectorsPanel.runFromBundle X view s) = Throw e'))).
Proof.
  split.
  - intros view s bundle P L. exact (run_start_lacks X view s bundle P L).
  - intros view s bundle P L W.
    destruct (bundle_prepare_lacks X view s bundle P L W) as (e & E & H).
    pose proof (bundle_prepare_calls X view s) as T.
    rewrite (runFromBundle_fails X view s e E).
    destruct (errText e) as [msg|e'] eqn:C.
    + split; [exact T|]. left. split; [reflexivity|]. exists msg. reflexivity.
    + split; [exact T|]. right. destruct H as [[msg H]|H]; [discriminate H|].
      exists e, e'. auto.
Qed.

Lemma missing_recipients_rejected_witness :
  let X := toy_sdk [bundle_without_recipients] in
  let dv := decrypt_view (to_json bundle_without_recipients) in
  let vv := vectors_view (to_json bundle_without_recipients) in
  (forallb is_validate (trace_of (DecryptPanel.run_start X dv dv)) = true
   /\ ((outcome_of (DecryptPanel.run_start X dv dv) = Ok None
        /\ exists msg,
             DecryptPanel.out (state_of (DecryptPanel.run_start X dv dv))
             = failed msg)
       \/ (exists e e',
             validateEnvelope X (opt_member bundle_without_recipients "envelope")
             = Some e
             /\ errText e = Throw e'
             /\ outcome_of (DecryptPanel.run_start X dv dv) = Throw e')))
  /\ (forallb is_validate (trace_of (VectorsPanel.runFromBundle X vv vv)) = true
      /\ ((outcome_of (VectorsPanel.runFromBundle X vv vv) = Ok tt
           /\ exists msg,
                VectorsPanel.res (state_of (VectorsPanel.runFromBundle X vv vv))
                = Some (failed_res "bundle" msg))
          \/ (exists e e',
                validateEnvelope X (opt_member bundle_without_recipients "envelope")
                = Some e
                /\ errText e = Throw e'
                /\ outcome_of (VectorsPanel.runFromBundle X vv vv) = Throw e'))).
Proof.
  split.
  - apply (proj1 (missing_recipients_rejected (toy_sdk [bundle_without_recipients]))
             _ _ bundle_without_recipients); reflexivity.
  - apply (proj2 (missing_recipients_rejected (toy_sdk [bundle_without_recipients]))
             _ _ bundle_without_recipients); reflexivity.
Defined.


(** C5.  Every run takes as its identifier the counter [runIdRef.current]
    plus one and stores it back, the run it suspends carries that
    identifier, and along any sequence of events the identifiers of the
    runs started strictly increase; and when the promise of a suspended run
    settles, resolved or rejected, while the run's identifier differs from
    the counter, neither [out] nor the reported status changes. *)
Theorem stale_runs_are_discarded (X : Externals) :
  (forall w ev n,
      DecryptPanel.started X w ev = Some n ->
      n = (DecryptPanel.runIdRef (DecryptPanel.panel w) + 1)%N
      /\ DecryptPanel.runIdRef (DecryptPanel.panel (snd (DecryptPanel.step X w ev)))
         = n)
  /\ (forall view s p,
        outcome_of (DecryptPanel.run_start X view s) = Ok (Some p) ->
        DecryptPanel.pending_id p = (DecryptPanel.runIdRef s + 1)%N)
  /\ (forall w evs,
        StronglySorted N.lt (DecryptPanel.started_ids X w evs)
        /\ Forall (fun n => (DecryptPanel.runIdRef (DecryptPanel.panel w) < n)%N)
                  (DecryptPanel.started_ids X w evs))
  /\ (forall w i p,
        nth_error (DecryptPanel.suspended w) i = Some p ->
        DecryptPanel.pending_id p <> DecryptPanel.runIdRef (DecryptPanel.panel w) ->
        let w' := snd (DecryptPanel.step X w (DecryptPanel.Settle i)) in
        DecryptPanel.out (DecryptPanel.panel w')
        = DecryptPanel.out (DecryptPanel.panel w)
        /\ DecryptPanel.sdk (DecryptPanel.panel w')
           = DecryptPanel.sdk (DecryptPanel.panel w)).
Proof.
  split; [|split; [|split]].
  - intros w ev n H. exact (proj2 (step_counter X w ev) n H).
  - exact (run_start_pending X).
  - intros w evs. destruct (started_ids_increase X evs w). auto.
  - intros w i p E S w'. subst w'.
    rewrite (step_panel_settle X w i p E). exact (settle_stale X p _ S).
Qed.

Lemma stale_runs_are_discarded_witness :
  let X := toy_sdk [bundle_two_recipients] in
  let w0 := decrypt_world (to_json bundle_two_recipients) in
  let w2 := DecryptPanel.steps X w0 [DecryptPanel.Click_run; DecryptPanel.Click_run] in
  DecryptPanel.runIdRef
    (DecryptPanel.panel (snd (DecryptPanel.step X w0 DecryptPanel.Click_run)))
  = 1%N
  /\ match outcome_of (DecryptPanel.run_start X (DecryptPanel.panel w0)
                                              (DecryptPanel.panel w0)) with
     | Ok (Some p) => DecryptPanel.pending_id p = 1%N
     | _ => False
     end
  /\ StronglySorted N.lt
       (DecryptPanel.started_ids X w0
          [DecryptPanel.Click_run; DecryptPanel.Click_clear;
           DecryptPanel.Edit_bundle (to_json bundle_two_recipients);
           DecryptPanel.Click_run])
  /\ DecryptPanel.out
       (DecryptPanel.panel (snd (DecryptPanel.step X w2 (DecryptPanel.Settle 0))))
     = DecryptPanel.out (DecryptPanel.panel w2).
Proof.
  intros X w0 w2.
  pose proof (stale_runs_are_discarded X) as (H1 & H2 & H3 & H4).
  split; [|split; [|split]].
  - apply (H1 w0 DecryptPanel.Click_run 1%N). reflexivity.
  - destruct (outcome_of (DecryptPanel.run_start X (DecryptPanel.panel w0)
                                                 (DecryptPanel.panel w0)))
      as [[p|]|e] eqn:E.
    + apply (H2 (DecryptPanel.panel w0) (DecryptPanel.panel w0) p E).
    + vm_compute in E. discriminate E.
    + vm_compute in E. discriminate E.
  - apply H3.
  - destruct (nth_error (DecryptPanel.suspended w2) 0) as [p|] eqn:E.
    + apply (H4 w2 0%nat p E).
      vm_compute in E. injection E as <-. vm_compute. discriminate.
    + vm_compute in E. discriminate E.
Defined.

(** C4, as the claim states it: every failing run ends without an
    exception and leaves a non-empty message in the error state.  A run
    that fails after a newer run has started writes nothing (here run 1 is
    rejected while the counter is 2, and [out] stays blank); a run rejected
    with the empty string sets the empty message; and a run rejected with a
    value that has no text throws from its [catch] clause, leaving [out]
    blank and the status at "running". *)
Lemma failed_run_without_message :
  (let X := rejecting_sdk [bundle_two_recipients] (Error "bad key") in
   let w2 := DecryptPanel.steps X (decrypt_world (to_json bundle_two_recipients))
               [DecryptPanel.Click_run; DecryptPanel.Click_run] in
   map DecryptPanel.pending_id (DecryptPanel.suspended w2) = [1%N; 2%N]
   /\ option_map (rejection X) (nth_error (DecryptPanel.suspended w2) 0)
      = Some (Some (Error "bad key"))
   /\ DecryptPanel.out
        (DecryptPanel.panel (snd (DecryptPanel.step X w2 (DecryptPanel.Settle 0))))
      = DecryptPanel.blank)
  /\ (let X := rejecting_sdk [bundle_two_recipients] (ThrownValue (JStr "")) in
      let w1 := DecryptPanel.steps X (decrypt_world (to_json bundle_two_recipients))
                  [DecryptPanel.Click_run] in
      map DecryptPanel.pending_id (DecryptPanel.suspended w1) = [1%N]
      /\ DecryptPanel.runIdRef (DecryptPanel.panel w1) = 1%N
      /\ option_map (rejection X) (nth_error (DecryptPanel.suspended w1) 0)
         = Some (Some (ThrownValue (JStr "")))
      /\ DecryptPanel.error
           (DecryptPanel.out
              (DecryptPanel.panel (snd (DecryptPanel.step X w1 (DecryptPanel.Settle 0)))))
         = "")
  /\ (let X := rejecting_sdk [bundle_two_recipients] (ThrownValue mute) in
      let w1 := DecryptPanel.steps X (decrypt_world (to_json bundle_two_recipients))
                  [DecryptPanel.Click_run] in
      map DecryptPanel.pending_id (DecryptPanel.suspended w1) = [1%N]
      /\ DecryptPanel.runIdRef (DecryptPanel.panel w1) = 1%N
      /\ option_map (rejection X) (nth_error (DecryptPanel.suspended w1) 0)
         = Some (Some (ThrownValue mute))
      /\ option_map (fun p => outcome_of (DecryptPanel.settle X p (DecryptPanel.panel w1)))
                    (nth_error (DecryptPanel.suspended w1) 0)
         = Some (Throw not_primitive)
      /\ DecryptPanel.out
           (DecryptPanel.panel (snd (DecryptPanel.step X w1 (DecryptPanel.Settle 0))))
         = DecryptPanel.blank
      /\ DecryptPanel.sdk
           (DecryptPanel.panel (snd (DecryptPanel.step X w1 (DecryptPanel.Settle 0))))
         = "running").
Proof. vm_compute. repeat split. Qed.

(** C4 (amended).  When whatever [JSON.parse] and the SDK throw or reject
    with has a text, no exception leaves the Decrypt tab's [run], neither
    from its synchronous part nor when an awaited promise settles (nor
    does one leave [runFromBundle] or [doUnwrap]).  A failure before the
    first [await] sets the error state to the text of what was thrown,
    [String(e?.message || e)], and the status to "error"; so does the
    rejection of an awaited SDK call when the run is still the latest one;
    a rejected run that is no longer the latest one writes nothing.  The
    text is not empty for the console's own errors and whenever what
    [JSON.parse] and the SDK throw or reject with has a non-empty text. *)
Theorem run_failures_are_caught (X : Externals) :
  (articulate X ->
   (forall view s, exists p, outcome_of (DecryptPanel.run_start X view s) = Ok p)
   /\ (forall p s, exists q, outcome_of (DecryptPanel.settle X p s) = Ok q)
   /\ (forall view s, outcome_of (DecryptPanel.run X view s) = Ok tt)
   /\ (forall view s, outcome_of (VectorsPanel.runFromBundle X view s) = Ok tt)
   /\ (forall view s, outcome_of (WK1Panel.doUnwrap X view s) = Ok tt))
  /\ (forall view s e msg,
        outcome_of (DecryptPanel.run_prepare X view s) = Throw e ->
        errText e = Ok msg ->
        outcome_of (DecryptPanel.run_start X view s) = Ok None
        /\ DecryptPanel.out (state_of (DecryptPanel.run_start X view s))
           = failed msg
        /\ DecryptPanel.sdk (state_of (DecryptPanel.run_start X view s))
           = "error")
  /\ (forall p s e msg,
        rejection X p = Some e ->
        errText e = Ok msg ->
        DecryptPanel.pending_id p = DecryptPanel.runIdRef s ->
        outcome_of (DecryptPanel.settle X p s) = Ok None
        /\ DecryptPanel.out (state_of (DecryptPanel.settle X p s)) = failed msg
        /\ DecryptPanel.sdk (state_of (DecryptPanel.settle X p s)) = "error")
  /\ (forall p s e,
        rejection X p = Some e ->
        DecryptPanel.pending_id p <> DecryptPanel.runIdRef s ->
        DecryptPanel.settle X p s = (([], s), Ok None))
  /\ (polite X ->
      (forall view s e,
          outcome_of (DecryptPanel.run_prepare X view s) = Throw e -> worded e)
      /\ (forall p e, rejection X p = Some e -> worded e)).
Proof.
  split; [|split; [|split; [|split]]].
  - intro A. repeat split.
    + intros view s. exact (run_start_total X view s A).
    + intros p s. exact (settle_total X p s A).
    + intros view s. exact (run_total X view s A).
    + intros view s. exact (runFromBundle_total X view s A).
    + intros view s. exact (doUnwrap_total X view s A).
  - intros view s e msg E C. rewrite run_start_eq, E, C. repeat split.
  - intros p s e msg R C I. rewrite (settle_rejected X p s e R).
    unfold caught. rewrite I, N.eqb_refl, C. repeat split.
  - intros p s e R I. rewrite (settle_rejected X p s e R).
    unfold caught. apply N.eqb_neq in I. now rewrite I.
  - intro P. split.
    + intros view s e. exact (run_prepare_throws worded X view P named_worded s e).
    + intros p e. exact (rejection_is worded X p e P).
Qed.

Lemma run_failures_are_caught_witness :
  let X := rejecting_sdk [bundle_two_recipients] (Error "bad key") in
  let broken := decrypt_view "{oops" in
  let w1 := DecryptPanel.steps X (decrypt_world (to_json bundle_two_recipients))
              [DecryptPanel.Click_run] in
  outcome_of (DecryptPanel.run X broken broken) = Ok tt
  /\ DecryptPanel.out (state_of (DecryptPanel.run_start X broken broken))
     = failed "Unexpected token in JSON"
  /\ worded (SyntaxError "Unexpected token in JSON")
  /\ match nth_error (DecryptPanel.suspended w1) 0 with
     | Some p =>
         DecryptPanel.out (state_of (DecryptPanel.settle X p (DecryptPanel.panel w1)))
         = failed "bad key"
     | None => False
     end
  /\ worded (Error "bad key").
Proof.
  intros X broken w1.
  pose proof (run_failures_are_caught X) as (H0 & H1 & H2 & _ & H3).
  assert (polite X) as P by (apply rejecting_sdk_polite; discriminate).
  destruct (H0 (polite_articulate X P)) as (_ & _ & H6 & _).
  destruct (H3 P) as [H4 H5].
  split; [|split; [|split; [|split]]].
  - apply H6.
  - apply (H1 broken broken (SyntaxError "Unexpected token in JSON"));
      reflexivity.
  - apply (H4 broken broken). reflexivity.
  - destruct (nth_error (DecryptPanel.suspended w1) 0) as [p|] eqn:E.
    + pose proof E as E'. vm_compute in E'. injection E' as <-.
      apply (H2 _ _ (Error "bad key")); reflexivity.
    + vm_compute in E. discriminate E.
  - destruct (nth_error (DecryptPanel.suspended w1) 0) as [p|] eqn:E.
    + apply (H5 p). vm_compute in E. injection E as <-. reflexivity.
    + vm_compute in E. discriminate E.
Defined.




(* ================================================================= *)
(** ** C6: the downloaded bundle *)




(* ================================================================= *)
(** ** Beyond the claims: keys generated for several recipients *)

(** X1.  When [ensureRecipientAt] generates keys for recipient [i], the
    list it stores is the render's list with entry [i] replaced: every
    other entry is again what the render had, whatever an earlier call in
    the same handler stored there. *)
Theorem ensureRecipientAt_stores_render_list X view i r0 s :
  nth_error (EncryptPanel.recipients view) i = Some r0 ->
  has_keys r0 = false ->
  exists r,
    outcome_of (EncryptPanel.ensureRecipientAt X view i s) = Ok r
    /\ has_keys r = true
    /\ EncryptPanel.recipients (state_of (EncryptPanel.ensureRecipientAt X view i s))
       = list_set i r (EncryptPanel.recipients view)
    /\ forall j, j <> i ->
         nth_error (EncryptPanel.recipients
                      (state_of (EncryptPanel.ensureRecipientAt X view i s))) j
         = nth_error (EncryptPanel.recipients view) j.
Proof.
  intros H K. unfold EncryptPanel.ensureRecipientAt, has_keys in *. rewrite H, K.
  eexists. split; [reflexivity|]. split; [reflexivity|]. split; [reflexivity|].
  intros j N. cbn. now apply nth_error_list_set_other.
Qed.

Lemma ensureRecipientAt_stores_render_list_witness :
  let X := toy_sdk [] in
  let earlier := state_of (EncryptPanel.ensureRecipientAt X two_blank 0 two_blank) in
  map EncryptPanel.recipientPrivHex (EncryptPanel.recipients earlier) = ["0x2a00"; ""]
  /\ exists r,
       outcome_of (EncryptPanel.ensureRecipientAt X two_blank 1 earlier) = Ok r
       /\ nth_error (EncryptPanel.recipients
                       (state_of (EncryptPanel.ensureRecipientAt X two_blank 1 earlier))) 0
          = Some (keyed "did:example:alice" "" "").
Proof.
  intros X earlier. split; [reflexivity|].
  destruct (ensureRecipientAt_stores_render_list X two_blank 1
              (keyed "did:example:bob" "" "") earlier eq_refl eq_refl)
    as (r & O & _ & _ & J).
  exists r. split; [exact O|]. apply (J 0%nat). discriminate.
Defined.

(* ================================================================= *)
(** ** The hex codec, both ways *)

Lemma hex_pair_normal (a b : ascii) :
  is_hex_digit a = true -> is_hex_digit b = true ->
  byte_hex (pair_byte a b) = String (lower_hex a) (String (lower_hex b) "").
Proof.
  intros Ha Hb.
  pose proof (forall_ascii2
    (fun a b => negb (is_hex_digit a && is_hex_digit b)
                || String.eqb (byte_hex (pair_byte a b))
                              (String (lower_hex a) (String (lower_hex b) "")))) as H.
  specialize (H ltac:(vm_compute; reflexivity) a b). cbv beta in H.
  rewrite Ha, Hb in H. cbn in H. now apply String.eqb_eq in H.
Qed.

Lemma hex_digits_normal (h : string) :
  Nat.even (String.length h) = true ->
  forall_chars is_hex_digit h = true ->
  concat_strings (map byte_hex (map (fun p => pair_byte (fst p) (snd p)) (pairs h)))
  = map_chars lower_hex h.
Proof.
  induction h as [| a | a b r IH] using string_ind2; intros E D.
  - reflexivity.
  - discriminate E.
  - cbn [forall_chars] in D. apply andb_true_iff in D as [Da D].
    apply andb_true_iff in D as [Db D].
    cbn [pairs map fst snd concat_strings fold_right map_chars].
    rewrite (hex_pair_normal a b Da Db). cbn [String.append].
    f_equal. f_equal. apply IH; [exact E | exact D].
Qed.

Lemma even_mod2 (n : nat) : Nat.even n = (n mod 2 =? 0)%nat.
Proof. rewrite <- Nat.negb_odd, odd_mod2. apply negb_involutive. Qed.

Lemma hexToU8_length (hex : string) (u8 : list byte) :
  hexToU8 hex = Ok u8 ->
  List.length u8 = (String.length (strip_0x hex) / 2)%nat.
Proof.
  unfold hexToU8. destruct (negb _); [discriminate|].
  intro H. injection H as <-. now rewrite length_map, length_seq.
Qed.

Lemma byte_hex_lower (b : byte) :
  exists c1 c2, byte_hex b = String c1 (String c2 "")
                /\ is_lower_hex c1 = true /\ is_lower_hex c2 = true.
Proof. destruct b; do 2 eexists; repeat split. Qed.

Lemma u8ToHex_digits (u8 : list byte) :
  String.length (concat_strings (map byte_hex u8)) = (2 * List.length u8)%nat
  /\ forall_chars is_lower_hex (concat_strings (map byte_hex u8)) = true.
Proof.
  induction u8 as [|b r [IH1 IH2]]; [split; reflexivity|].
  destruct (byte_hex_lower b) as (c1 & c2 & E & L1 & L2).
  cbn [map concat_strings fold_right]. rewrite E. cbn [String.append String.length forall_chars].
  fold (concat_strings (map byte_hex r)). rewrite IH1, IH2, L1, L2.
  split; [cbn [List.length]; lia | reflexivity].
Qed.

(** X3.  Decoding a text of radix-16 digits and encoding the bytes again
    gives the text in its normal form: a [0x] prefix and lower-case
    digits. *)
Theorem hex_text_is_normalised (hex : string) :
  Nat.even (String.length (strip_0x hex)) = true ->
  forall_chars is_hex_digit (strip_0x hex) = true ->
  exists u8,
    hexToU8 hex = Ok u8
    /\ List.length u8 = (String.length (strip_0x hex) / 2)%nat
    /\ u8ToHex u8 = "0x" ++ map_chars lower_hex (strip_0x hex).
Proof.
  intros E D. rewrite hexToU8_by_pairs. rewrite even_mod2 in E. rewrite E.
  eexists. split; [reflexivity|]. split.
  - apply hexToU8_length with (hex := hex). rewrite hexToU8_by_pairs, E. reflexivity.
  - unfold u8ToHex. f_equal. apply hex_digits_normal; [|exact D].
    now rewrite even_mod2.
Qed.

Lemma hex_text_is_normalised_witness :
  exists u8,
    hexToU8 "0xDeadBEEF" = Ok u8
    /\ List.length u8 = 4%nat
    /\ u8ToHex u8 = "0xdeadbeef".
Proof. apply (hex_text_is_normalised "0xDeadBEEF"); reflexivity. Defined.

(** X4.  [u8ToHex] writes [0x] and then two lower-case radix-16 digits for
    every byte, so byte arrays of different content never share a text;
    and what [hexToU8] returns has one byte for every two characters
    behind the optional [0x]. *)
Theorem hex_text_format :
  (forall u8,
      startsWith (u8ToHex u8) "0x" = true
      /\ String.length (u8ToHex u8) = (2 + 2 * List.length u8)%nat
      /\ forall_chars is_lower_hex (slice_from (u8ToHex u8) 2) = true)
  /\ (forall a b, u8ToHex a = u8ToHex b -> a = b)
  /\ (forall hex u8,
        hexToU8 hex = Ok u8 ->
        List.length u8 = (String.length (strip_0x hex) / 2)%nat).
Proof.
  split; [|split].
  - intro u8. destruct (u8ToHex_digits u8) as [L D].
    assert (P : startsWith (u8ToHex u8) "0x" = true).
    { unfold u8ToHex, startsWith. cbn.
      now destruct (concat_strings (map byte_hex u8)). }
    split; [exact P|]. split.
    + unfold u8ToHex. cbn [String.append String.length]. now rewrite L.
    + pose proof (strip_0x_u8ToHex u8) as S. unfold strip_0x in S.
      rewrite P in S. rewrite S. exact D.
  - intros a b H. pose proof (hexToU8_u8ToHex a) as Ha.
    rewrite H, hexToU8_u8ToHex in Ha. now injection Ha.
  - exact hexToU8_length.
Qed.

(* ================================================================= *)
(** ** The base64url codec and the wk1 payload *)

Lemma string_ind4 (P : string -> Prop) :
  P "" ->
  (forall a, P (String a "")) ->
  (forall a b, P (String a (String b ""))) ->
  (forall a b c, P (String a (String b (String c "")))) ->
  (forall a b c d r, P r -> P (String a (String b (String c (String d r))))) ->
  forall s, P s.
Proof.
  intros H0 H1 H2 H3 H4.
  fix IH 1. intros [|a [|b [|c [|d r]]]];
    [exact H0 | apply H1 | apply H2 | apply H3 | apply H4; apply IH].
Qed.

Lemma list_byte_of_string_length (s : string) :
  List.length (list_byte_of_string s) = String.length s.
Proof.
  unfold list_byte_of_string. rewrite length_map.
  induction s as [|c r IH]; cbn; congruence.
Qed.

Lemma decode_sextets_length (l : list sextet) :
  (List.length l mod 4 =? 1)%nat = false ->
  String.length (decode_sextets l) = (List.length l * 3 / 4)%nat.
Proof.
  revert l. fix IH 1. intros [|s1 [|s2 [|s3 [|s4 r]]]] H.
  - reflexivity.
  - discriminate H.
  - cbn [decode_sextets]. now destruct (join4 s1 s2 _ _) as [[a b] c].
  - cbn [decode_sextets]. now destruct (join4 s1 s2 s3 _) as [[a b] c].
  - cbn [decode_sextets]. destruct (join4 s1 s2 s3 s4) as [[a b] c].
    cbn [String.length List.length]. rewrite IH.
    + replace (S (S (S (S (List.length r)))) * 3)%nat
        with (List.length r * 3 + 3 * 4)%nat by lia.
      rewrite Nat.div_add by lia. lia.
    + cbn [List.length] in H. now rewrite mod4_S4 in H.
Qed.

Lemma sextets_of_digits (s : string) :
  forall_chars is_base64_char s = true ->
  exists l, sextets_of s = Some l /\ List.length l = String.length s.
Proof.
  induction s as [|c r IH]; intro H.
  - exists []. split; reflexivity.
  - cbn in H. apply andb_true_iff in H as [Hc Hr].
    destruct (IH Hr) as (l & E & L). unfold is_base64_char in Hc.
    cbn [sextets_of]. destruct (char_sextet c) as [x|]; [|discriminate].
    rewrite E. exists (x :: l). split; [reflexivity|]. cbn. now rewrite L.
Qed.

Lemma sextets_of_bad (s : string) :
  forall_chars is_base64_char s = false -> sextets_of s = None.
Proof.
  induction s as [|c r IH]; intro H; [discriminate|].
  cbn in H. cbn [sextets_of]. unfold is_base64_char in H.
  destruct (char_sextet c); [|reflexivity].
  cbn in H. now rewrite (IH H).
Qed.

(** Split the hypothesis that a text holds base64 digits only into what
    is known of each character. *)
Ltac digit_facts H :=
  cbn [forall_chars] in H;
  repeat match type of H with
         | (_ && _) = true =>
             let Hc := fresh "Hc" in
             apply andb_true_iff in H; destruct H as [Hc H];
             apply base64_char_facts in Hc;
             destruct Hc as (? & ? & _)
         end.

Ltac use_digit_facts :=
  repeat match goal with
         | F : is_ascii_whitespace _ = false |- _ => rewrite ?F; clear F
         | F : Ascii.eqb _ pad_char = false |- _ => rewrite ?F; clear F
         end.

Lemma pad_to4_no_whitespace (s : string) :
  forall_chars is_base64_char s = true ->
  filter_chars (fun c => negb (is_ascii_whitespace c)) (pad_to4 s) = pad_to4 s.
Proof.
  induction s as [|a|a b|a b c|a b c d r IH] using string_ind4; intro H;
    rewrite ?pad_to4_chunk; digit_facts H.
  - reflexivity.
  - cbn. use_digit_facts. reflexivity.
  - cbn. use_digit_facts. reflexivity.
  - cbn. use_digit_facts. reflexivity.
  - cbn [filter_chars]. use_digit_facts. cbn [negb]. now rewrite (IH H).
Qed.

Lemma pad_to4_length (s : string) : (String.length (pad_to4 s) mod 4 = 0)%nat.
Proof.
  induction s as [|a|a b|a b c|a b c d r IH] using string_ind4;
    rewrite ?pad_to4_chunk; try reflexivity.
  cbn [String.length]. now rewrite mod4_S4.
Qed.

Lemma strip_padding_pad_to4 (s : string) :
  forall_chars is_base64_char s = true ->
  strip_padding (pad_to4 s)
  = if (String.length s mod 4 =? 1)%nat then s ++ "=" else s.
Proof.
  induction s as [|a|a b|a b c|a b c d r IH] using string_ind4; intro H;
    rewrite ?pad_to4_chunk; digit_facts H.
  - reflexivity.
  - cbn. use_digit_facts. reflexivity.
  - cbn. use_digit_facts. reflexivity.
  - cbn. use_digit_facts. reflexivity.
  - cbn [strip_padding]. use_digit_facts. cbn [andb].
    rewrite (IH H). cbn [String.length]. rewrite mod4_S4.
    now destruct (String.length r mod 4 =? 1)%nat.
Qed.

Lemma sextets_of_padded (s : string) : sextets_of (s ++ "=") = None.
Proof.
  induction s as [|c r IH]; [reflexivity|].
  cbn [String.append sextets_of]. rewrite IH. now destruct (char_sextet c).
Qed.

Lemma append_length (s t : string) :
  String.length (s ++ t) = (String.length s + String.length t)%nat.
Proof. induction s; cbn; congruence. Qed.

Lemma atob_padded_digits (s : string) :
  forall_chars is_base64_char s = true ->
  atob (pad_to4 s) =
  if (String.length s mod 4 =? 1)%nat then Throw InvalidCharacterError
  else match sextets_of s with
       | Some l => Ok (decode_sextets l)
       | None => Throw InvalidCharacterError
       end.
Proof.
  intro H. unfold atob.
  rewrite (pad_to4_no_whitespace s H), pad_to4_length. cbn [Nat.eqb].
  rewrite (strip_padding_pad_to4 s H).
  destruct (String.length s mod 4 =? 1)%nat eqn:E.
  - rewrite sextets_of_padded.
    destruct (String.length (s ++ "=") mod 4 =? 1)%nat; reflexivity.
  - rewrite E. reflexivity.
Qed.

Lemma forall_chars_map (p : ascii -> bool) (f : ascii -> ascii) (s : string) :
  forall_chars p (map_chars f s) = forall_chars (fun c => p (f c)) s.
Proof. induction s; cbn; congruence. Qed.

Lemma b64urlToU8_pad (s : string) :
  b64urlToU8 s =
  (bin <- atob (pad_to4 (map_chars from_url s)) ;; Ok (list_byte_of_string bin)).
Proof.
  unfold b64urlToU8. rewrite from_url_replace. unfold pad_to4.
  now rewrite map_chars_length.
Qed.

Lemma forall_chars_app (p : ascii -> bool) (s t : string) :
  forall_chars p (s ++ t) = forall_chars p s && forall_chars p t.
Proof. induction s as [|c r IH]; cbn; [reflexivity|]. now rewrite IH, andb_assoc. Qed.

Lemma forall_chars_filter (q f : ascii -> bool) (s : string) :
  forall_chars q (filter_chars f s) = forall_chars (fun c => negb (f c) || q c) s.
Proof.
  induction s as [|c r IH]; [reflexivity|].
  cbn [filter_chars forall_chars]. destruct (f c); cbn; now rewrite IH.
Qed.

Lemma forall_chars_strip_padding (q : ascii -> bool) (s : string) :
  q pad_char = true ->
  forall_chars q s = false -> forall_chars q (strip_padding s) = false.
Proof.
  intros Q. induction s as [|a r IH]; intro H; [discriminate|].
  cbn [strip_padding]. cbn [forall_chars] in H.
  destruct (Ascii.eqb a pad_char && (String.eqb r "" || String.eqb r (String pad_char "")))
    eqn:E.
  - apply andb_true_iff in E as [Ea Er]. apply Ascii.eqb_eq in Ea. subst a.
    rewrite Q in H. apply orb_true_iff in Er as [Er|Er];
      apply String.eqb_eq in Er; subst r; cbn in H; rewrite ?Q in H; discriminate.
  - cbn [forall_chars]. destruct (q a); [|reflexivity]. cbn in *. now apply IH.
Qed.

Lemma forall_chars_false_weaken (p q : ascii -> bool) (s : string) :
  (forall c, p c = true -> q c = true) ->
  forall_chars q s = false -> forall_chars p s = false.
Proof.
  intros W H. destruct (forall_chars p s) eqn:E; [|reflexivity].
  rewrite (forall_chars_weaken p q s W E) in H. discriminate.
Qed.

Lemma repeat_pad_chars (q : ascii -> bool) (n : nat) :
  q pad_char = true -> forall_chars q (repeat_char "=" n) = true.
Proof.
  intro Q. unfold pad_char in Q.
  induction n as [|n IH]; cbn [repeat_char forall_chars]; [reflexivity|].
  now rewrite IH, Q.
Qed.

Lemma atob_stray_character (t : string) :
  forall_chars (fun c => is_ascii_whitespace c || (is_base64_char c || Ascii.eqb c pad_char)) t
  = false ->
  atob t = Throw InvalidCharacterError.
Proof.
  intro H. unfold atob.
  set (d1 := filter_chars (fun c => negb (is_ascii_whitespace c)) t).
  assert (H1 : forall_chars (fun c => is_base64_char c || Ascii.eqb c pad_char) d1 = false).
  { subst d1. rewrite forall_chars_filter.
    erewrite <- H. clear H. induction t as [|c r IH]; cbn; [reflexivity|].
    rewrite IH, negb_involutive. reflexivity. }
  set (d2 := if (String.length d1 mod 4 =? 0)%nat then strip_padding d1 else d1).
  assert (H2 : forall_chars is_base64_char d2 = false).
  { apply forall_chars_false_weaken
      with (q := fun c => is_base64_char c || Ascii.eqb c pad_char).
    - intros c Hc. now rewrite Hc.
    - subst d2. destruct (_ =? 0)%nat; [|exact H1].
      apply forall_chars_strip_padding; [reflexivity | exact H1]. }
  rewrite (sextets_of_bad d2 H2). now destruct (_ =? 1)%nat.
Qed.

Lemma from_url_classes (c : ascii) :
  is_ascii_whitespace (from_url c) = is_ascii_whitespace c
  /\ Ascii.eqb (from_url c) pad_char = Ascii.eqb c pad_char.
Proof.
  pose proof (forall_ascii
    (fun c => Bool.eqb (is_ascii_whitespace (from_url c)) (is_ascii_whitespace c)
              && Bool.eqb (Ascii.eqb (from_url c) pad_char) (Ascii.eqb c pad_char))
    eq_refl c) as F.
  cbv beta in F. apply andb_true_iff in F as [F1 F2].
  apply Bool.eqb_prop in F1, F2. now split.
Qed.

(** X5.  On a text of base64 digits (either alphabet) [b64urlToU8] fails
    exactly when the length leaves remainder 1 modulo 4, and otherwise
    returns three bytes for every four digits, rounded down; and it fails
    on every text that holds a character which is neither a digit, nor
    ASCII white space, nor [=]. *)
Theorem b64urlToU8_accepts (s : string) :
  (forall_chars is_b64url_digit s = true ->
   if (String.length s mod 4 =? 1)%nat
   then b64urlToU8 s = Throw InvalidCharacterError
   else exists u8, b64urlToU8 s = Ok u8
                   /\ List.length u8 = (String.length s * 3 / 4)%nat)
  /\ (forall_chars (fun c => is_ascii_whitespace c
                             || (is_b64url_digit c || Ascii.eqb c "=")) s = false ->
      b64urlToU8 s = Throw InvalidCharacterError).
Proof.
  split; intro H; rewrite b64urlToU8_pad.
  - assert (D : forall_chars is_base64_char (map_chars from_url s) = true)
      by (rewrite forall_chars_map; exact H).
    rewrite (atob_padded_digits _ D), map_chars_length.
    destruct (String.length s mod 4 =? 1)%nat eqn:E; [reflexivity|].
    destruct (sextets_of_digits _ D) as (l & -> & L).
    rewrite map_chars_length in L. cbn [bind]. eexists. split; [reflexivity|].
    rewrite list_byte_of_string_length, decode_sextets_length; rewrite L; auto.
  - rewrite atob_stray_character; [reflexivity|].
    unfold pad_to4, padEnd. rewrite forall_chars_app, forall_chars_map.
    apply andb_false_iff. left. rewrite <- H. clear H.
    induction s as [|c r IH]; [reflexivity|]. cbn [forall_chars]. rewrite IH.
    destruct (from_url_classes c) as [-> ->]. reflexivity.
Qed.

Lemma b64urlToU8_accepts_witness :
  (exists u8, b64urlToU8 "-__-Pg" = Ok u8 /\ List.length u8 = 4%nat)
  /\ b64urlToU8 "-__-P" = Throw InvalidCharacterError
  /\ b64urlToU8 "-__*Pg" = Throw InvalidCharacterError.
Proof.
  split; [|split].
  - apply (proj1 (b64urlToU8_accepts "-__-Pg")). reflexivity.
  - apply (proj1 (b64urlToU8_accepts "-__-P")). reflexivity.
  - apply (proj2 (b64urlToU8_accepts "-__*Pg")). reflexivity.
Defined.

Lemma to_url_safe (c : ascii) : is_base64_char c = true -> is_url_safe (to_url c) = true.
Proof.
  pose proof (forall_ascii
    (fun c => implb (is_base64_char c) (is_url_safe (to_url c))) eq_refl c) as F.
  cbv beta in F. intro H. now rewrite H in F.
Qed.

Lemma b64_body_size (bin : string) :
  String.length (b64_body bin) = ((4 * String.length bin + 2) / 3)%nat.
Proof.
  induction bin as [|a|a b|a b c r IH] using string_ind3; cbn [b64_body].
  - reflexivity.
  - now destruct (split3 a zero zero) as [[[s1 s2] s3] s4].
  - now destruct (split3 a b zero) as [[[s1 s2] s3] s4].
  - destruct (split3 a b c) as [[[s1 s2] s3] s4].
    cbn [String.length]. rewrite IH.
    replace (4 * S (S (S (String.length r))) + 2)%nat
      with (4 * String.length r + 2 + 4 * 3)%nat by lia.
    rewrite Nat.div_add by lia. lia.
Qed.

Lemma string_of_list_byte_length (l : list byte) :
  String.length (string_of_list_byte l) = List.length l.
Proof.
  unfold string_of_list_byte.
  induction l as [|b r IH]; cbn; congruence.
Qed.

(** X6.  The text [u8ToB64url] returns has [ceil(4n/3)] characters for
    [n] bytes, all of them letters, digits, [-] or [_]. *)
Theorem u8ToB64url_format (u8 : list byte) :
  String.length (u8ToB64url u8) = ((4 * List.length u8 + 2) / 3)%nat
  /\ forall_chars is_url_safe (u8ToB64url u8) = true.
Proof.
  rewrite u8ToB64url_eq, map_chars_length, b64_body_size, string_of_list_byte_length.
  split; [reflexivity|].
  rewrite forall_chars_map.
  apply forall_chars_weaken with (p := is_base64_char).
  - exact to_url_safe.
  - apply b64_body_chars.
Qed.

Lemma from_url_digit (c : ascii) :
  is_base64_char c || Ascii.eqb c pad_char = true -> from_url c = c.
Proof.
  pose proof (forall_ascii
    (fun c => implb (is_base64_char c || Ascii.eqb c pad_char)
                    (Ascii.eqb (from_url c) c)) eq_refl c) as F.
  cbv beta in F. intro H. rewrite H in F. now apply Ascii.eqb_eq in F.
Qed.

Lemma map_from_url_id (s : string) :
  forall_chars (fun c => is_base64_char c || Ascii.eqb c pad_char) s = true ->
  map_chars from_url s = s.
Proof.
  induction s as [|c r IH]; intro H; [reflexivity|].
  cbn in H. apply andb_true_iff in H as [Hc Hr].
  cbn [map_chars]. now rewrite (from_url_digit c Hc), (IH Hr).
Qed.

Lemma btoa_chars (bin : string) :
  forall_chars (fun c => is_base64_char c || Ascii.eqb c pad_char) (btoa bin) = true.
Proof.
  induction bin as [|a|a b|a b c r IH] using string_ind3; cbn [btoa].
  - reflexivity.
  - destruct (split3 a zero zero) as [[[s1 s2] s3] s4]. cbn.
    now rewrite !sextet_char_base64.
  - destruct (split3 a b zero) as [[[s1 s2] s3] s4]. cbn.
    now rewrite !sextet_char_base64.
  - destruct (split3 a b c) as [[[s1 s2] s3] s4]. cbn [forall_chars].
    now rewrite !sextet_char_base64, IH.
Qed.

Lemma append_empty (s : string) : s ++ "" = s.
Proof. induction s; cbn; congruence. Qed.

Lemma pad_to4_full (s : string) :
  (String.length s mod 4 = 0)%nat -> pad_to4 s = s.
Proof.
  intro H. unfold pad_to4, padEnd.
  apply Nat.Div0.div_exact in H.
  replace ((String.length s + 3) / 4 * 4 - String.length s)%nat with 0%nat.
  - apply append_empty.
  - set (n := String.length s) in *.
    assert (E : ((n + 3) / 4 = n / 4)%nat)
      by (symmetry; apply Nat.div_unique with 3%nat; lia).
    rewrite E. lia.
Qed.

(** X7.  [b64urlToU8] also reads standard base64 with its padding: it
    undoes [btoa] on every byte string. *)
Theorem b64urlToU8_reads_base64 (u8 : list byte) :
  b64urlToU8 (btoa (string_of_list_byte u8)) = Ok u8.
Proof.
  rewrite b64urlToU8_pad, (map_from_url_id _ (btoa_chars _)).
  rewrite (pad_to4_full _ (btoa_length _)), atob_btoa. cbn [bind].
  now rewrite list_byte_of_string_of_list_byte.
Qed.

Lemma wk1_padding (bin : string) :
  b64_body bin ++ slice_from "===" ((String.length (b64_body bin) + 3) mod 4)
  = btoa bin.
Proof.
  induction bin as [|a|a b|a b c r IH] using string_ind3; cbn [btoa b64_body].
  - reflexivity.
  - now destruct (split3 a zero zero) as [[[s1 s2] s3] s4].
  - now destruct (split3 a b zero) as [[[s1 s2] s3] s4].
  - destruct (split3 a b c) as [[[s1 s2] s3] s4].
    cbn [String.length String.append]. do 4 f_equal.
    rewrite <- IH. do 2 f_equal.
    replace (S (S (S (S (String.length (b64_body r))))) + 3)%nat
      with (S (S (S (S (String.length (b64_body r) + 3)))))%nat by lia.
    apply mod4_S4.
Qed.

Lemma startsWith_app (p t : string) : startsWith (p ++ t) p = true.
Proof.
  unfold startsWith. induction p as [|c r IH]; cbn.
  - now destruct t.
  - destruct (ascii_dec c c); [exact IH | congruence].
Qed.

Lemma slice_from_app (p t : string) : slice_from (p ++ t) (String.length p) = t.
Proof.
  unfold slice_from. rewrite append_length.
  replace (String.length p + String.length t - String.length p)%nat
    with (String.length t) by lia.
  induction p as [|c r IH]; cbn; [apply substring_full | exact IH].
Qed.

(** X8.  [parseWk1] undoes the url-safe encoding of [format.js]: on the
    prefix followed by [u8ToB64url] of a text it hands exactly that text
    to [JSON.parse], whatever its length. *)
Theorem parseWk1_reads_b64url (X : Externals) (json : string) :
  parseWk1 X (JStr (wk1_prefix ++ u8ToB64url (list_byte_of_string json)))
  = JSON_parse X json.
Proof.
  unfold parseWk1. rewrite startsWith_app. cbn [negb].
  rewrite slice_from_app, from_url_replace, u8ToB64url_eq.
  rewrite from_url_to_url_body, map_chars_length, wk1_padding, atob_btoa.
  cbn [bind]. now rewrite string_of_list_byte_of_string.
Qed.

(* ================================================================= *)
(** ** EncryptPanel: what a run calls, stores and reports *)

Section EncryptRun.

Import EncryptPanel.

Variable X : Externals.

Lemma no_call_nil (t : list sdk_call) : forallb no_call t = true -> t = [].
Proof. destruct t; [reflexivity | discriminate]. Qed.

Lemma calls_only_mapM {S A B} p (g : A -> action S B) (l : list A) :
  (forall a, calls_only p (g a)) -> calls_only p (mapM g l).
Proof.
  intro H. induction l as [|a r IH]; cbn [mapM]; auto with handlers.
Qed.

Lemma ensureRecipientAt_silent view i : calls_only no_call (ensureRecipientAt X view i).
Proof.
  unfold ensureRecipientAt.
  destruct (nth_error (recipients view) i) as [r|]; [|auto with handlers].
  destruct (_ && _); [auto with handlers|].
  repeat (apply calls_only_abind; [|intro]); auto with handlers.
Qed.

Lemma ensureAll_silent view s : trace_of (ensureAll X view s) = [].
Proof.
  apply no_call_nil. unfold ensureAll.
  apply (calls_only_mapM no_call). intro i. apply ensureRecipientAt_silent.
Qed.

(** What [encrypt_and_wrap] does, call by call. *)
Lemma encrypt_and_wrap_run view s :
  let m := encrypt_and_wrap X view s in
  match encryptTextRaw X (encrypt_call view) with
  | Throw e =>
      trace_of m = [CallEncrypt (encrypt_call view)] /\ outcome_of m = Throw e
  | Ok raw =>
      exists ready,
        outcome_of (ensureAll X view s) = Ok ready
        /\ Forall2 ensured (recipients view) ready
        /\ match sequence_results
                   (map (wrapDEK_secp256k1 X) (map (wrap_call view raw) ready)) with
           | Throw e =>
               trace_of m = CallEncrypt (encrypt_call view)
                            :: map CallWrap (map (wrap_call view raw) ready)
               /\ outcome_of m
                  = Throw (nth (first_rejected X (map (wrap_call view raw) ready))
                               (rejections
                                  (map (wrapDEK_secp256k1 X)
                                       (map (wrap_call view raw) ready)))
                               e)
           | Ok wks =>
               let env := build_envelope X raw (combine (map rid ready) wks) in
               trace_of m = (CallEncrypt (encrypt_call view)
                             :: map CallWrap (map (wrap_call view raw) ready)
                             ++ [CallValidate env])%list
               /\ List.length wks = List.length ready
               /\ outcome_of m =
                  match validateEnvelope X env with
                  | None => Ok {| wr_raw := raw; wr_ready := ready;
                                  wr_entries := combine (map rid ready) wks;
                                  wr_env := env |}
                  | Some e => Throw e
                  end
           end
  end.
Proof.
  intro m. subst m. unfold encrypt_and_wrap.
  fold (encrypt_call view).
  rewrite trace_abind, outcome_abind. unfold await_encrypt, call.
  cbn [outcome_of trace_of state_of fst snd].
  destruct (encryptTextRaw X (encrypt_call view)) as [raw|e]; [|split; reflexivity].
  destruct (ensureAll_result X view s) as (ready & O & R).
  exists ready. split; [exact O|]. split; [exact R|].
  rewrite trace_abind, outcome_abind, O, ensureAll_silent.
  rewrite trace_abind, outcome_abind. unfold promise_all_wrap, promise_all.
  cbn [outcome_of trace_of state_of fst snd app].
  fold (wrap_call view raw).
  destruct (sequence_results (map (wrapDEK_secp256k1 X) _)) as [wks|e] eqn:W;
    [|split; reflexivity].
  apply sequence_results_length in W. rewrite !length_map in W.
  cbv zeta. rewrite trace_abind, outcome_abind. unfold validate_call, call.
  cbn [outcome_of trace_of state_of fst snd].
  split; [|split; [exact W|]].
  - destruct (validateEnvelope X _); cbn [ret trace_of fst];
      now rewrite ?app_nil_r.
  - now destruct (validateEnvelope X _).
Qed.

Lemma catch_encrypt_eq e s :
  catch_encrypt e s = (([], fst (caught_encrypt e s)), snd (caught_encrypt e s)).
Proof.
  unfold catch_encrypt, caught_encrypt, abind, modify, lift. cbn [fst snd app].
  now destruct (errText e).
Qed.

(** The state in which [runEncrypt] reaches its sanity decrypt. *)
Lemma runEncrypt_split view s :
  let m := encrypt_and_wrap X view (cleared s) in
  runEncrypt X view s =
  match outcome_of m with
  | Throw e =>
      ((trace_of m, fst (caught_encrypt e (state_of m))),
       snd (caught_encrypt e (state_of m)))
  | Ok w =>
      let s2 := onStatus "ok"
                  (setWrappedKey (firstWrappedKey (wr_entries w))
                     (setEnvelope (Some (wr_env w))
                        (setRawOut (Some (wr_raw w)) (state_of m)))) in
      let c := sanity_decrypt X view w s2 in
      match outcome_of c with
      | Ok _ => (((trace_of m ++ trace_of c)%list, state_of c), Ok tt)
      | Throw e =>
          (((trace_of m ++ trace_of c)%list,
            fst (caught_encrypt e (state_of c))),
           snd (caught_encrypt e (state_of c)))
      end
  end.
Proof.
  intro m. subst m. unfold runEncrypt.
  unfold abind at 1 2 3 4 5. unfold modify at 1 2 3 4 5.
  fold (cleared s). cbn [app]. unfold try_catch. unfold abind at 1.
  destruct (encrypt_and_wrap X view (cleared s)) as [[t s1] [w|e]];
    cbn [outcome_of trace_of state_of fst snd].
  - unfold abind at 1 2 3 4. unfold modify at 1 2 3 4. cbn [app].
    destruct (sanity_decrypt X view w _) as [[t' s3] [[]|e]];
      cbn [outcome_of trace_of state_of fst snd abind modify app];
      rewrite ?catch_encrypt_eq; cbn [fst snd];
      rewrite ?app_nil_r; reflexivity.
  - rewrite catch_encrypt_eq. cbn [fst snd]. rewrite ?app_nil_r. reflexivity.
Qed.

Lemma caught_encrypt_fields e s :
  let s1 := fst (caught_encrypt e s) in
  plaintext s1 = plaintext s /\ aadText s1 = aadText s
  /\ recipients s1 = recipients s
  /\ rawOut s1 = rawOut s /\ envelope s1 = envelope s
  /\ wrappedKey s1 = wrappedKey s /\ sdk s1 = "error" /\ draws s1 = draws s.
Proof.
  unfold caught_encrypt. destruct (errText e); cbn; repeat split.
Qed.

(** The [catch] clause ends normally with the text displayed, or throws
    what the conversion throws. *)
Lemma caught_encrypt_outcome e s :
  match errText e with
  | Ok msg => snd (caught_encrypt e s) = Ok tt
              /\ decryptCheck (fst (caught_encrypt e s)) = msg
  | Throw e' => snd (caught_encrypt e s) = Throw e'
                /\ decryptCheck (fst (caught_encrypt e s)) = decryptCheck s
  end.
Proof.
  unfold caught_encrypt. destruct (errText e); cbn; split; reflexivity.
Qed.

Lemma sanity_decrypt_calls view w :
  calls_only (fun c => is_unwrap c || is_decrypt c) (sanity_decrypt X view w).
Proof.
  unfold sanity_decrypt, await_unwrap, await_decrypt.
  handler_cases (@calls_only_abind state).
Qed.

Lemma encrypt_and_wrap_fields view s :
  let s1 := state_of (encrypt_and_wrap X view s) in
  plaintext s1 = plaintext s /\ aadText s1 = aadText s
  /\ rawOut s1 = rawOut s /\ envelope s1 = envelope s
  /\ wrappedKey s1 = wrappedKey s /\ decryptCheck s1 = decryptCheck s
  /\ sdk s1 = sdk s.
Proof.
  cbv zeta.
  repeat split;
    match goal with
    | |- ?f _ = ?f _ =>
        apply (encrypt_and_wrap_preserves f X view (fun _ => eq_refl) (fun _ _ => eq_refl))
    end.
Qed.

Lemma sanity_decrypt_fields view w s :
  let s1 := state_of (sanity_decrypt X view w s) in
  plaintext s1 = plaintext s /\ aadText s1 = aadText s
  /\ recipients s1 = recipients s
  /\ rawOut s1 = rawOut s /\ envelope s1 = envelope s
  /\ wrappedKey s1 = wrappedKey s /\ sdk s1 = sdk s /\ draws s1 = draws s.
Proof.
  cbv zeta.
  repeat split;
    match goal with
    | |- ?f _ = ?f _ =>
        apply (sanity_decrypt_preserves f X view w (fun _ _ => eq_refl))
    end.
Qed.

Lemma runEncrypt_stored view s :
  let m := encrypt_and_wrap X view (cleared s) in
  let s1 := state_of (runEncrypt X view s) in
  match outcome_of m with
  | Throw e =>
      rawOut s1 = None /\ envelope s1 = None /\ wrappedKey s1 = ""
      /\ decryptCheck s1 = match errText e with Ok msg => msg | Throw _ => "" end
      /\ sdk s1 = "error"
      /\ trace_of (runEncrypt X view s) = trace_of m
  | Ok w =>
      rawOut s1 = Some (wr_raw w) /\ envelope s1 = Some (wr_env w)
      /\ wrappedKey s1 = firstWrappedKey (wr_entries w)
      /\ (sdk s1 = "ok" \/ sdk s1 = "error")
      /\ exists tail,
           trace_of (runEncrypt X view s) = (trace_of m ++ tail)%list
           /\ forallb (fun c => is_unwrap c || is_decrypt c) tail = true
  end.
Proof.
  cbv zeta. rewrite (runEncrypt_split view s). cbv zeta.
  destruct (encrypt_and_wrap_fields view (cleared s)) as (_ & _ & R & E & W & _ & _).
  destruct (outcome_of (encrypt_and_wrap X view (cleared s))) as [w|e].
  - match goal with
    | |- context [sanity_decrypt X view w ?s2] =>
        destruct (sanity_decrypt_fields view w s2) as (_ & _ & _ & R' & E' & W' & S' & _);
        pose proof (sanity_decrypt_calls view w s2) as C
    end.
    destruct (outcome_of (sanity_decrypt X view w _)) as [u|e];
      [|destruct (caught_encrypt_fields e (state_of (sanity_decrypt X view w
           (onStatus "ok"
              (setWrappedKey (firstWrappedKey (wr_entries w))
                 (setEnvelope (Some (wr_env w))
                    (setRawOut (Some (wr_raw w))
                       (state_of (encrypt_and_wrap X view (cleared s))))))))))
          as (_ & _ & _ & CR & CE & CW & CS & _)];
      cbn [state_of trace_of fst snd];
      rewrite ?CR, ?CE, ?CW, ?CS, ?R', ?E', ?W', ?S'; cbn;
      (repeat split; [auto | eexists; split; [reflexivity | exact C]]).
  - destruct (caught_encrypt_fields e (state_of (encrypt_and_wrap X view (cleared s))))
      as (_ & _ & _ & CR & CE & CW & CS & _).
    pose proof (caught_encrypt_outcome e
                  (state_of (encrypt_and_wrap X view (cleared s)))) as CO.
    destruct (encrypt_and_wrap_fields view (cleared s)) as (_ & _ & _ & _ & _ & D & _).
    cbn [state_of trace_of fst snd].
    rewrite CR, CE, CW, CS, R, E, W.
    repeat split. destruct (errText e); destruct CO as [_ CO]; rewrite CO;
      [reflexivity|exact D].
Qed.

(** X9.  [runEncrypt] stores the raw output and the envelope together or
    not at all.  What it stores is what [encryptTextRaw] returned for the
    form's plaintext and AAD, and an envelope that [validateEnvelope]
    accepted, built from the keys [wrapDEK_secp256k1] returned for the
    recipients in order, each under the recipient's own rid and public
    key (a generated one where the recipient had none); the displayed
    [wrappedKey] is the first of them. *)
Theorem runEncrypt_stores_validated view s :
  let s1 := state_of (runEncrypt X view s) in
  (rawOut s1 = None <-> envelope s1 = None)
  /\ forall raw env,
       rawOut s1 = Some raw -> envelope s1 = Some env ->
       encryptTextRaw X (encrypt_call view) = Ok raw
       /\ validateEnvelope X env = None
       /\ exists ready wks,
            Forall2 ensured (recipients view) ready
            /\ sequence_results
                 (map (wrapDEK_secp256k1 X) (map (wrap_call view raw) ready)) = Ok wks
            /\ List.length wks = List.length (recipients view)
            /\ env = build_envelope X raw (combine (map rid ready) wks)
            /\ wrappedKey s1 = firstWrappedKey (combine (map rid ready) wks).
Proof.
  cbv zeta.
  pose proof (runEncrypt_stored view s) as T. cbv zeta in T.
  pose proof (encrypt_and_wrap_run view (cleared s)) as U. cbv zeta in U.
  destruct (outcome_of (encrypt_and_wrap X view (cleared s))) as [w|e] eqn:O.
  - destruct T as (R & E & W & _). split.
    + rewrite R, E. split; discriminate.
    + intros raw env HR HE. rewrite R in HR. rewrite E in HE.
      injection HR as <-. injection HE as <-.
      destruct (encryptTextRaw X (encrypt_call view)) as [raw|e];
        [|destruct U as [_ U]; discriminate U].
      destruct U as (ready & _ & F & U).
      destruct (sequence_results _) as [wks|e] eqn:Q;
        [|destruct U as [_ U]; discriminate U].
      cbv zeta in U. destruct U as (_ & L & U).
      destruct (validateEnvelope X _) as [e|] eqn:V; [discriminate U|].
      injection U as U. subst w. cbn [wr_raw wr_env wr_entries] in *.
      split; [reflexivity|]. split; [exact V|].
      exists ready, wks. repeat split; try assumption.
      rewrite L. symmetry. eapply Forall2_length. exact F.
  - destruct T as (R & E & _). split.
    + rewrite R, E. tauto.
    + intros raw env HR. rewrite R in HR. discriminate HR.
Qed.

(** X10.  The SDK calls of [runEncrypt], in order: [encryptTextRaw] first;
    if it succeeded, one [wrapDEK_secp256k1] per recipient, in list order,
    each with the key just returned, the recipient's public key, its rid
    as [kid] and the AAD of the encryption; then at most
    [validateEnvelope], and after it nothing but the unwrap and the
    decrypt of the sanity check, which are made only for an envelope that
    was accepted. *)
Theorem runEncrypt_call_order view s :
  exists ready rest,
    Forall2 ensured (recipients view) ready
    /\ trace_of (runEncrypt X view s)
       = (CallEncrypt (encrypt_call view)
          :: match encryptTextRaw X (encrypt_call view) with
             | Ok raw => map CallWrap (map (wrap_call view raw) ready)
             | Throw _ => []
             end
          ++ rest)%list
    /\ (rest = []
        \/ exists env tail,
             rest = CallValidate env :: tail
             /\ forallb (fun c => is_unwrap c || is_decrypt c) tail = true
             /\ (tail <> [] -> validateEnvelope X env = None)).
Proof.
  pose proof (runEncrypt_stored view s) as T. cbv zeta in T.
  pose proof (encrypt_and_wrap_run view (cleared s)) as U. cbv zeta in U.
  destruct (ensureAll_result X view (cleared s)) as (ready0 & O0 & F0).
  destruct (encryptTextRaw X (encrypt_call view)) as [raw|e].
  - destruct U as (ready & O1 & F & U).
    exists ready. destruct (sequence_results _) as [wks|e].
    + cbv zeta in U. destruct U as (Tr & _ & Out). rewrite Out in T.
      destruct (validateEnvelope X _) as [e|] eqn:V.
      * destruct T as (_ & _ & _ & _ & _ & T). rewrite T, Tr.
        eexists. split; [exact F|]. split; [reflexivity|]. right.
        do 2 eexists. split; [reflexivity|]. split; [reflexivity|].
        intro N. now elim N.
      * destruct T as (_ & _ & _ & _ & tail & T & C). rewrite T, Tr.
        exists (CallValidate (build_envelope X raw (combine (map rid ready) wks)) :: tail).
        split; [exact F|]. split; [cbn [app]; now rewrite <- app_assoc|].
        right. do 2 eexists. split; [reflexivity|]. split; [exact C|].
        intros _. exact V.
    + destruct U as (Tr & Out). rewrite Out in T.
      destruct T as (_ & _ & _ & _ & _ & T). rewrite T, Tr.
      exists []. split; [exact F|]. split; [now rewrite app_nil_r|]. now left.
  - destruct U as (Tr & Out). rewrite Out in T.
    destruct T as (_ & _ & _ & _ & _ & T). rewrite T, Tr.
    exists ready0, []. split; [exact F0|]. split; [reflexivity|]. now left.
Qed.

End EncryptRun.

Lemma ensureRecipientAt_throws (P : thrown -> Prop) X view i :
  (forall e, named e = true -> P e) ->
  throws_only P (EncryptPanel.ensureRecipientAt X view i).
Proof.
  intro PN. unfold EncryptPanel.ensureRecipientAt.
  destruct (nth_error (EncryptPanel.recipients view) i) as [r|].
  - destruct (_ && _); [auto with handlers|].
    repeat (apply throws_only_abind; [|intro]); auto with handlers.
  - apply throws_only_throw. now apply PN.
Qed.

Lemma runEncrypt_total X view s :
  articulate X -> encrypt_failures has_text X ->
  outcome_of (EncryptPanel.runEncrypt X view s) = Ok tt.
Proof.
  intros A B.
  assert (total (EncryptPanel.runEncrypt X view)) as T.
  { unfold EncryptPanel.runEncrypt.
    repeat (apply total_abind; [|intro]); auto with handlers.
    apply total_catch_text.
    - unfold EncryptPanel.encrypt_and_wrap, EncryptPanel.sanity_decrypt,
        EncryptPanel.ensureAll.
      repeat first
        [ apply throws_only_abind; [|intro]
        | match goal with
          | |- throws_only _ (if ?c then _ else _) => destruct c
          | |- throws_only _ (match ?x with _ => _ end) => destruct x
          end ];
        auto using throws_only_validate, throws_only_unwrap,
          throws_only_decrypt, throws_only_encrypt,
          throws_only_promise_all_wrap with handlers.
      apply throws_only_mapM. intro i.
      apply ensureRecipientAt_throws. exact named_has_text.
    - intros e H. unfold EncryptPanel.catch_encrypt.
      repeat (apply total_abind; [|intro]); auto with handlers. }
  destruct (T s) as [[] H]. exact H.
Qed.

(** X11.  The status [runEncrypt] leaves is [ok] or [error], never
    [running].  The handler ends normally, except that its [catch] clause
    throws, with the status already at [error], when what it caught has
    no text; it always ends normally when whatever the SDK throws or
    rejects with has a text.  With status [ok] both outputs are stored;
    without stored outputs the status is [error] and no wrapped key is
    shown.  Status [error] does not mean that nothing was stored: a run
    whose sanity decrypt is rejected has stored outputs, which the
    download button then offers. *)
Theorem runEncrypt_status X view s :
  let s1 := state_of (EncryptPanel.runEncrypt X view s) in
  (EncryptPanel.sdk s1 = "ok" \/ EncryptPanel.sdk s1 = "error")
  /\ (outcome_of (EncryptPanel.runEncrypt X view s) = Ok tt
      \/ exists e e',
           errText e = Throw e'
           /\ outcome_of (EncryptPanel.runEncrypt X view s) = Throw e'
           /\ EncryptPanel.sdk s1 = "error")
  /\ (articulate X -> encrypt_failures has_text X ->
      outcome_of (EncryptPanel.runEncrypt X view s) = Ok tt)
  /\ (EncryptPanel.sdk s1 = "ok" ->
      EncryptPanel.rawOut s1 <> None /\ EncryptPanel.envelope s1 <> None
      /\ outcome_of (EncryptPanel.runEncrypt X view s) = Ok tt)
  /\ (EncryptPanel.rawOut s1 = None ->
      EncryptPanel.sdk s1 = "error" /\ EncryptPanel.wrappedKey s1 = "")
  /\ (let X' := rejecting_sdk [] (Error "bad key") in
      let s' := state_of (EncryptPanel.runEncrypt X' EncryptPanel.initial
                                                  EncryptPanel.initial) in
      EncryptPanel.sdk s' = "error"
      /\ EncryptPanel.decryptCheck s' = "bad key"
      /\ EncryptPanel.rawOut s' <> None /\ EncryptPanel.envelope s' <> None).
Proof.
  cbv zeta.
  assert (O : outcome_of (EncryptPanel.runEncrypt X view s) = Ok tt
              \/ exists e e',
                   errText e = Throw e'
                   /\ outcome_of (EncryptPanel.runEncrypt X view s) = Throw e'
                   /\ EncryptPanel.sdk (state_of (EncryptPanel.runEncrypt X view s))
                      = "error").
  { rewrite (runEncrypt_split X view s). cbv zeta.
    destruct (outcome_of (EncryptPanel.encrypt_and_wrap X view (cleared s)))
      as [w|e].
    - destruct (outcome_of (EncryptPanel.sanity_decrypt X view w _)) as [u|e];
        [now left|].
      unfold caught_encrypt. destruct (errText e) as [msg|e'] eqn:C;
        [now left|right]. exists e, e'. repeat split. exact C.
    - unfold caught_encrypt. destruct (errText e) as [msg|e'] eqn:C;
        [now left|right]. exists e, e'. repeat split. exact C. }
  split; [|split; [exact O|split; [|split; [|split]]]].
  - pose proof (runEncrypt_stored X view s) as T. cbv zeta in T.
    destruct (outcome_of (EncryptPanel.encrypt_and_wrap X view (cleared s)));
      [apply T | right; apply T].
  - intros A B. exact (runEncrypt_total X view s A B).
  - pose proof (runEncrypt_stored X view s) as T. cbv zeta in T.
    destruct (outcome_of (EncryptPanel.encrypt_and_wrap X view (cleared s))).
    + destruct T as (R & E & _). rewrite R, E. intros K.
      split; [discriminate|]. split; [discriminate|].
      destruct O as [O|(e & e' & _ & _ & O)]; [exact O|].
      rewrite K in O. discriminate O.
    + destruct T as (_ & _ & _ & _ & S & _). rewrite S. discriminate.
  - pose proof (runEncrypt_stored X view s) as T. cbv zeta in T.
    destruct (outcome_of (EncryptPanel.encrypt_and_wrap X view (cleared s))).
    + destruct T as (R & _). rewrite R. discriminate.
    + destruct T as (_ & _ & W & _ & S & _). intros _. now split.
  - vm_compute. repeat split; discriminate.
Qed.

(* ================================================================= *)
(** ** EncryptPanel: keys generated during a run *)

Section EncryptRecipients.

Import EncryptPanel.

Variable X : Externals.

Lemma nth_error_list_set_same {A} (l : list A) (i : nat) (x y : A) :
  nth_error l i = Some y -> nth_error (list_set i x l) i = Some x.
Proof.
  revert i. induction l as [|z r IH]; intros [|i] H; cbn in *; try discriminate.
  - reflexivity.
  - now apply IH.
Qed.

Lemma list_set_length {A} (l : list A) (i : nat) (x : A) :
  List.length (list_set i x l) = List.length l.
Proof.
  revert i. induction l as [|z r IH]; intros [|i]; cbn; auto.
Qed.

(** One [ensureRecipientAt] either leaves the stored list alone or stores
    the render's list with the one entry replaced. *)
Lemma ensureRecipientAt_state view k s :
  let s' := state_of (ensureRecipientAt X view k s) in
  match nth_error (recipients view) k with
  | Some rk =>
      if has_keys rk then s' = s
      else exists r, recipients s' = list_set k r (recipients view)
  | None => s' = s
  end.
Proof.
  cbv zeta. unfold ensureRecipientAt, has_keys.
  destruct (nth_error (recipients view) k) as [rk|]; [|reflexivity].
  destruct (_ && _); [reflexivity|]. eexists. reflexivity.
Qed.

Lemma ensure_keeps_view view i k s :
  k <> i ->
  nth_error (recipients s) i = nth_error (recipients view) i ->
  nth_error (recipients (state_of (ensureRecipientAt X view k s))) i
  = nth_error (recipients view) i.
Proof.
  intros N P. pose proof (ensureRecipientAt_state view k s) as H. cbv zeta in H.
  destruct (nth_error (recipients view) k) as [rk|]; [|now rewrite H].
  destruct (has_keys rk); [now rewrite H|].
  destruct H as [r ->]. apply nth_error_list_set_other. congruence.
Qed.

Lemma ensure_list_keeps_view view i idxs :
  ~ In i idxs ->
  forall s,
    nth_error (recipients s) i = nth_error (recipients view) i ->
    nth_error (recipients (state_of (mapM (ensureRecipientAt X view) idxs s))) i
    = nth_error (recipients view) i.
Proof.
  induction idxs as [|k r IH]; intros N s P; [exact P|].
  cbn [mapM]. rewrite state_abind.
  destruct (outcome_of (ensureRecipientAt X view k s)).
  - rewrite state_abind.
    assert (Q : nth_error (recipients
                  (state_of (mapM (ensureRecipientAt X view) r
                               (state_of (ensureRecipientAt X view k s))))) i
                = nth_error (recipients view) i).
    { apply IH; [intro; apply N; now right|].
      apply ensure_keeps_view; [intro; apply N; now left | exact P]. }
    now destruct (outcome_of (mapM _ r _)).
  - apply ensure_keeps_view; [intro; apply N; now left | exact P].
Qed.

Lemma mapM_app_state {S A B} (f : A -> action S B) (l1 l2 : list A) (s : S) :
  (exists ys, outcome_of (mapM f l1 s) = Ok ys) ->
  state_of (mapM f (l1 ++ l2) s) = state_of (mapM f l2 (state_of (mapM f l1 s))).
Proof.
  revert s. induction l1 as [|a r IH]; intros s [ys O]; [reflexivity|].
  cbn [app mapM] in *. rewrite !state_abind. rewrite outcome_abind in O.
  destruct (outcome_of (f a s)) as [y|e]; [|discriminate O].
  rewrite !state_abind. rewrite outcome_abind in O.
  destruct (outcome_of (mapM f r (state_of (f a s)))) as [ys'|e] eqn:O';
    [|discriminate O].
  cbn [ret state_of fst snd].
  rewrite IH by (eexists; exact O').
  destruct (outcome_of (mapM f (r ++ l2) (state_of (f a s)))) eqn:O''.
  - reflexivity.
  - reflexivity.
Qed.

Lemma seq_split_at (n j : nat) :
  (j < n)%nat -> seq 0 n = (seq 0 j ++ j :: seq (S j) (n - S j))%list.
Proof.
  intro H. replace n with (j + S (n - S j))%nat at 1 by lia.
  rewrite seq_app. reflexivity.
Qed.

Lemma ensureAll_keeps_earlier view s i j rj :
  (i < j)%nat ->
  nth_error (recipients view) j = Some rj -> has_keys rj = false ->
  nth_error (recipients (state_of (ensureAll X view s))) i
  = nth_error (recipients view) i.
Proof.
  intros L J K. unfold ensureAll.
  assert (Hj : (j < List.length (recipients view))%nat)
    by (apply nth_error_Some; congruence).
  rewrite (seq_split_at _ j Hj).
  rewrite mapM_app_state.
  - set (sa := state_of (mapM (ensureRecipientAt X view) (seq 0 j) s)).
    cbn [mapM]. rewrite state_abind.
    pose proof (ensureRecipientAt_state view j sa) as H. cbv zeta in H.
    rewrite J, K in H. destruct H as [r H].
    assert (P : nth_error (recipients (state_of (ensureRecipientAt X view j sa))) i
                = nth_error (recipients view) i)
      by (rewrite H; apply nth_error_list_set_other; lia).
    destruct (outcome_of (ensureRecipientAt X view j sa)); [|exact P].
    rewrite state_abind.
    assert (Q : nth_error (recipients
                  (state_of (mapM (ensureRecipientAt X view)
                               (seq (S j) (List.length (recipients view) - S j))
                               (state_of (ensureRecipientAt X view j sa))))) i
                = nth_error (recipients view) i).
    { apply ensure_list_keeps_view; [|exact P].
      intro I. apply in_seq in I. lia. }
    now destruct (outcome_of (mapM _ _ _)).
  - destruct (ensure_list_result X view (seq 0 j)) with (s := s) as (ready & O & _).
    + apply Forall_forall. intros k Hk. apply in_seq in Hk. lia.
    + eexists. exact O.
Qed.

Lemma encrypt_and_wrap_recipients view s :
  recipients (state_of (encrypt_and_wrap X view s))
  = match encryptTextRaw X (encrypt_call view) with
    | Ok _ => recipients (state_of (ensureAll X view s))
    | Throw _ => recipients s
    end.
Proof.
  unfold encrypt_and_wrap. fold (encrypt_call view).
  rewrite state_abind. unfold await_encrypt, call.
  cbn [outcome_of state_of fst snd].
  destruct (encryptTextRaw X (encrypt_call view)) as [raw|e]; [|reflexivity].
  rewrite state_abind.
  destruct (outcome_of (ensureAll X view s)) as [ready|e]; [|reflexivity].
  rewrite state_abind. unfold promise_all_wrap, promise_all.
  cbn [outcome_of state_of fst snd].
  destruct (sequence_results (map (wrapDEK_secp256k1 X) _)) as [wks|e];
    [|reflexivity].
  rewrite state_abind. unfold validate_call, call.
  cbn [outcome_of state_of fst snd].
  now destruct (validateEnvelope X _).
Qed.

Lemma runEncrypt_recipients view s :
  recipients (state_of (runEncrypt X view s))
  = recipients (state_of (encrypt_and_wrap X view (cleared s))).
Proof.
  rewrite (runEncrypt_split X view s). cbv zeta.
  destruct (outcome_of (encrypt_and_wrap X view (cleared s))) as [w|e];
    [|cbn [state_of fst snd];
      now destruct (caught_encrypt_fields e
                      (state_of (encrypt_and_wrap X view (cleared s))))
        as (_ & _ & R & _)].
  match goal with
  | |- context [sanity_decrypt X view w ?s2] =>
      destruct (sanity_decrypt_fields X view w s2) as (_ & _ & R & _)
  end.
  destruct (outcome_of (sanity_decrypt X view w _)) as [u|e];
    cbn [state_of fst snd recipients setDecryptCheck onStatus];
    [|destruct (caught_encrypt_fields e
                  (state_of (sanity_decrypt X view w
                     (onStatus "ok"
                        (setWrappedKey (firstWrappedKey (wr_entries w))
                           (setEnvelope (Some (wr_env w))
                              (setRawOut (Some (wr_raw w))
                                 (state_of (encrypt_and_wrap X view (cleared s))))))))))
        as (_ & _ & R' & _); rewrite R'];
    rewrite R; reflexivity.
Qed.

(** X12.  A recipient without keys that is followed in the list by another
    recipient without keys is still without keys after [runEncrypt]: the
    key pair generated for it, for which the envelope's entry was wrapped,
    is not stored. *)
Theorem runEncrypt_loses_generated_keys s i j r0 rj :
  (i < j)%nat ->
  nth_error (recipients s) i = Some r0 -> has_keys r0 = false ->
  nth_error (recipients s) j = Some rj -> has_keys rj = false ->
  nth_error (recipients (state_of (runEncrypt X s s))) i = Some r0
  /\ exists ready r,
       outcome_of (ensureAll X s (cleared s)) = Ok ready
       /\ nth_error ready i = Some r
       /\ has_keys r = true
       /\ (forall raw,
             encryptTextRaw X (encrypt_call s) = Ok raw ->
             In (CallWrap (wrap_call s raw r)) (trace_of (runEncrypt X s s))).
Proof.
  intros L I K J KJ. split.
  - rewrite runEncrypt_recipients, encrypt_and_wrap_recipients.
    destruct (encryptTextRaw X (encrypt_call s)); [|exact I].
    rewrite <- I. exact (ensureAll_keeps_earlier s (cleared s) i j rj L J KJ).
  - destruct (ensureAll_result X s (cleared s)) as (ready & O & F).
    assert (exists r, nth_error ready i = Some r /\ ensured r0 r) as (r & Hr & E).
    { clear - I F. revert i I. induction F as [|a b l l' H F IH]; intros [|i] I;
        cbn in *; try discriminate.
      - injection I as <-. eauto.
      - now apply IH. }
    exists ready, r. split; [exact O|]. split; [exact Hr|].
    split; [apply E|]. intros raw ER.
    pose proof (runEncrypt_stored X s s) as T. cbv zeta in T.
    pose proof (encrypt_and_wrap_run X s (cleared s)) as U. cbv zeta in U.
    rewrite ER in U. destruct U as (ready' & O' & _ & U).
    rewrite O in O'. injection O' as <-.
    assert (W : In (CallWrap (wrap_call s raw r))
                   (map CallWrap (map (wrap_call s raw) ready))).
    { apply in_map, in_map. eapply nth_error_In. exact Hr. }
    assert (M : In (CallWrap (wrap_call s raw r))
                   (trace_of (encrypt_and_wrap X s (cleared s)))).
    { destruct (sequence_results _).
      - cbv zeta in U. destruct U as (-> & _). right. apply in_or_app. now left.
      - destruct U as (-> & _). now right. }
    destruct (outcome_of (encrypt_and_wrap X s (cleared s))).
    + destruct T as (_ & _ & _ & _ & tail & -> & _). apply in_or_app. now left.
    + destruct T as (_ & _ & _ & _ & _ & ->). exact M.
Qed.

End EncryptRecipients.

Lemma runEncrypt_loses_generated_keys_witness :
  let X := toy_sdk [] in
  nth_error (EncryptPanel.recipients
               (state_of (EncryptPanel.runEncrypt X two_blank two_blank))) 0
  = Some (keyed "did:example:alice" "" "")
  /\ exists ready r,
       outcome_of (EncryptPanel.ensureAll X two_blank (cleared two_blank)) = Ok ready
       /\ nth_error ready 0 = Some r
       /\ has_keys r = true
       /\ (forall raw,
             encryptTextRaw X (encrypt_call two_blank) = Ok raw ->
             In (CallWrap (wrap_call two_blank raw r))
                (trace_of (EncryptPanel.runEncrypt X two_blank two_blank))).
Proof.
  exact (runEncrypt_loses_generated_keys (toy_sdk []) two_blank 0 1
           (keyed "did:example:alice" "" "") (keyed "did:example:bob" "" "")
           Nat.lt_0_1 eq_refl eq_refl eq_refl eq_refl).
Defined.

(* ================================================================= *)
(** ** EncryptPanel: the recipient list under the panel's events *)

Section EncryptEvents.

Import EncryptPanel.

Variable X : Externals.

Lemma map_at_length {A} (i : nat) (f : A -> A) (l : list A) :
  List.length (map_at i f l) = List.length l.
Proof. revert i. induction l as [|x r IH]; intros [|i]; cbn; auto. Qed.

Lemma map_at_map {A B} (g : A -> B) (i : nat) (f : A -> A) (l : list A) :
  (forall x, g (f x) = g x) -> map g (map_at i f l) = map g l.
Proof.
  intro H. revert i. induction l as [|x r IH]; intros [|i]; cbn; try reflexivity.
  - now rewrite H.
  - now rewrite IH.
Qed.

Lemma nth_error_map_at {A} (i j : nat) (f : A -> A) (l : list A) :
  nth_error (map_at i f l) j
  = if (j =? i)%nat then option_map f (nth_error l j) else nth_error l j.
Proof.
  revert i j. induction l as [|x r IH]; intros i j.
  - destruct i, j; cbn; try reflexivity; now destruct (_ =? _)%nat.
  - destruct i, j; cbn [map_at nth_error Nat.eqb option_map]; try reflexivity.
    apply IH.
Qed.

Lemma remove_at_length {A} (i : nat) (l : list A) :
  (List.length l - 1 <= List.length (remove_at i l))%nat.
Proof.
  revert i. induction l as [|x r IH]; intros [|i]; cbn; try lia.
  specialize (IH i). lia.
Qed.

Lemma downloadBundle_state s :
  state_of (downloadBundle X s s)
  = match rawOut s, envelope s with
    | Some _, Some _ => state_of (ensureAll X s s)
    | _, _ => s
    end.
Proof.
  unfold downloadBundle.
  destruct (rawOut s) as [raw|]; [|reflexivity].
  destruct (envelope s) as [env|]; [|reflexivity].
  rewrite state_abind. now destruct (outcome_of (ensureAll X s s)).
Qed.

(** One [ensureRecipientAt] leaves the stored list alone or stores the
    render's list with keys for one recipient. *)
Lemma ensureRecipientAt_list view k s :
  let s' := state_of (ensureRecipientAt X view k s) in
  recipients s' = recipients s
  \/ (map rid (recipients s') = map rid (recipients view)
      /\ List.length (recipients s') = List.length (recipients view)).
Proof.
  cbv zeta. unfold ensureRecipientAt.
  destruct (nth_error (recipients view) k) as [rk|] eqn:E; [|now left].
  destruct (_ && _); [now left|]. right. cbn. split.
  - now apply (map_list_set rid _ _ _ rk E).
  - apply list_set_length.
Qed.

Lemma ensure_list_list view idxs :
  forall s,
    let s' := state_of (mapM (ensureRecipientAt X view) idxs s) in
    recipients s' = recipients s
    \/ (map rid (recipients s') = map rid (recipients view)
        /\ List.length (recipients s') = List.length (recipients view)).
Proof.
  induction idxs as [|k r IH]; intro s; cbv zeta; [now left|].
  cbn [mapM]. rewrite state_abind.
  pose proof (ensureRecipientAt_list view k s) as H. cbv zeta in H.
  destruct (outcome_of (ensureRecipientAt X view k s)); [|exact H].
  rewrite state_abind.
  pose proof (IH (state_of (ensureRecipientAt X view k s))) as H'. cbv zeta in H'.
  assert (G : recipients (state_of (mapM (ensureRecipientAt X view) r
                                      (state_of (ensureRecipientAt X view k s))))
              = recipients s
              \/ (map rid (recipients (state_of (mapM (ensureRecipientAt X view) r
                                      (state_of (ensureRecipientAt X view k s)))))
                  = map rid (recipients view)
                  /\ List.length (recipients (state_of (mapM (ensureRecipientAt X view) r
                                      (state_of (ensureRecipientAt X view k s)))))
                     = List.length (recipients view))).
  { destruct H' as [H'|H']; [|now right]. rewrite H'. exact H. }
  now destruct (outcome_of (mapM _ r _)).
Qed.

Lemma ensureAll_list view s :
  recipients (state_of (ensureAll X view s)) = recipients s
  \/ (map rid (recipients (state_of (ensureAll X view s)))
      = map rid (recipients view)
      /\ List.length (recipients (state_of (ensureAll X view s)))
         = List.length (recipients view)).
Proof. apply ensure_list_list. Qed.

Lemma catch_resume_recipients (e : thrown) (s : state) :
  recipients (state_of ((catch_encrypt e ;;; ret (@None pending)) s))
  = recipients s.
Proof.
  assert (P : preserves recipients (catch_encrypt e ;;; ret (@None pending))).
  { apply preserves_abind; [|intro; auto with handlers].
    now apply catch_encrypt_preserves. }
  apply P.
Qed.

(** What the resumption of a run does to the recipient list. *)
Lemma settle_list p s :
  let s' := state_of (settle X p s) in
  recipients s' = recipients s
  \/ (exists view, p = AwaitEncrypt view)
     /\ map rid (recipients s') = map rid (recipients (view_of p))
     /\ List.length (recipients s') = List.length (recipients (view_of p)).
Proof.
  cbv zeta. destruct p as [view|view raw ready|view w|view w dek2].
  - unfold settle. rewrite state_try_catch, outcome_abind, state_abind.
    cbn [lift outcome_of state_of fst snd].
    destruct (encryptTextRaw X _) as [raw|e].
    + rewrite outcome_abind, state_abind.
      pose proof (ensureAll_list view s) as H.
      destruct (outcome_of (ensureAll X view s)) as [ready|e].
      * cbn [abind ret outcome_of state_of fst snd].
        destruct H as [H|H]; [now left|right].
        split; [now exists view|exact H].
      * rewrite catch_resume_recipients.
        destruct H as [H|H]; [now left|right].
        split; [now exists view|exact H].
    + left. apply catch_resume_recipients.
  - left.
    assert (P : preserves recipients (settle X (AwaitWraps view raw ready))).
    { unfold settle, validate_call. apply preserves_try_catch.
      - handler_cases (@preserves_abind state).
      - intro e. apply preserves_abind; [|intro; auto with handlers].
        now apply catch_encrypt_preserves. }
    apply P.
  - left.
    assert (P : preserves recipients (settle X (AwaitUnwrap view w))).
    { unfold settle.
      destruct (wr_ready w); [auto with handlers|].
      destruct (wr_entries w); [auto with handlers|].
      apply preserves_try_catch.
      - handler_cases (@preserves_abind state).
      - intro e. apply preserves_abind; [|intro; auto with handlers].
        now apply catch_encrypt_preserves. }
    apply P.
  - left.
    assert (P : preserves recipients (settle X (AwaitDecrypt view w dek2))).
    { unfold settle. apply preserves_try_catch.
      - handler_cases (@preserves_abind state).
      - intro e. apply preserves_abind; [|intro; auto with handlers].
        now apply catch_encrypt_preserves. }
    apply P.
Qed.

Lemma run_start_state view s :
  recipients (state_of (run_start view s)) = recipients s
  /\ outcome_of (run_start view s) = Ok (AwaitEncrypt view).
Proof. split; reflexivity. Qed.

Lemma encrypt_step_settle w i p :
  nth_error (suspended w) i = Some p ->
  panel (snd (step X w (Settle i))) = state_of (settle X p (panel w)).
Proof.
  intro H. unfold step. rewrite H.
  now destruct (settle X p (panel w)) as [[t s] r].
Qed.

Lemma step_rids w ev :
  edits_list ev = false -> resumes ev = false ->
  map rid (recipients (panel (snd (step X w ev))))
  = map rid (recipients (panel w)).
Proof.
  destruct ev as [t|t| |i|i|i p| | |i]; try discriminate; intros _ _; cbn [step].
  - reflexivity.
  - reflexivity.
  - unfold on_panel, regenRecipient, updateRecipient. cbn.
    now apply map_at_map.
  - reflexivity.
  - destruct (rawOut (panel w)) as [raw|] eqn:R; [|reflexivity].
    destruct (envelope (panel w)) as [env|] eqn:E; [|reflexivity].
    cbn [snd panel].
    rewrite downloadBundle_state, R, E.
    now destruct (ensureAll_spec X (panel w) (panel w) eq_refl)
      as (_ & _ & _ & _ & M).
Qed.

Lemma Forall_list_set {A} (P : A -> Prop) (i : nat) (x : A) (l : list A) :
  P x -> Forall P l -> Forall P (list_set i x l).
Proof.
  intros Hx H. revert i. induction H as [|y r Hy H IH]; intros [|i]; cbn;
    constructor; auto.
Qed.

Lemma Forall_remove_at {A} (P : A -> Prop) (i : nat) (l : list A) :
  Forall P l -> Forall P (remove_at i l).
Proof.
  intro H. revert i. induction H as [|y r Hy H IH]; intros [|i]; cbn; auto.
Qed.

Lemma nonempty_by_length {A B} (l : list A) (l' : list B) :
  List.length l = List.length l' -> l' <> [] -> l <> [].
Proof. destruct l, l'; cbn; congruence. Qed.

Lemma catch_resume_outcome (e : thrown) (s : state) (q : pending) :
  outcome_of ((catch_encrypt e ;;; ret (@None pending)) s) <> Ok (Some q).
Proof.
  rewrite outcome_abind. destruct (outcome_of (catch_encrypt e s)); discriminate.
Qed.

Lemma settle_view p s q :
  outcome_of (settle X p s) = Ok (Some q) -> view_of q = view_of p.
Proof.
  destruct p as [view|view raw ready|view w|view w dek2]; cbn [settle view_of].
  - rewrite outcome_try_catch.
    match goal with
    | |- match outcome_of (?m s) with _ => _ end = _ -> _ =>
        destruct (outcome_of (m s)) as [a|e] eqn:O
    end; [|intro H; now apply catch_resume_outcome in H].
    intro H. injection H as ->. revert O.
    rewrite outcome_abind. cbn [lift outcome_of state_of fst snd].
    destruct (encryptTextRaw X _) as [raw|e]; [|discriminate].
    rewrite outcome_abind.
    destruct (outcome_of (ensureAll X view s)) as [ready|e]; [|discriminate].
    cbn. intro H. injection H as <-. reflexivity.
  - rewrite outcome_try_catch.
    match goal with
    | |- match outcome_of (?m s) with _ => _ end = _ -> _ =>
        destruct (outcome_of (m s)) as [a|e] eqn:O
    end; [|intro H; now apply catch_resume_outcome in H].
    intro H. injection H as ->. revert O.
    rewrite outcome_abind. cbn [lift outcome_of state_of fst snd].
    destruct (promise_all _ _) as [wks|e]; [|discriminate].
    cbv zeta. rewrite outcome_abind. unfold validate_call, call.
    cbn [outcome_of state_of fst snd].
    destruct (validateEnvelope X _); [discriminate|].
    repeat (rewrite outcome_abind; cbn [modify outcome_of state_of fst snd]).
    destruct ready as [|first rest]; [discriminate|].
    destruct (combine _ wks) as [|e0 es]; [discriminate|].
    destruct (_ && _); [|discriminate].
    cbn. intro H. injection H as <-. reflexivity.
  - destruct (wr_ready w) as [|first rest]; [discriminate|].
    destruct (wr_entries w) as [|e0 es]; [discriminate|].
    rewrite outcome_try_catch.
    match goal with
    | |- match outcome_of (?m s) with _ => _ end = _ -> _ =>
        destruct (outcome_of (m s)) as [a|e] eqn:O
    end; [|intro H; now apply catch_resume_outcome in H].
    intro H. injection H as ->. revert O.
    rewrite outcome_abind. cbn [lift outcome_of state_of fst snd].
    destruct (unwrapDEK_secp256k1 X _) as [dek|e]; [|discriminate].
    cbn. intro H. injection H as <-. reflexivity.
  - rewrite outcome_try_catch.
    match goal with
    | |- match outcome_of (?m s) with _ => _ end = _ -> _ =>
        destruct (outcome_of (m s)) as [a|e] eqn:O
    end; [|intro H; now apply catch_resume_outcome in H].
    intro H. injection H as ->. revert O.
    rewrite outcome_abind. cbn [lift outcome_of state_of fst snd].
    destruct (decryptTextFromEnvelope X _) as [out|e]; discriminate.
Qed.

Lemma step_lists_nonempty w ev :
  lists_nonempty w -> lists_nonempty (snd (step X w ev)).
Proof.
  intros [N F].
  destruct ev as [t|t| |i|i|i p| | |i]; cbn [step].
  - split; assumption.
  - split; assumption.
  - split; [|exact F]. cbn. now destruct (recipients (panel w)).
  - split; [|exact F]. cbn. intro Z. apply (f_equal (@List.length _)) in Z.
    rewrite map_at_length in Z. now destruct (recipients (panel w)).
  - destruct (List.length (recipients (panel w)) <=? 1)%nat eqn:L;
      [split; assumption|].
    apply Nat.leb_gt in L. split; [|exact F]. cbn. intro Z.
    pose proof (remove_at_length i (recipients (panel w))) as R.
    rewrite Z in R. cbn in R. lia.
  - split; [|exact F]. cbn. intro Z. apply (f_equal (@List.length _)) in Z.
    rewrite map_at_length in Z. now destruct (recipients (panel w)).
  - split; [exact N|]. cbn. apply Forall_app. split; [exact F|].
    constructor; [exact N|constructor].
  - destruct (rawOut (panel w)) as [raw|] eqn:R; [|split; assumption].
    destruct (envelope (panel w)) as [env|] eqn:E; [|split; assumption].
    split; [|exact F]. cbn [snd panel].
    rewrite downloadBundle_state, R, E.
    destruct (ensureAll_list (panel w) (panel w)) as [H|[_ H]].
    + now rewrite H.
    + exact (nonempty_by_length _ _ H N).
  - destruct (nth_error (suspended w) i) as [p|] eqn:E; [|split; assumption].
    assert (V : recipients (view_of p) <> []).
    { apply nth_error_In in E. rewrite Forall_forall in F. exact (F p E). }
    pose proof (settle_list p (panel w)) as H. cbv zeta in H.
    pose proof (settle_view p (panel w)) as Q.
    destruct (settle X p (panel w)) as [[t s1] r].
    cbn [state_of outcome_of fst snd] in *. split; cbn [panel suspended].
    + destruct H as [H|(_ & _ & H)]; [now rewrite H|].
      exact (nonempty_by_length _ _ H V).
    + destruct r as [[q|]|e]; cbn [replace_pending].
      * apply Forall_list_set; [|exact F]. now rewrite (Q q eq_refl).
      * now apply Forall_remove_at.
      * now apply Forall_remove_at.
Qed.

Lemma steps_lists_nonempty evs :
  forall w, lists_nonempty w -> lists_nonempty (steps X w evs).
Proof.
  induction evs as [|ev r IH]; intros w H; [exact H|].
  cbn [steps]. apply IH. now apply step_lists_nonempty.
Qed.

(** [runEncrypt] is the run that nothing interrupts: started, and resumed
    at each of its four [await]s with nothing happening in between. *)
Lemma runEncrypt_uninterrupted view s :
  runEncrypt X view s = (p <~ run_start view ;; run_on X 4 p) s.
Proof.
  unfold runEncrypt, run_start, encrypt_and_wrap, sanity_decrypt, await_encrypt,
    await_unwrap, await_decrypt, promise_all_wrap, validate_call, call, issue.
  cbn [run_on settle].
  unfold try_catch, abind, lift, modify, ret, wrap_calls, issue.
  repeat (repeat progress
            (cbn [fst snd wr_ready wr_entries wr_env wr_raw run_on settle];
             unfold try_catch, abind, lift, modify, ret, wrap_calls, issue,
               validate_call, call);
          match goal with
          | |- context [match ?x with _ => _ end] =>
              lazymatch x with
              | context [match _ with _ => _ end] => fail
              | _ => destruct x
              end
          end);
    repeat match goal with u : unit |- _ => destruct u end;
    cbn [fst snd app map];
    repeat progress (rewrite ?app_nil_r, <- ?app_assoc; cbn [app]);
    reflexivity.
Qed.

End EncryptEvents.

(** X13.  Whatever happens in the Encrypt panel, user actions and
    promises of suspended runs settling in any order, the recipient list
    never becomes empty.  Typing plaintext or AAD, regenerating keys,
    clicking Encrypt and downloading the bundle leave every rid in place,
    and so does the resumption of a run at its later [await]s.  The
    resumption of a run after [encryptTextRaw] leaves the list alone or
    stores the list of the render the run was started from, with keys
    for one recipient: the rids are then those of that render, whatever
    was added, removed or edited since (a recipient added while the run
    was suspended is gone). *)
Theorem recipient_list_is_kept (X : Externals) :
  (forall evs,
      EncryptPanel.recipients
        (EncryptPanel.panel
           (EncryptPanel.steps X (encrypt_world EncryptPanel.initial) evs)) <> [])
  /\ (forall w ev,
        edits_list ev = false -> resumes ev = false ->
        map EncryptPanel.rid
            (EncryptPanel.recipients
               (EncryptPanel.panel (snd (EncryptPanel.step X w ev))))
        = map EncryptPanel.rid (EncryptPanel.recipients (EncryptPanel.panel w)))
  /\ (forall w i p,
        nth_error (EncryptPanel.suspended w) i = Some p ->
        let after :=
          EncryptPanel.recipients
            (EncryptPanel.panel (snd (EncryptPanel.step X w (EncryptPanel.Settle i)))) in
        after = EncryptPanel.recipients (EncryptPanel.panel w)
        \/ (exists view, p = EncryptPanel.AwaitEncrypt view)
           /\ map EncryptPanel.rid after
              = map EncryptPanel.rid (EncryptPanel.recipients (view_of p)))
  /\ (let w := EncryptPanel.steps (toy_sdk []) (encrypt_world EncryptPanel.initial)
                 [EncryptPanel.Click_encrypt; EncryptPanel.Click_add] in
      List.length (EncryptPanel.recipients (EncryptPanel.panel w)) = 2%nat
      /\ List.length
           (EncryptPanel.recipients
              (EncryptPanel.panel
                 (snd (EncryptPanel.step (toy_sdk []) w (EncryptPanel.Settle 0)))))
         = 1%nat).
Proof.
  split; [|split; [|split]].
  - intro evs.
    apply (steps_lists_nonempty X evs (encrypt_world EncryptPanel.initial)).
    split; [discriminate|constructor].
  - exact (step_rids X).
  - intros w i p E after. subst after.
    rewrite (encrypt_step_settle X w i p E).
    destruct (settle_list X p (EncryptPanel.panel w)) as [H|(V & H & _)];
      [now left|right]. split; assumption.
  - vm_compute. split; reflexivity.
Qed.

(** X14.  [regenRecipient] gives recipient [i] a fresh key pair and
    leaves its rid and every other recipient of the current list as they
    are; a later [ensureRecipientAt] for [i] returns the stored recipient
    without drawing a key or writing anything. *)
Theorem regenRecipient_keeps_others (X : Externals) s i r0 :
  nth_error (EncryptPanel.recipients s) i = Some r0 ->
  let s' := state_of (EncryptPanel.regenRecipient X i s) in
  exists r,
    nth_error (EncryptPanel.recipients s') i = Some r
    /\ EncryptPanel.rid r = EncryptPanel.rid r0
    /\ EncryptPanel.recipientPrivHex r
       = u8ToHex (randomSecretKey X (EncryptPanel.draws s))
    /\ EncryptPanel.recipientPubHex r
       = u8ToHex (getPublicKey X (randomSecretKey X (EncryptPanel.draws s)))
    /\ (forall j, j <> i ->
          nth_error (EncryptPanel.recipients s') j
          = nth_error (EncryptPanel.recipients s) j)
    /\ EncryptPanel.ensureRecipientAt X s' i s' = (([], s'), Ok r).
Proof.
  intros H s'. subst s'. unfold EncryptPanel.regenRecipient, EncryptPanel.updateRecipient.
  cbn [abind get_state modify state_of fst snd EncryptPanel.recipients
       EncryptPanel.setRecipients EncryptPanel.drew EncryptPanel.draws app].
  eexists. split; [|split; [|split; [|split; [|split]]]].
  - rewrite nth_error_map_at, Nat.eqb_refl, H. reflexivity.
  - reflexivity.
  - reflexivity.
  - reflexivity.
  - intros j N. rewrite nth_error_map_at.
    destruct (j =? i)%nat eqn:E; [apply Nat.eqb_eq in E; contradiction | reflexivity].
  - unfold EncryptPanel.ensureRecipientAt.
    cbn [EncryptPanel.recipients EncryptPanel.setRecipients].
    rewrite nth_error_map_at, Nat.eqb_refl, H. reflexivity.
Qed.

Lemma regenRecipient_keeps_others_witness :
  let X := toy_sdk [] in
  let s' := state_of (EncryptPanel.regenRecipient X 0 two_blank) in
  exists r,
    nth_error (EncryptPanel.recipients s') 0 = Some r
    /\ EncryptPanel.rid r = "did:example:alice"
    /\ EncryptPanel.recipientPrivHex r = "0x2a00"
    /\ EncryptPanel.recipientPubHex r = "0x022a00"
    /\ (forall j, j <> 0%nat ->
          nth_error (EncryptPanel.recipients s') j
          = nth_error (EncryptPanel.recipients two_blank) j)
    /\ EncryptPanel.ensureRecipientAt X s' 0 s' = (([], s'), Ok r).
Proof.
  exact (regenRecipient_keeps_others (toy_sdk []) two_blank 0
           (keyed "did:example:alice" "" "") eq_refl).
Defined.

(* ================================================================= *)
(** ** DecryptPanel: suspended runs and Clear *)

Section DecryptInvariant.

Import DecryptPanel.

Variable X : Externals.

Lemma sorted_snoc (l : list N) (n : N) :
  StronglySorted N.lt l -> Forall (fun x => (x < n)%N) l ->
  StronglySorted N.lt (l ++ [n]).
Proof.
  induction 1 as [|x l S IH F]; intro B; cbn.
  - repeat constructor.
  - inversion B as [|? ? Bx Bl]; subst. constructor; [now apply IH|].
    apply Forall_app. split; [exact F | now constructor].
Qed.

Lemma remove_at_map {A B} (f : A -> B) (i : nat) (l : list A) :
  map f (remove_at i l) = remove_at i (map f l).
Proof. revert i. induction l as [|x r IH]; intros [|i]; cbn; congruence. Qed.

Lemma remove_at_Forall {A} (P : A -> Prop) (i : nat) (l : list A) :
  Forall P l -> Forall P (remove_at i l).
Proof.
  intro F. revert i. induction F as [|x r Hx F IH]; intros [|i]; cbn; auto.
Qed.

Lemma remove_at_sorted (i : nat) (l : list N) :
  StronglySorted N.lt l -> StronglySorted N.lt (remove_at i l).
Proof.
  intro S. revert i. induction S as [|x r S IH F]; intros [|i]; cbn.
  - constructor.
  - constructor.
  - exact S.
  - constructor; [apply IH | now apply remove_at_Forall].
Qed.

Lemma list_set_Forall {A} (P : A -> Prop) (i : nat) (x : A) (l : list A) :
  P x -> Forall P l -> Forall P (list_set i x l).
Proof.
  intros Hx F. revert i. induction F as [|y r Hy F IH]; intros [|i]; cbn; auto.
Qed.

Lemma settle_same_id p s q :
  outcome_of (settle X p s) = Ok (Some q) -> pending_id q = pending_id p.
Proof.
  assert (C : forall runId e, outcome_of (caught runId e s) <> Ok (Some q)).
  { intros runId e. unfold caught.
    destruct (runId =? runIdRef s)%N; [|discriminate].
    destruct (errText e); discriminate. }
  rewrite settle_eq. destruct p as [runId a ctx|runId a ctx]; cbn.
  - destruct (unwrapDEK_secp256k1 X a); cbn; intro H; [|now apply C in H].
    now injection H as <-.
  - destruct (decryptTextFromEnvelope X a); [discriminate|].
    intro H. now apply C in H.
Qed.

Lemma step_suspended_settle w i p :
  nth_error (suspended w) i = Some p ->
  suspended (snd (step X w (Settle i)))
  = replace_pending i
      (match outcome_of (settle X p (panel w)) with Ok q => q | Throw _ => None end)
      (suspended w).
Proof.
  intro H. unfold step. rewrite H.
  now destruct (settle X p (panel w)) as [[t s] r].
Qed.

Lemma replace_pending_ids i q l p :
  nth_error l i = Some p ->
  (forall q', q = Some q' -> pending_id q' = pending_id p) ->
  map pending_id (replace_pending i q l)
  = match q with
    | Some _ => map pending_id l
    | None => remove_at i (map pending_id l)
    end.
Proof.
  intros H S. destruct q as [q'|]; cbn [replace_pending].
  - apply (map_list_set pending_id l i q' p H). now apply S.
  - apply remove_at_map.
Qed.

Lemma step_run_world w :
  let m := run_start X (panel w) (panel w) in
  snd (let '((t, s), r) := m in
       (t, {| panel := s;
              suspended := add_pending (match r with Ok p => p | Throw _ => None end)
                                       (suspended w) |}))
  = {| panel := state_of m;
       suspended := add_pending (match outcome_of m with Ok p => p | Throw _ => None end)
                                (suspended w) |}.
Proof. cbv zeta. now destruct (run_start X (panel w) (panel w)) as [[t s] r]. Qed.

Lemma run_keeps_order w :
  runs_in_order w ->
  let m := run_start X (panel w) (panel w) in
  runs_in_order
    {| panel := state_of m;
       suspended := add_pending (match outcome_of m with Ok p => p | Throw _ => None end)
                                (suspended w) |}.
Proof.
  intros [S F] m. subst m. unfold runs_in_order. cbn [panel suspended].
  rewrite run_start_counter.
  assert (F' : Forall (fun p => (pending_id p <= runIdRef (panel w) + 1)%N) (suspended w)).
  { eapply Forall_impl; [|exact F]. cbn. intros; lia. }
  destruct (outcome_of (run_start X (panel w) (panel w))) as [[p|]|e] eqn:O;
    cbn [add_pending]; try (split; assumption).
  apply run_start_pending in O. split.
  - rewrite map_app. cbn [map]. apply sorted_snoc; [exact S|].
    rewrite Forall_map. eapply Forall_impl; [|exact F]. cbn. intros; lia.
  - apply Forall_app. split; [exact F'|]. constructor; [lia | constructor].
Qed.

Lemma sync_world w v :
  runs_in_order {| panel := v; suspended := suspended w |} ->
  runs_in_order
    (snd (let '((t, s2), _) := sync_effect X v v in
          (t, {| panel := s2; suspended := suspended w |}))).
Proof.
  intros [S F]. pose proof (sync_effect_runIdRef X v v) as C.
  destruct (sync_effect X v v) as [[t s2] r].
  unfold runs_in_order. cbn [snd panel suspended] in *.
  cbn [state_of fst snd] in C.
  split; [exact S|]. now rewrite C.
Qed.

Lemma step_keeps_order w ev : runs_in_order w -> runs_in_order (snd (step X w ev)).
Proof.
  intros I. pose proof I as [S F].
  destruct ev as [| | |text|text|rid|on|i]. 1-7: unfold step.
  - rewrite step_run_world. now apply run_keeps_order.
  - destruct (autoDecrypt (panel w) && auto_run_guard X (panel w)); [|exact I].
    rewrite step_run_world. now apply run_keeps_order.
  - apply sync_world. split; [exact S|]. cbn.
    eapply Forall_impl; [|exact F]. cbn. intros; lia.
  - apply sync_world. split; [exact S | exact F].
  - split; [exact S | exact F].
  - split; [exact S | exact F].
  - split; [exact S | exact F].
  - destruct (nth_error (suspended w) i) as [p|] eqn:E;
      [|unfold step; rewrite E; exact I].
    unfold runs_in_order.
    rewrite (step_panel_settle X w i p E), settle_counter,
      (step_suspended_settle w i p E).
    rewrite (replace_pending_ids i _ (suspended w) p E).
    + destruct (outcome_of (settle X p (panel w))) as [[q|]|e] eqn:O.
      * split; [exact S|]. cbn [replace_pending]. apply list_set_Forall; [|exact F].
        rewrite (settle_same_id p (panel w) q O).
        eapply Forall_forall in F; [exact F|]. eapply nth_error_In. exact E.
      * split; [now apply remove_at_sorted | now apply remove_at_Forall].
      * split; [now apply remove_at_sorted | now apply remove_at_Forall].
    + intros q' Hq. destruct (outcome_of (settle X p (panel w))) as [[q|]|e] eqn:O;
        try discriminate. injection Hq as <-. exact (settle_same_id p (panel w) q O).
Qed.

End DecryptInvariant.

Section DecryptCancel.

Import DecryptPanel.

Variable X : Externals.

Lemma steps_keep_order evs : forall w, runs_in_order w -> runs_in_order (steps X w evs).
Proof.
  induction evs as [|ev r IH]; intros w I; [exact I|].
  cbn [steps]. apply IH. now apply step_keeps_order.
Qed.

Lemma sorted_nth_inj (l : list N) (i j : nat) (a : N) :
  StronglySorted N.lt l ->
  nth_error l i = Some a -> nth_error l j = Some a -> i = j.
Proof.
  intros S Hi Hj.
  assert (D : NoDup l).
  { clear - S. induction S as [|x r S IH F]; constructor; [|exact IH].
    intro I. eapply Forall_forall in F; [|exact I]. lia. }
  apply (proj1 (NoDup_nth_error l) D).
  - apply nth_error_Some. congruence.
  - congruence.
Qed.

Lemma sync_effect_sdk view : preserves sdk (sync_effect X view).
Proof.
  unfold sync_effect.
  apply preserves_try_catch; [|auto with handlers].
  handler_cases (@preserves_abind state).
Qed.

Lemma settle_keeps_stale w i :
  all_stale w ->
  let w' := snd (step X w (Settle i)) in
  all_stale w' /\ out (panel w') = out (panel w) /\ sdk (panel w') = sdk (panel w).
Proof.
  intros A w'. subst w'.
  destruct (nth_error (suspended w) i) as [p|] eqn:E;
    [|unfold step; rewrite E; auto].
  assert (P : (pending_id p < runIdRef (panel w))%N).
  { eapply Forall_forall in A; [exact A|]. eapply nth_error_In. exact E. }
  rewrite (step_panel_settle X w i p E).
  destruct (settle_stale X p (panel w)) as [O S]; [lia|].
  split; [|split; assumption].
  unfold all_stale.
  rewrite (step_panel_settle X w i p E), settle_counter,
    (step_suspended_settle X w i p E).
  destruct (outcome_of (settle X p (panel w))) as [[q|]|e] eqn:Q;
    cbn [replace_pending].
  - apply list_set_Forall; [|exact A].
    now rewrite (settle_same_id X p (panel w) q Q).
  - now apply remove_at_Forall.
  - now apply remove_at_Forall.
Qed.

Lemma settles_keep_stale settles :
  forall w,
    all_stale w ->
    let w' := steps X w (map Settle settles) in
    all_stale w' /\ out (panel w') = out (panel w) /\ sdk (panel w') = sdk (panel w).
Proof.
  induction settles as [|i r IH]; intros w A; [cbn; auto|].
  cbn [map steps].
  destruct (settle_keeps_stale w i A) as (A' & O & S).
  destruct (IH _ A') as (A'' & O' & S').
  cbv zeta in *. rewrite O', S', O, S. auto.
Qed.

Lemma clear_world w :
  runs_in_order w ->
  let w' := snd (step X w Click_clear) in
  all_stale w' /\ out (panel w') = blank /\ sdk (panel w') = sdk (panel w).
Proof.
  intros [_ F] w'. subst w'. unfold step.
  match goal with
  | |- context [sync_effect X ?v ?s] =>
      pose proof (sync_effect_runIdRef X v s) as C;
      pose proof (sync_effect_out X v s) as O;
      pose proof (sync_effect_sdk v s) as S;
      destruct (sync_effect X v s) as [[t s3] r]
  end.
  unfold all_stale. cbn [snd panel suspended state_of fst] in *.
  rewrite C, O, S. cbn. split; [|split; reflexivity].
  eapply Forall_impl; [|exact F]. cbn. intros; lia.
Qed.

End DecryptCancel.

(** X15.  Along every sequence of events of the Decrypt panel the
    suspended runs carry strictly increasing identifiers, none above the
    counter; so at most one suspended run is the current one, the only
    one whose result can still be written. *)
Theorem suspended_runs_stay_in_order (X : Externals) s evs :
  let w := DecryptPanel.steps X (fresh_world s) evs in
  StronglySorted N.lt (map DecryptPanel.pending_id (DecryptPanel.suspended w))
  /\ Forall (fun p => (DecryptPanel.pending_id p
                       <= DecryptPanel.runIdRef (DecryptPanel.panel w))%N)
            (DecryptPanel.suspended w)
  /\ (forall i j p q,
        nth_error (DecryptPanel.suspended w) i = Some p ->
        nth_error (DecryptPanel.suspended w) j = Some q ->
        DecryptPanel.pending_id p = DecryptPanel.runIdRef (DecryptPanel.panel w) ->
        DecryptPanel.pending_id q = DecryptPanel.runIdRef (DecryptPanel.panel w) ->
        i = j).
Proof.
  intro w.
  assert (I : runs_in_order w).
  { apply steps_keep_order. split; [constructor | constructor]. }
  destruct I as [S F]. split; [exact S|]. split; [exact F|].
  intros i j p q Hi Hj Pi Pj.
  apply (sorted_nth_inj _ i j (DecryptPanel.runIdRef (DecryptPanel.panel w)) S).
  - rewrite nth_error_map, Hi. cbn. now rewrite Pi.
  - rewrite nth_error_map, Hj. cbn. now rewrite Pj.
Qed.

(** X16.  [Clear] cancels whatever is in flight: once it is clicked, no
    run that was suspended at that moment writes its result or an error
    when its promises settle, in whatever order they do; the output stays
    blank.  The reported status stays what it was, [running] included. *)
Theorem clear_cancels_suspended_runs (X : Externals) s evs settles :
  let w := DecryptPanel.steps X (fresh_world s) evs in
  let w1 := snd (DecryptPanel.step X w DecryptPanel.Click_clear) in
  let w2 := DecryptPanel.steps X w1 (map DecryptPanel.Settle settles) in
  DecryptPanel.out (DecryptPanel.panel w2) = DecryptPanel.blank
  /\ DecryptPanel.sdk (DecryptPanel.panel w2) = DecryptPanel.sdk (DecryptPanel.panel w).
Proof.
  intros w w1 w2.
  assert (I : runs_in_order w).
  { apply steps_keep_order. split; [constructor | constructor]. }
  destruct (clear_world X w I) as (A & O & S).
  destruct (settles_keep_stale X settles _ A) as (_ & O' & S').
  subst w2 w1. cbv zeta in *. rewrite O', S', O, S. auto.
Qed.

(* ================================================================= *)
(** ** DecryptPanel: the automatic run *)

Lemma truthy_opt_member (v : jsval) (k : string) :
  truthy (opt_member v k) = true -> is_nullish v = false /\ opt_member v k = prop v k.
Proof. unfold opt_member. destruct (is_nullish v); [discriminate | auto]. Qed.

(** X17.  Whenever the debounce timer's test lets an automatic run start,
    that run gets past its own checks of [raw], [envelope] and the
    recipient list: it calls [validateEnvelope] on the bundle's envelope,
    and the list it then resolves the recipient from is not empty. *)
Theorem auto_run_reaches_validation (X : Externals) view s :
  DecryptPanel.auto_run_guard X view = true ->
  exists bundle first rest,
    parse_bundle X (DecryptPanel.bundleInput view) = Ok bundle
    /\ recipients_of (prop bundle "envelope") = JArr (first :: rest)
    /\ exists more,
         trace_of (DecryptPanel.run_start X view s)
         = CallValidate (prop bundle "envelope") :: more.
Proof.
  unfold DecryptPanel.auto_run_guard. intro G.
  destruct (parse_bundle X (DecryptPanel.bundleInput view)) as [b|e] eqn:P;
    [|discriminate G].
  repeat (apply andb_true_iff in G; destruct G as [G ?]).
  destruct (truthy_opt_member _ _ G) as [_ Gc].
  assert (Nb : is_nullish b = false).
  { destruct b; try reflexivity; discriminate G. }
  assert (Er : opt_member b "raw" = prop b "raw")
    by (unfold opt_member; now rewrite Nb).
  assert (Ee : opt_member b "envelope" = prop b "envelope")
    by (unfold opt_member; now rewrite Nb).
  rewrite Er in *. rewrite Ee in *.
  destruct (recipients_of (prop b "envelope")) as [| | | | |[|first rest]|] eqn:R;
    try discriminate.
  exists b, first, rest. split; [reflexivity|]. split; [exact R|].
  rewrite run_start_eq.
  assert (T : exists more,
             trace_of (DecryptPanel.run_prepare X view s)
             = CallValidate (prop b "envelope") :: more).
  { unfold DecryptPanel.run_prepare.
    rewrite trace_abind. cbn [lift outcome_of trace_of state_of fst snd app].
    rewrite P.
    rewrite trace_abind. unfold destructure. rewrite Nb.
    cbn [lift outcome_of trace_of state_of fst snd app].
    rewrite trace_abind. cbn [lift outcome_of trace_of state_of fst snd app].
    rewrite trace_abind. rewrite G, H2.
    cbn [negb orb throw_if ret outcome_of trace_of state_of fst snd app].
    rewrite trace_abind. rewrite H1.
    cbn [negb orb throw_if ret outcome_of trace_of state_of fst snd app].
    rewrite trace_abind. unfold validate_call, call.
    cbn [outcome_of trace_of state_of fst snd app].
    destruct (validateEnvelope X (prop b "envelope")); eexists; reflexivity. }
  destruct T as [more T].
  destruct (outcome_of (DecryptPanel.run_prepare X view s)) as [p|e];
    [|destruct (errText e)];
    cbn [trace_of fst]; rewrite T; eexists; reflexivity.
Qed.

Lemma auto_run_reaches_validation_witness :
  let X := toy_sdk [bundle_two_recipients] in
  let view := decrypt_view (to_json bundle_two_recipients) in
  exists bundle first rest,
    parse_bundle X (DecryptPanel.bundleInput view) = Ok bundle
    /\ recipients_of (prop bundle "envelope") = JArr (first :: rest)
    /\ exists more,
         trace_of (DecryptPanel.run_start X view view)
         = CallValidate (prop bundle "envelope") :: more.
Proof.
  exact (auto_run_reaches_validation (toy_sdk [bundle_two_recipients])
           (decrypt_view (to_json bundle_two_recipients))
           (decrypt_view (to_json bundle_two_recipients)) eq_refl).
Defined.

(* ================================================================= *)
(** ** From the Encrypt tab to the Decrypt tab *)

Section EncryptSingle.

Import EncryptPanel.

Variable X : Externals.

Lemma ensureAll_single view s r0 :
  recipients view = [r0] -> recipients s = [r0] ->
  exists r,
    outcome_of (ensureAll X view s) = Ok [r]
    /\ ensured r0 r
    /\ recipients (state_of (ensureAll X view s)) = [r].
Proof.
  intros V S. unfold ensureAll. rewrite V. cbn [List.length seq mapM].
  unfold ensureRecipientAt, ensured, has_keys. rewrite V. cbn [nth_error].
  destruct (nonempty (recipientPrivHex r0) && nonempty (recipientPubHex r0)) eqn:K.
  - exists r0. cbn. repeat split; try assumption.
  - eexists. cbn. repeat split. discriminate.
Qed.

Lemma sanity_decrypt_single view raw r wk env s2 :
  nonempty (recipientPrivHex r) = true -> nonempty wk = true ->
  let w := {| wr_raw := raw; wr_ready := [r];
              wr_entries := [(rid r, wk)]; wr_env := env |} in
  sanity_decrypt X view w s2 =
  match unwrapDEK_secp256k1 X (sanity_unwrap view r wk) with
  | Throw e => (([CallUnwrap (sanity_unwrap view r wk)], s2), Throw e)
  | Ok dek =>
      match decryptTextFromEnvelope X (sanity_decrypt_call view raw env dek) with
      | Throw e =>
          (([CallUnwrap (sanity_unwrap view r wk);
             CallDecrypt (sanity_decrypt_call view raw env dek)], s2), Throw e)
      | Ok out =>
          (([CallUnwrap (sanity_unwrap view r wk);
             CallDecrypt (sanity_decrypt_call view raw env dek)],
            setDecryptCheck out s2), Ok tt)
      end
  end.
Proof.
  intros P W w. subst w. unfold sanity_decrypt.
  cbn [wr_ready wr_entries wr_raw wr_env snd]. rewrite P, W. cbn [andb].
  fold (sanity_unwrap view r wk).
  unfold await_unwrap, await_decrypt, call, abind.
  destruct (unwrapDEK_secp256k1 X (sanity_unwrap view r wk)) as [dek|e]; [|reflexivity].
  fold (sanity_decrypt_call view raw env dek).
  destruct (decryptTextFromEnvelope X _) as [out|e]; reflexivity.
Qed.

Lemma has_keys_priv r : has_keys r = true -> nonempty (recipientPrivHex r) = true.
Proof. unfold has_keys. intro H. now apply andb_true_iff in H. Qed.

(** A run over a single recipient, seen from its result. *)
Lemma runEncrypt_single s r0 raw env :
  recipients s = [r0] ->
  let s1 := state_of (runEncrypt X s s) in
  rawOut s1 = Some raw -> envelope s1 = Some env -> wrappedKey s1 <> "" ->
  exists r,
    ensured r0 r
    /\ recipients s1 = [r]
    /\ aadText s1 = aadText s
    /\ env = build_envelope X raw [(rid r, wrappedKey s1)]
    /\ validateEnvelope X env = None
    /\ (sdk s1 = "ok" ->
        exists dek,
          unwrapDEK_secp256k1 X (sanity_unwrap s r (wrappedKey s1)) = Ok dek
          /\ decryptTextFromEnvelope X (sanity_decrypt_call s raw env dek)
             = Ok (decryptCheck s1)).
Proof.
  intros V s1 HR HE HW. subst s1.
  pose proof (encrypt_and_wrap_run X s (cleared s)) as U. cbv zeta in U.
  pose proof (encrypt_and_wrap_recipients X s (cleared s)) as RC.
  destruct (encrypt_and_wrap_fields X s (cleared s)) as (_ & FA & _).
  destruct (ensureAll_single s (cleared s) r0 V V) as (r & O & En & RS).
  revert HR HE HW. rewrite (runEncrypt_split X s s). cbv zeta.
  destruct (encryptTextRaw X (encrypt_call s)) as [raw'|e].
  - destruct U as (ready & O' & _ & U). rewrite O in O'. injection O' as <-.
    cbn [map] in U. rewrite RS in RC.
    destruct (wrapDEK_secp256k1 X (wrap_call s raw' r)) as [wk|e];
      cbn [sequence_results bind] in U.
    + cbv zeta in U. destruct U as (_ & _ & Out). cbn [combine map] in Out.
      rewrite Out.
      destruct (validateEnvelope X _) as [e|] eqn:Val.
      * cbn [state_of fst snd]. intro HR.
        match goal with
        | _ : context [caught_encrypt ?e0 ?st] |- _ =>
            destruct (caught_encrypt_fields e0 st) as (_ & _ & _ & CR & _)
        end.
        rewrite CR in HR.
        destruct (encrypt_and_wrap_fields X s (cleared s)) as (_ & _ & R & _).
        rewrite R in HR. discriminate HR.
      * cbn [firstWrappedKey snd wr_entries wr_raw wr_env].
        set (s2 := onStatus "ok" _).
        assert (Wk : forall s3, wrappedKey s3 = wrappedKey s2 -> wrappedKey s3 <> "" ->
                                nonempty wk = true).
        { intros s3 E N. rewrite E in N. subst s2.
          cbn [wrappedKey onStatus setWrappedKey] in N.
          unfold nonempty. destruct (String.eqb wk "") eqn:Q; [|reflexivity].
          apply String.eqb_eq in Q. contradiction. }
        destruct (sanity_decrypt_fields X s
                    {| wr_raw := raw'; wr_ready := [r];
                       wr_entries := [(rid r, wk)];
                       wr_env := build_envelope X raw' [(rid r, wk)] |} s2)
          as (_ & SA & SR & SO & SE & SW & SS & _).
        assert (G : forall s3,
                 rawOut s3 = rawOut s2 -> envelope s3 = envelope s2 ->
                 wrappedKey s3 = wrappedKey s2 -> recipients s3 = recipients s2 ->
                 aadText s3 = aadText s2 ->
                 rawOut s3 = Some raw -> envelope s3 = Some env ->
                 raw = raw' /\ env = build_envelope X raw' [(rid r, wk)]
                 /\ wrappedKey s3 = wk /\ recipients s3 = [r]
                 /\ aadText s3 = aadText s).
        { intros s3 E1 E2 E3 E4 E5 HR HE. rewrite E1 in HR. rewrite E2 in HE.
          subst s2.
          cbn [rawOut envelope wrappedKey recipients aadText onStatus setWrappedKey
               setEnvelope setRawOut] in *.
          injection HR as <-. injection HE as <-.
          rewrite E3, E4, E5, RC, FA. auto. }
        destruct (outcome_of (sanity_decrypt X s _ s2)) as [[]|e] eqn:SD;
          cbn [state_of fst snd]; intros HR HE HW.
        -- destruct (G _ SO SE SW SR SA HR HE) as (-> & -> & W & R & A).
           pose proof (Wk _ SW HW) as Nw.
           exists r. split; [exact En|]. split; [exact R|]. split; [exact A|].
           rewrite W. split; [reflexivity|]. split; [exact Val|]. intros _.
           rewrite (sanity_decrypt_single s raw' r wk _ s2
                      (has_keys_priv r (proj1 (proj2 En))) Nw) in SD |- *.
           destruct (unwrapDEK_secp256k1 X (sanity_unwrap s r wk)) as [dek|e];
             [|discriminate SD].
           exists dek. split; [reflexivity|].
           destruct (decryptTextFromEnvelope X _) as [out|e]; [|discriminate SD].
           reflexivity.
        -- match goal with
           | _ : context [caught_encrypt ?e0 ?st] |- _ =>
               destruct (caught_encrypt_fields e0 st)
                 as (_ & CA & CRc & CO & CE & CW & CS & _)
           end.
           destruct (G _ (eq_trans CO SO) (eq_trans CE SE) (eq_trans CW SW)
                       (eq_trans CRc SR) (eq_trans CA SA) HR HE)
             as (-> & -> & W & R & A).
           exists r. split; [exact En|].
           split; [exact R|]. split; [exact A|].
           rewrite W. split; [reflexivity|]. split; [exact Val|].
           rewrite CS. discriminate.
    + destruct U as (_ & Out). rewrite Out.
      cbn [state_of fst snd]. intro HR.
      match goal with
      | _ : context [caught_encrypt ?e0 ?st] |- _ =>
          destruct (caught_encrypt_fields e0 st) as (_ & _ & _ & CR & _)
      end.
      rewrite CR in HR.
      destruct (encrypt_and_wrap_fields X s (cleared s)) as (_ & _ & R & _).
      rewrite R in HR. discriminate HR.
  - destruct U as (_ & Out). rewrite Out.
    cbn [state_of fst snd]. intro HR.
    match goal with
    | _ : context [caught_encrypt ?e0 ?st] |- _ =>
        destruct (caught_encrypt_fields e0 st) as (_ & _ & _ & CR & _)
    end.
    rewrite CR in HR.
    destruct (encrypt_and_wrap_fields X s (cleared s)) as (_ & _ & R & _).
    rewrite R in HR. discriminate HR.
Qed.

End EncryptSingle.

Section DecryptSuccess.

Import DecryptPanel.

Variable X : Externals.

(** [run] when nothing fails and nothing else happens meanwhile. *)
Lemma run_success view s args ctx dek pt :
  outcome_of (run_prepare X view s) = Ok (args, ctx) ->
  unwrapDEK_secp256k1 X args = Ok dek ->
  decryptTextFromEnvelope X (decrypt_call dek ctx) = Ok pt ->
  out (state_of (run X view s)) = succeeded X pt ctx
  /\ sdk (state_of (run X view s)) = "ok"
  /\ trace_of (run X view s)
     = (trace_of (run_prepare X view s)
        ++ [CallUnwrap args; CallDecrypt (decrypt_call dek ctx)])%list.
Proof.
  intros P U D. unfold run.
  rewrite state_abind, trace_abind, run_start_eq, P.
  cbn [outcome_of state_of trace_of fst snd].
  rewrite state_abind, trace_abind, settle_eq, U.
  cbn [outcome_of state_of trace_of fst snd].
  rewrite state_abind, trace_abind, settle_eq, D.
  cbn [outcome_of state_of trace_of fst snd ret app].
  unfold write_if_current, begun.
  cbn [runIdRef setOut onStatus setRunIdRef]. rewrite N.eqb_refl.
  cbn [out sdk setOut onStatus]. rewrite <- !app_assoc. cbn [app].
  auto.
Qed.

End DecryptSuccess.

Lemma nonempty_neq (t : string) : t <> "" -> nonempty t = true.
Proof.
  intro N. unfold nonempty. destruct (String.eqb t "") eqn:E; [|reflexivity].
  apply String.eqb_eq in E. contradiction.
Qed.

Lemma resolve_single_entry (X : Externals) raw rid wk sel :
  nonempty rid = true -> nonempty wk = true ->
  DecryptPanel.resolve_entry (build_envelope X raw [(rid, wk)]) sel
  = Ok (envelope_entry (rid, wk)).
Proof.
  intros Nr Nw. unfold DecryptPanel.resolve_entry, recipients_of, build_envelope.
  cbn [map opt_member is_nullish prop lookup app String.eqb Ascii.eqb Bool.eqb
       js_or truthy fst snd].
  fold (envelope_entry (rid, wk)).
  assert (T : truthy (js_or sel (JStr rid)) = true).
  { unfold js_or. destruct (truthy sel) eqn:E; [exact E | exact Nr]. }
  rewrite T. cbn [negb find_by_rid member is_nullish envelope_entry prop lookup
                  String.eqb Ascii.eqb Bool.eqb bind fst snd].
  assert (J : forall found,
             (found = envelope_entry (rid, wk) \/ found = JUndefined) ->
             js_or found (envelope_entry (rid, wk)) = envelope_entry (rid, wk)).
  { intros found [->| ->]; reflexivity. }
  destruct (same_value _ (JStr rid) (js_or sel (JStr rid)));
    cbn [bind find_by_rid]; fold (envelope_entry (rid, wk));
    rewrite J by auto;
    cbn [envelope_entry opt_member is_nullish prop lookup String.eqb Ascii.eqb
         Bool.eqb truthy fst snd];
    fold (nonempty wk); rewrite Nw; reflexivity.
Qed.

(** What [run] prepares from a bundle the Encrypt panel built for one
    recipient. *)
Lemma run_prepare_on_bundle (X : Externals) view s aad raw rid wk priv pub :
  let env := build_envelope X raw [(rid, wk)] in
  let payload :=
    JObj [("aadText", JStr aad);
          ("raw", JObj (raw_fields raw));
          ("envelope", env);
          ("recipientPrivHexByRid", fromEntries [(rid, JStr priv)]);
          ("recipientPubHexByRid", fromEntries [(rid, JStr pub)])] in
  let used := if nonempty aad then aad else DecryptPanel.aadOverride view in
  parse_bundle X (DecryptPanel.bundleInput view) = Ok payload ->
  validateEnvelope X env = None ->
  nonempty (raw_ciphertextB64url raw) = true ->
  nonempty (raw_nonceB64url raw) = true ->
  nonempty rid = true -> nonempty wk = true -> nonempty priv = true ->
  DecryptPanel.run_prepare X view s
  = (([CallValidate env], s),
     Ok ({| ua_wrappedKey := JStr wk;
            ua_recipientPrivKeyHex := JStr priv;
            ua_aadText := or_undefined used |},
         {| DecryptPanel.ctx_raw := JObj (raw_fields raw);
            DecryptPanel.ctx_envelope := env;
            DecryptPanel.ctx_entry := envelope_entry (rid, wk);
            DecryptPanel.ctx_aadText := used |})).
Proof.
  intros env payload used P V Nc Nn Nr Nw Np.
  unfold DecryptPanel.run_prepare. rewrite P. subst payload.
  cbn [lift abind destructure is_nullish prop lookup String.eqb Ascii.eqb Bool.eqb].
  unfold raw_fields at 1 2.
  cbn [opt_member is_nullish prop lookup app String.eqb Ascii.eqb Bool.eqb truthy].
  fold (nonempty (raw_ciphertextB64url raw)). fold (nonempty (raw_nonceB64url raw)).
  rewrite Nc, Nn.
  cbn [negb orb throw_if ret abind app].
  replace (truthy env) with true by reflexivity.
  cbn [negb orb throw_if ret abind app].
  unfold validate_call, call. rewrite V.
  cbn [abind app lift].
  rewrite (resolve_single_entry X raw rid wk _ Nr Nw).
  cbn [abind app lift fromEntries fold_left obj_set fst snd typeof truthy andb
       envelope_entry opt_member is_nullish prop lookup String.eqb Ascii.eqb Bool.eqb].
  fold (nonempty rid). rewrite Nr.
  unfold index_by, fromEntries.
  cbn [js_to_string as_object bind fold_left obj_set fst snd].
  unfold get_member, has_key. cbn [existsb fst snd lookup].
  rewrite String.eqb_refl. cbn [orb].
  assert (J : any_or (any_or (Plain (JStr priv)) (Plain JUndefined))
                     (Plain (JStr ""))
              = Plain (JStr priv)).
  { unfold any_or. cbn [truthy_any truthy]. fold (nonempty priv). rewrite Np.
    cbn [truthy_any truthy]. fold (nonempty priv). now rewrite Np. }
  rewrite J. cbn [truthy_any truthy]. fold (nonempty priv). rewrite Np.
  cbn [negb throw_if ret abind app].
  fold (nonempty aad). fold used. fold (envelope_entry (rid, wk)).
  reflexivity.
Qed.

(** X18.  From the Encrypt tab to the Decrypt tab, for one recipient.
    After a run that stored its outputs, the downloaded bundle, pasted
    into the Decrypt tab and parsed back to what was written, makes [run]
    validate the same envelope and unwrap the same wrapped key with the
    recipient's private key; the AAD it passes is the bundle's, or the
    Decrypt tab's own AAD field when the bundle's is empty.  If the
    Encrypt run's sanity check had passed and the AAD is the same (the
    form's AAD was not empty, or the Decrypt tab's field is), the Decrypt
    tab ends with the text the sanity check showed. *)
Theorem decrypt_reads_downloaded_bundle (X : Externals) s r0 raw env dv ds :
  EncryptPanel.recipients s = [r0] ->
  EncryptPanel.rid r0 <> "" ->
  let s1 := state_of (EncryptPanel.runEncrypt X s s) in
  EncryptPanel.rawOut s1 = Some raw ->
  EncryptPanel.envelope s1 = Some env ->
  EncryptPanel.wrappedKey s1 <> "" ->
  raw_ciphertextB64url raw <> "" ->
  raw_nonceB64url raw <> "" ->
  let payload := EncryptPanel.bundle_payload s1 raw env (EncryptPanel.recipients s1) in
  parse_bundle X (DecryptPanel.bundleInput dv) = Ok payload ->
  outcome_of (EncryptPanel.downloadBundle X s1 s1)
  = Ok (Some ("pxp201-bundle.json", JSON_stringify X payload))
  /\ exists r,
       EncryptPanel.recipients s1 = [r]
       /\ let used := if nonempty (EncryptPanel.aadText s)
                      then EncryptPanel.aadText s
                      else DecryptPanel.aadOverride dv in
          trace_of (DecryptPanel.run_start X dv ds)
          = [CallValidate env;
             CallUnwrap {| ua_wrappedKey := JStr (EncryptPanel.wrappedKey s1);
                           ua_recipientPrivKeyHex :=
                             JStr (EncryptPanel.recipientPrivHex r);
                           ua_aadText := or_undefined used |}]
          /\ (EncryptPanel.sdk s1 = "ok" ->
              EncryptPanel.aadText s <> "" \/ DecryptPanel.aadOverride dv = "" ->
              let d := state_of (DecryptPanel.run X dv ds) in
              DecryptPanel.ok (DecryptPanel.out d) = true
              /\ DecryptPanel.plaintext (DecryptPanel.out d)
                 = EncryptPanel.decryptCheck s1
              /\ DecryptPanel.sdk d = "ok").
Proof.
  intros V Nrid s1 HR HE HW Nc Nn payload P.
  destruct (runEncrypt_single X s r0 raw env V HR HE HW)
    as (r & (Er & Ek & _) & R & A & Eenv & Val & Sane).
  fold s1 in R, A, Eenv, Sane.
  assert (Np : nonempty (EncryptPanel.recipientPrivHex r) = true)
    by now apply has_keys_priv.
  assert (Nr : nonempty (EncryptPanel.rid r) = true)
    by (rewrite Er; now apply nonempty_neq).
  pose proof (nonempty_neq _ HW) as Nw.
  pose proof (nonempty_neq _ Nc) as Nc'. pose proof (nonempty_neq _ Nn) as Nn'.
  subst payload. rewrite R in P |- *.
  unfold EncryptPanel.bundle_payload in P. cbn [map] in P. rewrite A in P.
  rewrite Eenv in P, Val.
  pose proof (run_prepare_on_bundle X dv ds _ raw _ _ _ _ P Val Nc' Nn' Nr Nw Np) as RP.
  rewrite <- Eenv in RP.
  split; [|exists r; split; [reflexivity|]; cbv zeta; split].
  - unfold EncryptPanel.downloadBundle. rewrite HR, HE, outcome_abind.
    destruct (ensureAll_single X s1 s1 r R R) as (r' & O & (_ & _ & Same) & _).
    rewrite O. rewrite (Same Ek). reflexivity.
  - rewrite run_start_eq, RP. reflexivity.
  - intros Ok AAD.
    destruct (Sane Ok) as (dek & U & D).
    assert (Used : (if nonempty (EncryptPanel.aadText s)
                    then EncryptPanel.aadText s else DecryptPanel.aadOverride dv)
                   = EncryptPanel.aadText s).
    { unfold nonempty. destruct (String.eqb (EncryptPanel.aadText s) "") eqn:E;
        [|reflexivity].
      apply String.eqb_eq in E. cbn [negb]. destruct AAD as [N | ->]; congruence. }
    rewrite Used in RP.
    destruct (run_success X dv ds _ _ dek (EncryptPanel.decryptCheck s1)
                (f_equal snd RP)) as (Out & St & _).
    + exact U.
    + exact D.
    + rewrite Out, St. auto.
Qed.

Lemma decrypt_reads_downloaded_bundle_witness :
  let X := toy_sdk [demo_bundle] in
  let s1 := state_of (EncryptPanel.runEncrypt X EncryptPanel.initial
                                              EncryptPanel.initial) in
  let dv := decrypt_view (to_json demo_bundle) in
  EncryptPanel.decryptCheck s1 = "hello from PXP-201"
  /\ match EncryptPanel.rawOut s1, EncryptPanel.envelope s1 with
     | Some raw, Some env =>
         outcome_of (EncryptPanel.downloadBundle X s1 s1)
         = Ok (Some ("pxp201-bundle.json", to_json demo_bundle))
         /\ DecryptPanel.plaintext
              (DecryptPanel.out (state_of (DecryptPanel.run X dv dv)))
            = EncryptPanel.decryptCheck s1
     | _, _ => False
     end.
Proof.
  intros X s1 dv. split; [reflexivity|].
  destruct (EncryptPanel.rawOut s1) as [raw|] eqn:HR;
    [|vm_compute in HR; discriminate HR].
  destruct (EncryptPanel.envelope s1) as [env|] eqn:HE;
    [|vm_compute in HE; discriminate HE].
  assert (Nc : raw_ciphertextB64url raw <> "")
    by (vm_compute in HR; injection HR as <-; discriminate).
  assert (Nn : raw_nonceB64url raw <> "")
    by (vm_compute in HR; injection HR as <-; discriminate).
  assert (P : parse_bundle X (DecryptPanel.bundleInput dv)
              = Ok (EncryptPanel.bundle_payload s1 raw env (EncryptPanel.recipients s1))).
  { vm_compute in HR, HE. injection HR as <-. injection HE as <-.
    vm_compute. reflexivity. }
  destruct (decrypt_reads_downloaded_bundle X EncryptPanel.initial _ raw env dv dv
              eq_refl ltac:(discriminate) HR HE ltac:(discriminate) Nc Nn P)
    as (D & r & R & _ & F).
  split.
  - etransitivity; [exact D|]. f_equal. f_equal. f_equal.
    vm_compute in HR, HE. injection HR as <-. injection HE as <-. reflexivity.
  - apply F; [reflexivity | left; discriminate].
Defined.


(* ================================================================= *)
(** ** WK1Panel: prefill, unwrap and wrap *)

(** X19.  [doUnwrap] calls the SDK at most once, and only after it has
    found a wrapped key and a private key in the form and [parseWk1] has
    accepted the wrapped key (whose payload it then displays).  When the
    call succeeds it shows the key in hex; when it is rejected it shows
    the text of the rejection, if that has one.  When it makes no call it
    shows no key, leaves the displayed payload as it was and reports the
    status [error]; the status stays [running] only if what [parseWk1]
    threw has no text. *)
Theorem doUnwrap_calls_after_parse (X : Externals) view s :
  let m := WK1Panel.doUnwrap X view s in
  (trace_of m = [] \/ trace_of m = [CallUnwrap (wk1_unwrap_call view)])
  /\ (trace_of m = [CallUnwrap (wk1_unwrap_call view)] ->
      truthy (WK1Panel.wrappedKey view) = true
      /\ truthy_any (WK1Panel.privHex view) = true
      /\ exists obj,
           parseWk1 X (WK1Panel.wrappedKey view) = Ok obj
           /\ WK1Panel.parsed (state_of m) = JSON_stringify X obj
           /\ WK1Panel.out (state_of m)
              = match unwrapDEK_secp256k1 X (wk1_unwrap_call view) with
                | Ok dek => {| WK1Panel.dekHex := u8ToHex dek; WK1Panel.error := "" |}
                | Throw e => {| WK1Panel.dekHex := "";
                                WK1Panel.error := text_or_blank e |}
                end
           /\ WK1Panel.sdk (state_of m)
              = match unwrapDEK_secp256k1 X (wk1_unwrap_call view) with
                | Ok dek => "ok"
                | Throw e => status_after e
                end)
  /\ (trace_of m = [] ->
      WK1Panel.dekHex (WK1Panel.out (state_of m)) = ""
      /\ WK1Panel.parsed (state_of m) = WK1Panel.parsed s
      /\ (WK1Panel.sdk (state_of m) = "error"
          \/ exists e e',
               parseWk1 X (WK1Panel.wrappedKey view) = Throw e
               /\ errText e = Throw e'
               /\ outcome_of m = Throw e'
               /\ WK1Panel.sdk (state_of m) = "running")).
Proof.
  cbv zeta. unfold WK1Panel.doUnwrap. fold (wk1_unwrap_call view).
  unfold abind, try_catch, modify, throw_if, lift, await_unwrap, call, ret, throw.
  destruct (truthy (WK1Panel.wrappedKey view)) eqn:W; cbn [negb];
    [|cbn; repeat split; auto; discriminate].
  destruct (truthy_any (WK1Panel.privHex view)) eqn:P; cbn [negb];
    [|cbn; repeat split; auto; discriminate].
  destruct (parseWk1 X (WK1Panel.wrappedKey view)) as [obj|e] eqn:Q.
  - destruct (unwrapDEK_secp256k1 X (wk1_unwrap_call view)) as [dek|e] eqn:U; cbn.
    + split; [now right|]. split; [|discriminate].
      intros _. repeat split. exists obj. repeat split.
    + unfold text_or_blank, status_after. destruct (errText e); cbn;
        (split; [now right|]); (split; [|discriminate]);
        intros _; repeat split; exists obj; repeat split.
  - destruct (errText e) as [msg|e'] eqn:C; cbn.
    + split; [now left|]. split; [discriminate|]. intros _. repeat split.
      now left.
    + split; [now left|]. split; [discriminate|]. intros _. repeat split.
      right. exists e, e'. repeat split. exact C.
Qed.

Lemma fillFromBundle_preserves {T} (f : WK1Panel.state -> T) (X : Externals) view :
  (forall v s, f (WK1Panel.setAadText v s) = f s) ->
  (forall v s, f (WK1Panel.setWrappedKey v s) = f s) ->
  (forall v s, f (WK1Panel.setKid v s) = f s) ->
  (forall v s, f (WK1Panel.setPrivHex v s) = f s) ->
  (forall v s, f (WK1Panel.setPubHex v s) = f s) ->
  (forall v s, f (WK1Panel.setParsed v s) = f s) ->
  (forall v s, f (WK1Panel.setDekHexIn v s) = f s) ->
  preserves f (WK1Panel.fillFromBundle X view).
Proof.
  intros H1 H2 H3 H4 H5 H6 H7.
  unfold WK1Panel.fillFromBundle, WK1Panel.fill_from_entry, WK1Panel.fill_legacy,
    WK1Panel.try_parse, WK1Panel.copy_from_map.
  apply preserves_try_catch; [|auto with handlers].
  handler_cases (@preserves_abind WK1Panel.state).
Qed.

Lemma fillFromBundle_no_call (X : Externals) view :
  calls_only no_call (WK1Panel.fillFromBundle X view).
Proof.
  unfold WK1Panel.fillFromBundle, WK1Panel.fill_from_entry, WK1Panel.fill_legacy,
    WK1Panel.try_parse, WK1Panel.copy_from_map.
  apply calls_only_try_catch; [|auto with handlers].
  handler_cases (@calls_only_abind WK1Panel.state).
Qed.

(** X20.  The WK1 prefill never fails and never calls the SDK, whatever
    the bundle text and the selection are; it leaves alone the result and
    error display, the reported status and the selected rid. *)
Theorem fillFromBundle_is_silent (X : Externals) view s :
  let m := WK1Panel.fillFromBundle X view s in
  outcome_of m = Ok tt
  /\ trace_of m = []
  /\ WK1Panel.out (state_of m) = WK1Panel.out s
  /\ WK1Panel.sdk (state_of m) = WK1Panel.sdk s
  /\ WK1Panel.selectedRid (state_of m) = WK1Panel.selectedRid s
  /\ WK1Panel.bundleInput (state_of m) = WK1Panel.bundleInput s.
Proof.
  cbv zeta. split; [|split; [|repeat split]].
  - unfold WK1Panel.fillFromBundle. rewrite outcome_try_catch.
    destruct (outcome_of _) as [[]|e]; reflexivity.
  - apply no_call_nil. apply fillFromBundle_no_call.
  - now apply (fillFromBundle_preserves WK1Panel.out).
  - now apply (fillFromBundle_preserves WK1Panel.sdk).
  - now apply (fillFromBundle_preserves WK1Panel.selectedRid).
  - now apply (fillFromBundle_preserves WK1Panel.bundleInput).
Qed.

Lemma pairs_length (h : string) : List.length (pairs h) = (String.length h / 2)%nat.
Proof.
  induction h as [| a | a b r IH] using string_ind2; try reflexivity.
  cbn [pairs List.length String.length]. now rewrite div2_SS, IH.
Qed.

Lemma key_length_check (h : string) :
  ((String.length h mod 2 =? 0) && (String.length h / 2 =? 32))%nat
  = (String.length h =? 64)%nat.
Proof.
  set (n := String.length h).
  destruct (n =? 64)%nat eqn:E.
  - apply Nat.eqb_eq in E. now rewrite E.
  - apply Nat.eqb_neq in E. apply andb_false_iff.
    destruct (n mod 2 =? 0)%nat eqn:M; [right | now left].
    apply Nat.eqb_eq in M. apply Nat.eqb_neq. intro D.
    pose proof (Nat.div_mod_eq n 2). lia.
Qed.

(** [doWrap], case by case. *)
Lemma doWrap_with_cases (X : Externals) view pub k s :
  let m := WK1Panel.doWrap_with X view pub k s in
  let h := strip_0x (WK1Panel.dekHexIn view) in
  let wa := {| wa_dek := map (fun p => pair_byte (fst p) (snd p)) (pairs h);
               wa_recipientPubKeyHex := pub;
               wa_kid := k;
               wa_aadText := or_undefined (WK1Panel.aadText view) |} in
  if nonempty (WK1Panel.dekHexIn view) && nonempty pub && nonempty k
     && truthy_any (WK1Panel.privHex view) && (String.length h =? 64)%nat
  then
    match wrapDEK_secp256k1 X wa with
    | Throw e =>
        trace_of m = [CallWrap wa]
        /\ WK1Panel.out (state_of m)
           = {| WK1Panel.dekHex := ""; WK1Panel.error := text_or_blank e |}
        /\ WK1Panel.wrappedKey (state_of m) = WK1Panel.wrappedKey s
    | Ok wk =>
        WK1Panel.wrappedKey (state_of m) = JStr wk
        /\ match parseWk1 X (JStr wk) with
           | Throw e =>
               trace_of m = [CallWrap wa]
               /\ WK1Panel.out (state_of m)
                  = {| WK1Panel.dekHex := ""; WK1Panel.error := text_or_blank e |}
           | Ok obj =>
               let ua := {| ua_wrappedKey := JStr wk;
                            ua_recipientPrivKeyHex := WK1Panel.privHex view;
                            ua_aadText := or_undefined (WK1Panel.aadText view) |} in
               trace_of m = [CallWrap wa; CallUnwrap ua]
               /\ WK1Panel.parsed (state_of m) = JSON_stringify X obj
               /\ WK1Panel.out (state_of m)
                  = match unwrapDEK_secp256k1 X ua with
                    | Ok d => {| WK1Panel.dekHex := u8ToHex d; WK1Panel.error := "" |}
                    | Throw e => {| WK1Panel.dekHex := ""; WK1Panel.error := text_or_blank e |}
                    end
           end
    end
  else
    trace_of m = []
    /\ WK1Panel.sdk (state_of m) = "error"
    /\ WK1Panel.dekHex (WK1Panel.out (state_of m)) = ""
    /\ WK1Panel.wrappedKey (state_of m) = WK1Panel.wrappedKey s.
Proof.
  cbv zeta. unfold WK1Panel.doWrap_with.
  rewrite hexToU8_by_pairs.
  unfold abind, try_catch, modify, throw_if, lift, await_wrap, await_unwrap, call,
    ret, throw.
  destruct (nonempty (WK1Panel.dekHexIn view)); cbn [negb andb];
    [|cbn; auto].
  destruct (nonempty pub); cbn [negb andb]; [|cbn; auto].
  destruct (nonempty k); cbn [negb andb]; [|cbn; auto].
  destruct (truthy_any (WK1Panel.privHex view)); cbn [negb andb]; [|cbn; auto].
  rewrite <- key_length_check.
  destruct (String.length (strip_0x (WK1Panel.dekHexIn view)) mod 2 =? 0)%nat;
    cbn [andb]; [|cbn; auto].
  rewrite length_map, pairs_length.
  destruct (String.length (strip_0x (WK1Panel.dekHexIn view)) / 2 =? 32)%nat;
    cbn [negb]; [|cbn; auto].
  unfold text_or_blank.
  destruct (wrapDEK_secp256k1 X _) as [wk|e];
    [|destruct (errText e); cbn; auto].
  destruct (parseWk1 X (JStr wk)) as [obj|e];
    [|destruct (errText e); cbn; auto].
  destruct (unwrapDEK_secp256k1 X _) as [d|e];
    [|destruct (errText e)]; cbn; auto.
Qed.

(** X21.  [doWrap] calls the SDK only when the four fields it needs are
    filled in and the DEK text, without its optional [0x], has exactly 64
    characters, whatever they are: the key it passes has one byte per two
    characters, read as [hexToU8] reads them.  The wrapped key the SDK
    returns is stored before [parseWk1] looks at it, and the unwrap that
    follows is made only if [parseWk1] accepted it.  What a failing step
    threw is shown as the error text, if it has a text. *)
Theorem doWrap_checks_the_key (X : Externals) view act s :
  WK1Panel.doWrap X view = Some act ->
  exists pub k,
    WK1Panel.pubHex view = Plain (JStr pub) /\ WK1Panel.kid view = JStr k
    /\ let m := act s in
       let wa := wk1_wrap_call view pub k in
       if nonempty (WK1Panel.dekHexIn view) && nonempty pub && nonempty k
          && truthy_any (WK1Panel.privHex view)
          && (String.length (strip_0x (WK1Panel.dekHexIn view)) =? 64)%nat
       then
         exists rest,
           trace_of m = CallWrap wa :: rest
           /\ match wrapDEK_secp256k1 X wa with
              | Throw e =>
                  rest = []
                  /\ WK1Panel.wrappedKey (state_of m) = WK1Panel.wrappedKey s
                  /\ WK1Panel.error (WK1Panel.out (state_of m)) = text_or_blank e
              | Ok wk =>
                  WK1Panel.wrappedKey (state_of m) = JStr wk
                  /\ match parseWk1 X (JStr wk) with
                     | Throw e =>
                         rest = []
                         /\ WK1Panel.error (WK1Panel.out (state_of m)) = text_or_blank e
                     | Ok obj =>
                         let ua := {| ua_wrappedKey := JStr wk;
                                      ua_recipientPrivKeyHex := WK1Panel.privHex view;
                                      ua_aadText :=
                                        or_undefined (WK1Panel.aadText view) |} in
                         rest = [CallUnwrap ua]
                         /\ WK1Panel.parsed (state_of m) = JSON_stringify X obj
                         /\ WK1Panel.out (state_of m)
                            = match unwrapDEK_secp256k1 X ua with
                              | Ok d => {| WK1Panel.dekHex := u8ToHex d;
                                           WK1Panel.error := "" |}
                              | Throw e => {| WK1Panel.dekHex := "";
                                              WK1Panel.error := text_or_blank e |}
                              end
                     end
              end
       else
         trace_of m = []
         /\ WK1Panel.sdk (state_of m) = "error"
         /\ WK1Panel.dekHex (WK1Panel.out (state_of m)) = ""
         /\ WK1Panel.wrappedKey (state_of m) = WK1Panel.wrappedKey s.
Proof.
  unfold WK1Panel.doWrap. intro H.
  destruct (WK1Panel.pubHex view) as [[| | | |pub| |]|b]; try discriminate H.
  destruct (WK1Panel.kid view) as [| | | |k| |]; try discriminate H.
  injection H as <-. exists pub, k. split; [reflexivity|]. split; [reflexivity|].
  cbv zeta. pose proof (doWrap_with_cases X view pub k s) as C. cbv zeta in C.
  fold (wk1_wrap_call view pub k) in C.
  destruct (_ && _); [|exact C].
  destruct (wrapDEK_secp256k1 X (wk1_wrap_call view pub k)) as [wk|e].
  - destruct C as [W C]. destruct (parseWk1 X (JStr wk)) as [obj|e].
    + cbv zeta in C. destruct C as (T & P & O). eexists. split; [exact T|].
      repeat split; assumption.
    + destruct C as (T & O). exists []. split; [exact T|].
      rewrite O. repeat split; assumption.
  - destruct C as (T & O & W). exists []. split; [exact T|].
    rewrite O. repeat split; assumption.
Qed.

Lemma doWrap_checks_the_key_witness :
  let X := toy_sdk [] in
  let view := WK1Panel.setDekHexIn
                "zzzzzzzzzzzzzzzzzzzzzzzzzzzzzzzzzzzzzzzzzzzzzzzzzzzzzzzzzzzzzzzz"
                (WK1Panel.setPubHex (Plain (JStr "0x02aa"))
                   (WK1Panel.setPrivHex (Plain (JStr "0xaa")) WK1Panel.initial)) in
  match WK1Panel.doWrap X view with
  | Some act =>
      exists rest,
        trace_of (act view)
        = CallWrap {| wa_dek := repeat x00 32;
                      wa_recipientPubKeyHex := "0x02aa";
                      wa_kid := "did:pkh:eip155:1:0xDEMO_RECIPIENT";
                      wa_aadText := JStr "app:pxp201-ui|v0.1" |} :: rest
  | None => False
  end.
Proof.
  intros X view.
  destruct (WK1Panel.doWrap X view) as [act|] eqn:E; [|discriminate E].
  destruct (doWrap_checks_the_key X view act view E) as (pub & k & P & K & C).
  vm_compute in P, K. injection P as <-. injection K as <-.
  cbv zeta in C.
  replace (_ && _) with true in C by reflexivity.
  destruct C as (rest & T & _). exists rest. exact T.
Defined.

(* ================================================================= *)
(** ** VectorsPanel: replay, export and import *)

Lemma bundle_prepare_trace X view s r :
  outcome_of (VectorsPanel.bundle_prepare X view s) = Ok r ->
  trace_of (VectorsPanel.bundle_prepare X view s)
  = [CallValidate (VectorsPanel.rs_envelope r)]
  /\ validateEnvelope X (VectorsPanel.rs_envelope r) = None
  /\ truthy (VectorsPanel.rs_wrappedKey r) = true
  /\ truthy_any (VectorsPanel.rs_privHex r) = true.
Proof.
  unfold VectorsPanel.bundle_prepare, validate_call, call, throw_if, abind, lift,
    ret, throw, outcome_of, trace_of.
  destruct (parse_bundle X _) as [b|e]; cbn [fst snd app]; [|discriminate].
  destruct (destructure b "raw") as [raw|e]; cbn [fst snd app]; [|discriminate].
  destruct (destructure b "envelope") as [env|e]; cbn [fst snd app]; [|discriminate].
  destruct (negb (truthy (opt_member raw "ciphertextB64url")) || _);
    cbn [fst snd app]; [discriminate|].
  destruct (negb (truthy env)); cbn [fst snd app]; [discriminate|].
  destruct (validateEnvelope X env) eqn:V; cbn [fst snd app]; [discriminate|].
  destruct (negb (truthy (js_or (opt_member b "wrappedKey") (JStr "")))) eqn:W.
  - destruct (recipients_of env) as [| | | | |[|entry rest]|];
      cbn [fst snd app]; try discriminate.
    destruct (negb (truthy (opt_member entry "wrappedKey")));
      cbn [fst snd app]; [discriminate|].
    match goal with |- context [match ?r with Ok _ => _ | Throw _ => _ end] =>
      destruct r as [privHex|e] end; cbn [fst snd app]; [|discriminate].
    destruct (negb (truthy (prop entry "wrappedKey"))) eqn:K;
      cbn [fst snd app]; [discriminate|].
    destruct (negb (truthy_any privHex)) eqn:Q;
      cbn [fst snd app]; [discriminate|].
    intro H. injection H as <-.
    cbn [VectorsPanel.rs_envelope VectorsPanel.rs_wrappedKey VectorsPanel.rs_privHex].
    apply negb_false_iff in K, Q. auto.
  - cbn [fst snd app]. rewrite W. cbn [fst snd app].
    match goal with |- context [negb (truthy_any ?p)] =>
      destruct (negb (truthy_any p)) eqn:Q end; cbn [fst snd app]; [discriminate|].
    intro H. injection H as <-.
    cbn [VectorsPanel.rs_envelope VectorsPanel.rs_wrappedKey VectorsPanel.rs_privHex].
    apply negb_false_iff in W, Q. auto.
Qed.

(** [runFromBundle], case by case. *)
Lemma runFromBundle_steps X view s :
  let s0 := VectorsPanel.setRes None (VectorsPanel.onStatus "running" s) in
  let fail (t : list sdk_call) e :=
    ((t, fst (vectors_caught "bundle" e s0)),
     snd (vectors_caught "bundle" e s0)) in
  VectorsPanel.runFromBundle X view s =
  match outcome_of (VectorsPanel.bundle_prepare X view s) with
  | Throw e => fail (trace_of (VectorsPanel.bundle_prepare X view s)) e
  | Ok r =>
      match unwrapDEK_secp256k1 X (replay_unwrap r) with
      | Throw e =>
          fail [CallValidate (VectorsPanel.rs_envelope r);
                CallUnwrap (replay_unwrap r)] e
      | Ok dek =>
          match decryptTextFromEnvelope X (replay_decrypt r dek) with
          | Throw e =>
              fail [CallValidate (VectorsPanel.rs_envelope r);
                    CallUnwrap (replay_unwrap r);
                    CallDecrypt (replay_decrypt r dek)] e
          | Ok pt =>
              (([CallValidate (VectorsPanel.rs_envelope r);
                 CallUnwrap (replay_unwrap r);
                 CallDecrypt (replay_decrypt r dek)],
                VectorsPanel.onStatus "ok"
                  (VectorsPanel.setRes
                     (Some (JObj
                        [("mode", JStr "bundle");
                         ("ok", JBool true);
                         ("plaintext", JStr pt);
                         ("checks",
                          VectorsPanel.checks_object (replay_hashMatch r)
                            (replay_aadMatch r) true);
                         ("meta",
                          JObj [("rid", VectorsPanel.rs_rid r);
                                ("createdAt",
                                 prop (VectorsPanel.rs_envelope r) "createdAt")])]))
                     s0)), Ok tt)
          end
      end
  end.
Proof.
  intros s0 fail. subst fail. cbv beta.
  destruct (outcome_of (VectorsPanel.bundle_prepare X view s)) as [r|e] eqn:O.
  - pose proof (bundle_prepare_trace X view s r O) as (T & _).
    destruct (bundle_prepare_stateless X view) as (t & r' & E).
    rewrite E in O, T. cbn [outcome_of trace_of fst snd] in O, T. subst t r'.
    unfold VectorsPanel.runFromBundle, abind, try_catch, modify, await_unwrap,
      await_decrypt, call, lift, vectors_caught, failed_res.
    rewrite !E. cbn [fst snd app].
    fold (replay_unwrap r).
    destruct (unwrapDEK_secp256k1 X (replay_unwrap r)) as [dek|e];
      cbn [fst snd app]; [|destruct (errText e); reflexivity].
    fold (replay_decrypt r dek).
    destruct (decryptTextFromEnvelope X (replay_decrypt r dek)) as [pt|e];
      cbn [fst snd app]; [|destruct (errText e)]; reflexivity.
  - rewrite (runFromBundle_fails X view s e O). unfold vectors_caught.
    destruct (errText e); reflexivity.
Qed.

(** X22.  "Run from Bundle JSON" ends in one of two ways.  Either the
    bundle passed the checks, the envelope validated and the unwrap and
    decrypt calls both returned: the SDK was then called three times, in
    that order, the result has [ok: true] and the plaintext, and the
    status is ["ok"]; the hash comparisons are only reported in [checks],
    they do not influence [ok].  Or one step failed, and the calls stop at
    that one: if what it threw has a text, the result has [ok: false], no
    plaintext and that text, and the status is ["error"]; if it has none,
    the [catch] clause itself throws, no result is shown and the status
    stays ["running"]. *)
Theorem runFromBundle_verdict X view s :
  let m := VectorsPanel.runFromBundle X view s in
  let prepared := VectorsPanel.bundle_prepare X view s in
  (exists shown r dek pt,
     VectorsPanel.res (state_of m) = Some shown
     /\ outcome_of m = Ok tt
     /\ prop shown "mode" = JStr "bundle"
     /\ prop shown "ok" = JBool true
     /\ VectorsPanel.sdk (state_of m) = "ok"
     /\ outcome_of prepared = Ok r
     /\ unwrapDEK_secp256k1 X (replay_unwrap r) = Ok dek
     /\ decryptTextFromEnvelope X (replay_decrypt r dek) = Ok pt
     /\ trace_of m = [CallValidate (VectorsPanel.rs_envelope r);
                      CallUnwrap (replay_unwrap r);
                      CallDecrypt (replay_decrypt r dek)]
     /\ prop shown "plaintext" = JStr pt
     /\ prop shown "checks"
        = VectorsPanel.checks_object (replay_hashMatch r)
            (replay_aadMatch r) true)
  \/ (exists e,
        ((outcome_of prepared = Throw e
          /\ trace_of m = trace_of prepared
          /\ forallb is_validate (trace_of m) = true)
         \/ exists r,
              outcome_of prepared = Ok r
              /\ ((unwrapDEK_secp256k1 X (replay_unwrap r) = Throw e
                   /\ trace_of m
                      = [CallValidate (VectorsPanel.rs_envelope r);
                         CallUnwrap (replay_unwrap r)])
                  \/ exists dek,
                       unwrapDEK_secp256k1 X (replay_unwrap r) = Ok dek
                       /\ decryptTextFromEnvelope X (replay_decrypt r dek)
                          = Throw e
                       /\ trace_of m
                          = [CallValidate (VectorsPanel.rs_envelope r);
                             CallUnwrap (replay_unwrap r);
                             CallDecrypt (replay_decrypt r dek)]))
        /\ match errText e with
           | Ok msg =>
               outcome_of m = Ok tt
               /\ VectorsPanel.sdk (state_of m) = "error"
               /\ exists shown,
                    VectorsPanel.res (state_of m) = Some shown
                    /\ prop shown "mode" = JStr "bundle"
                    /\ prop shown "ok" = JBool false
                    /\ prop shown "plaintext" = JUndefined
                    /\ prop shown "error" = JStr msg
           | Throw e' =>
               outcome_of m = Throw e'
               /\ VectorsPanel.sdk (state_of m) = "running"
               /\ VectorsPanel.res (state_of m) = None
           end).
Proof.
  cbv zeta. rewrite (runFromBundle_steps X view s). cbv zeta.
  assert (forall t e,
            let s0 := VectorsPanel.setRes None (VectorsPanel.onStatus "running" s) in
            let m := ((t, fst (vectors_caught "bundle" e s0)),
                      snd (vectors_caught "bundle" e s0)) in
            match errText e with
            | Ok msg =>
                outcome_of m = Ok tt
                /\ VectorsPanel.sdk (state_of m) = "error"
                /\ exists shown,
                     VectorsPanel.res (state_of m) = Some shown
                     /\ prop shown "mode" = JStr "bundle"
                     /\ prop shown "ok" = JBool false
                     /\ prop shown "plaintext" = JUndefined
                     /\ prop shown "error" = JStr msg
            | Throw e' =>
                outcome_of m = Throw e'
                /\ VectorsPanel.sdk (state_of m) = "running"
                /\ VectorsPanel.res (state_of m) = None
            end) as F.
  { intros t e. cbv zeta. unfold vectors_caught, failed_res.
    destruct (errText e); cbn; [|auto].
    split; [reflexivity|]. split; [reflexivity|].
    eexists. split; [reflexivity|]. cbn. auto. }
  cbv zeta in F.
  destruct (outcome_of (VectorsPanel.bundle_prepare X view s)) as [r|e] eqn:O.
  - destruct (unwrapDEK_secp256k1 X (replay_unwrap r)) as [dek|e] eqn:U.
    + destruct (decryptTextFromEnvelope X (replay_decrypt r dek)) as [pt|e] eqn:D.
      * left. eexists. exists r, dek, pt.
        split; [reflexivity|]. repeat split; assumption.
      * right. exists e. split; [|apply F].
        right. exists r. split; [reflexivity|]. right. exists dek. auto.
    + right. exists e. split; [|apply F].
      right. exists r. split; [reflexivity|]. left. auto.
  - right. exists e. split; [|apply F].
    left. split; [reflexivity|]. split; [reflexivity|].
    cbn [trace_of fst]. apply (bundle_prepare_calls X view s).
Qed.

Lemma lookup_obj_delete k fields : lookup k (obj_delete k fields) = JUndefined.
Proof.
  unfold obj_delete. induction fields as [|[k0 v0] r IH]; [reflexivity|].
  cbn [filter fst]. destruct (String.eqb k0 k) eqn:E; cbn [negb]; [exact IH|].
  cbn [lookup]. now rewrite E.
Qed.

Lemma lookup_obj_delete_other k k' fields :
  k' <> k -> lookup k' (obj_delete k fields) = lookup k' fields.
Proof.
  intro N. unfold obj_delete. induction fields as [|[k0 v0] r IH]; [reflexivity|].
  cbn [filter fst]. destruct (String.eqb k0 k) eqn:E; cbn [negb lookup].
  - apply String.eqb_eq in E. subst k0.
    destruct (String.eqb k k') eqn:E'; [|exact IH].
    apply String.eqb_eq in E'. congruence.
  - now rewrite IH.
Qed.

(** [importVectorFile], case by case. *)
Lemma importVectorFile_steps X view text s :
  VectorsPanel.importVectorFile X view text s =
  match bind (JSON_parse X text) VectorsPanel.vectorToBundle with
  | Ok bundle =>
      let s1 :=
        VectorsPanel.setTab "decrypt"
          (VectorsPanel.setBundleInput (JSON_stringify X bundle)
             (VectorsPanel.setToast "Vector imported"
                (VectorsPanel.setImportJson (JSON_stringify X bundle) s))) in
      (([], if VectorsPanel.autoRunAfterImport view then s1
            else VectorsPanel.onStatus "ok" s1), Ok tt)
  | Throw e =>
      (([], fst (vectors_caught "import" e
                   (VectorsPanel.setToast "Import failed" s))),
       snd (vectors_caught "import" e
              (VectorsPanel.setToast "Import failed" s)))
  end.
Proof.
  unfold VectorsPanel.importVectorFile, abind, try_catch, modify, lift, ret,
    vectors_caught, failed_res.
  destruct (JSON_parse X text) as [v|e]; cbn [bind fst snd app];
    [|destruct (errText e); reflexivity].
  destruct (VectorsPanel.vectorToBundle v) as [b|e]; cbn [fst snd app];
    [|destruct (errText e); reflexivity].
  destruct (VectorsPanel.autoRunAfterImport view); reflexivity.
Qed.

Lemma exported_without_key_rejected g :
  exists msg,
    VectorsPanel.vectorToBundle (VectorsPanel.exported_vector g false)
    = Throw (Error msg).
Proof.
  unfold VectorsPanel.exported_vector, VectorsPanel.vectorToBundle.
  cbn [truthy typeof negb orb String.eqb Ascii.eqb Bool.eqb].
  repeat match goal with
         | |- context [if ?c then Throw _ else _] =>
             destruct c eqn:?; [eexists; reflexivity|]
         end.
  exfalso.
  match goal with H : negb (truthy (prop _ "recipientPrivHex")) = false |- _ =>
    cbn [prop] in H; rewrite lookup_obj_delete in H; discriminate H end.
Qed.

(** X23.  A vector exported with "include demo privkey" switched off can
    never be imported again: whatever had been generated, a file holding
    that vector makes [importVectorFile] fail.  It then shows "Import
    failed" and an error result, sets the status to ["error"], and leaves
    the bundle text and the tab as they were; it makes no SDK call. *)
Theorem vector_without_key_is_not_importable X view g text s :
  JSON_parse X text = Ok (VectorsPanel.exported_vector g false) ->
  let m := VectorsPanel.importVectorFile X view text s in
  trace_of m = []
  /\ VectorsPanel.toast (state_of m) = "Import failed"
  /\ VectorsPanel.sdk (state_of m) = "error"
  /\ VectorsPanel.bundleInput (state_of m) = VectorsPanel.bundleInput s
  /\ VectorsPanel.tab (state_of m) = VectorsPanel.tab s
  /\ exists msg,
       VectorsPanel.vectorToBundle (VectorsPanel.exported_vector g false)
       = Throw (Error msg)
       /\ VectorsPanel.res (state_of m)
          = Some (JObj [("mode", JStr "import"); ("ok", JBool false);
                        ("error", JStr msg)]).
Proof.
  intros P m. subst m. rewrite importVectorFile_steps, P. cbn [bind].
  destruct (exported_without_key_rejected g) as (msg & E). rewrite E.
  unfold vectors_caught, errText, Error.
  cbn [trace_of state_of fst snd VectorsPanel.toast VectorsPanel.sdk
       VectorsPanel.bundleInput VectorsPanel.tab VectorsPanel.res
       VectorsPanel.onStatus VectorsPanel.setRes VectorsPanel.setToast].
  repeat split. exists msg. split; [reflexivity|].
  unfold failed_res.
  destruct (String.eqb msg "") eqn:Q; [|reflexivity].
  exfalso. apply String.eqb_eq in Q. subst msg.
  revert E. unfold VectorsPanel.vectorToBundle.
  repeat match goal with
         | |- context [if ?c then Throw _ else _] => destruct c
         end; discriminate.
Qed.

Lemma vector_without_key_is_not_importable_witness :
  let X := toy_sdk [demo_vector false] in
  let m := VectorsPanel.importVectorFile X demo_generated
             (to_json (demo_vector false)) demo_generated in
  VectorsPanel.toast (state_of m) = "Import failed"
  /\ VectorsPanel.res (state_of m)
     = Some (JObj [("mode", JStr "import"); ("ok", JBool false);
                   ("error", JStr "Vector missing recipientPrivHex. Re-export with 'include demo privkey' enabled.")]).
Proof.
  intros X m.
  assert (P : JSON_parse X (to_json (demo_vector false))
              = Ok (VectorsPanel.exported_vector
                      (generated_vector (toy_sdk []) VectorsPanel.initial
                         {| raw_dek := [x64; x65; x6b];
                            raw_ciphertextB64url := VectorsPanel.plaintextIn;
                            raw_nonceB64url := "bm9uY2U";
                            raw_ciphertextHash := "0xc1";
                            raw_aadHash := Some "0xaa" |} "dek") false))
    by (vm_compute; reflexivity).
  destruct (vector_without_key_is_not_importable X demo_generated _ _
              demo_generated P) as (_ & T & _ & _ & _ & msg & E & R).
  split; [exact T|]. etransitivity; [exact R|].
  vm_compute in E. injection E as <-. reflexivity.
Defined.

(** [runGenerate] when every call returns. *)
Lemma runGenerate_ok X s :
  let m := VectorsPanel.runGenerate X s in
  VectorsPanel.sdk (state_of m) = "ok" ->
  exists raw wk dek pt,
    encryptTextRaw X generate_encrypt = Ok raw
    /\ wrapDEK_secp256k1 X (generate_wrap X s raw) = Ok wk
    /\ validateEnvelope X (generate_env X raw wk) = None
    /\ unwrapDEK_secp256k1 X (generate_unwrap X s wk) = Ok dek
    /\ decryptTextFromEnvelope X (generate_decrypt X raw wk dek) = Ok pt
    /\ trace_of m = [CallEncrypt generate_encrypt;
                     CallWrap (generate_wrap X s raw);
                     CallValidate (generate_env X raw wk);
                     CallUnwrap (generate_unwrap X s wk);
                     CallDecrypt (generate_decrypt X raw wk dek)]
    /\ exists ok checks,
         VectorsPanel.res (state_of m)
         = Some (JObj [("mode", JStr "generate");
                       ("ok", JBool ok);
                       ("plaintext", JStr pt);
                       ("checks", checks);
                       ("generated", generated_vector X s raw wk)]).
Proof.
  cbv zeta.
  unfold VectorsPanel.runGenerate, abind, try_catch, modify, get_state,
    await_encrypt, await_wrap, await_unwrap, await_decrypt, validate_call,
    call, ret, lift, state_of, trace_of.
  cbn [VectorsPanel.draws VectorsPanel.onStatus VectorsPanel.setRes
       VectorsPanel.drew fst snd app].
  fold generate_encrypt.
  destruct (encryptTextRaw X generate_encrypt) as [raw|e] eqn:E1;
    cbn [fst snd app VectorsPanel.sdk VectorsPanel.onStatus];
    [|destruct (errText e); discriminate].
  fold (generate_pub X s). fold (generate_wrap X s raw).
  destruct (wrapDEK_secp256k1 X (generate_wrap X s raw)) as [wk|e] eqn:E2;
    cbn [fst snd app VectorsPanel.sdk VectorsPanel.onStatus];
    [|destruct (errText e); discriminate].
  fold (generate_env X raw wk).
  destruct (validateEnvelope X (generate_env X raw wk)) as [e|] eqn:V;
    cbn [fst snd app VectorsPanel.sdk VectorsPanel.onStatus];
    [destruct (errText e); discriminate|].
  fold (generate_priv X s). fold (generate_unwrap X s wk).
  destruct (unwrapDEK_secp256k1 X (generate_unwrap X s wk)) as [dek|e] eqn:E3;
    cbn [fst snd app VectorsPanel.sdk VectorsPanel.onStatus];
    [|destruct (errText e); discriminate].
  fold (generate_decrypt X raw wk dek).
  destruct (decryptTextFromEnvelope X (generate_decrypt X raw wk dek))
    as [pt|e] eqn:E4;
    cbn [fst snd app VectorsPanel.sdk VectorsPanel.onStatus];
    [|destruct (errText e); discriminate].
  intros _. exists raw, wk, dek, pt.
  repeat (split; [first [reflexivity | assumption]|]).
  cbn [VectorsPanel.res VectorsPanel.onStatus VectorsPanel.setRes].
  eexists. eexists. reflexivity.
Qed.

(** The bundle [vectorToBundle] makes of a generated vector. *)
Lemma vectorToBundle_generated X s raw wk bundle :
  VectorsPanel.vectorToBundle (generated_vector X s raw wk) = Ok bundle ->
  nonempty (raw_ciphertextB64url raw) = true
  /\ nonempty (raw_nonceB64url raw) = true
  /\ nonempty wk = true
  /\ bundle
     = JObj [("aadText", JStr VectorsPanel.vectors_aadText);
             ("raw", JObj (raw_fields raw));
             ("envelope", generate_env X raw wk);
             ("wrappedKey", JStr wk);
             ("recipient", JObj [("rid", JStr VectorsPanel.vectors_rid);
                                 ("recipientPubHex", JStr (generate_pub X s));
                                 ("recipientPrivHex", JStr (generate_priv X s))])].
Proof.
  unfold VectorsPanel.vectorToBundle, generated_vector.
  cbn [truthy typeof negb orb prop lookup opt_member is_nullish app
       String.eqb Ascii.eqb Bool.eqb].
  fold (nonempty (raw_ciphertextB64url raw)). fold (nonempty (raw_nonceB64url raw)).
  fold (nonempty wk). fold (nonempty (generate_priv X s)).
  destruct (nonempty (raw_ciphertextB64url raw)); cbn [negb orb]; [|discriminate].
  destruct (nonempty (raw_nonceB64url raw)); cbn [negb orb]; [|discriminate].
  replace (truthy (generate_env X raw wk)) with true by reflexivity. cbn [negb].
  destruct (nonempty wk); cbn [negb]; [|discriminate].
  unfold generate_priv at 1. rewrite u8ToHex_nonempty. cbn [negb].
  intro H. injection H as <-. repeat (split; [reflexivity|]).
  f_equal. f_equal. f_equal. f_equal.
  unfold raw_fields, aadHash_field.
  destruct (raw_aadHash raw) as [h|]; [|reflexivity].
  destruct (String.eqb h "") eqn:E; [reflexivity|].
  cbn [app prop lookup truthy String.eqb Ascii.eqb Bool.eqb]. now rewrite E.
Qed.

Lemma js_or_string t d : nonempty t = true -> js_or (JStr t) d = JStr t.
Proof. intro N. unfold js_or. cbn [truthy]. fold (nonempty t). now rewrite N. Qed.

(** What [runFromBundle] resolves from a bundle in the single-recipient
    ("legacy") layout [vectorToBundle] produces. *)
Lemma bundle_prepare_legacy X view s aad rawf env wk rid pub priv :
  parse_bundle X (VectorsPanel.bundleInput view)
  = Ok (JObj [("aadText", JStr aad);
              ("raw", JObj rawf);
              ("envelope", env);
              ("wrappedKey", JStr wk);
              ("recipient", JObj [("rid", JStr rid);
                                  ("recipientPubHex", JStr pub);
                                  ("recipientPrivHex", JStr priv)])]) ->
  truthy (lookup "ciphertextB64url" rawf) = true ->
  truthy (lookup "nonceB64url" rawf) = true ->
  truthy env = true ->
  validateEnvelope X env = None ->
  nonempty wk = true -> nonempty priv = true -> nonempty rid = true ->
  outcome_of (VectorsPanel.bundle_prepare X view s)
  = Ok {| VectorsPanel.rs_raw := JObj rawf;
          VectorsPanel.rs_envelope := env;
          VectorsPanel.rs_aadText := aad;
          VectorsPanel.rs_wrappedKey := JStr wk;
          VectorsPanel.rs_privHex := JStr priv;
          VectorsPanel.rs_rid := JStr rid |}.
Proof.
  intros P C N E V W K R.
  unfold VectorsPanel.bundle_prepare. rewrite P.
  unfold validate_call, call, throw_if, abind, lift, ret, throw, outcome_of.
  cbn [destructure is_nullish prop lookup opt_member String.eqb Ascii.eqb
       Bool.eqb fst snd app].
  rewrite C, N, E, V.
  cbn [negb orb fst snd app].
  rewrite !(js_or_string wk), !(js_or_string priv), !(js_or_string rid)
    by assumption.
  unfold nonempty in W, K.
  do 3 (cbn [negb fst snd app truthy truthy_any]; rewrite ?W, ?K).
  reflexivity.
Qed.

(** The self-test, the export with the private key and the import, taken
    together. *)
Lemma import_of_generated X s shown text bundle :
  let gen := VectorsPanel.runGenerate X s in
  let s1 := VectorsPanel.setIncludePriv true (state_of gen) in
  VectorsPanel.sdk s1 = "ok" ->
  VectorsPanel.res s1 = Some shown ->
  let v := VectorsPanel.exported_vector (prop shown "generated") true in
  JSON_parse X text = Ok v ->
  VectorsPanel.vectorToBundle v = Ok bundle ->
  let s2 := state_of (VectorsPanel.importVectorFile X s1 text s1) in
  exists raw wk dek pt,
    validateEnvelope X (generate_env X raw wk) = None
    /\ unwrapDEK_secp256k1 X (generate_unwrap X s wk) = Ok dek
    /\ decryptTextFromEnvelope X (generate_decrypt X raw wk dek) = Ok pt
    /\ trace_of gen = [CallEncrypt generate_encrypt;
                       CallWrap (generate_wrap X s raw);
                       CallValidate (generate_env X raw wk);
                       CallUnwrap (generate_unwrap X s wk);
                       CallDecrypt (generate_decrypt X raw wk dek)]
    /\ prop shown "plaintext" = JStr pt
    /\ v = prop shown "generated"
    /\ outcome_of (VectorsPanel.downloadVector X s1 s1)
       = Ok (Some ("pxp201-vector.json", JSON_stringify X v))
    /\ nonempty (raw_ciphertextB64url raw) = true
    /\ nonempty (raw_nonceB64url raw) = true
    /\ nonempty wk = true
    /\ bundle
       = JObj [("aadText", JStr VectorsPanel.vectors_aadText);
               ("raw", JObj (raw_fields raw));
               ("envelope", generate_env X raw wk);
               ("wrappedKey", JStr wk);
               ("recipient", JObj [("rid", JStr VectorsPanel.vectors_rid);
                                   ("recipientPubHex", JStr (generate_pub X s));
                                   ("recipientPrivHex", JStr (generate_priv X s))])]
    /\ VectorsPanel.bundleInput s2 = JSON_stringify X bundle
    /\ VectorsPanel.tab s2 = "decrypt".
Proof.
  intros gen s1 OK HR v HP HB s2.
  destruct (runGenerate_ok X s OK) as
    (raw & wk & dek & pt & _ & _ & V & U & D & T & ok & checks & R).
  fold gen in T, R.
  assert (Sh : shown = JObj [("mode", JStr "generate"); ("ok", JBool ok);
                             ("plaintext", JStr pt); ("checks", checks);
                             ("generated", generated_vector X s raw wk)]).
  { unfold s1 in HR. cbn [VectorsPanel.res VectorsPanel.setIncludePriv] in HR.
    rewrite R in HR. now injection HR as <-. }
  assert (G : prop shown "generated" = generated_vector X s raw wk)
    by (rewrite Sh; reflexivity).
  assert (Ev : v = generated_vector X s raw wk)
    by (unfold v; rewrite G; reflexivity).
  rewrite Ev in HB.
  destruct (vectorToBundle_generated X s raw wk bundle HB) as (Nc & Nn & Nw & B).
  exists raw, wk, dek, pt.
  split; [exact V|]. split; [exact U|]. split; [exact D|]. split; [exact T|].
  split; [now rewrite Sh|]. split; [now rewrite Ev, G|]. split.
  { unfold VectorsPanel.downloadVector, s1.
    cbn [VectorsPanel.res VectorsPanel.setIncludePriv VectorsPanel.includePriv].
    rewrite R. fold s1. unfold v. rewrite Sh. reflexivity. }
  split; [exact Nc|]. split; [exact Nn|]. split; [exact Nw|].
  split; [exact B|].
  unfold s2. rewrite importVectorFile_steps, HP, Ev. cbn [bind]. rewrite HB.
  cbv zeta. now destruct (VectorsPanel.autoRunAfterImport s1).
Qed.

Lemma generated_checks X raw wk :
  let r := {| VectorsPanel.rs_raw := JObj (raw_fields raw);
              VectorsPanel.rs_envelope := generate_env X raw wk;
              VectorsPanel.rs_aadText := VectorsPanel.vectors_aadText;
              VectorsPanel.rs_wrappedKey := JStr wk;
              VectorsPanel.rs_privHex := JStr "";
              VectorsPanel.rs_rid := JNull |} in
  replay_hashMatch r = true /\ replay_aadMatch r = true.
Proof.
  cbv zeta. split.
  - unfold replay_hashMatch.
    cbn [VectorsPanel.rs_raw VectorsPanel.rs_envelope].
    unfold generate_env. rewrite envelope_ciphertextHash. unfold raw_fields.
    cbn [prop lookup app String.eqb Ascii.eqb Bool.eqb strict_eq].
    apply String.eqb_refl.
  - unfold replay_aadMatch, generate_env, raw_fields, build_envelope, aadHash_field.
    cbn [VectorsPanel.rs_raw VectorsPanel.rs_envelope prop lookup app
         String.eqb Ascii.eqb Bool.eqb].
    destruct (raw_aadHash raw) as [h|]; [|reflexivity].
    destruct (String.eqb h "") eqn:E; cbn; [reflexivity|].
    rewrite E. cbn. apply String.eqb_refl.
Qed.

(** X24.  From the self-test to a replay.  After a self-test in which
    every SDK call returned, the vector downloaded with "include demo
    privkey" switched on is the generated one; if its ciphertext, nonce
    and wrapped key are not empty (so that [vectorToBundle] accepts it)
    and the file and the bundle text parse back to what was written,
    importing it puts the bundle into the bundle field and opens the
    Decrypt tab, and "Run from Bundle JSON" on that bundle text then
    repeats exactly the validate, unwrap and decrypt calls of the
    self-test and reports [ok: true] with the same plaintext and all
    checks true. *)
Theorem generated_vector_replays X s shown text bundle vv vs :
  let gen := VectorsPanel.runGenerate X s in
  let s1 := VectorsPanel.setIncludePriv true (state_of gen) in
  VectorsPanel.sdk s1 = "ok" ->
  VectorsPanel.res s1 = Some shown ->
  let v := VectorsPanel.exported_vector (prop shown "generated") true in
  JSON_parse X text = Ok v ->
  VectorsPanel.vectorToBundle v = Ok bundle ->
  parse_bundle X (JSON_stringify X bundle) = Ok bundle ->
  let s2 := state_of (VectorsPanel.importVectorFile X s1 text s1) in
  VectorsPanel.bundleInput vv = VectorsPanel.bundleInput s2 ->
  let replay := VectorsPanel.runFromBundle X vv vs in
  outcome_of (VectorsPanel.downloadVector X s1 s1)
  = Ok (Some ("pxp201-vector.json", JSON_stringify X v))
  /\ v = prop shown "generated"
  /\ VectorsPanel.bundleInput s2 = JSON_stringify X bundle
  /\ VectorsPanel.tab s2 = "decrypt"
  /\ (exists e w, trace_of gen = [CallEncrypt e; CallWrap w] ++ trace_of replay)%list
  /\ exists replayed,
       VectorsPanel.res (state_of replay) = Some replayed
       /\ prop replayed "ok" = JBool true
       /\ prop replayed "plaintext" = prop shown "plaintext"
       /\ prop replayed "checks" = VectorsPanel.checks_object true true true
       /\ VectorsPanel.sdk (state_of replay) = "ok".
Proof.
  intros gen s1 OK HR v HP HB HJ s2 Same replay.
  destruct (import_of_generated X s shown text bundle OK HR HP HB)
    as (raw & wk & dek & pt & V & U & D & T & Pl & Ev & Dl & Nc & Nn & Nw & B
        & BI & TB).
  fold gen in T. fold s1 in Dl, BI, TB. fold v in Ev, Dl. fold s2 in BI, TB.
  assert (P2 : parse_bundle X (VectorsPanel.bundleInput vv) = Ok bundle)
    by (rewrite Same; etransitivity; [apply f_equal; exact BI | exact HJ]).
  rewrite B in P2.
  assert (Prep :
    outcome_of (VectorsPanel.bundle_prepare X vv vs)
    = Ok {| VectorsPanel.rs_raw := JObj (raw_fields raw);
            VectorsPanel.rs_envelope := generate_env X raw wk;
            VectorsPanel.rs_aadText := VectorsPanel.vectors_aadText;
            VectorsPanel.rs_wrappedKey := JStr wk;
            VectorsPanel.rs_privHex := JStr (generate_priv X s);
            VectorsPanel.rs_rid := JStr VectorsPanel.vectors_rid |}).
  { apply (bundle_prepare_legacy X vv vs _ _ _ _ _ _ _ P2);
      try assumption; reflexivity. }
  pose proof (runFromBundle_steps X vv vs) as Run. cbv zeta in Run.
  fold replay in Run. rewrite Prep in Run.
  change (replay_unwrap _) with (generate_unwrap X s wk) in Run. rewrite U in Run.
  change (replay_decrypt _ dek) with (generate_decrypt X raw wk dek) in Run.
  rewrite D in Run.
  split; [exact Dl|]. split; [exact Ev|]. split; [exact BI|]. split; [exact TB|].
  split.
  - do 2 eexists. rewrite T, Run. reflexivity.
  - rewrite Run. eexists. split; [reflexivity|].
    split; [reflexivity|]. split; [now rewrite Pl|]. split; [|reflexivity].
    cbn [prop lookup String.eqb Ascii.eqb Bool.eqb].
    destruct (generated_checks X raw wk) as [H A]. cbv zeta in H, A.
    f_equal; [exact H | exact A].
Qed.

Lemma generated_vector_replays_witness :
  let X := toy_sdk [demo_vector true; demo_replay_bundle] in
  let s1 := VectorsPanel.setIncludePriv true
              (state_of (VectorsPanel.runGenerate X VectorsPanel.initial)) in
  let s2 := state_of (VectorsPanel.importVectorFile X s1
                        (to_json (demo_vector true)) s1) in
  let vv := vectors_view (VectorsPanel.bundleInput s2) in
  VectorsPanel.bundleInput s2 = to_json demo_replay_bundle
  /\ exists replayed,
       VectorsPanel.res (state_of (VectorsPanel.runFromBundle X vv vv))
       = Some replayed
       /\ prop replayed "ok" = JBool true
       /\ prop replayed "plaintext" = JStr VectorsPanel.plaintextIn.
Proof.
  intros X s1 s2 vv.
  assert (OK : VectorsPanel.sdk s1 = "ok") by reflexivity.
  assert (HR : VectorsPanel.res s1 = Some demo_shown) by reflexivity.
  assert (HP : JSON_parse X (to_json (demo_vector true))
               = Ok (VectorsPanel.exported_vector (prop demo_shown "generated") true))
    by (vm_compute; reflexivity).
  assert (HB : VectorsPanel.vectorToBundle
                 (VectorsPanel.exported_vector (prop demo_shown "generated") true)
               = Ok demo_replay_bundle) by reflexivity.
  assert (HJ : parse_bundle X (JSON_stringify X demo_replay_bundle)
               = Ok demo_replay_bundle) by (vm_compute; reflexivity).
  destruct (generated_vector_replays X VectorsPanel.initial demo_shown
              (to_json (demo_vector true)) demo_replay_bundle vv vv
              OK HR HP HB HJ eq_refl)
    as (_ & _ & BI & _ & _ & replayed & R & O & P & _).
  split; [exact BI|]. exists replayed. split; [exact R|]. split; [exact O|].
  etransitivity; [exact P|]. reflexivity.
Defined.

(** What the Decrypt tab's [run] prepares from a bundle in the layout
    [vectorToBundle] produces. *)
Lemma run_prepare_on_legacy (X : Externals) view s aad raw rid wk priv pub :
  let env := build_envelope X raw [(rid, wk)] in
  let used := if nonempty aad then aad else DecryptPanel.aadOverride view in
  parse_bundle X (DecryptPanel.bundleInput view)
  = Ok (JObj [("aadText", JStr aad);
              ("raw", JObj (raw_fields raw));
              ("envelope", env);
              ("wrappedKey", JStr wk);
              ("recipient", JObj [("rid", JStr rid);
                                  ("recipientPubHex", JStr pub);
                                  ("recipientPrivHex", JStr priv)])]) ->
  validateEnvelope X env = None ->
  nonempty (raw_ciphertextB64url raw) = true ->
  nonempty (raw_nonceB64url raw) = true ->
  nonempty rid = true -> nonempty wk = true -> nonempty priv = true ->
  DecryptPanel.run_prepare X view s
  = (([CallValidate env], s),
     Ok ({| ua_wrappedKey := JStr wk;
            ua_recipientPrivKeyHex := JStr priv;
            ua_aadText := or_undefined used |},
         {| DecryptPanel.ctx_raw := JObj (raw_fields raw);
            DecryptPanel.ctx_envelope := env;
            DecryptPanel.ctx_entry := envelope_entry (rid, wk);
            DecryptPanel.ctx_aadText := used |})).
Proof.
  intros env used P V Nc Nn Nr Nw Np.
  unfold DecryptPanel.run_prepare. rewrite P.
  cbn [lift abind destructure is_nullish prop lookup String.eqb Ascii.eqb Bool.eqb].
  unfold raw_fields at 1 2.
  cbn [opt_member is_nullish prop lookup app String.eqb Ascii.eqb Bool.eqb truthy].
  fold (nonempty (raw_ciphertextB64url raw)). fold (nonempty (raw_nonceB64url raw)).
  rewrite Nc, Nn.
  cbn [negb orb throw_if ret abind app].
  replace (truthy env) with true by reflexivity.
  cbn [negb orb throw_if ret abind app].
  unfold validate_call, call. rewrite V.
  cbn [abind app lift].
  rewrite (resolve_single_entry X raw rid wk _ Nr Nw).
  cbn [abind app lift typeof truthy andb
       envelope_entry opt_member is_nullish prop lookup String.eqb Ascii.eqb Bool.eqb].
  cbn [as_object].
  assert (J : any_or (any_or (Plain (JStr "")) (Plain (JStr priv)))
                (Plain (JStr ""))
              = Plain (JStr priv)).
  { unfold any_or. cbn [truthy_any truthy String.eqb negb].
    fold (nonempty priv). now rewrite Np. }
  rewrite J. cbn [truthy_any truthy]. fold (nonempty priv). rewrite Np.
  cbn [negb throw_if ret abind app fst snd].
  fold (nonempty aad). fold used. fold (envelope_entry (rid, wk)).
  reflexivity.
Qed.

(** X25.  From the self-test to the Decrypt tab.  After a self-test in
    which every SDK call returned, let the vector downloaded with the
    private key be imported, accepted by [vectorToBundle], and let the
    file and the bundle text parse back to what was written.  The Decrypt
    tab, which the import opens and which reads the same bundle text,
    then decrypts the imported vector: [run] repeats the validate, unwrap
    and decrypt calls of the self-test, whatever its own AAD field and
    recipient selection hold, and ends with [ok], the self-test's
    plaintext and status ["ok"]. *)
Theorem imported_vector_decrypts X s shown text bundle dv ds :
  let gen := VectorsPanel.runGenerate X s in
  let s1 := VectorsPanel.setIncludePriv true (state_of gen) in
  VectorsPanel.sdk s1 = "ok" ->
  VectorsPanel.res s1 = Some shown ->
  let v := VectorsPanel.exported_vector (prop shown "generated") true in
  JSON_parse X text = Ok v ->
  VectorsPanel.vectorToBundle v = Ok bundle ->
  parse_bundle X (JSON_stringify X bundle) = Ok bundle ->
  let s2 := state_of (VectorsPanel.importVectorFile X s1 text s1) in
  DecryptPanel.bundleInput dv = VectorsPanel.bundleInput s2 ->
  let m := DecryptPanel.run X dv ds in
  (exists e w, trace_of gen = [CallEncrypt e; CallWrap w] ++ trace_of m)%list
  /\ DecryptPanel.ok (DecryptPanel.out (state_of m)) = true
  /\ JStr (DecryptPanel.plaintext (DecryptPanel.out (state_of m)))
     = prop shown "plaintext"
  /\ DecryptPanel.sdk (state_of m) = "ok".
Proof.
  intros gen s1 OK HR v HP HB HJ s2 Same m.
  destruct (import_of_generated X s shown text bundle OK HR HP HB)
    as (raw & wk & dek & pt & V & U & D & T & Pl & _ & _ & Nc & Nn & Nw & B
        & BI & _).
  fold gen in T. fold s1 in BI. fold s2 in BI.
  assert (P2 : parse_bundle X (DecryptPanel.bundleInput dv) = Ok bundle)
    by (rewrite Same; etransitivity; [apply f_equal; exact BI | exact HJ]).
  rewrite B in P2.
  pose proof (run_prepare_on_legacy X dv ds _ raw _ _ _ _ P2 V Nc Nn
                eq_refl Nw (u8ToHex_nonempty _)) as RP.
  cbv zeta in RP.
  change (or_undefined _) with (JStr VectorsPanel.vectors_aadText) in RP.
  destruct (run_success X dv ds _ _ dek pt (f_equal snd RP)) as (Out & St & Tr).
  - exact U.
  - exact D.
  - fold m in Out, St, Tr. split; [|split; [|split]].
    + do 2 eexists. rewrite T, Tr, RP. reflexivity.
    + now rewrite Out.
    + now rewrite Out, Pl.
    + exact St.
Qed.

Lemma imported_vector_decrypts_witness :
  let X := toy_sdk [demo_vector true; demo_replay_bundle] in
  let s1 := VectorsPanel.setIncludePriv true
              (state_of (VectorsPanel.runGenerate X VectorsPanel.initial)) in
  let s2 := state_of (VectorsPanel.importVectorFile X s1
                        (to_json (demo_vector true)) s1) in
  let dv := decrypt_view (VectorsPanel.bundleInput s2) in
  DecryptPanel.plaintext (DecryptPanel.out (state_of (DecryptPanel.run X dv dv)))
  = VectorsPanel.plaintextIn.
Proof.
  intros X s1 s2 dv.
  assert (OK : VectorsPanel.sdk s1 = "ok") by reflexivity.
  assert (HR : VectorsPanel.res s1 = Some demo_shown) by reflexivity.
  assert (HP : JSON_parse X (to_json (demo_vector true))
               = Ok (VectorsPanel.exported_vector (prop demo_shown "generated") true))
    by (vm_compute; reflexivity).
  assert (HB : VectorsPanel.vectorToBundle
                 (VectorsPanel.exported_vector (prop demo_shown "generated") true)
               = Ok demo_replay_bundle) by reflexivity.
  assert (HJ : parse_bundle X (JSON_stringify X demo_replay_bundle)
               = Ok demo_replay_bundle) by (vm_compute; reflexivity).
  destruct (imported_vector_decrypts X VectorsPanel.initial demo_shown
              (to_json (demo_vector true)) demo_replay_bundle dv dv
              OK HR HP HB HJ eq_refl)
    as (_ & _ & P & _).
  assert (Q : prop demo_shown "plaintext" = JStr VectorsPanel.plaintextIn)
    by reflexivity.
  rewrite Q in P.
  exact (f_equal (fun j => match j with JStr t => t | _ => "" end) P).
Defined.

(** What [runFromBundle] resolves from a bundle the Encrypt panel built
    for one recipient. *)
Lemma bundle_prepare_on_payload (X : Externals) view s aad raw rid wk priv pub :
  let env := build_envelope X raw [(rid, wk)] in
  parse_bundle X (VectorsPanel.bundleInput view)
  = Ok (JObj [("aadText", JStr aad);
              ("raw", JObj (raw_fields raw));
              ("envelope", env);
              ("recipientPrivHexByRid", fromEntries [(rid, JStr priv)]);
              ("recipientPubHexByRid", fromEntries [(rid, JStr pub)])]) ->
  validateEnvelope X env = None ->
  nonempty (raw_ciphertextB64url raw) = true ->
  nonempty (raw_nonceB64url raw) = true ->
  nonempty rid = true -> nonempty wk = true -> nonempty priv = true ->
  outcome_of (VectorsPanel.bundle_prepare X view s)
  = Ok {| VectorsPanel.rs_raw := JObj (raw_fields raw);
          VectorsPanel.rs_envelope := env;
          VectorsPanel.rs_aadText := aad;
          VectorsPanel.rs_wrappedKey := JStr wk;
          VectorsPanel.rs_privHex := JStr priv;
          VectorsPanel.rs_rid := JStr rid |}.
Proof.
  intros env P V Nc Nn Nr Nw Np.
  unfold VectorsPanel.bundle_prepare. rewrite P.
  unfold validate_call, call, throw_if, abind, lift, ret, throw, outcome_of.
  cbn [destructure is_nullish prop lookup String.eqb Ascii.eqb Bool.eqb
       fst snd app].
  unfold raw_fields at 1 2.
  cbn [opt_member is_nullish prop lookup app String.eqb Ascii.eqb Bool.eqb truthy].
  fold (nonempty (raw_ciphertextB64url raw)). fold (nonempty (raw_nonceB64url raw)).
  rewrite Nc, Nn. replace (truthy env) with true by reflexivity. rewrite V.
  cbn [negb orb fst snd app].
  replace (js_or JUndefined (JStr "")) with (JStr "") by reflexivity.
  cbn [truthy String.eqb negb fst snd app].
  replace (recipients_of env) with (JArr [envelope_entry (rid, wk)]) by reflexivity.
  unfold envelope_entry.
  cbn [opt_member is_nullish prop lookup String.eqb Ascii.eqb Bool.eqb
       fst snd app].
  unfold index_by, fromEntries.
  cbn [js_to_string as_object bind fold_left obj_set fst snd].
  unfold get_member, has_key. cbn [existsb fst snd lookup].
  rewrite String.eqb_refl. cbn [orb bind].
  rewrite ?(js_or_string wk), ?(js_or_string rid) by assumption.
  assert (J : any_or (Plain (JStr priv)) (Plain (JStr "")) = Plain (JStr priv)).
  { unfold any_or. cbn [truthy_any truthy]. fold (nonempty priv).
    now rewrite Np. }
  rewrite J.
  unfold nonempty in Nw, Np.
  do 3 (cbn [negb fst snd app truthy truthy_any]; rewrite ?Nw, ?Np).
  reflexivity.
Qed.

(** X26.  From the Encrypt tab to "Run from Bundle JSON", for one
    recipient.  After a run that stored its outputs, the bundle the
    Encrypt tab downloads, parsed back to what was written, makes
    [runFromBundle] validate the same envelope and then repeat the unwrap
    call of the Encrypt tab's sanity check: the same wrapped key, the
    recipient's private key and the form's AAD.  If that sanity check had
    passed, the replay reports [ok: true], the text the sanity check
    showed, and all checks true. *)
Theorem replay_reads_downloaded_bundle (X : Externals) s r0 raw env vv vs :
  EncryptPanel.recipients s = [r0] ->
  EncryptPanel.rid r0 <> "" ->
  let s1 := state_of (EncryptPanel.runEncrypt X s s) in
  EncryptPanel.rawOut s1 = Some raw ->
  EncryptPanel.envelope s1 = Some env ->
  EncryptPanel.wrappedKey s1 <> "" ->
  raw_ciphertextB64url raw <> "" ->
  raw_nonceB64url raw <> "" ->
  parse_bundle X (VectorsPanel.bundleInput vv)
  = Ok (EncryptPanel.bundle_payload s1 raw env (EncryptPanel.recipients s1)) ->
  let m := VectorsPanel.runFromBundle X vv vs in
  exists r,
    EncryptPanel.recipients s1 = [r]
    /\ (exists more,
          trace_of m
          = CallValidate env
            :: CallUnwrap (sanity_unwrap s r (EncryptPanel.wrappedKey s1))
            :: more)
    /\ (EncryptPanel.sdk s1 = "ok" ->
        exists replayed,
          VectorsPanel.res (state_of m) = Some replayed
          /\ prop replayed "ok" = JBool true
          /\ prop replayed "plaintext" = JStr (EncryptPanel.decryptCheck s1)
          /\ prop replayed "checks" = VectorsPanel.checks_object true true true
          /\ VectorsPanel.sdk (state_of m) = "ok").
Proof.
  intros V Nrid s1 HR HE HW Nc Nn P m.
  destruct (runEncrypt_single X s r0 raw env V HR HE HW)
    as (r & (Er & Ek & _) & R & A & Eenv & Val & Sane).
  fold s1 in R, A, Eenv, Sane.
  assert (Np : nonempty (EncryptPanel.recipientPrivHex r) = true)
    by now apply has_keys_priv.
  assert (Nr : nonempty (EncryptPanel.rid r) = true)
    by (rewrite Er; now apply nonempty_neq).
  pose proof (nonempty_neq _ HW) as Nw.
  pose proof (nonempty_neq _ Nc) as Nc'. pose proof (nonempty_neq _ Nn) as Nn'.
  rewrite R in P. unfold EncryptPanel.bundle_payload in P. cbn [map] in P.
  rewrite A in P. rewrite Eenv in P, Val.
  pose proof (bundle_prepare_on_payload X vv vs _ raw _ _ _ _ P Val Nc' Nn' Nr Nw Np)
    as Prep.
  cbv zeta in Prep. rewrite <- Eenv in Prep.
  pose proof (runFromBundle_steps X vv vs) as Run. cbv zeta in Run.
  fold m in Run. rewrite Prep in Run.
  change (replay_unwrap _)
    with (sanity_unwrap s r (EncryptPanel.wrappedKey s1)) in Run.
  exists r. split; [exact R|]. split.
  - destruct (unwrapDEK_secp256k1 X _) as [dek|e] in Run.
    + destruct (decryptTextFromEnvelope X _) as [pt|e] in Run;
        rewrite Run; eexists; reflexivity.
    + rewrite Run. eexists. reflexivity.
  - intro Ok. destruct (Sane Ok) as (dek & U & D).
    rewrite U in Run.
    change (replay_decrypt _ dek) with (sanity_decrypt_call s raw env dek) in Run.
    rewrite D in Run. rewrite Run. eexists. split; [reflexivity|].
    split; [reflexivity|]. split; [reflexivity|]. split; [|reflexivity].
    cbn [prop lookup String.eqb Ascii.eqb Bool.eqb]. f_equal.
    + unfold replay_hashMatch.
      cbn [VectorsPanel.rs_raw VectorsPanel.rs_envelope].
      rewrite Eenv, envelope_ciphertextHash. unfold raw_fields.
      cbn [prop lookup app String.eqb Ascii.eqb Bool.eqb strict_eq].
      apply String.eqb_refl.
    + unfold replay_aadMatch.
      cbn [VectorsPanel.rs_raw VectorsPanel.rs_envelope].
      rewrite Eenv. unfold raw_fields, build_envelope, aadHash_field.
      cbn [prop lookup app String.eqb Ascii.eqb Bool.eqb].
      destruct (raw_aadHash raw) as [h|]; [|reflexivity].
      destruct (String.eqb h "") eqn:E; cbn; [reflexivity|].
      rewrite E. cbn. apply String.eqb_refl.
Qed.

Lemma replay_reads_downloaded_bundle_witness :
  let X := toy_sdk [demo_bundle] in
  let s1 := state_of (EncryptPanel.runEncrypt X EncryptPanel.initial
                                              EncryptPanel.initial) in
  let vv := vectors_view (to_json demo_bundle) in
  EncryptPanel.decryptCheck s1 = "hello from PXP-201"
  /\ exists replayed,
       VectorsPanel.res (state_of (VectorsPanel.runFromBundle X vv vv))
       = Some replayed
       /\ prop replayed "plaintext" = JStr (EncryptPanel.decryptCheck s1).
Proof.
  intros X s1 vv. split; [reflexivity|].
  destruct (EncryptPanel.rawOut s1) as [raw|] eqn:HR;
    [|vm_compute in HR; discriminate HR].
  destruct (EncryptPanel.envelope s1) as [env|] eqn:HE;
    [|vm_compute in HE; discriminate HE].
  assert (Nc : raw_ciphertextB64url raw <> "")
    by (vm_compute in HR; injection HR as <-; discriminate).
  assert (Nn : raw_nonceB64url raw <> "")
    by (vm_compute in HR; injection HR as <-; discriminate).
  assert (P : parse_bundle X (VectorsPanel.bundleInput vv)
              = Ok (EncryptPanel.bundle_payload s1 raw env (EncryptPanel.recipients s1))).
  { vm_compute in HR, HE. injection HR as <-. injection HE as <-.
    vm_compute. reflexivity. }
  destruct (replay_reads_downloaded_bundle X EncryptPanel.initial _ raw env vv vv
              eq_refl ltac:(discriminate) HR HE ltac:(discriminate) Nc Nn P)
    as (r & _ & _ & F).
  destruct (F eq_refl) as (replayed & Rs & _ & Pl & _).
  exists replayed. split; [exact Rs | exact Pl].
Defined.

(* ================================================================= *)
(** ** Keys generated for two recipients, in general *)

Section TwoBlank.

Import EncryptPanel.

Variable X : Externals.

Lemma ensureAll_two_blank view s r0 r1 :
  recipients view = [r0; r1] ->
  has_keys r0 = false -> has_keys r1 = false ->
  ensureAll X view s
  = (([], setRecipients [r0; drawn X (rid r1) (S (draws s))]
            (drew (setRecipients [drawn X (rid r0) (draws s); r1] (drew s)))),
     Ok [drawn X (rid r0) (draws s); drawn X (rid r1) (S (draws s))]).
Proof.
  intros V K0 K1. unfold ensureAll. rewrite V. cbn [List.length seq mapM].
  unfold ensureRecipientAt. rewrite V. cbn [nth_error].
  unfold has_keys in K0, K1. rewrite K0, K1. reflexivity.
Qed.

Lemma ensureAll_blank_keyed view s r0 r1 :
  recipients view = [r0; r1] ->
  has_keys r0 = false -> has_keys r1 = true ->
  ensureAll X view s
  = (([], setRecipients [drawn X (rid r0) (draws s); r1] (drew s)),
     Ok [drawn X (rid r0) (draws s); r1]).
Proof.
  intros V K0 K1. unfold ensureAll. rewrite V. cbn [List.length seq mapM].
  unfold ensureRecipientAt. rewrite V. cbn [nth_error].
  unfold has_keys in K0, K1. rewrite K0, K1. reflexivity.
Qed.

Lemma encrypt_and_wrap_state view s raw :
  encryptTextRaw X (encrypt_call view) = Ok raw ->
  state_of (encrypt_and_wrap X view s) = state_of (ensureAll X view s).
Proof.
  intro E. unfold encrypt_and_wrap. fold (encrypt_call view).
  rewrite state_abind. unfold await_encrypt, call. rewrite E.
  cbn [outcome_of state_of fst snd].
  rewrite state_abind.
  destruct (outcome_of (ensureAll X view s)) as [ready|e]; [|reflexivity].
  rewrite state_abind. unfold promise_all_wrap, promise_all.
  cbn [outcome_of state_of fst snd].
  destruct (sequence_results _) as [wks|e]; [|reflexivity].
  rewrite state_abind. unfold validate_call, call.
  cbn [outcome_of state_of fst snd].
  now destruct (validateEnvelope X _).
Qed.

Lemma wrapped_for_app (a b : list sdk_call) :
  wrapped_for (a ++ b) = (wrapped_for a ++ wrapped_for b)%list.
Proof. unfold wrapped_for. apply flat_map_app. Qed.

Lemma wrapped_for_wraps (l : list wrap_args) :
  wrapped_for (map CallWrap l) = map wa_recipientPubKeyHex l.
Proof.
  unfold wrapped_for. induction l as [|a l IH]; [reflexivity|].
  cbn [map flat_map app]. now rewrite IH.
Qed.

Lemma wrapped_for_none (t : list sdk_call) :
  forallb (fun c => is_unwrap c || is_decrypt c) t = true -> wrapped_for t = [].
Proof.
  unfold wrapped_for. induction t as [|c t IH]; [reflexivity|].
  cbn [forallb flat_map]. intro H. apply andb_prop in H as [H1 H2].
  rewrite (IH H2). destruct c; try discriminate H1; reflexivity.
Qed.

(** The recipient list and the number of draws after a run are those its
    first three steps left. *)
Lemma runEncrypt_keeps view s :
  let m := encrypt_and_wrap X view (cleared s) in
  recipients (state_of (runEncrypt X view s)) = recipients (state_of m)
  /\ draws (state_of (runEncrypt X view s)) = draws (state_of m).
Proof.
  cbv zeta. rewrite (runEncrypt_split X view s). cbv zeta.
  destruct (outcome_of (encrypt_and_wrap X view (cleared s))) as [w|e].
  - match goal with
    | |- context [sanity_decrypt X view w ?s2] =>
        destruct (sanity_decrypt_fields X view w s2)
          as (_ & _ & SR & _ & _ & _ & _ & SD)
    end.
    destruct (outcome_of (sanity_decrypt X view w _)) as [u|e];
      cbn [state_of fst snd].
    + now rewrite SR, SD.
    + match goal with
      | |- context [caught_encrypt e ?st] =>
          destruct (caught_encrypt_fields e st)
            as (_ & _ & CR & _ & _ & _ & _ & CD)
      end.
      now rewrite CR, CD, SR, SD.
  - cbn [state_of fst snd].
    match goal with
    | |- context [caught_encrypt e ?st] =>
        destruct (caught_encrypt_fields e st)
          as (_ & _ & CR & _ & _ & _ & _ & CD)
    end.
    now rewrite CR, CD.
Qed.

Lemma runEncrypt_wrapped_for view s raw ready :
  encryptTextRaw X (encrypt_call view) = Ok raw ->
  outcome_of (ensureAll X view (cleared s)) = Ok ready ->
  wrapped_for (trace_of (runEncrypt X view s)) = map recipientPubHex ready.
Proof.
  intros E O.
  pose proof (encrypt_and_wrap_run X view (cleared s)) as U. cbv zeta in U.
  rewrite E in U. destruct U as (ready' & O' & _ & U).
  rewrite O in O'. injection O' as <-.
  assert (T : wrapped_for (trace_of (encrypt_and_wrap X view (cleared s)))
              = map recipientPubHex ready).
  { destruct (sequence_results _) as [wks|e].
    - cbv zeta in U. destruct U as (T & _). rewrite T.
      change (CallEncrypt (encrypt_call view) :: ?l)
        with ([CallEncrypt (encrypt_call view)] ++ l)%list.
      rewrite !wrapped_for_app, wrapped_for_wraps, map_map.
      cbn [wrapped_for flat_map app]. now rewrite app_nil_r.
    - destruct U as (T & _). rewrite T.
      change (CallEncrypt (encrypt_call view) :: ?l)
        with ([CallEncrypt (encrypt_call view)] ++ l)%list.
      rewrite !wrapped_for_app, wrapped_for_wraps, map_map.
      reflexivity. }
  pose proof (runEncrypt_stored X view s) as S. cbv zeta in S.
  destruct (outcome_of (encrypt_and_wrap X view (cleared s))) as [w|e].
  - destruct S as (_ & _ & _ & _ & tail & TT & C).
    now rewrite TT, wrapped_for_app, (wrapped_for_none _ C), app_nil_r.
  - destruct S as (_ & _ & _ & _ & _ & TT). now rewrite TT.
Qed.

End TwoBlank.

(** X2.  An Encrypt run over two recipients without keys, once its encrypt
    call has returned, asks the SDK to wrap the key for the public keys of
    two fresh draws, but the state it leaves keeps the second recipient's
    pair only: the first recipient is again without keys.  The download
    from the next render therefore draws a third pair for the first
    recipient, and the bundle lists that pair's public key for it, not the
    one of the first draw, for which the envelope was wrapped. *)
Theorem two_blank_recipients_lose_a_key X view s r0 r1 raw :
  EncryptPanel.recipients view = [r0; r1] ->
  has_keys r0 = false -> has_keys r1 = false ->
  encryptTextRaw X (encrypt_call view) = Ok raw ->
  let m := EncryptPanel.runEncrypt X view s in
  let s1 := state_of m in
  let d := EncryptPanel.draws s in
  let k0 := drawn X (EncryptPanel.rid r0) d in
  let k1 := drawn X (EncryptPanel.rid r1) (S d) in
  let k2 := drawn X (EncryptPanel.rid r0) (S (S d)) in
  wrapped_for (trace_of m)
  = [EncryptPanel.recipientPubHex k0; EncryptPanel.recipientPubHex k1]
  /\ EncryptPanel.recipients s1 = [r0; k1]
  /\ EncryptPanel.draws s1 = S (S d)
  /\ outcome_of (EncryptPanel.ensureAll X s1 s1) = Ok [k2; k1]
  /\ forall raw' env,
       EncryptPanel.rawOut s1 = Some raw' ->
       EncryptPanel.envelope s1 = Some env ->
       outcome_of (EncryptPanel.downloadBundle X s1 s1)
       = Ok (Some ("pxp201-bundle.json",
                   JSON_stringify X
                     (EncryptPanel.bundle_payload s1 raw' env [k2; k1])))
       /\ prop (EncryptPanel.bundle_payload s1 raw' env [k2; k1])
               "recipientPubHexByRid"
          = fromEntries
              [(EncryptPanel.rid r0, JStr (EncryptPanel.recipientPubHex k2));
               (EncryptPanel.rid r1, JStr (EncryptPanel.recipientPubHex k1))].
Proof.
  intros V K0 K1 E m s1 d k0 k1 k2.
  pose proof (ensureAll_two_blank X view (cleared s) r0 r1 V K0 K1) as A.
  change (EncryptPanel.draws (cleared s)) with d in A.
  fold k0 k1 in A.
  destruct (runEncrypt_keeps X view s) as [KR KD]. cbv zeta in KR, KD.
  rewrite (encrypt_and_wrap_state X view (cleared s) raw E), A in KR, KD.
  cbn [state_of fst snd EncryptPanel.recipients EncryptPanel.draws
       EncryptPanel.setRecipients EncryptPanel.drew] in KR, KD.
  fold m s1 in KR, KD. change (EncryptPanel.draws (cleared s)) with d in KD.
  assert (D : outcome_of (EncryptPanel.ensureAll X s1 s1) = Ok [k2; k1]).
  { rewrite (ensureAll_blank_keyed X s1 s1 r0 k1 KR K0 eq_refl).
    cbn [outcome_of snd]. now rewrite KD. }
  split.
  { subst m. rewrite (runEncrypt_wrapped_for X view s raw [k0; k1] E);
      [reflexivity|]. now rewrite A. }
  split; [exact KR|]. split; [exact KD|]. split; [exact D|].
  intros raw' env HR HE. split; [|reflexivity].
  unfold EncryptPanel.downloadBundle. rewrite HR, HE, outcome_abind, D.
  reflexivity.
Qed.

Lemma two_blank_recipients_lose_a_key_witness :
  let X := toy_sdk [] in
  let s1 := state_of (EncryptPanel.runEncrypt X two_blank two_blank) in
  wrapped_for (trace_of (EncryptPanel.runEncrypt X two_blank two_blank))
  = ["0x022a00"; "0x022a01"]
  /\ map EncryptPanel.recipientPubHex (EncryptPanel.recipients s1) = [""; "0x022a01"]
  /\ match EncryptPanel.rawOut s1, EncryptPanel.envelope s1 with
     | Some raw, Some env =>
         exists ready,
           outcome_of (EncryptPanel.downloadBundle X s1 s1)
           = Ok (Some ("pxp201-bundle.json",
                       to_json (EncryptPanel.bundle_payload s1 raw env ready)))
           /\ prop (EncryptPanel.bundle_payload s1 raw env ready)
                   "recipientPubHexByRid"
              = JObj [("did:example:alice", JStr "0x022a02");
                      ("did:example:bob", JStr "0x022a01")]
     | _, _ => False
     end.
Proof.
  intros X s1.
  destruct (encryptTextRaw X (encrypt_call two_blank)) as [raw|e] eqn:E;
    [|vm_compute in E; discriminate E].
  destruct (two_blank_recipients_lose_a_key X two_blank two_blank
              (keyed "did:example:alice" "" "") (keyed "did:example:bob" "" "")
              raw eq_refl eq_refl eq_refl E)
    as (W & R & _ & _ & B).
  split; [exact W|]. split; [fold s1 in R; rewrite R; reflexivity|].
  fold s1 in B.
  destruct (EncryptPanel.rawOut s1) as [raw'|] eqn:HR;
    [|vm_compute in HR; discriminate HR].
  destruct (EncryptPanel.envelope s1) as [env|] eqn:HE;
    [|vm_compute in HE; discriminate HE].
  destruct (B raw' env eq_refl eq_refl) as [B1 B2].
  eexists. split; [exact B1|]. rewrite B2. reflexivity.
Defined.

(* ================================================================= *)
(** ** The selected rid and the recipient list *)

Lemma same_value_refl (v : jsval) : same_value true v v = true.
Proof.
  unfold same_value.
  destruct v as [| |b|z|t|items|fields]; cbn [strict_eq is_reference andb orb];
    try reflexivity.
  - now destruct b.
  - now rewrite Z.eqb_refl.
  - now rewrite String.eqb_refl.
Qed.

(** With nothing selected the resolver takes the rid of the first entry,
    and the search stops at that entry. *)
Lemma resolve_entry_unselected envelope sel first rest :
  recipients_of envelope = JArr (first :: rest) ->
  truthy sel = false ->
  DecryptPanel.resolve_entry envelope sel =
  if negb (truthy (opt_member first "rid"))
  then Throw (Error "No recipient rid available")
  else if truthy (opt_member first "wrappedKey") then Ok first
       else Throw (Error "No wrappedKey for selected recipient").
Proof.
  intros R T. unfold DecryptPanel.resolve_entry. rewrite R.
  assert (js_or sel (opt_member first "rid") = opt_member first "rid") as ->
    by (unfold js_or; now rewrite T).
  destruct (truthy (opt_member first "rid")) eqn:Q; cbn [negb]; [|reflexivity].
  rewrite T. cbn [negb find_by_rid]. unfold member, opt_member in *.
  destruct (is_nullish first) eqn:Z; [discriminate Q|]. cbn [bind].
  rewrite same_value_refl. cbn [bind].
  assert (js_or first first = first) as ->
    by (unfold js_or; now destruct (truthy first)).
  rewrite Z. now destruct (truthy (prop first "wrappedKey")).
Qed.

(** X27.  When a non-empty selected rid matches no entry of
    [envelope.access.recipients] and no entry is [null] or [undefined],
    the first entry is used without complaint.  In the Decrypt tab the
    resolver of [run] returns [recipients[0]], or fails with "No
    wrappedKey for selected recipient" when that entry has none; a
    missing, non-array or empty list fails with
    "envelope.access.recipients missing/empty"; and a run that reaches its
    unwrap call passes it the first entry's [wrappedKey].  In the WK1 tab
    the prefill ends normally, leaves the error state alone, and sets
    [wrappedKey] and [kid] from the first entry where that entry has
    them.  With nothing selected the resolver takes the rid of the first
    entry and returns that entry, or fails with "No recipient rid
    available" when the first entry has none. *)
Theorem unmatched_rid_falls_back (X : Externals) :
  (forall envelope sel first rest,
      recipients_of envelope = JArr (first :: rest) ->
      truthy sel = true ->
      matches_no_entry (first :: rest) sel = true ->
      no_null_entry (first :: rest) = true ->
      DecryptPanel.resolve_entry envelope sel =
      if truthy (opt_member first "wrappedKey") then Ok first
      else Throw (Error "No wrappedKey for selected recipient"))
  /\ (forall envelope sel,
        match recipients_of envelope with
        | JArr (_ :: _) => False
        | _ => True
        end ->
        DecryptPanel.resolve_entry envelope sel
        = Throw (Error "envelope.access.recipients missing/empty"))
  /\ (forall view s bundle first rest args ctx,
        parse_bundle X (DecryptPanel.bundleInput view) = Ok bundle ->
        recipients_of (opt_member bundle "envelope") = JArr (first :: rest) ->
        truthy (DecryptPanel.selectedRid view) = true ->
        matches_no_entry (first :: rest) (DecryptPanel.selectedRid view) = true ->
        no_null_entry (first :: rest) = true ->
        outcome_of (DecryptPanel.run_prepare X view s) = Ok (args, ctx) ->
        DecryptPanel.ctx_entry ctx = first
        /\ ua_wrappedKey args = prop first "wrappedKey")
  /\ (forall view s bundle first rest,
        parse_bundle X (WK1Panel.bundleInput view) = Ok bundle ->
        recipients_of (opt_member bundle "envelope") = JArr (first :: rest) ->
        truthy (WK1Panel.selectedRid view) = true ->
        matches_no_entry (first :: rest) (WK1Panel.selectedRid view) = true ->
        no_null_entry (first :: rest) = true ->
        let s' := state_of (WK1Panel.fillFromBundle X view s) in
        outcome_of (WK1Panel.fillFromBundle X view s) = Ok tt
        /\ WK1Panel.out s' = WK1Panel.out s
        /\ WK1Panel.wrappedKey s' =
           (if truthy (opt_member first "wrappedKey")
            then prop first "wrappedKey" else WK1Panel.wrappedKey s)
        /\ WK1Panel.kid s' =
           (if truthy (opt_member first "rid")
            then opt_member first "rid" else WK1Panel.kid s))
  /\ (forall envelope sel first rest,
        recipients_of envelope = JArr (first :: rest) ->
        truthy sel = false ->
        DecryptPanel.resolve_entry envelope sel =
        if negb (truthy (opt_member first "rid"))
        then Throw (Error "No recipient rid available")
        else if truthy (opt_member first "wrappedKey") then Ok first
             else Throw (Error "No wrappedKey for selected recipient")).
Proof.
  split; [exact resolve_entry_fallback|].
  split; [exact resolve_entry_no_list|].
  split; [exact (run_prepare_fallback X)|].
  split; [|exact resolve_entry_unselected].
  intros view s bundle first rest P R T M N s'.
  destruct (fillFromBundle_fallback X view s bundle first rest P R T M N) as [O E].
  subst s'. rewrite E. split; [exact O|].
  rewrite fill_from_entry_out, fill_from_entry_wrappedKey, fill_from_entry_kid.
  unfold aad_synced.
  destruct (opt_member bundle "aadText"); repeat split; reflexivity.
Qed.

Lemma unmatched_rid_falls_back_witness :
  let X := toy_sdk [bundle_two_recipients] in
  let sel := JStr "did:example:zed" in
  let envelope := prop bundle_two_recipients "envelope" in
  let dv := DecryptPanel.setSelectedRid sel
              (decrypt_view (to_json bundle_two_recipients)) in
  let wv := wk1_view (to_json bundle_two_recipients) sel in
  DecryptPanel.resolve_entry envelope sel = Ok alice_entry
  /\ DecryptPanel.resolve_entry (JObj []) sel
     = Throw (Error "envelope.access.recipients missing/empty")
  /\ match outcome_of (DecryptPanel.run_prepare X dv dv) with
     | Ok p => DecryptPanel.ctx_entry (snd p) = alice_entry
               /\ ua_wrappedKey (fst p) = JStr "AQID"
     | Throw _ => False
     end
  /\ (outcome_of (WK1Panel.fillFromBundle X wv wv) = Ok tt
      /\ WK1Panel.out (state_of (WK1Panel.fillFromBundle X wv wv))
         = WK1Panel.out wv
      /\ WK1Panel.wrappedKey (state_of (WK1Panel.fillFromBundle X wv wv))
         = JStr "AQID"
      /\ WK1Panel.kid (state_of (WK1Panel.fillFromBundle X wv wv))
         = JStr "did:example:alice")
  /\ DecryptPanel.resolve_entry envelope (JStr "") = Ok alice_entry.
Proof.
  intros X sel envelope dv wv.
  pose proof (unmatched_rid_falls_back X) as (H1 & H2 & H3 & H4 & H5).
  split; [|split; [|split; [|split]]];
    [| | | |exact (H5 envelope (JStr "") alice_entry [bob_entry] eq_refl eq_refl)].
  - apply (H1 envelope sel alice_entry [bob_entry]); reflexivity.
  - apply (H2 (JObj []) sel). exact I.
  - destruct (outcome_of (DecryptPanel.run_prepare X dv dv)) as [[args ctx]|e] eqn:E.
    + apply (H3 dv dv bundle_two_recipients alice_entry [bob_entry] args ctx);
        try reflexivity. exact E.
    + vm_compute in E. discriminate E.
  - apply (H4 wv wv bundle_two_recipients alice_entry [bob_entry]); reflexivity.
Defined.

(** The search of [find] reaches an entry that is [null] or [undefined]
    when no entry before it matches, and reading its [rid] throws. *)
Lemma find_by_rid_null (pre : list jsval) (x : jsval) (post : list jsval)
      (rid : jsval) :
  matches_no_entry pre rid = true ->
  no_null_entry pre = true ->
  is_nullish x = true ->
  find_by_rid false (pre ++ x :: post) rid
  = Throw (TypeError ("Cannot read properties of " ++ nullish_text x
                      ++ " (reading 'rid')")).
Proof.
  unfold matches_no_entry, no_null_entry. intros M N Z.
  induction pre as [|y r IH]; cbn [app find_by_rid].
  - unfold member. rewrite Z. reflexivity.
  - cbn [forallb] in M, N.
    apply andb_prop in M. destruct M as [M1 M2].
    apply andb_prop in N. destruct N as [N1 N2].
    apply negb_true_iff in M1, N1.
    unfold member. unfold opt_member in M1. rewrite N1 in *. cbn [bind].
    unfold same_value. rewrite M1. cbn [orb andb]. auto.
Qed.

Lemma first_of_list (pre : list jsval) (x : jsval) (post : list jsval) :
  exists first rest,
    (pre ++ x :: post)%list = first :: rest
    /\ (truthy (opt_member first "rid") = true -> first <> x \/ is_nullish x = false).
Proof.
  destruct pre as [|y r]; cbn [app].
  - exists x, post. split; [reflexivity|]. intro T. right.
    unfold opt_member in T. destruct (is_nullish x); [discriminate T|reflexivity].
  - exists y, (r ++ x :: post)%list. split; [reflexivity|].
    intro T. destruct (is_nullish x) eqn:Z; [|now right]. left. intros ->.
    unfold opt_member in T. rewrite Z in T. discriminate T.
Qed.

(** X28.  An entry of [envelope.access.recipients] that is [null] or
    [undefined] stops the search for the selected rid: when a non-empty
    selected rid matches none of the entries before it, and none of those
    is [null] or [undefined], [find] reads [rid] of that entry and a
    TypeError is raised, whatever follows in the list.  The resolver of
    the Decrypt tab's [run] fails with it instead of falling back to the
    first entry, and the WK1 prefill, which swallows it, has by then
    copied the bundle's AAD and nothing else. *)
Theorem null_entry_stops_the_search (X : Externals) :
  (forall envelope sel pre x post,
      recipients_of envelope = JArr (pre ++ x :: post) ->
      truthy sel = true ->
      matches_no_entry pre sel = true ->
      no_null_entry pre = true ->
      is_nullish x = true ->
      DecryptPanel.resolve_entry envelope sel
      = Throw (TypeError ("Cannot read properties of " ++ nullish_text x
                          ++ " (reading 'rid')")))
  /\ (forall view s bundle pre x post,
        parse_bundle X (WK1Panel.bundleInput view) = Ok bundle ->
        recipients_of (opt_member bundle "envelope") = JArr (pre ++ x :: post) ->
        truthy (WK1Panel.selectedRid view) = true ->
        matches_no_entry pre (WK1Panel.selectedRid view) = true ->
        no_null_entry pre = true ->
        is_nullish x = true ->
        WK1Panel.fillFromBundle X view s = (([], aad_synced bundle s), Ok tt)).
Proof.
  split.
  - intros envelope sel pre x post R T M N Z.
    pose proof (find_by_rid_null pre x post sel M N Z) as F.
    unfold DecryptPanel.resolve_entry. rewrite R.
    destruct (first_of_list pre x post) as (first & rest & L & _).
    rewrite L in *.
    assert (js_or sel (opt_member first "rid") = sel) as ->
      by (unfold js_or; now rewrite T).
    rewrite T. cbn [negb]. rewrite F. reflexivity.
  - intros view s bundle pre x post P R T M N Z.
    pose proof (find_by_rid_null pre x post (WK1Panel.selectedRid view) M N Z) as F.
    destruct (first_of_list pre x post) as (first & rest & L & _).
    rewrite L in *.
    unfold WK1Panel.fillFromBundle, try_catch, abind, lift. rewrite P.
    cbn [fst snd app]. unfold aad_synced.
    assert (js_or (WK1Panel.selectedRid view) (opt_member first "rid")
            = WK1Panel.selectedRid view) as J
      by (unfold js_or; now rewrite T).
    destruct (opt_member bundle "aadText");
      cbn [modify ret fst snd app]; rewrite R, T, J; cbn [negb]; rewrite F;
      reflexivity.
Qed.

Lemma null_entry_stops_the_search_witness :
  let X := toy_sdk [bundle_with_null_entry] in
  let sel := JStr "did:example:zed" in
  let wv := wk1_view (to_json bundle_with_null_entry) sel in
  DecryptPanel.resolve_entry (prop bundle_with_null_entry "envelope") sel
  = Throw (TypeError "Cannot read properties of null (reading 'rid')")
  /\ WK1Panel.fillFromBundle X wv wv
     = (([], aad_synced bundle_with_null_entry wv), Ok tt).
Proof.
  intros X sel wv.
  pose proof (null_entry_stops_the_search X) as (H1 & H2).
  split.
  - apply (H1 (prop bundle_with_null_entry "envelope") sel
              [JObj [("rid", JStr "did:example:alice");
                     ("wrappedKey", JStr "pxp201:wk1:e30")]] JNull []);
      reflexivity.
  - apply (H2 wv wv bundle_with_null_entry
              [JObj [("rid", JStr "did:example:alice");
                     ("wrappedKey", JStr "pxp201:wk1:e30")]] JNull []);
      reflexivity.
Defined.

(* ================================================================= *)
(** ** A caught value without a text *)

Lemma js_to_string_fails v e : js_to_string v = Throw e -> e = not_primitive.
Proof.
  revert e. induction v as [| |b|z|s|items IH|fields IHf] using jsval_ind';
    intro e; cbn [js_to_string]; try discriminate.
  - destruct b; discriminate.
  - destruct (sequence_results _) as [parts|e0] eqn:Q; cbn [bind]; [discriminate|].
    intro H. injection H as <-.
    revert e0 Q. induction items as [|x r IHr]; [discriminate|].
    intros e0. cbn [map sequence_results].
    inversion IH as [|? ? Hx Hr]; subst.
    destruct (match x with JUndefined | JNull => Ok "" | _ => js_to_string x end)
      as [t|e1] eqn:Ex; cbn [bind].
    + destruct (sequence_results _) as [ps|e2] eqn:Q2; cbn [bind]; [discriminate|].
      intro H. injection H as <-. exact (IHr Hr e2 eq_refl).
    + intro H. injection H as <-.
      destruct x; try discriminate Ex; exact (Hx _ Ex).
  - destruct (has_key "toString" fields); [|discriminate].
    intro H. injection H as <-. reflexivity.
Qed.

(** X29.  The [catch] clauses turn what they caught into text with
    [String(e?.message || e)], and that conversion can itself fail: never
    for an [Error] object, but for a thrown value such as the object
    [{toString: null}], and then always with the TypeError "Cannot convert
    object to primitive value".  When an awaited SDK call of the Decrypt
    tab's latest run rejects with such a value, the TypeError leaves the
    handler, and the panel stays as it was, status "running" included.
    The same happens to a run that fails before its first [await], and to
    "Run from Bundle JSON", which then shows no result. *)
Theorem catch_clause_needs_a_text (X : Externals) :
  (forall e e', errText e = Throw e' -> e' = not_primitive /\ named e = false)
  /\ errText (ThrownValue mute) = Throw not_primitive
  /\ (forall p s e e',
        rejection X p = Some e ->
        errText e = Throw e' ->
        DecryptPanel.pending_id p = DecryptPanel.runIdRef s ->
        DecryptPanel.settle X p s = (([], s), Throw e'))
  /\ (forall view s e e',
        outcome_of (DecryptPanel.run_prepare X view s) = Throw e ->
        errText e = Throw e' ->
        DecryptPanel.run_start X view s
        = ((trace_of (DecryptPanel.run_prepare X view s), begun s), Throw e')
        /\ DecryptPanel.sdk (begun s) = "running"
        /\ DecryptPanel.out (begun s) = DecryptPanel.blank)
  /\ (forall view s e e',
        outcome_of (VectorsPanel.bundle_prepare X view s) = Throw e ->
        errText e = Throw e' ->
        let m := VectorsPanel.runFromBundle X view s in
        outcome_of m = Throw e'
        /\ VectorsPanel.res (state_of m) = None
        /\ VectorsPanel.sdk (state_of m) = "running").
Proof.
  split; [|split; [reflexivity|split; [|split]]].
  - intros e e' H. destruct e as [n msg|v]; [discriminate H|].
    split; [|reflexivity]. exact (js_to_string_fails _ _ H).
  - intros p s e e' R T C.
    rewrite (settle_rejected X p s e R). unfold caught.
    rewrite C, N.eqb_refl, T. reflexivity.
  - intros view s e e' O T. rewrite run_start_eq, O, T.
    repeat split.
  - intros view s e e' O T m. subst m.
    rewrite (runFromBundle_fails X view s e O), T. repeat split.
Qed.

Lemma catch_clause_needs_a_text_witness :
  let X := rejecting_sdk [bundle_two_recipients] (ThrownValue mute) in
  let w1 := DecryptPanel.steps X (decrypt_world (to_json bundle_two_recipients))
              [DecryptPanel.Click_run] in
  match nth_error (DecryptPanel.suspended w1) 0 with
  | Some p =>
      DecryptPanel.settle X p (DecryptPanel.panel w1)
      = (([], DecryptPanel.panel w1), Throw not_primitive)
      /\ DecryptPanel.sdk (DecryptPanel.panel w1) = "running"
  | None => False
  end.
Proof.
  intros X w1.
  destruct (nth_error (DecryptPanel.suspended w1) 0) as [p|] eqn:E;
    [|vm_compute in E; discriminate E].
  split; [|reflexivity].
  apply (proj1 (proj2 (proj2 (catch_clause_needs_a_text X)))
           p (DecryptPanel.panel w1) (ThrownValue mute) not_primitive).
  - vm_compute in E. injection E as <-. reflexivity.
  - reflexivity.
  - vm_compute in E. injection E as <-. reflexivity.
Defined.

